(* ===== verification/_CoqProject ===== *)
-Q . S2P
Prelude.v
GoStd.v
Logging.v
GoTime.v
Config.v
CliUtil.v
Flags.v
Schema.v
Sha256.v
Types.v
Ipld.v
Store.v
IpldModel.v
Blob.v
Epoch.v
Network.v
Db.v
ExportRefs.v
StateFile.v
Beacon.v
ElClient.v
Ipfs.v
Api.v
Metrics.v
Generator.v
New.v
Car.v
Reload.v
Health.v
Persist.v
HealthFacts.v
CarFacts.v
CarReach.v
Pin.v
PinFacts.v
Summary.v
Live.v
Repair.v
Push.v
Pipeline.v
Backfill.v
Attempt.v
Progress.v
PushPull.v
Held.v
Commands.v
CommandFacts.v
System.v
Server.v
Durable.v
