(* ===== verification/Prelude.v ===== *)
(** * blobscan-ipld: a verification library

    blobscan-ipld (Go, under src/) turns the blobs of an Ethereum-like chain into
    IPLD blocks: it fetches the blob sidecars of each finalized epoch from a
    beacon node, builds for every blob a raw block and a metadata block, for
    every epoch a node that indexes its blobs by versioned hash, and over all
    epochs a paged network root; it uploads the blocks to an IPFS (Kubo) node,
    records CIDs and cursors in PostgreSQL or a state file, and notifies
    blobscan. It can be run as a loop (with a concurrent backfill of history),
    as an HTTP server that blobs are pushed to, or one command at a time.

    ** How the files correspond to the program

    The library is a shallow embedding: a Go function is a Gallina function of
    the same name, a struct a record with the source's fields (behind a
    prefix), a function with effects a computation in the monad [Go S A] of this
    file: from a state to an outcome ([Ok], [Err], [Panic]) and the state at
    that moment, so that an error keeps the effects made before it. [zoom] runs
    a component's computation inside the state of the one that calls it.
    Machine integers are [Z] with the wrap-around written out ([u64_add],
    [u64_mul] and so on), bytes and strings are [string]. Where a component
    relies on another by contract there is a class: blockstores (Store),
    state.Backend (StateFile), the IPLD libraries (Ipld), the Kubo node (Ipfs),
    go-car (Car); each has at least one instance, so no theorem is about an
    interface nothing implements.

    - Prelude: errors and wrapping (errors.Is), the monad and its frame rules
      ([always], the hint database [go]), integers, sorting, grouping, map
      iteration in an arbitrary order ([GoRuntime]).
    - GoStd, GoTime, Sha256: strings, hex, strconv; float64 as SpecFloat,
      ParseDuration; crypto/sha256. Logging: the log handlers of
      cmd/blobscan-ipld/main.go over slog's interface.
    - Types: types/types.go. Ipld: the data model and the interface of the
      IPLD libraries; IpldModel: an instance of it, used for evaluation.
    - Store: store/blockstore.go and store/linksystem.go.
    - Blob, Epoch, Network: builder/blob.go, builder/epoch.go, builder/network.go
      and builder/range.go.
    - Db: the tables, statements and queries of db/db.go; Schema: db.New,
      ensureDatabase and migrate. StateFile: state/manager.go and the Backend
      interface with its two implementations.
    - Beacon, ElClient: beacon/client.go and beacon/elclient.go. Ipfs:
      ipfs/client.go and blobscan/notifier.go. Api: api/server.go. Metrics:
      metrics/metrics.go.
    - Config: config/config.go. New: generator.New.
    - Generator: the world of the generator and the stages of one epoch
      (buildEpoch, persistEpoch, processEpoch, uploadAndPin,
      rebuildNetworkRoot); Reload and Persist: facts about them.
    - Live: Run, runLive, runSequential, processLiveTick. Repair: ProcessBlobInput,
      FinalizeEpoch, RepairEpochs, BackfillIPFS; Push: facts about the first.
    - Pipeline: runBackfillPipeline as a labelled transition system and
      runBackfill around it; Backfill, Attempt, Progress: its invariants, its
      refinement and its progress. PushPull: a push that gets in the way of
      these loops. Held: what every operation of the generator and every
      request keeps. System: Run with its two goroutines, beside the push API,
      as one transition system over these parts.
    - Car: car/exporter.go, export-car and export-car-range; CarFacts, CarReach:
      what the archives contain.
    - CliUtil, ExportRefs, Health, Pin, Summary: the helpers of
      cmd/blobscan-ipld/main.go and the commands export-blob-refs,
      health-check, pin-existing and summary; HealthFacts, PinFacts: facts
      about two of them. Flags: the command line and the flags of every
      command; Commands: main and every subcommand up to its exit code;
      CommandFacts: what holds from the command line on; Server: sequences of
      requests to the server of [serve]; Durable: every command line.

    ** What is proved

    - The data structures are right: every blob of an epoch is found under its
      versioned hash and nothing else is, in both forms of the index; the same
      for epochs in the network root; the CIDs do not depend on orderings; a
      block is stored under its CID and reads back (Blob, Epoch, Network). These
      hold unless SHA-256 collides on two blocks that are named.
    - What is recorded is on the node: a row, of an epoch or of a blob, is
      written after its blocks were uploaded, however the stages fail (Persist),
      whichever request (Held, Server) and whichever command line (Durable) it
      is; the live loop leaves no gap behind its cursor (Live). The database can
      rebuild an epoch (Reload).
    - The parts work together: the live loop, the backfill and the push API
      interleaved call by call cover the history and what is finalized
      meanwhile, except the one epoch Run leaves out (System).
    - The backfill pipeline, under every schedule of its goroutines: safety,
      refinement of the sequential loop, a bound on the steps, progress while
      nothing fails, and the deadlock it can run into after a failure (Attempt,
      Progress). Its steps allow others to work on the same database and node
      in between; the live loop, the API and the repair commands are shown to be
      such neighbours (Backfill, Held).
    - The stores: transactions (Db), upgrades of the schema (Schema), crash
      safety of the state file (StateFile) and of archives (Car).
    - The clients: slots in any completion order, bounded backoff (Beacon).
    - The commands: what archives contain (CarFacts, CarReach), what an export
      reads back as (ExportRefs), what the health check flags (HealthFacts), what
      pin-existing pins and reports (PinFacts), monthly totals (Summary), what
      a command line means (Flags), from the command line to the stores for
      [epoch], [repair-epochs] and the push API of [serve] (CommandFacts), what
      the request metric counts (Server), what the tee to Sentry leaves on
      standard error (Logging).
    - Where the code does not do what it means to, the theorem says what it
      does (the epoch Run skips, the deadlock, pushed blobs that keep an epoch from
      being pulled, pushes that move the live cursor or land in epoch 0,
      archives without shards, query errors hidden by the health check,
      negative worker counts).

    The main theorems carry their number, C1 to C40, in the comment before
    them; a witness named after the theorem applies it at a concrete input.

    ** Fuel and bounds

    Recursions that are not structural take fuel that is enough by a lemma or
    by construction: the shards of an index as many as there are groups, the
    readers and chunks of ExportRefs as many as the string has bytes, the terms
    of a duration likewise, hexadecimal digits of a uint64 16, the primes of
    SHA-256 the candidates up to the 64th. The jobs of pin-existing finish
    within retries + 4 turns each. Loops that only end from outside (polling,
    retries, upload attempts) recurse on the list of what they meet, the
    wake-ups or the attempts, and their theorems hold for every list. Loops over a
    range of epochs use the list of its epochs; at the last uint64 the Go loops
    would wrap around, which the theorems exclude by bounds below 2^63, the
    largest value a BIGINT column holds.

    ** Assumptions

    Code that is not in the repository is a parameter, with what is relied on
    as the laws of a class: go-ipld-prime, go-cid and multihash (IpldLaws:
    encoding and decoding agree, CIDs print and parse); the Kubo node (KuboLaws:
    a block that was put is there, and nothing disappears; KuboPins: a pin that
    succeeded is there and is listed); encoding/json (BeaconJson, ElJson,
    KuboJson, JsonState); go-car (GoCarLaws: a finished archive reads back);
    which row DISTINCT ON keeps (Postgres); ParseFloat (FloatText); pgx's
    reading of a DSN; DATE_TRUNC's time zone; Sentry's log handler (ErrorsOnly).
    PostgreSQL's statements are functions on the tables, with atomic
    statements, rollback of an open transaction on error, and faults scheduled
    by the state. Goroutines interleave between their calls: the steps of the
    pipeline are calls of the generator's stages, those of the live loop the
    calls of a tick, those of the pin workers requests to the node; a request
    to the API is one step, or an upload and a save. The garbage collector of the node does not run
    during a command.

    ** Not modelled

    The wording of log lines, with the floating-point estimates of
    logFetchingEpoch, the usage text and the contents of openapi.json, which
    change no state; what net/http does with a connection, connection pools,
    timeouts and rate limiting as durations (a timeout is an error a call may
    return); closing of handles; the created_at columns, which nothing reads;
    Prometheus' registry and text format (instruments are their values). *)

(** * Prelude: errors, the Go monad, machine integers, sorting and grouping *)

From Stdlib Require Export Ascii.
From stdpp Require Export base tactics numbers list gmap strings pretty sorting.

Declare Scope go_scope.
Delimit Scope go_scope with go.
Open Scope go_scope.
Open Scope Z_scope.

(** The development's hint database. *)
Create HintDb go.
Create Rewrite HintDb go.

(** Case analysis on every boolean integer comparison of the goal, then [lia]. *)
Ltac zcases :=
  repeat match goal with
    | |- context [?a =? ?b] => destruct (Z.eqb_spec a b)
    | |- context [?a <? ?b] => destruct (Z.ltb_spec a b)
    | |- context [?a <=? ?b] => destruct (Z.leb_spec a b)
    end; simpl; try lia; try congruence.

(** ** Errors and outcomes *)

(** The sentinel errors the sources compare with [errors.Is]. *)
Inductive sentinel :=
  | ErrNotFound             (* store.ErrNotFound *)
  | ErrInsufficientCustody  (* beacon.ErrInsufficientCustody *)
  | ErrNoExecutionPayload   (* beacon.ErrNoExecutionPayload *)
  | ErrIncompleteDAG        (* main.errIncompleteDAG *)
  | CtxCanceled             (* context.Canceled *)
  | CtxDeadlineExceeded.    (* context.DeadlineExceeded *)

#[export] Instance sentinel_eq_dec : EqDecision sentinel.
Proof. solve_decision. Defined.

(** A Go error: its [Error()] text and the sentinels of its [%w] chain. *)
Record error := mkError { err_msg : string; err_is : list sentinel }.

#[export] Instance error_eq_dec : EqDecision error.
Proof. solve_decision. Defined.

Definition errors_New (msg : string) : error := mkError msg [].

(** [fmt.Errorf("<ctx>: %w", err)]. *)
Definition errorf_w (ctx : string) (e : error) : error :=
  mkError (ctx +:+ ": " +:+ err_msg e) (err_is e).

Definition errors_Is (e : error) (s : sentinel) : bool := bool_decide (s ∈ err_is e).

(** What running a piece of Go code produces: a value, an error value, or a
    run-time panic (an index out of range, say). *)
Inductive outcome (A : Type) :=
  | Ok (a : A)
  | Err (e : error)
  | Panic (msg : string).
Arguments Ok {A} a.
Arguments Err {A} e.
Arguments Panic {A} msg.

#[export] Instance outcome_ret : MRet outcome := @Ok.
#[export] Instance outcome_bind : MBind outcome := λ A B f m,
  match m with Ok a => f a | Err e => Err e | Panic s => Panic s end.
#[export] Instance outcome_fmap : FMap outcome := λ A B f m,
  match m with Ok a => Ok (f a) | Err e => Err e | Panic s => Panic s end.

Definition is_Ok {A} (o : outcome A) : Prop := ∃ a, o = Ok a.

(** [if err != nil { return fmt.Errorf("<ctx>: %w", err) }] on a pure outcome. *)
Definition wrap {A} (ctx : string) (o : outcome A) : outcome A :=
  match o with Err e => Err (errorf_w ctx e) | _ => o end.

Definition of_option {A} (e : error) (o : option A) : outcome A :=
  match o with Some a => Ok a | None => Err e end.

(** ** The state and error monad of the stateful code

    [Go S A] runs in a mutable environment [S]; an error or a panic keeps the
    effects made before it, as in Go. *)
Definition Go (S A : Type) : Type := S → outcome A * S.

#[export] Instance go_ret {S} : MRet (Go S) := λ A a s, (Ok a, s).
#[export] Instance go_bind {S} : MBind (Go S) := λ A B f m s,
  match m s with
  | (Ok a, s') => f a s'
  | (Err e, s') => (Err e, s')
  | (Panic p, s') => (Panic p, s')
  end.

Section GoMonad.
Context {S : Type}.

Definition lift {A} (o : outcome A) : Go S A := λ s, (o, s).
Definition fail {A} (e : error) : Go S A := λ s, (Err e, s).
Definition gets {A} (f : S → A) : Go S A := λ s, (Ok (f s), s).
Definition gets_out {A} (f : S → outcome A) : Go S A := λ s, (f s, s).
Definition modify (f : S → S) : Go S unit := λ s, (Ok tt, f s).

(** [if err != nil { return fmt.Errorf("<ctx>: %w", err) }]. *)
Definition wrapf {A} (ctx : string) (m : Go S A) : Go S A := λ s,
  let '(o, s') := m s in (wrap ctx o, s').

(** [err := m(); if err != nil { log ... }]: the error becomes a value, a
    panic still unwinds. *)
Definition attempt {A} (m : Go S A) : Go S (error + A) := λ s,
  match m s with
  | (Ok a, s') => (Ok (inr a), s')
  | (Err e, s') => (Ok (inl e), s')
  | (Panic p, s') => (Panic p, s')
  end.
End GoMonad.

(** Running a computation on one field of a larger environment. *)
Definition zoom {S T A} (get : S → T) (set : T → S → S) (m : Go T A) : Go S A := λ s,
  let '(o, t) := m (get s) in (o, set t s).

(** A [for _, x := range xs] loop: stops at the first error. *)
Fixpoint for_each {S A} (xs : list A) (body : A → Go S unit) : Go S unit :=
  match xs with
  | [] => mret tt
  | x :: xs' => _ ← body x; for_each xs' body
  end.

(** The same loop collecting one value per element. *)
Fixpoint map_go {S A B} (body : A → Go S B) (xs : list A) : Go S (list B) :=
  match xs with
  | [] => mret []
  | x :: xs' => y ← body x; ys ← map_go body xs'; mret (y :: ys)
  end.

(** A loop whose body cannot panic fails if it reaches an element that fails. *)
Lemma map_go_err {S A B} (body : A → Go S B) xs s :
  (∀ x s, x ∈ xs → (∃ y s', body x s = (Ok y, s')) ∨ ∃ e s', body x s = (Err e, s')) →
  (∃ x, x ∈ xs ∧ ∀ s, ∃ e s', body x s = (Err e, s')) →
  ∃ e s', map_go body xs s = (Err e, s').
Proof.
  revert s. induction xs as [|x xs IH]; intros s Hb (x0 & Hin & He).
  { by apply not_elem_of_nil in Hin. }
  simpl. unfold mbind, go_bind.
  destruct (Hb x s ltac:(left)) as [(y & s' & Hx)|(e & s' & Hx)]; rewrite Hx; [|eauto].
  apply elem_of_cons in Hin as [->|Hin].
  - destruct (He s) as (e & s'' & He'). congruence.
  - destruct (IH s') as (e & s'' & ->); [intros; apply Hb; by right|eauto|eauto].
Qed.

(** *** Reasoning about [Go] *)

Section GoFacts.
Context {S : Type}.

Lemma bind_eq {A B} (m : Go S A) (k : A → Go S B) s :
  (m ≫= k) s = match m s with
               | (Ok a, s') => k a s'
               | (Err e, s') => (Err e, s')
               | (Panic p, s') => (Panic p, s')
               end.
Proof. unfold mbind, go_bind. by destruct (m s) as [[]]. Qed.

Lemma bind_Ok {A B} (m : Go S A) (k : A → Go S B) s b s' :
  (m ≫= k) s = (Ok b, s') → ∃ a s1, m s = (Ok a, s1) ∧ k a s1 = (Ok b, s').
Proof. unfold mbind, go_bind. destruct (m s) as [[a|e|p] s1]; [eauto|done|done]. Qed.

Lemma ret_Ok {A} (a b : A) (s s' : S) :
  (mret a : Go S A) s = (Ok b, s') → b = a ∧ s' = s.
Proof. by intros [= <- <-]. Qed.

Lemma lift_Ok {A} (o : outcome A) a (s s' : S) : lift o s = (Ok a, s') → o = Ok a ∧ s' = s.
Proof. by intros [= -> <-]. Qed.

Lemma wrap_Ok {A} ctx (o : outcome A) a : wrap ctx o = Ok a → o = Ok a.
Proof. by destruct o. Qed.

Lemma wrapf_Ok {A} ctx (m : Go S A) s a s' : wrapf ctx m s = (Ok a, s') → m s = (Ok a, s').
Proof. unfold wrapf. destruct (m s) as [o s1]. intros [= ->%wrap_Ok <-]. done. Qed.

Lemma attempt_Ok {A} (m : Go S A) s r s' :
  attempt m s = (Ok r, s') → match r with inl e => m s = (Err e, s') | inr a => m s = (Ok a, s') end.
Proof. unfold attempt. destruct (m s) as [[a|e|p] s1]; by intros [= <- <-]. Qed.

Lemma zoom_inv {T A} (get : S → T) (set : T → S → S) (m : Go T A) s o s' :
  zoom get set m s = (o, s') → ∃ t, m (get s) = (o, t) ∧ s' = set t s.
Proof. unfold zoom. destruct (m (get s)) as [o' t]. intros [= <- <-]. eauto. Qed.

(** Whatever the outcome, the environment only changes by [Rel]. *)
Definition always {A} (Rel : relation S) (m : Go S A) : Prop := ∀ s, Rel s (snd (m s)).

(** An invariant of a sequence of two steps. *)
Lemma keeps_bind {A B} (Inv : S → Prop) (m : Go S A) (k : A → Go S B) s :
  Inv (snd (m s)) → (∀ a s', m s = (Ok a, s') → Inv s' → Inv (snd (k a s'))) → Inv (snd ((m ≫= k) s)).
Proof. intros Hm Hk. unfold mbind, go_bind. destruct (m s) as [[a|e|p] s']; [by apply Hk|done|done]. Qed.

Lemma keeps_wrapf {A} (Inv : S → Prop) ctx (m : Go S A) s : Inv (snd (m s)) → Inv (snd (wrapf ctx m s)).
Proof. unfold wrapf. by destruct (m s). Qed.

Context (Rel : relation S) `{!PreOrder Rel}.

Lemma always_impl {A} (Rel' : relation S) (m : Go S A) :
  (∀ s s', Rel' s s' → Rel s s') → always Rel' m → always Rel m.
Proof. intros HR Hm s. apply HR, Hm. Qed.

Lemma always_ret {A} (a : A) : always Rel (mret a : Go S A).
Proof. intros s. reflexivity. Qed.

Lemma always_lift {A} (o : outcome A) : always Rel (lift o).
Proof. intros s. reflexivity. Qed.

Lemma always_bind {A B} (m : Go S A) (k : A → Go S B) :
  always Rel m → (∀ a, always Rel (k a)) → always Rel (m ≫= k).
Proof.
  intros Hm Hk s. specialize (Hm s). unfold mbind, go_bind.
  destruct (m s) as [[a|e|p] s1]; [|done|done]. etransitivity; [done|apply Hk].
Qed.

Lemma always_bind_Ok {A B} (m : Go S A) (k : A → Go S B) :
  always Rel m → (∀ a s s', m s = (Ok a, s') → always Rel (k a)) → always Rel (m ≫= k).
Proof.
  intros Hm Hk s. specialize (Hm s). unfold mbind, go_bind.
  destruct (m s) as [[a|e|p] s1] eqn:Hs; [|done|done]. etransitivity; [done|by eapply Hk].
Qed.

Lemma always_wrapf {A} ctx (m : Go S A) : always Rel m → always Rel (wrapf ctx m).
Proof. intros Hm s. specialize (Hm s). unfold wrapf. by destruct (m s). Qed.

Lemma always_attempt {A} (m : Go S A) : always Rel m → always Rel (attempt m).
Proof. intros Hm s. specialize (Hm s). unfold attempt. by destruct (m s) as [[] ?]. Qed.

Lemma always_zoom {T A} (get : S → T) (set : T → S → S) (m : Go T A) :
  (∀ s, Rel s (set (snd (m (get s))) s)) → always Rel (zoom get set m).
Proof. intros Hm s. specialize (Hm s). unfold zoom. by destruct (m (get s)). Qed.
End GoFacts.

#[export] Hint Resolve always_ret always_lift always_bind always_wrapf always_attempt : go.

(** Take apart a run that succeeded. *)
Ltac go_inv := repeat match goal with
  | H : mbind _ _ _ = (Ok _, _) |- _ =>
      let a := fresh "x" in let s := fresh "w" in let H' := fresh "Hr" in
      apply bind_Ok in H as (a & s & H' & H)
  | H : wrapf _ _ _ = (Ok _, _) |- _ => apply wrapf_Ok in H
  | H : lift _ _ = (Ok _, _) |- _ => apply lift_Ok in H as [H ->]
  | H : mret _ _ = (Ok _, _) |- _ => apply ret_Ok in H as [-> ->]
  end.

(** [s[i]] with Go's run-time bounds check. *)
Definition index {A} (l : list A) (i : nat) : outcome A :=
  match l !! i with Some x => Ok x | None => Panic "index out of range" end.

(** ** Machine integers *)

Definition two63 : Z := 2 ^ 63.
Definition two64 : Z := 2 ^ 64.

Definition is_u64 (z : Z) : Prop := 0 ≤ z < two64.
Definition is_i64 (z : Z) : Prop := - two63 ≤ z < two63.

Definition wrap64 (z : Z) : Z := z mod two64.
Definition u64_add (a b : Z) : Z := wrap64 (a + b).
Definition u64_sub (a b : Z) : Z := wrap64 (a - b).
Definition u64_mul (a b : Z) : Z := wrap64 (a * b).

(** [int64(x)]: two's complement reinterpretation. *)
Definition to_i64 (z : Z) : Z :=
  let w := wrap64 z in if w <? two63 then w else w - two64.
Definition i64_add (a b : Z) : Z := to_i64 (a + b).
Definition i64_mul (a b : Z) : Z := to_i64 (a * b).

Lemma wrap64_id z : is_u64 z → wrap64 z = z.
Proof. intros Hz. apply Z.mod_small, Hz. Qed.

Lemma to_i64_id z : is_i64 z → to_i64 z = z.
Proof.
  unfold is_i64, to_i64, wrap64, two63, two64. intros Hz.
  destruct (decide (0 ≤ z)) as [H0|H0].
  - rewrite Z.mod_small by lia. destruct (Z.ltb_spec z (2 ^ 63)); lia.
  - assert (z mod 2 ^ 64 = z + 2 ^ 64) as ->.
    { symmetry. apply (Z.mod_unique_pos _ _ (-1)); lia. }
    destruct (Z.ltb_spec (z + 2 ^ 64) (2 ^ 63)); lia.
Qed.

(** Reinterpreting as int64 loses nothing of a uint64. *)
Lemma to_i64_inj a b : is_u64 a → is_u64 b → to_i64 a = to_i64 b → a = b.
Proof.
  unfold to_i64. intros Ha Hb. rewrite !wrap64_id by done.
  unfold is_u64, two63, two64 in *.
  destruct (Z.ltb_spec a (2 ^ 63)), (Z.ltb_spec b (2 ^ 63)); lia.
Qed.

Lemma to_i64_mod z : to_i64 z mod two64 = z mod two64.
Proof.
  unfold to_i64, wrap64. destruct (z mod two64 <? two63).
  - apply Z.mod_mod. done.
  - rewrite <- (Z.mod_add _ 1) by done. rewrite Z.mul_1_l, Z.sub_add. by apply Z.mod_mod.
Qed.

Lemma to_i64_add_l a b : to_i64 (to_i64 a + b) = to_i64 (a + b).
Proof.
  unfold to_i64 at 1 3, wrap64.
  rewrite <- (Zplus_mod_idemp_l (to_i64 a)), to_i64_mod, Zplus_mod_idemp_l. done.
Qed.

(** A wrapped int64 running sum does not depend on the order of the terms. *)
Lemma i64_sum_perm {A} (f : A → Z) l1 l2 z :
  l1 ≡ₚ l2 →
  foldl (λ acc x, i64_add acc (f x)) z l1 = foldl (λ acc x, i64_add acc (f x)) z l2.
Proof.
  intros Hp. revert z. induction Hp as [|x l1 l2 _ IH|x y l|l1 l2 l3 _ IH1 _ IH2];
    intros z; simpl; [done|apply IH| |by rewrite IH1].
  f_equal. unfold i64_add. rewrite !to_i64_add_l. f_equal. lia.
Qed.

(** [strconv.FormatUint(n, 10)], and [%d]. *)
Definition FormatUint (n : Z) : string := pretty n.

(** ** Lists *)

Lemma list_filter_all {A} (P : A → Prop) `{!∀ x, Decision (P x)} (l : list A) :
  (∀ x, x ∈ l → P x) → filter P l = l.
Proof.
  induction l as [|x l IH]; intros HP; [done|].
  rewrite filter_cons, decide_True by (apply HP; by left).
  rewrite IH; [done|]. intros; apply HP; by right.
Qed.

Lemma NoDup_fmap_filter {A B} (f : A → B) (P : A → Prop) `{!∀ x, Decision (P x)} (l : list A) :
  NoDup (f <$> l) → NoDup (f <$> filter P l).
Proof.
  induction l as [|x l IH]; [done|]. rewrite fmap_cons, filter_cons. intros [Hx Hnd]%NoDup_cons.
  destruct (decide (P x)); [|by apply IH]. rewrite fmap_cons. apply NoDup_cons.
  split; [|by apply IH]. intros (y & Hy & [_ Hin]%list_elem_of_filter)%list_elem_of_fmap.
  apply Hx. apply list_elem_of_fmap. eauto.
Qed.

(** A key that never repeats tells the elements of a list apart. *)
Lemma NoDup_fmap_inj {A B} (f : A → B) (l : list A) x y :
  NoDup (f <$> l) → x ∈ l → y ∈ l → f x = f y → x = y.
Proof.
  intros Hnd [i Hi]%list_elem_of_lookup_1 [j Hj]%list_elem_of_lookup_1 Heq.
  assert (i = j) as ->; [|congruence].
  apply (NoDup_lookup _ _ _ (f x) Hnd); rewrite list_lookup_fmap, ?Hi, ?Hj; simpl; congruence.
Qed.

Lemma elem_of_concat {A} (x : A) (ls : list (list A)) :
  x ∈ concat ls ↔ ∃ l, l ∈ ls ∧ x ∈ l.
Proof.
  rewrite list_elem_of_In, in_concat. by setoid_rewrite list_elem_of_In.
Qed.

(** ** Grouping: the [m[k] = append(m[k], x)] loop *)

Section Grouping.
Context {A K : Type} `{Countable K} (key : A → K).

Definition group_add (m : gmap K (list A)) (x : A) : gmap K (list A) :=
  <[key x := default [] (m !! key x) ++ [x]]> m.

Definition group_by (l : list A) : gmap K (list A) := foldl group_add ∅ l.

Definition bucket (k : K) (l : list A) : list A := filter (λ x, key x = k) l.

Lemma foldl_group_add_lookup l m k :
  default [] (foldl group_add m l !! k) = default [] (m !! k) ++ bucket k l.
Proof.
  revert m; induction l as [|x l IH]; intros m; simpl; [by rewrite app_nil_r|].
  rewrite IH. unfold group_add, bucket. rewrite filter_cons.
  destruct (decide (key x = k)) as [<-|Hne].
  - rewrite lookup_insert_eq; simpl. by rewrite <- (assoc_L (++)).
  - by rewrite lookup_insert_ne.
Qed.

Lemma foldl_group_add_dom l m :
  dom (foldl group_add m l) = dom m ∪ list_to_set (key <$> l).
Proof.
  revert m; induction l as [|x l IH]; intros m; simpl; [set_solver|].
  rewrite IH. unfold group_add. rewrite dom_insert_L. set_solver.
Qed.

(** Every bucket is the subsequence of the input with that key, and there is
    a bucket exactly for the keys that occur. *)
Lemma group_by_lookup l k g :
  group_by l !! k = Some g ↔ g = bucket k l ∧ k ∈ key <$> l.
Proof.
  unfold group_by.
  pose proof (foldl_group_add_lookup l ∅ k) as Hl.
  pose proof (foldl_group_add_dom l ∅) as Hd.
  rewrite lookup_empty in Hl; simpl in Hl.
  assert (k ∈ dom (foldl group_add ∅ l) ↔ k ∈ key <$> l) as Hk by set_solver.
  rewrite elem_of_dom in Hk.
  destruct (foldl group_add ∅ l !! k) as [g'|]; simpl in Hl; subst.
  - split; [intros [= <-]; split; [done|apply Hk; eauto]|by intros [-> _]].
  - split; [done|]. intros [_ Hin]. apply Hk in Hin as [? ?]; done.
Qed.

Lemma group_by_default l k : default [] (group_by l !! k) = bucket k l.
Proof. unfold group_by. by rewrite foldl_group_add_lookup, lookup_empty. Qed.

Lemma bucket_perm k l l' : l ≡ₚ l' → bucket k l ≡ₚ bucket k l'.
Proof. unfold bucket. by intros ->. Qed.

Lemma elem_of_bucket k l x : x ∈ bucket k l ↔ key x = k ∧ x ∈ l.
Proof. unfold bucket. by rewrite list_elem_of_filter. Qed.

(** Names that determine their key and repeat in no bucket repeat nowhere. *)
Lemma NoDup_buckets {B} (f : A → B) l :
  (∀ x y, f x = f y → key x = key y) →
  (∀ x, x ∈ l → NoDup (f <$> bucket (key x) l)) → NoDup (f <$> l).
Proof.
  intros Hf. induction l as [|x l IH]; intros Hb; [constructor|]. rewrite fmap_cons. apply NoDup_cons.
  split.
  - intros (y & Hy & Hin)%list_elem_of_fmap. specialize (Hb x ltac:(left)). unfold bucket in Hb.
    rewrite filter_cons_True in Hb by done. rewrite fmap_cons in Hb.
    apply NoDup_cons in Hb as [Hn _]. apply Hn, list_elem_of_fmap. exists y.
    split; [done|]. apply list_elem_of_filter. split; [by symmetry; apply Hf|done].
  - apply IH. intros y Hy. specialize (Hb y ltac:(by right)). unfold bucket in *.
    rewrite filter_cons in Hb. destruct (decide _); [|done].
    rewrite fmap_cons in Hb. by apply NoDup_cons in Hb as [_ ?].
Qed.

(** Concatenating the buckets of a duplicate-free list of keys gives back
    the elements carrying one of those keys. *)
Lemma concat_buckets_perm ks l :
  NoDup ks → concat ((λ k, bucket k l) <$> ks) ≡ₚ filter (λ x, key x ∈ ks) l.
Proof.
  induction 1 as [|k ks Hk Hnd IH]; simpl.
  - induction l as [|x l IHl]; [done|]. rewrite filter_cons.
    destruct (decide _) as [Hx|]; [by apply not_elem_of_nil in Hx|done].
  - rewrite IH. clear IH. unfold bucket.
    induction l as [|x l IHl]; [done|]. rewrite !filter_cons.
    destruct (decide (key x = k)) as [Hx|Hx];
      destruct (decide (key x ∈ ks)) as [Hi|Hi];
      destruct (decide (key x ∈ k :: ks)) as [Hc|Hc];
      try (subst; done); try (exfalso; set_solver).
    + simpl. by rewrite IHl.
    + by rewrite <- Permutation_middle, IHl.
Qed.
End Grouping.

(** ** [sort.Slice] and map iteration

    Go fixes neither the order in which [range m] visits a map nor what
    [sort.Slice] does with elements that compare equal (it is not stable). Both
    are therefore an interface: every theorem that uses them holds for every
    lawful run-time. *)

(** [less] as passed to [sort.Slice]; [sle less x y]: y may not come before x. *)
Definition sle {A} (less : A → A → bool) (x y : A) : Prop := less y x = false.

#[export] Instance sle_dec {A} (less : A → A → bool) : RelDecision (sle less).
Proof. intros x y. unfold sle. apply _. Defined.

(** A strict weak order: what [sort.Slice] documents it needs of [less]. *)
Class StrictWeak {A} (less : A → A → bool) : Prop := {
  strict_weak_total :: Total (sle less);
  strict_weak_trans :: Transitive (sle less);
}.

Class GoRuntime := {
  sort_Slice : ∀ {A : Type}, (A → A → bool) → list A → list A;
  map_range : ∀ {K V : Type} `{Countable K}, gmap K V → list (K * V);
  sort_Slice_perm : ∀ {A} (less : A → A → bool) l, sort_Slice less l ≡ₚ l;
  sort_Slice_sorted : ∀ {A} (less : A → A → bool) l,
    StrictWeak less → Sorted (sle less) (sort_Slice less l);
  map_range_perm : ∀ {K V} `{Countable K} (m : gmap K V),
    map_range m ≡ₚ map_to_list m;
}.

(** One lawful run-time: merge sort, and the canonical map order. *)
#[export] Instance default_runtime : GoRuntime := {|
  sort_Slice A less := merge_sort (sle less);
  map_range K V _ _ m := map_to_list m;
  sort_Slice_perm A less l := merge_sort_Permutation (sle less) l;
  sort_Slice_sorted A less l H := Sorted_merge_sort (sle less) l;
  map_range_perm K V _ _ m := Permutation_refl _;
|}.

(** Another one, which visits maps backwards. *)
Definition backward_runtime : GoRuntime := {|
  sort_Slice A less l := merge_sort (sle less) (reverse l);
  map_range K V _ _ m := reverse (map_to_list m);
  sort_Slice_perm A less l :=
    transitivity (merge_sort_Permutation (sle less) (reverse l)) (reverse_Permutation l);
  sort_Slice_sorted A less l H := Sorted_merge_sort (sle less) (reverse l);
  map_range_perm K V _ _ m := reverse_Permutation _;
|}.

(** Sorting keyed elements by a total order on the keys. *)
Definition by_key {A B} (f : A → B) (lt : B → B → bool) (x y : A) : bool := lt (f x) (f y).

#[export] Instance by_key_strict_weak {A B} (f : A → B) (lt : B → B → bool) :
  StrictWeak lt → StrictWeak (by_key f lt).
Proof.
  intros [Ht Htr]. unfold by_key. split; unfold sle in *.
  - intros x y. apply (Ht (f x) (f y)).
  - intros x y z. apply (Htr (f x) (f y) (f z)).
Qed.

#[export] Instance Zltb_strict_weak : StrictWeak Z.ltb.
Proof. split; unfold sle; [intros x y|intros x y z]; rewrite ?Z.ltb_ge; lia. Qed.

#[export] Instance Zltb_antisymm : AntiSymm (=) (sle Z.ltb).
Proof. intros x y; unfold sle; rewrite !Z.ltb_ge; lia. Qed.

Lemma string_ltb_leb s1 s2 : String.ltb s2 s1 = false ↔ String.leb s1 s2 = true.
Proof.
  unfold String.ltb, String.leb. rewrite (String.compare_antisym s1 s2).
  destruct (String.compare s2 s1); simpl; split; congruence.
Qed.

Lemma sle_string s1 s2 : sle String.ltb s1 s2 ↔ String.le s1 s2.
Proof. unfold sle, String.le. rewrite string_ltb_leb. by rewrite Is_true_true. Qed.

#[export] Instance string_ltb_strict_weak : StrictWeak String.ltb.
Proof.
  split; [intros x y|intros x y z]; rewrite !sle_string.
  - apply (total String.le).
  - apply (transitivity (R := String.le)).
Qed.

#[export] Instance string_ltb_antisymm : AntiSymm (=) (sle String.ltb).
Proof. intros x y. rewrite !sle_string. apply (anti_symm String.le). Qed.

Lemma sort_Slice_unique {A} (less : A → A → bool) {R1 R2 : GoRuntime} l1 l2 :
  StrictWeak less → l1 ≡ₚ l2 →
  (∀ x y, x ∈ l1 → y ∈ l1 → sle less x y → sle less y x → x = y) →
  @sort_Slice R1 _ less l1 = @sort_Slice R2 _ less l2.
Proof.
  intros Hsw Hp Hinj. apply (Sorted_unique_strong (sle less)).
  - intros x y Hx Hy. rewrite sort_Slice_perm in Hx. rewrite sort_Slice_perm, <- Hp in Hy.
    by apply Hinj.
  - by apply sort_Slice_sorted.
  - by apply sort_Slice_sorted.
  - by rewrite !sort_Slice_perm.
Qed.

Section SortFacts.
Context {A B : Type} (f : A → B) (lt : B → B → bool).
Context `{!StrictWeak lt} `{!AntiSymm (=) (sle lt)}.

Lemma sort_by_key_sorted {R : GoRuntime} l :
  Sorted (sle lt) (f <$> sort_Slice (by_key f lt) l).
Proof.
  apply (Sorted_fmap f (sle (by_key f lt))); [by intros|].
  apply sort_Slice_sorted, _.
Qed.

(** When the keys tell the elements apart, the sorted slice is determined by
    the elements: neither the run-time nor the input order matters. *)
Lemma sort_by_key_unique {R1 R2 : GoRuntime} l1 l2 :
  l1 ≡ₚ l2 →
  (∀ x y, x ∈ l1 → y ∈ l1 → f x = f y → x = y) →
  @sort_Slice R1 _ (by_key f lt) l1 = @sort_Slice R2 _ (by_key f lt) l2.
Proof.
  intros Hp Hinj. apply sort_Slice_unique; [apply _|done|].
  intros x y Hx Hy H1 H2. apply Hinj; [done|done|]. by apply (anti_symm (sle lt)).
Qed.
End SortFacts.

(** Distinct integers in sorted order are strictly increasing. *)
Lemma sorted_NoDup_lt l : Sorted (sle Z.ltb) l → NoDup l → StronglySorted Z.lt l.
Proof.
  intros Hs Hnd. apply Sorted_StronglySorted in Hs; [|apply _].
  induction Hs as [|x l Hs IH Hx]; [constructor|].
  apply NoDup_cons in Hnd as [Hn Hnd]. constructor; [by apply IH|].
  rewrite Forall_forall in *. intros y Hy. specialize (Hx y Hy). unfold sle in Hx.
  apply Z.ltb_ge in Hx. assert (x ≠ y) by by intros ->. lia.
Qed.
