(* ===== verification/GoStd.v ===== *)
(** * GoStd: the parts of Go's standard library the sources use

    [strings], [encoding/hex] and [strconv], over byte strings ([string] is a
    sequence of bytes, and stands for Go's [string] and [[]byte] alike). *)

From S2P Require Import Prelude.

(** ** Bytes *)

Definition byte_val (a : ascii) : Z := Z.of_N (Ascii.N_of_ascii a).
Definition byte_of (z : Z) : ascii := Ascii.ascii_of_N (Z.to_N z).

Lemma byte_val_bounds a : 0 ≤ byte_val a < 256.
Proof. unfold byte_val. pose proof (Ascii.N_ascii_bounded a). lia. Qed.

Lemma byte_of_val a : byte_of (byte_val a) = a.
Proof. unfold byte_of, byte_val. by rewrite N2Z.id, Ascii.ascii_N_embedding. Qed.

Lemma byte_val_of z : 0 ≤ z < 256 → byte_val (byte_of z) = z.
Proof.
  intros Hz. unfold byte_of, byte_val. rewrite Ascii.N_ascii_embedding by lia. lia.
Qed.

Definition str_len (s : string) : Z := Z.of_nat (String.length s).

(** ** Package strings *)

Definition HasPrefix (s pre : string) : bool := String.prefix pre s.

Fixpoint str_drop (n : nat) (s : string) : string :=
  match n, s with
  | S n', String _ s' => str_drop n' s'
  | _, _ => s
  end.

Fixpoint str_take (n : nat) (s : string) : string :=
  match n, s with
  | S n', String a s' => String a (str_take n' s')
  | _, _ => ""
  end.

Definition TrimPrefix (s pre : string) : string :=
  if HasPrefix s pre then str_drop (String.length pre) s else s.

Fixpoint Contains (s sub : string) : bool :=
  String.prefix sub s || match s with "" => false | String _ s' => Contains s' sub end.

(** [strings.TrimRight(s, "c")] for a one-byte cutset. *)
Fixpoint TrimRight (s : string) (c : ascii) : string :=
  match s with
  | "" => ""
  | String a s' =>
      match TrimRight s' c with
      | "" => if bool_decide (a = c) then "" else String a ""
      | t => String a t
      end
  end.

(** [strings.Split(s, "c")] for a one-byte separator. *)
Fixpoint Split (s : string) (c : ascii) : list string :=
  match s with
  | "" => [""]
  | String a s' =>
      if bool_decide (a = c) then "" :: Split s' c
      else match Split s' c with
           | [] => [String a ""]
           | p :: ps => String a p :: ps
           end
  end.

Definition lower_byte (a : ascii) : ascii :=
  let c := byte_val a in
  if (65 <=? c) && (c <=? 90) then byte_of (c + 32) else a.

(** [strings.ToLower] on ASCII text. *)
Fixpoint ToLower (s : string) : string :=
  match s with "" => "" | String a s' => String (lower_byte a) (ToLower s') end.

Fixpoint Join (l : list string) (sep : string) : string :=
  match l with
  | [] => ""
  | [s] => s
  | s :: l' => s +:+ sep +:+ Join l' sep
  end.

(** ** Package encoding/hex *)

Definition hex_digit (n : Z) : ascii := if n <? 10 then byte_of (48 + n) else byte_of (87 + n).

Fixpoint hex_EncodeToString (b : string) : string :=
  match b with
  | "" => ""
  | String a b' =>
      String (hex_digit (Z.shiftr (byte_val a) 4))
        (String (hex_digit (Z.land (byte_val a) 15)) (hex_EncodeToString b'))
  end.

(** The value of a hex digit, 255 for any other byte (the reverse table). *)
Definition hex_nibble (a : ascii) : Z :=
  let c := byte_val a in
  if (48 <=? c) && (c <=? 57) then c - 48
  else if (97 <=? c) && (c <=? 102) then c - 97 + 10
  else if (65 <=? c) && (c <=? 70) then c - 65 + 10
  else 255.

Definition hex_InvalidByte : error := errors_New "encoding/hex: invalid byte".
Definition hex_ErrLength : error := errors_New "encoding/hex: odd length hex string".

Fixpoint hex_DecodeString (s : string) : outcome string :=
  match s with
  | "" => Ok ""
  | String p "" => if 15 <? hex_nibble p then Err hex_InvalidByte else Err hex_ErrLength
  | String p (String q s') =>
      if 15 <? hex_nibble p then Err hex_InvalidByte
      else if 15 <? hex_nibble q then Err hex_InvalidByte
      else b ← hex_DecodeString s';
           Ok (String (byte_of (Z.lor (Z.shiftl (hex_nibble p) 4) (hex_nibble q))) b)
  end.

(** ** Package strconv *)

Definition digit_val (a : ascii) : option Z :=
  let c := byte_val a in if (48 <=? c) && (c <=? 57) then Some (c - 48) else None.

Definition strconv_err (fn s why : string) : error :=
  errors_New ("strconv." +:+ fn +:+ ": parsing " +:+ s +:+ ": " +:+ why).

(** The digit loop of [strconv.ParseUint(s, 10, 64)]; [limit] is the first
    value that is out of range. [inl true] is ErrRange, [inl false] ErrSyntax. *)
Fixpoint parse_digits (limit acc : Z) (s : string) : bool + Z :=
  match s with
  | "" => inr acc
  | String a s' =>
      match digit_val a with
      | None => inl false
      | Some d =>
          if limit <=? acc * 10 + d then inl true else parse_digits limit (acc * 10 + d) s'
      end
  end.

Definition ParseUint (s : string) : outcome Z :=
  match s with
  | "" => Err (strconv_err "ParseUint" s "invalid syntax")
  | _ => match parse_digits two64 0 s with
         | inr n => Ok n
         | inl true => Err (strconv_err "ParseUint" s "value out of range")
         | inl false => Err (strconv_err "ParseUint" s "invalid syntax")
         end
  end.

(** [strconv.Atoi] (and [ParseInt(s, 10, 64)]): the value it returns next to
    its error: 0 on a syntax error, the nearest bound on a range error. *)
Definition Atoi (s : string) : Z * option error :=
  let go (neg : bool) (t : string) :=
    match t with
    | "" => (0, Some (strconv_err "Atoi" s "invalid syntax"))
    | _ =>
        match parse_digits (if neg then two63 + 1 else two63) 0 t with
        | inr n => (if neg then - n else n, None)
        | inl true => (if neg then - two63 else two63 - 1,
                       Some (strconv_err "Atoi" s "value out of range"))
        | inl false => (0, Some (strconv_err "Atoi" s "invalid syntax"))
        end
    end in
  match s with
  | String "-" t => go true t
  | String "+" t => go false t
  | _ => go false s
  end.

(** ** Facts *)

Lemma hex_digit_nibble n : 0 ≤ n < 16 → hex_nibble (hex_digit n) = n.
Proof.
  intros Hn.
  assert (n ∈ seqZ 0 16) as Hin by (apply elem_of_seqZ; lia).
  revert Hin. clear Hn. revert n. apply Forall_forall. by repeat constructor.
Qed.

Lemma nibbles_byte c :
  0 ≤ c < 256 → Z.lor (Z.shiftl (Z.shiftr c 4) 4) (Z.land c 15) = c.
Proof.
  intros Hc. apply Z.bits_inj'; intros i Hi. change 15 with (Z.ones 4).
  rewrite Z.lor_spec, Z.land_spec, Z.testbit_ones_nonneg by lia.
  destruct (Z.ltb_spec i 4).
  - rewrite Z.shiftl_spec_low by lia. by rewrite andb_true_r.
  - rewrite Z.shiftl_spec, Z.shiftr_spec by lia.
    replace (i - 4 + 4) with i by lia. by rewrite andb_false_r, orb_false_r.
Qed.

(** Decoding the hex encoding of any byte string gives the byte string. *)
Lemma hex_decode_encode b : hex_DecodeString (hex_EncodeToString b) = Ok b.
Proof.
  induction b as [|a b IH]; [done|]. simpl.
  pose proof (byte_val_bounds a) as Ha.
  assert (0 ≤ Z.shiftr (byte_val a) 4 < 16).
  { rewrite Z.shiftr_div_pow2 by lia. split; [apply Z.div_pos; lia|].
    apply Z.div_lt_upper_bound; lia. }
  assert (0 ≤ Z.land (byte_val a) 15 < 16).
  { change 15 with (Z.ones 4). rewrite Z.land_ones by lia. apply Z.mod_pos_bound. lia. }
  rewrite !hex_digit_nibble by done.
  rewrite !(proj2 (Z.ltb_ge 15 _)) by lia. rewrite IH. simpl.
  by rewrite nibbles_byte, byte_of_val.
Qed.

Lemma hex_encode_length b :
  String.length (hex_EncodeToString b) = (2 * String.length b)%nat.
Proof. induction b as [|a b IH]; simpl; [done|]. rewrite IH. lia. Qed.

Lemma str_drop_app p s : str_drop (String.length p) (p +:+ s) = s.
Proof. induction p; simpl; done. Qed.

Lemma prefix_app p s : String.prefix p (p +:+ s) = true.
Proof.
  induction p as [|a p IH]; simpl; [by destruct s|].
  destruct (ascii_dec a a); [done|done].
Qed.

Lemma TrimPrefix_app p s : TrimPrefix (p +:+ s) p = s.
Proof. unfold TrimPrefix, HasPrefix. by rewrite prefix_app, str_drop_app. Qed.

Lemma pretty_N_char_digit d :
  (d < 10)%N → digit_val (pretty_N_char d) = Some (Z.of_N d).
Proof.
  intros Hd.
  assert (d ∈ N.of_nat <$> seq 0 10) as Hin.
  { apply list_elem_of_fmap. exists (N.to_nat d). split; [lia|]. apply elem_of_seq. lia. }
  clear Hd. revert d Hin. apply Forall_forall. by repeat constructor.
Qed.

Lemma parse_digits_pretty_go limit x s :
  Z.of_N x < limit →
  parse_digits limit 0 (pretty_N_go x s) = parse_digits limit (Z.of_N x) s.
Proof.
  revert s. induction (N.lt_wf_0 x) as [x _ IH]; intros s Hx.
  destruct (decide (x = 0%N)) as [->|Hx0]; [by rewrite pretty_N_go_0|].
  rewrite pretty_N_go_step by lia.
  rewrite IH; [|apply N.div_lt; lia|pose proof (N.Div0.div_le_upper_bound x 10 x); lia].
  simpl. rewrite pretty_N_char_digit by (apply N.mod_lt; lia).
  assert (Z.of_N (x `div` 10) * 10 + Z.of_N (x `mod` 10) = Z.of_N x) as ->.
  { rewrite N2Z.inj_div, N2Z.inj_mod.
    pose proof (Z.div_mod (Z.of_N x) 10). lia. }
  by rewrite (proj2 (Z.leb_gt _ _)).
Qed.

(** [strconv.ParseUint] inverts [strconv.FormatUint] on 64-bit values. *)
Lemma ParseUint_FormatUint n : is_u64 n → ParseUint (FormatUint n) = Ok n.
Proof.
  intros [H0 Hlt]. unfold FormatUint.
  assert (pretty n = pretty (Z.to_N n)) as ->.
  { destruct n as [|p|p]; [done|done|lia]. }
  unfold pretty, pretty_N. destruct (decide (Z.to_N n = 0%N)) as [Hz|Hz].
  - assert (n = 0) as -> by lia. done.
  - pose proof (parse_digits_pretty_go two64 (Z.to_N n) "" ltac:(lia)) as Hp.
    simpl in Hp. rewrite Z2N.id in Hp by done.
    unfold ParseUint. destruct (pretty_N_go (Z.to_N n) "") eqn:E.
    + simpl in Hp. injection Hp. lia.
    + by rewrite Hp.
Qed.

#[export] Instance FormatUint_inj : Inj (=) (=) FormatUint.
Proof. apply pretty_Z_inj. Qed.
