(* ===== verification/Logging.v ===== *)
(** * Logging: the handlers of cmd/blobscan-ipld/main.go

    slog's Handler interface as a class, the text handler newLogger makes, the
    tee that main puts in front of it when Sentry is configured, and that the
    tee changes nothing on standard error. *)

From S2P Require Import Prelude.

(** Levels and attributes of log/slog; only their order and identity matter. *)
Definition LevelDebug : Z := -4.
Definition LevelInfo : Z := 0.
Definition LevelWarn : Z := 4.
Definition LevelError : Z := 8.

Record record := mkRecord { lr_level : Z; lr_msg : string; lr_attrs : list (string * string) }.

(** slog.Handler, over the state [S] its outputs are in. *)
Class Handler (H S : Type) := {
  Enabled : H → Z → bool;
  Handle : H → record → Go S unit;
  WithAttrs : H → list (string * string) → H;
  WithGroup : H → string → H }.

(** Logger.log of log/slog: the handler is asked first, its error is dropped. *)
Definition log {H S} `{!Handler H S} (h : H) (r : record) : Go S unit :=
  if Enabled h (lr_level r) then (_ ← attempt (Handle h r); mret tt) else mret tt.

(** slog.TextHandler on standard error: lines, with the attributes and groups
    the handler was derived with. *)
Record textHandler := mkTextHandler { th_level : Z; th_attrs : list (string * string); th_groups : list string }.

Definition line : Type := record * list (string * string) * list string.

(** Where the lines go, and what a second handler keeps. *)
Record streams (T : Type) := mkStreams { stderr : list line; other : T }.
Arguments mkStreams {T}.
Arguments stderr {T}.
Arguments other {T}.

#[export] Instance text_handler {T} : Handler textHandler (streams T) := {|
  Enabled h level := th_level h <=? level;
  Handle h r := modify (λ s, mkStreams (stderr s ++ [(r, th_attrs h, th_groups h)]) (other s));
  WithAttrs h attrs := mkTextHandler (th_level h) (th_attrs h ++ attrs) (th_groups h);
  WithGroup h name := mkTextHandler (th_level h) (th_attrs h) (th_groups h ++ [name]) |}.

(** The level of [-log-level]; anything unknown is info. *)
Definition newLogger (level : string) : textHandler :=
  mkTextHandler
    (if bool_decide (level = "debug") then LevelDebug
     else if bool_decide (level = "warn") then LevelWarn
     else if bool_decide (level = "error") then LevelError
     else LevelInfo) [] [].

(** ** The tee *)

Record teeHandler (H1 H2 : Type) := newTeeHandler { primary : H1; secondary : H2 }.
Arguments newTeeHandler {H1 H2}.
Arguments primary {H1 H2}.
Arguments secondary {H1 H2}.

Section Tee.
Context {H1 H2 S : Type} `{!Handler H1 S, !Handler H2 S}.

Definition tee_Enabled (h : teeHandler H1 H2) (level : Z) : bool :=
  Enabled (primary h) level || Enabled (secondary h) level.
Definition tee_Handle (h : teeHandler H1 H2) (r : record) : Go S unit :=
  _ ← attempt (Handle (secondary h) r); Handle (primary h) r.
Definition tee_WithAttrs (h : teeHandler H1 H2) (attrs : list (string * string)) : teeHandler H1 H2 :=
  newTeeHandler (WithAttrs (primary h) attrs) (WithAttrs (secondary h) attrs).
Definition tee_WithGroup (h : teeHandler H1 H2) (name : string) : teeHandler H1 H2 :=
  newTeeHandler (WithGroup (primary h) name) (WithGroup (secondary h) name).

#[export] Instance tee_handler : Handler (teeHandler H1 H2) S := {|
  Enabled := tee_Enabled; Handle := tee_Handle; WithAttrs := tee_WithAttrs; WithGroup := tee_WithGroup |}.
End Tee.

(** What main makes of the logger when Sentry is configured. *)
Definition main_logger {H2} (level : string) (sentry : option H2) : textHandler + teeHandler textHandler H2 :=
  match sentry with
  | Some h => inr (newTeeHandler (newLogger level) h)
  | None => inl (newLogger level)
  end.

(** Logger.With and Logger.WithGroup. *)
Inductive derivation := DAttrs (attrs : list (string * string)) | DGroup (name : string).
Definition derive {H S} `{!Handler H S} (d : derivation) (h : H) : H :=
  match d with DAttrs attrs => WithAttrs h attrs | DGroup name => WithGroup h name end.
Definition derived {H S} `{!Handler H S} (ds : list derivation) (h : H) : H := foldl (λ h d, derive d h) h ds.

(** ** What the tee keeps *)

Section TeeFacts.
Context {H2 T : Type} `{Hand : !Handler H2 (streams T)}.

(** A handler for errors alone: it writes nothing on standard error, does not
    panic, and is enabled for errors at most, however it is derived. *)
Class ErrorsOnly : Prop := {
  eo_stderr (h : H2) r s : stderr (snd (Handle h r s)) = stderr s;
  eo_panic (h : H2) r s p : fst (Handle h r s) ≠ Panic p;
  eo_enabled (h : H2) level : Enabled h level = true → level = LevelError }.
Context `{EO : !ErrorsOnly}.

Lemma derived_level ds : ∀ h : textHandler, th_level (derived (S := streams T) ds h) = th_level h.
Proof. induction ds as [|d ds IH]; intros h; [done|]. cbn. unfold derived in IH. rewrite IH. by destruct d. Qed.

Lemma derived_tee ds : ∀ h : teeHandler textHandler H2,
  derived (S := streams T) ds h = newTeeHandler (derived (S := streams T) ds (primary h)) (derived (S := streams T) ds (secondary h)).
Proof. unfold derived. induction ds as [|d ds IH]; intros [h1 h2]; [done|]. cbn. rewrite IH. by destruct d. Qed.

Lemma newLogger_errors level : th_level (newLogger level) ≤ LevelError.
Proof. unfold newLogger, LevelDebug, LevelWarn, LevelError, LevelInfo. cbn. repeat case_bool_decide; lia. Qed.

(** With Sentry configured standard error gets the same lines as without it,
    whatever Sentry does with a record; and an error is handed to it before the
    line is written. *)
Theorem tee_same_stderr level (sentry : H2) ds r (s : streams T) :
  let plain := derived (S := streams T) ds (newLogger level) in
  let teed := derived (S := streams T) ds (newTeeHandler (newLogger level) sentry) in
  stderr (snd (log teed r s)) = stderr (snd (log plain r s)) ∧
  (lr_level r = LevelError →
     log teed r s = log plain r (snd (Handle (derived (S := streams T) ds sentry) r s))).
Proof.
  intros plain teed. unfold teed. rewrite derived_tee. cbn [primary secondary]. fold plain.
  set (h2 := derived ds sentry). unfold log.
  change (Enabled (newTeeHandler plain h2) (lr_level r)) with ((th_level plain <=? lr_level r) || Enabled h2 (lr_level r)).
  change (Enabled plain (lr_level r)) with (th_level plain <=? lr_level r).
  assert (th_level plain ≤ LevelError) as Hlvl by (unfold plain; rewrite derived_level; apply newLogger_errors).
  assert (Enabled h2 (lr_level r) = true → (th_level plain <=? lr_level r) = true) as Hen.
  { intros ->%eo_enabled. by apply Z.leb_le. }
  assert (((th_level plain <=? lr_level r) || Enabled h2 (lr_level r)) = (th_level plain <=? lr_level r)) as ->.
  { destruct (th_level plain <=? lr_level r), (Enabled h2 (lr_level r)); try done. by specialize (Hen eq_refl). }
  pose proof (eo_stderr h2 r s) as Hs. pose proof (eo_panic h2 r s) as Hp.
  destruct (th_level plain <=? lr_level r) eqn:Hle; [|split; [done|]; intros Hr; rewrite Hr in Hle; apply Z.leb_gt in Hle; lia].
  rewrite !bind_eq. unfold attempt. cbn [Handle tee_handler text_handler]. unfold tee_Handle. cbn [primary secondary].
  rewrite bind_eq. unfold attempt.
  destruct (Handle h2 r s) as [[u|e|p] s1]; cbn [fst snd] in *; [..|by destruct (Hp p)]; cbn; by rewrite Hs.
Qed.
End TeeFacts.

(** A handler that keeps the errors, as Sentry's does with EventLevel set to
    errors and no LogLevel. *)
#[local] Instance event_handler : Handler unit (streams (list record)) := {|
  Enabled _ level := level =? LevelError;
  Handle _ r := modify (λ s, if lr_level r =? LevelError then mkStreams (stderr s) (other s ++ [r]) else s);
  WithAttrs h _ := h;
  WithGroup h _ := h |}.

#[local] Instance events_errors_only : ErrorsOnly (H2 := unit) (T := list record).
Proof.
  split; [|done|].
  - intros h r s. cbn. by destruct (_ =? _).
  - intros h level. cbn. by intros ->%Z.eqb_eq.
Qed.

Example tee_evaluated :
  let logged r := snd (log (newTeeHandler (newLogger "warn") tt) r (mkStreams [] [])) in
  let warning := mkRecord LevelWarn "live tick failed" [] in
  let failure := mkRecord LevelError "api server error" [] in
  logged (mkRecord LevelInfo "http request" []) = mkStreams [] [] ∧
  logged warning = mkStreams [(warning, [], [])] [] ∧ logged failure = mkStreams [(failure, [], [])] [failure].
Proof. done. Qed.
