(* ===== verification/GoTime.v ===== *)
(** * GoTime: float64 and time.Duration

    What config.go uses of floating point and of the package time. A float64 is an IEEE 754 binary64 value of the Standard
    Library's SpecFloat; a Duration is a number of nanoseconds. *)

From Stdlib Require Import SpecFloat.
From S2P Require Import Prelude GoStd.

(** ** float64 *)

Abbreviation float64 := spec_float.

Definition f64_of_Z (n : Z) : float64 := binary_normalize 53 1024 n 0 false.
Definition f64_mul (a b : float64) : float64 := SFmul 53 1024 a b.
Definition f64_div (a b : float64) : float64 := SFdiv 53 1024 a b.
Definition f64_is_zero (a : float64) : bool := match a with S754_zero _ => true | _ => false end.

(** [uint64(f)] of a value in range: truncation. *)
Definition f64_trunc (a : float64) : Z :=
  match a with
  | S754_finite s m e =>
      let v := if 0 <=? e then Z.pos m * 2 ^ e else Z.pos m / 2 ^ (- e) in if s then - v else v
  | _ => 0
  end.

(** ** time.ParseDuration *)

Definition quoted (s : string) : string := let q := String (byte_of 34) "" in q +:+ s +:+ q.
Definition dur_err (why s : string) : error := errors_New ("time: " +:+ why +:+ " " +:+ quoted s).

(** Digits up to a value above 2^63; [None] on overflow. *)
Fixpoint leadingInt (x : Z) (s : string) : option (Z * string) :=
  match s with
  | String a s' =>
      match digit_val a with
      | Some d =>
          if two63 / 10 <? x then None
          else let y := x * 10 + d in if two63 <? y then None else leadingInt y s'
      | None => Some (x, s)
      end
  | "" => Some (x, "")
  end.

(** The digits after the point: the value of those that fit, the power of ten
    they are to be divided by, the rest. *)
Fixpoint leadingFraction (x : Z) (scale : float64) (overflow : bool) (s : string) : Z * float64 * string :=
  match s with
  | String a s' =>
      match digit_val a with
      | Some d =>
          let y := x * 10 + d in
          if overflow || ((two63 - 1) / 10 <? x) || (two63 <? y) then leadingFraction x scale true s'
          else leadingFraction y (f64_mul scale (f64_of_Z 10)) false s'
      | None => (x, scale, s)
      end
  | "" => (x, scale, "")
  end.

(** The unit: everything up to the next digit or point. *)
Fixpoint span_unit (s : string) : string * string :=
  match s with
  | String a s' =>
      if match digit_val a with Some _ => true | None => bool_decide (a = "."%char) end then ("", s)
      else let '(u, r) := span_unit s' in (String a u, r)
  | "" => ("", "")
  end.

Definition unit_ns (u : string) : option Z :=
  if bool_decide (u = "ns") then Some 1
  else if bool_decide (u = "us") || bool_decide (u = "µs") || bool_decide (u = "μs") then Some 1000
  else if bool_decide (u = "ms") then Some 1000000
  else if bool_decide (u = "s") then Some 1000000000
  else if bool_decide (u = "m") then Some 60000000000
  else if bool_decide (u = "h") then Some 3600000000000
  else None.

(** One number with its unit, and the rest of the string. *)
Definition duration_term (orig s : string) : outcome (Z * string) :=
  let invalid := Err (dur_err "invalid duration" orig) in
  match s with
  | "" => invalid
  | String a _ =>
      if negb (match digit_val a with Some _ => true | None => bool_decide (a = "."%char) end) then invalid
      else match leadingInt 0 s with
      | None => invalid
      | Some (v, s1) =>
          let pre := negb (String.length s1 =? String.length s)%nat in
          let '(f, scale, s2, post) :=
            match s1 with
            | String "." t =>
                let '(f, scale, r) := leadingFraction 0 (f64_of_Z 1) false t in
                (f, scale, r, negb (String.length r =? String.length t)%nat)
            | _ => (0, f64_of_Z 1, s1, false)
            end in
          if negb pre && negb post then invalid
          else
            let '(u, rest) := span_unit s2 in
            if bool_decide (u = "") then Err (dur_err "missing unit in duration" orig)
            else match unit_ns u with
            | None => Err (dur_err ("unknown unit " +:+ quoted u +:+ " in duration") orig)
            | Some unit =>
                if two63 / unit <? v then invalid
                else
                  let v := v * unit +
                    (if 0 <? f then f64_trunc (f64_mul (f64_of_Z f) (f64_div (f64_of_Z unit) scale)) else 0) in
                  if two63 <? v then invalid else Ok (v, rest)
            end
      end
  end.

(** The loop of ParseDuration; every term takes at least one byte. *)
Fixpoint duration_terms (fuel : nat) (orig s : string) (d : Z) : outcome Z :=
  match s, fuel with
  | "", _ => Ok d
  | _, O => Err (dur_err "invalid duration" orig)
  | _, S fuel =>
      match duration_term orig s with
      | Ok (v, rest) =>
          if two63 <? d + v then Err (dur_err "invalid duration" orig) else duration_terms fuel orig rest (d + v)
      | Err e => Err e
      | Panic m => Panic m
      end
  end.

Definition ParseDuration (orig : string) : outcome Z :=
  let '(neg, s) :=
    match orig with String "-" t => (true, t) | String "+" t => (false, t) | _ => (false, orig) end in
  if bool_decide (s = "0") then Ok 0
  else if bool_decide (s = "") then Err (dur_err "invalid duration" orig)
  else match duration_terms (String.length s) orig s 0 with
  | Ok d => if neg then Ok (- d) else if two63 - 1 <? d then Err (dur_err "invalid duration" orig) else Ok d
  | Err e => Err e
  | Panic m => Panic m
  end.

Example parse_hms : ParseDuration "1h15m30.918273645s" = Ok 4530918273645.
Proof. vm_compute. done. Qed.
Example parse_neg : ParseDuration "-1.5ms" = Ok (-1500000).
Proof. vm_compute. done. Qed.
Example parse_no_unit : ParseDuration "30" = Err (dur_err "missing unit in duration" "30").
Proof. vm_compute. done. Qed.
