(* ===== verification/Config.v ===== *)
(** * Config: config/config.go

    The whole configuration, read from environment variables, validated, then
    completed with defaults. The variables are a function from names to values,
    the empty string for one that is not set, as os.Getenv has it.
    strconv.ParseFloat is a parameter: its value only goes to the rate limiter
    and to Sentry. *)

From Stdlib Require Import SpecFloat.
From S2P Require Import Prelude GoStd GoTime.

Class FloatText := { ParseFloat : string → option float64 }.

Definition second : Z := 1000000000.

(** ** The configuration *)

Record SentryConfig := mkSentryConfig {
  sc_DSN : string; sc_Environment : string; sc_Release : string; sc_SampleRate : float64 }.
Record BlobscanConfig := mkBlobscanConfig { bc_APIURL : string; bc_APIKey : string }.
Record NetworkConfig := mkNetworkConfig {
  nc_Name : string;
  nc_BeaconRPC : string;
  nc_ExecutionRPC : string;
  nc_BeaconTimeout : Z;
  nc_BeaconRateLimit : float64;
  nc_BeaconRateBurst : Z;
  nc_Beacon429Backoff : Z;
  nc_SlotsPerEpoch : Z;
  nc_SecondsPerSlot : Z }.
Record IPFSConfig := mkIPFSConfig {
  ic_APIAddr : string; ic_PinOnAdd : bool; ic_Timeout : Z; ic_SkipUpload : bool; ic_UploadWorkers : Z }.
Record StorageConfig := mkStorageConfig { st_DataDir : string; st_CARDir : string; st_PostgresDSN : string }.
Record GeneratorConfig := mkGeneratorConfig {
  gc_HAMTThreshold : Z;
  gc_PollInterval : Z;
  gc_StartEpoch : Z;
  gc_startEpochSet : bool;
  gc_Workers : Z;
  gc_BeaconWorkers : Z;
  gc_BackfillEpochWorkers : Z;
  gc_SkipExistingEpochs : bool;
  gc_APIListen : string;
  gc_NetworkRootPageSize : Z }.
Record Config := mkConfig {
  c_Network : NetworkConfig;
  c_IPFS : IPFSConfig;
  c_Storage : StorageConfig;
  c_Generator : GeneratorConfig;
  c_Blobscan : BlobscanConfig;
  c_Sentry : SentryConfig }.

(** ** Reading the environment *)

Section Env.
Context {FT : FloatText} (Getenv : string → string).

(** A variable that is set replaces the field if it parses: a string, an int,
    an unsigned number, a duration, a float. *)
Definition env_or {A} (parse : string → option A) (name : string) (old : A) : A :=
  let v := Getenv name in
  if bool_decide (v = "") then old else match parse v with Some x => x | None => old end.

Definition env_string := env_or Some.
Definition env_int := env_or (λ v, match Atoi v with (n, None) => Some n | _ => None end).
Definition env_duration := env_or (λ v, match ParseDuration v with Ok d => Some d | _ => None end).
Definition env_float := env_or ParseFloat.

(** [v == "true" || v == "1"]. *)
Definition env_true (name : string) : bool :=
  bool_decide (Getenv name = "true") || bool_decide (Getenv name = "1").

Definition applyEnv (c : Config) : Config :=
  let n := c_Network c in let i := c_IPFS c in let s := c_Storage c in
  let g := c_Generator c in let b := c_Blobscan c in let y := c_Sentry c in
  let start := env_or (λ v, match ParseUint v with Ok e => Some (Some e) | _ => None end) "GENERATOR_START_EPOCH" None in
  mkConfig
    (mkNetworkConfig (env_string "NETWORK_NAME" (nc_Name n)) (env_string "BEACON_RPC" (nc_BeaconRPC n))
       (env_string "EXECUTION_RPC" (nc_ExecutionRPC n)) (env_duration "BEACON_TIMEOUT" (nc_BeaconTimeout n))
       (env_float "BEACON_RATE_LIMIT" (nc_BeaconRateLimit n)) (env_int "BEACON_RATE_BURST" (nc_BeaconRateBurst n))
       (env_duration "BEACON_429_BACKOFF" (nc_Beacon429Backoff n)) (nc_SlotsPerEpoch n) (nc_SecondsPerSlot n))
    (mkIPFSConfig (env_string "IPFS_API_ADDR" (ic_APIAddr i)) (ic_PinOnAdd i) (ic_Timeout i)
       (env_true "IPFS_SKIP_UPLOAD" || ic_SkipUpload i) (env_int "IPFS_UPLOAD_WORKERS" (ic_UploadWorkers i)))
    (mkStorageConfig (env_string "DATA_DIR" (st_DataDir s)) (env_string "CAR_DIR" (st_CARDir s))
       (env_string "POSTGRES_DSN" (st_PostgresDSN s)))
    (mkGeneratorConfig (env_int "GENERATOR_HAMT_THRESHOLD" (gc_HAMTThreshold g))
       (env_duration "GENERATOR_POLL_INTERVAL" (gc_PollInterval g))
       (default (gc_StartEpoch g) start) (match start with Some _ => true | None => gc_startEpochSet g end)
       (env_int "GENERATOR_WORKERS" (gc_Workers g)) (env_int "GENERATOR_BEACON_WORKERS" (gc_BeaconWorkers g))
       (env_int "BACKFILL_EPOCH_WORKERS" (gc_BackfillEpochWorkers g))
       (env_true "GENERATOR_SKIP_EXISTING_EPOCHS" || gc_SkipExistingEpochs g)
       (env_string "GENERATOR_API_LISTEN" (gc_APIListen g)) (env_int "NETWORK_ROOT_PAGE_SIZE" (gc_NetworkRootPageSize g)))
    (mkBlobscanConfig (env_string "BLOBSCAN_API_URL" (bc_APIURL b)) (env_string "BLOBSCAN_API_KEY" (bc_APIKey b)))
    (mkSentryConfig (env_string "SENTRY_DSN" (sc_DSN y)) (env_string "SENTRY_ENVIRONMENT" (sc_Environment y))
       (env_string "SENTRY_RELEASE" (sc_Release y)) (env_float "SENTRY_SAMPLE_RATE" (sc_SampleRate y))).

(** ** Validation and defaults *)

Definition validate (c : Config) : option error :=
  if bool_decide (nc_Name (c_Network c) = "") then Some (errors_New "NETWORK_NAME is required")
  else if bool_decide (ic_APIAddr (c_IPFS c) = "") && negb (ic_SkipUpload (c_IPFS c)) then
    Some (errors_New "IPFS_API_ADDR is required (or set IPFS_SKIP_UPLOAD=true)")
  else if bool_decide (st_DataDir (c_Storage c) = "") then Some (errors_New "DATA_DIR is required")
  else
    let size := gc_NetworkRootPageSize (c_Generator c) in
    if negb (size =? 0) && (size <? 1000) then
      Some (errors_New ("NETWORK_ROOT_PAGE_SIZE must be >= 1000 (got " +:+ pretty size +:+ ")"))
    else None.

Definition networkChainParams (network : string) : Z * Z :=
  if bool_decide (network = "gnosis") then (16, 5) else (32, 12).

Definition dencunEpoch (network : string) : option Z :=
  if bool_decide (network = "mainnet") then Some 269568
  else if bool_decide (network = "sepolia") then Some 132608
  else if bool_decide (network = "gnosis") then Some 889856
  else if bool_decide (network = "hoodi") then Some 0
  else None.

(** A field that is still zero takes its default. *)
Definition or_default (d x : Z) : Z := if x =? 0 then d else x.
Definition str_or (d x : string) : string := if bool_decide (x = "") then d else x.
Definition float_or (d x : float64) : float64 := if f64_is_zero x then d else x.

Definition applyDefaults (c : Config) : Config :=
  let n := c_Network c in let i := c_IPFS c in let s := c_Storage c in let g := c_Generator c in let y := c_Sentry c in
  let chain :=
    if (nc_SlotsPerEpoch n =? 0) || (nc_SecondsPerSlot n =? 0) then networkChainParams (nc_Name n)
    else (nc_SlotsPerEpoch n, nc_SecondsPerSlot n) in
  mkConfig
    (mkNetworkConfig (nc_Name n) (nc_BeaconRPC n) (nc_ExecutionRPC n) (or_default (60 * second) (nc_BeaconTimeout n))
       (float_or (f64_of_Z 100) (nc_BeaconRateLimit n)) (or_default 32 (nc_BeaconRateBurst n))
       (or_default second (nc_Beacon429Backoff n)) (fst chain) (snd chain))
    (mkIPFSConfig (ic_APIAddr i)
       (negb (bool_decide (Getenv "IPFS_PIN_ON_ADD" = "false") || bool_decide (Getenv "IPFS_PIN_ON_ADD" = "0")))
       (or_default (30 * second) (ic_Timeout i)) (ic_SkipUpload i) (or_default 16 (ic_UploadWorkers i)))
    (mkStorageConfig (st_DataDir s) (str_or (st_DataDir s +:+ "/car") (st_CARDir s)) (st_PostgresDSN s))
    (mkGeneratorConfig (or_default 5000 (gc_HAMTThreshold g)) (or_default (to_i64 (snd chain * second)) (gc_PollInterval g))
       (if gc_startEpochSet g then gc_StartEpoch g else default (gc_StartEpoch g) (dencunEpoch (nc_Name n)))
       (gc_startEpochSet g) (or_default 16 (gc_Workers g)) (or_default 16 (gc_BeaconWorkers g))
       (or_default 4 (gc_BackfillEpochWorkers g)) (gc_SkipExistingEpochs g) (gc_APIListen g)
       (or_default 10000 (gc_NetworkRootPageSize g)))
    (c_Blobscan c)
    (mkSentryConfig (sc_DSN y) (str_or (nc_Name n) (sc_Environment y)) (sc_Release y)
       (float_or (f64_of_Z 1) (sc_SampleRate y))).

(** [&Config{}]. *)
Definition Config_zero : Config :=
  mkConfig (mkNetworkConfig "" "" "" 0 (S754_zero false) 0 0 0 0) (mkIPFSConfig "" false 0 false 0)
    (mkStorageConfig "" "" "") (mkGeneratorConfig 0 0 0 false 0 0 0 false "" 0) (mkBlobscanConfig "" "")
    (mkSentryConfig "" "" "" (S754_zero false)).

Definition Load : outcome Config :=
  let cfg := applyEnv Config_zero in
  match validate cfg with
  | Some e => Err (errorf_w "config" e)
  | None => Ok (applyDefaults cfg)
  end.
End Env.

(** ** Properties *)

(** What the rest of the program may rely on. *)
Record config_ok (c : Config) : Prop := {
  ok_name : nc_Name (c_Network c) ≠ "";
  ok_dirs : st_DataDir (c_Storage c) ≠ "" ∧ st_CARDir (c_Storage c) ≠ "";
  ok_ipfs : ic_SkipUpload (c_IPFS c) = true ∨ ic_APIAddr (c_IPFS c) ≠ "";
  ok_page : 1000 ≤ gc_NetworkRootPageSize (c_Generator c);
  ok_start : 0 ≤ gc_StartEpoch (c_Generator c) < two64;
  ok_chain : (nc_SlotsPerEpoch (c_Network c), nc_SecondsPerSlot (c_Network c)) = networkChainParams (nc_Name (c_Network c));
  ok_counts : Forall (λ x, x ≠ 0) [gc_Workers (c_Generator c); gc_BeaconWorkers (c_Generator c);
    gc_BackfillEpochWorkers (c_Generator c); ic_UploadWorkers (c_IPFS c); gc_HAMTThreshold (c_Generator c);
    nc_BeaconRateBurst (c_Network c)];
  ok_times : Forall (λ d, d ≠ 0) [gc_PollInterval (c_Generator c); nc_BeaconTimeout (c_Network c);
    nc_Beacon429Backoff (c_Network c); ic_Timeout (c_IPFS c)];
  ok_rate : f64_is_zero (nc_BeaconRateLimit (c_Network c)) = false ∧ f64_is_zero (sc_SampleRate (c_Sentry c)) = false }.

Lemma or_default_nonzero d x : d ≠ 0 → or_default d x ≠ 0.
Proof. unfold or_default. zcases. Qed.

Lemma chain_seconds network :
  to_i64 (snd (networkChainParams network) * second) = snd (networkChainParams network) * second.
Proof. unfold networkChainParams. by case_bool_decide. Qed.

Lemma chain_positive network : snd (networkChainParams network) * second ≠ 0.
Proof. unfold networkChainParams. by case_bool_decide. Qed.

Lemma float_or_nonzero d x : f64_is_zero d = false → f64_is_zero (float_or d x) = false.
Proof. unfold float_or. by destruct (f64_is_zero x) eqn:?. Qed.

Lemma parse_digits_range limit acc s n :
  0 ≤ acc < limit → parse_digits limit acc s = inr n → 0 ≤ n < limit.
Proof.
  revert acc. induction s as [|a s IH]; intros acc Ha; cbn; [by intros [= <-]|].
  destruct (digit_val a) as [d|] eqn:Hd; [|done]. destruct (Z.leb_spec limit (acc * 10 + d)); [done|].
  apply IH. unfold digit_val in Hd. destruct (_ && _) eqn:Hb; [|done]. injection Hd as <-.
  apply andb_true_iff in Hb as [?%Z.leb_le _]. lia.
Qed.

Lemma ParseUint_range s n : ParseUint s = Ok n → 0 ≤ n < two64.
Proof.
  unfold ParseUint. destruct s as [|a s]; [done|].
  destruct (parse_digits two64 0 (String a s)) as [[]|x] eqn:Hp; [done|done|]. intros [= <-].
  eapply parse_digits_range; [|exact Hp]. unfold two64. lia.
Qed.

Section Properties.
Context {FT : FloatText} (Getenv : string → string).

Abbreviation page_size := (env_int Getenv "NETWORK_ROOT_PAGE_SIZE" 0).

(** The value a variable gives, or the default when it is unset, does not
    parse, or is zero. *)
Definition setting (parse : string → option Z) (d : Z) (name : string) : Z :=
  or_default d (env_or Getenv parse name 0).

Lemma start_range :
  0 ≤ default 0 (env_or Getenv (λ v, match ParseUint v with Ok e => Some (Some e) | _ => None end)
    "GENERATOR_START_EPOCH" None) < two64.
Proof.
  unfold env_or. case_bool_decide; [unfold two64; cbn; lia|].
  destruct (ParseUint _) eqn:Hp; cbn; [by eapply ParseUint_range|unfold two64; lia..].
Qed.

Lemma dencun_range network e : dencunEpoch network = Some e → 0 ≤ e < two64.
Proof. unfold dencunEpoch, two64. repeat case_bool_decide; intros [= <-]; lia. Qed.

Lemma Load_Ok c : Load Getenv = Ok c →
  c = applyDefaults Getenv (applyEnv Getenv Config_zero) ∧ validate (applyEnv Getenv Config_zero) = None.
Proof. unfold Load. destruct (validate _) eqn:Hv; [done|]. by intros [= <-]. Qed.

Lemma Load_workers c : Load Getenv = Ok c →
  gc_Workers (c_Generator c) =
    setting (λ v, match Atoi v with (n, None) => Some n | _ => None end) 16 "GENERATOR_WORKERS".
Proof. by intros [-> _]%Load_Ok. Qed.

Lemma Load_config_ok c : Load Getenv = Ok c → config_ok c.
Proof.
  intros [-> Hv]%Load_Ok. unfold validate in Hv. cbn -[env_or] in Hv.
  case_bool_decide as Hname; [done|]. destruct (_ && _) eqn:Hipfs in Hv; [done|].
  case_bool_decide as Hdir; [done|]. destruct (_ && _) eqn:Hpage in Hv; [done|].
  split; cbn -[env_or second Z.mul networkChainParams dencunEpoch]; try done.
  - split; [done|]. unfold str_or.
    destruct (bool_decide_reflect (env_string Getenv "CAR_DIR" "" = "")); [|done].
    by destruct (env_string Getenv "DATA_DIR" "").
  - apply andb_false_iff in Hipfs as [Hi|Hi]; [right; by apply bool_decide_eq_false in Hi|left].
    by apply negb_false_iff in Hi.
  - unfold or_default. destruct (Z.eqb_spec page_size 0); [lia|].
    by apply Z.ltb_ge in Hpage.
  - pose proof start_range as Hs. destruct (env_or _ _ _ _); cbn in *; [done|].
    destruct (dencunEpoch _) eqn:Hd; cbn; [by eapply dencun_range|done].
  - by destruct (networkChainParams _).
  - rewrite !Forall_cons. split_and!; [by apply or_default_nonzero..|done].
  - rewrite !Forall_cons. split_and!; [|by apply or_default_nonzero|by apply or_default_nonzero|done|done].
    apply or_default_nonzero. rewrite chain_seconds. apply chain_positive.
  - split; by apply float_or_nonzero.
Qed.

(** C35. A configuration that Load returns is complete: the network and the
    directories are named, there is an IPFS address unless uploads are off,
    pages have at least 1000 epochs, the start epoch is a 64-bit number, the
    slots per epoch and seconds per slot are those of the network, and no
    worker count, interval, timeout or rate is left at zero. *)
Theorem Load_complete c : Load Getenv = Ok c → config_ok c.
Proof. apply Load_config_ok. Qed.

(** Load fails exactly when the network or the data directory is not
    named, there is no IPFS address while uploads are on, or the page size is a
    number other than 0 below 1000; no other variable can make it fail. *)
Theorem Load_succeeds_iff :
  (∃ c, Load Getenv = Ok c) ↔
  Getenv "NETWORK_NAME" ≠ "" ∧ Getenv "DATA_DIR" ≠ "" ∧
  (Getenv "IPFS_API_ADDR" ≠ "" ∨ Getenv "IPFS_SKIP_UPLOAD" = "true" ∨ Getenv "IPFS_SKIP_UPLOAD" = "1") ∧
  (page_size = 0 ∨ 1000 ≤ page_size).
Proof.
  assert (∀ n, env_string Getenv n "" = Getenv n) as Hs.
  { intros n. unfold env_string, env_or. by case_bool_decide. }
  unfold Load, validate. cbn -[env_int]. rewrite !Hs. unfold env_true. rewrite orb_false_r.
  destruct (Z.eqb_spec page_size 0), (Z.ltb_spec page_size 1000);
    repeat case_bool_decide; cbn -[env_int]; split; intros Hx; try (by destruct Hx); try (by eexists); naive_solver lia.
Qed.

(** Every count and interval of a loaded configuration is the value its
    variable parses to, or the documented default when the variable is unset,
    does not parse or is zero; the start epoch is the one given, 0 included,
    and otherwise the network's first epoch with blobs. *)
Theorem Load_settings c : Load Getenv = Ok c →
  let int v := match Atoi v with (n, None) => Some n | _ => None end in
  let dur v := match ParseDuration v with Ok d => Some d | _ => None end in
  gc_Workers (c_Generator c) = setting int 16 "GENERATOR_WORKERS" ∧
  gc_BeaconWorkers (c_Generator c) = setting int 16 "GENERATOR_BEACON_WORKERS" ∧
  gc_BackfillEpochWorkers (c_Generator c) = setting int 4 "BACKFILL_EPOCH_WORKERS" ∧
  gc_HAMTThreshold (c_Generator c) = setting int 5000 "GENERATOR_HAMT_THRESHOLD" ∧
  gc_NetworkRootPageSize (c_Generator c) = setting int 10000 "NETWORK_ROOT_PAGE_SIZE" ∧
  ic_UploadWorkers (c_IPFS c) = setting int 16 "IPFS_UPLOAD_WORKERS" ∧
  nc_BeaconTimeout (c_Network c) = setting dur (60 * second) "BEACON_TIMEOUT" ∧
  nc_Beacon429Backoff (c_Network c) = setting dur second "BEACON_429_BACKOFF" ∧
  gc_PollInterval (c_Generator c) =
    setting dur (nc_SecondsPerSlot (c_Network c) * second) "GENERATOR_POLL_INTERVAL" ∧
  ic_Timeout (c_IPFS c) = 30 * second ∧
  gc_StartEpoch (c_Generator c) =
    match ParseUint (Getenv "GENERATOR_START_EPOCH") with
    | Ok e => e
    | _ => default 0 (dencunEpoch (Getenv "NETWORK_NAME"))
    end.
Proof.
  intros [-> _]%Load_Ok. cbv zeta. split_and!; try done.
  - unfold setting. cbn -[env_or second Z.mul networkChainParams].
    by rewrite chain_seconds.
  - cbn -[dencunEpoch]. unfold env_string, env_or. destruct (bool_decide_reflect (Getenv "GENERATOR_START_EPOCH" = "")) as [->|_].
    + cbn. destruct (bool_decide_reflect (Getenv "NETWORK_NAME" = "")) as [->|_]; done.
    + destruct (ParseUint _); cbn -[dencunEpoch]; [done|..]; case_bool_decide as Hn; try done; by rewrite Hn.
Qed.
End Properties.

(** ** The properties at concrete inputs *)

#[local] Instance demo_float : FloatText := {| ParseFloat v := if bool_decide (v = "50") then Some (f64_of_Z 50) else None |}.

Definition demo_vars (vars : list (string * string)) (name : string) : string :=
  default "" (list_to_map (M := gmap string string) vars !! name).
Definition demo_environment : string → string :=
  demo_vars [("NETWORK_NAME", "gnosis"); ("DATA_DIR", "/data"); ("IPFS_SKIP_UPLOAD", "1"); ("BEACON_RATE_LIMIT", "50");
    ("GENERATOR_WORKERS", "8"); ("IPFS_TIMEOUT", "5m"); ("BEACON_TIMEOUT", "1m30s"); ("BEACON_RATE_BURST", "many")].
Definition demo_loaded : Config := applyDefaults demo_environment (applyEnv demo_environment Config_zero).

Lemma demo_Load : Load demo_environment = Ok demo_loaded.
Proof. vm_compute. reflexivity. Qed.

Lemma Load_complete_witness : Load demo_environment = Ok demo_loaded ∧ config_ok demo_loaded.
Proof. split; [exact demo_Load|exact (Load_complete demo_environment demo_loaded demo_Load)]. Defined.

(** The documented IPFS_TIMEOUT is not read: the timeout stays at 30 s. *)
Lemma Load_settings_witness :
  gc_Workers (c_Generator demo_loaded) = 8 ∧ gc_BeaconWorkers (c_Generator demo_loaded) = 16 ∧
  nc_BeaconTimeout (c_Network demo_loaded) = 90 * second ∧ ic_Timeout (c_IPFS demo_loaded) = 30 * second ∧
  gc_PollInterval (c_Generator demo_loaded) = 5 * second ∧ gc_StartEpoch (c_Generator demo_loaded) = 889856.
Proof.
  destruct (Load_settings demo_environment demo_loaded demo_Load)
    as (Hw & Hb & _ & _ & _ & _ & Ht & _ & Hp & Hi & Hs).
  split; [rewrite Hw; vm_compute; reflexivity|]. split; [rewrite Hb; vm_compute; reflexivity|].
  split; [rewrite Ht; vm_compute; reflexivity|]. split; [exact Hi|].
  split; [rewrite Hp; vm_compute; reflexivity|rewrite Hs; vm_compute; reflexivity].
Defined.
