(* ===== verification/CliUtil.v ===== *)
(** * CliUtil: the helpers of cmd/blobscan-ipld/main.go

    Sorting, deduplicating and collapsing lists of epochs, samples for the
    report, number formatting. *)

From S2P Require Import Prelude GoStd.

(** ** Lists of epochs *)

(** The inner loop of sortUint64: the element at [j] moves down past the
    greater ones. *)
Fixpoint sift (j : nat) (a : list Z) : list Z :=
  match j with
  | O => a
  | S j' =>
      match a !! j, a !! j' with
      | Some x, Some y => if x <? y then sift j' (<[j' := x]> (<[j := y]> a)) else a
      | _, _ => a
      end
  end.
Definition sortUint64 (a : list Z) : list Z := foldl (λ a i, sift i a) a (seq 1 (length a - 1)).

(** The loop of dedupUint64 over the values not seen yet. *)
Fixpoint dedup_from (seen : gset Z) (l : list Z) : list Z :=
  match l with
  | [] => []
  | v :: l => if bool_decide (v ∈ seen) then dedup_from seen l else v :: dedup_from ({[v]} ∪ seen) l
  end.
Definition dedupUint64 (l : list Z) : list Z := sortUint64 (dedup_from ∅ l).

(** The loop of collapseRanges, at the range [first, last]. *)
Fixpoint collapse_from (first last : Z) (l : list Z) : list (Z * Z) :=
  match l with
  | [] => [(first, last)]
  | e :: l => if e =? u64_add last 1 then collapse_from first e l else (first, last) :: collapse_from e e l
  end.
Definition collapseRanges (epochs : list Z) : list (Z * Z) :=
  match dedupUint64 epochs with
  | [] => []
  | e :: l => collapse_from e e l
  end.

(** [epochs[:n]] with Go's bounds check: a negative [n] panics. *)
Definition capSamples (epochs : list Z) (n : Z) : outcome (list Z) :=
  if Z.of_nat (length epochs) <=? n then Ok epochs
  else if n <? 0 then Panic "slice bounds out of range" else Ok (take (Z.to_nat n) epochs).

Definition firstN (s : list Z) (n : nat) : list Z := if (n <? length s)%nat then take n s else s.

(** ** Text *)

Definition pluralS (n : Z) : string := if n =? 1 then "" else "s".

Definition formatEpochSamples (epochs : list Z) (max : Z) : outcome string :=
  shown ← capSamples epochs max;
  let s := Join (FormatUint <$> shown) " · " in
  let len := Z.of_nat (length epochs) in
  Ok (if max <? len then s +:+ " … +" +:+ pretty (len - max) else s).

(** A comma before each digit that has a multiple of three digits from itself
    on, except the first. *)
Fixpoint with_commas (first : bool) (s : string) : string :=
  match s with
  | "" => ""
  | String ch s' =>
      (if negb first && (String.length s mod 3 =? 0)%nat then "," else "") +:+ String ch (with_commas false s')
  end.

(** The negation of the least int64 is itself: the recursion never ends. *)
Definition formatCount (n : Z) : outcome string :=
  if n <? 0 then
    let m := to_i64 (- n) in
    if m <? 0 then Panic "stack overflow" else Ok ("-" +:+ with_commas true (FormatUint m))
  else Ok (with_commas true (FormatUint n)).

(** ** sortUint64 sorts *)

Lemma insert_at_middle {A} (p : list A) x y s : <[length p := y]> (p ++ x :: s) = p ++ y :: s.
Proof. induction p as [|z p IH]; cbn; [done|]. change (z :: <[length p := y]> (p ++ x :: s) = z :: p ++ y :: s). by rewrite IH. Qed.

Lemma sift_spec p : ∀ x s, StronglySorted Z.le p →
  ∃ q, sift (length p) (p ++ x :: s) = q ++ s ∧ q ≡ₚ p ++ [x] ∧ StronglySorted Z.le q.
Proof.
  induction p as [|y p IH] using rev_ind; intros x s Hp.
  { exists [x]. split_and!; [done|done|by repeat constructor]. }
  rewrite length_app, Nat.add_1_r. cbn [sift].
  rewrite <- app_assoc. cbn [app].
  assert ((p ++ y :: x :: s) !! S (length p) = Some x) as ->.
  { rewrite lookup_app_r by lia. by replace (S (length p) - length p)%nat with 1%nat by lia. }
  assert ((p ++ y :: x :: s) !! length p = Some y) as -> by (by apply list_lookup_middle).
  apply StronglySorted_app in Hp as (Hyp & Hp & _).
  assert (Forall (λ z, z ≤ y) p) as Hle by (apply Forall_forall; intros z Hz; apply Hyp; [done|by left]).
  destruct (Z.ltb_spec x y).
  - replace (<[length p := x]> (<[S (length p) := y]> (p ++ y :: x :: s))) with (p ++ x :: y :: s).
    2:{ replace (p ++ y :: x :: s) with ((p ++ [y]) ++ x :: s) by (by rewrite <- app_assoc).
        replace (S (length p)) with (length (p ++ [y])) by (rewrite length_app; cbn; lia).
        rewrite insert_at_middle, <- app_assoc. cbn. by rewrite insert_at_middle. }
    destruct (IH x (y :: s) Hp) as (q & -> & Hq & Hs).
    exists (q ++ [y]). split_and!; [by rewrite <- app_assoc|rewrite Hq, <- !app_assoc; f_equiv; apply Permutation_swap|].
    apply StronglySorted_app. split_and!; [|done|by repeat constructor].
    intros a b Ha ->%list_elem_of_singleton. rewrite Hq in Ha. apply elem_of_app in Ha as [Ha| ->%list_elem_of_singleton]; [|lia].
    rewrite Forall_forall in Hle. by apply Hle.
  - exists (p ++ [y; x]). split_and!; [by rewrite <- app_assoc|by rewrite <- app_assoc|].
    apply StronglySorted_app. split_and!; [|done|repeat constructor; lia].
    rewrite Forall_forall in Hle. intros a b Ha Hb. specialize (Hle a Ha).
    apply elem_of_cons in Hb as [->|Hb]; [lia|]. apply list_elem_of_singleton in Hb as ->. lia.
Qed.

Lemma sort_from l : ∀ i a p s, a = p ++ s → length p = i → length s = length l → l = seq i (length s) →
  StronglySorted Z.le p → foldl (λ a i, sift i a) a l ≡ₚ a ∧ StronglySorted Z.le (foldl (λ a i, sift i a) a l).
Proof.
  induction l as [|k l IH]; intros i a p s -> <- Hlen Hl Hp.
  - destruct s; [|done]. rewrite app_nil_r. cbn. done.
  - destruct s as [|x s]; [done|]. cbn in Hlen, Hl. injection Hl as -> Hl. cbn [foldl].
    destruct (sift_spec p x s Hp) as (q & -> & Hq & Hs).
    assert (length q = S (length p)) as Hlq by (rewrite Hq, length_app; cbn; lia).
    destruct (IH (S (length p)) (q ++ s) q s) as [H1 H2]; [done|done|lia|done|done|].
    split; [|done]. rewrite H1, Hq, <- app_assoc. done.
Qed.

Lemma sortUint64_spec a : sortUint64 a ≡ₚ a ∧ StronglySorted Z.le (sortUint64 a).
Proof.
  unfold sortUint64. destruct a as [|x a]; [by split; [|constructor]|].
  apply (sort_from (seq 1 (length (x :: a) - 1)) 1 (x :: a) [x] a); [done|done| | |by repeat constructor].
  - rewrite length_seq. cbn. lia.
  - f_equal. cbn. lia.
Qed.

(** ** Distinct epochs and their ranges *)

Lemma dedup_from_spec l : ∀ seen, NoDup (dedup_from seen l) ∧ ∀ x, x ∈ dedup_from seen l ↔ x ∈ l ∧ x ∉ seen.
Proof.
  induction l as [|v l IH]; intros seen; cbn; [split; [constructor|intros x; rewrite elem_of_nil; naive_solver]|].
  case_bool_decide as Hv.
  - destruct (IH seen) as [Hnd Hx]. split; [done|]. intros x. rewrite Hx, elem_of_cons. naive_solver.
  - destruct (IH ({[v]} ∪ seen)) as [Hnd Hx]. split.
    + apply NoDup_cons. split; [|done]. rewrite Hx. set_solver.
    + intros x. rewrite elem_of_cons, Hx, elem_of_cons. destruct (decide (x = v)); set_solver.
Qed.

Lemma dedupUint64_spec l :
  NoDup (dedupUint64 l) ∧ StronglySorted Z.le (dedupUint64 l) ∧ ∀ x, x ∈ dedupUint64 l ↔ x ∈ l.
Proof.
  unfold dedupUint64. destruct (sortUint64_spec (dedup_from ∅ l)) as [Hp Hs].
  destruct (dedup_from_spec l ∅) as [Hnd Hx]. split_and!; [by rewrite Hp|done|].
  intros x. rewrite Hp, Hx. set_solver.
Qed.

Definition in_range (e : Z) (r : Z * Z) : Prop := fst r ≤ e ≤ snd r.

(** Ranges in order, with at least one epoch between each two. *)
Definition apart (a b : Z * Z) : Prop := snd a + 1 < fst b.

Lemma collapse_from_spec l : ∀ first last,
  first ≤ last → is_u64 last → Forall is_u64 l → StronglySorted Z.lt (last :: l) →
  (∀ e, Exists (in_range e) (collapse_from first last l) ↔ first ≤ e ≤ last ∨ e ∈ l) ∧
  Forall (λ r, first ≤ fst r ≤ snd r) (collapse_from first last l) ∧
  StronglySorted apart (collapse_from first last l).
Proof.
  induction l as [|x l IH]; intros first last Hle Hlast Hl Hs; cbn [collapse_from].
  { split_and!; [|by repeat constructor|by repeat constructor]. intros e.
    rewrite Exists_cons, Exists_nil, elem_of_nil. unfold in_range. cbn. tauto. }
  apply Forall_cons in Hl as [Hx Hl]. apply StronglySorted_inv in Hs as [Hs [Hlt Hall]%Forall_cons].
  assert (u64_add last 1 = last + 1) as Hu by (apply wrap64_id; unfold is_u64 in *; lia). rewrite Hu.
  destruct (Z.eqb_spec x (last + 1)) as [->|Hne].
  - destruct (IH first (last + 1) ltac:(lia) Hx Hl Hs) as (H1 & H2 & H3). split_and!; [|done|done].
    intros e. rewrite H1, elem_of_cons. split.
    + intros [?|?]; [|by right; right]. destruct (decide (e = last + 1)); [by right; left|left; lia].
    + intros [?|[->|?]]; [left; lia|left; lia|by right].
  - destruct (IH x x ltac:(lia) Hx Hl Hs) as (H1 & H2 & H3). split_and!.
    + intros e. rewrite Exists_cons, H1, elem_of_cons. unfold in_range. cbn.
      assert (x ≤ e ≤ x ↔ e = x) as -> by lia. tauto.
    + constructor; [cbn; lia|]. eapply Forall_impl; [exact H2|]. cbn. intros r Hr. lia.
    + constructor; [done|]. eapply Forall_impl; [exact H2|]. unfold apart. cbn. intros r Hr. lia.
Qed.

Lemma strictly_sorted l : NoDup l → StronglySorted Z.le l → StronglySorted Z.lt l.
Proof.
  induction 2 as [|x l Hs IH Hall]; [constructor|]. apply NoDup_cons in H as [Hx Hnd]. constructor; [auto|].
  rewrite Forall_forall in *. intros y Hy. specialize (Hall y Hy). assert (x ≠ y) by (intros ->; done). lia.
Qed.

(** The repair command's ranges are exact: an epoch is in one of the ranges
    that collapseRanges returns exactly when it is in the list, however the
    list is ordered and whatever it repeats; no range is empty, they are in
    order, and no two of them could be joined. *)
Theorem collapseRanges_exact (epochs : list Z) : Forall is_u64 epochs →
  (∀ e, e ∈ epochs ↔ Exists (in_range e) (collapseRanges epochs)) ∧
  Forall (λ r, fst r ≤ snd r) (collapseRanges epochs) ∧ StronglySorted apart (collapseRanges epochs).
Proof.
  intros Hu. unfold collapseRanges. destruct (dedupUint64_spec epochs) as (Hnd & Hs & Hx).
  pose proof (strictly_sorted _ Hnd Hs) as Hlt.
  assert (Forall is_u64 (dedupUint64 epochs)) as Hall.
  { rewrite Forall_forall in *. intros x Hin. apply Hu, Hx, Hin. }
  destruct (dedupUint64 epochs) as [|e l].
  { split_and!; [|constructor|constructor]. intros e. rewrite <- Hx, elem_of_nil, Exists_nil. done. }
  apply Forall_cons in Hall as [He Hl].
  destruct (collapse_from_spec l e e ltac:(lia) He Hl Hlt) as (H1 & H2 & H3). split_and!; [| |done].
  - intros x. rewrite <- Hx, H1, elem_of_cons. assert (e ≤ x ≤ e ↔ x = e) as -> by lia. done.
  - eapply Forall_impl; [exact H2|]. cbn. lia.
Qed.

Lemma collapseRanges_exact_witness :
  collapseRanges [12; 10; 11; 20; 10; 15] = [(10, 12); (15, 15); (20, 20)] ∧
  ∀ e, e ∈ [12; 10; 11; 20; 10; 15] ↔ Exists (in_range e) [(10, 12); (15, 15); (20, 20)].
Proof.
  split; [vm_compute; reflexivity|]. apply (collapseRanges_exact [12; 10; 11; 20; 10; 15]). repeat constructor; cbn; unfold two64; lia.
Defined.

(** ** Thousands separators *)

Fixpoint drop_commas (s : string) : string :=
  match s with
  | "" => ""
  | String a s' => if bool_decide (a = ","%char) then drop_commas s' else String a (drop_commas s')
  end.

Fixpoint has_comma (s : string) : bool :=
  match s with "" => false | String a s' => bool_decide (a = ","%char) || has_comma s' end.

Lemma with_commas_drop s : ∀ first, has_comma s = false → drop_commas (with_commas first s) = s.
Proof.
  induction s as [|a s IH]; intros first Hc; [done|]. cbn [has_comma] in Hc. apply orb_false_iff in Hc as [Ha Hc].
  assert (∀ t, drop_commas (String a t) = String a (drop_commas t)) as Hd by (intros t; cbn [drop_commas]; by rewrite Ha).
  cbn [with_commas]. destruct (_ && _).
  - change (drop_commas (String a (with_commas false s)) = String a s). by rewrite Hd, IH.
  - change (drop_commas (String a (with_commas false s)) = String a s). by rewrite Hd, IH.
Qed.

Lemma pretty_go_no_comma x s : has_comma s = false → has_comma (pretty_N_go x s) = false.
Proof.
  revert s. induction (N.lt_wf_0 x) as [x _ IH]; intros s Hs.
  destruct (decide (x = 0%N)) as [->|Hx]; [by rewrite pretty_N_go_0|].
  rewrite pretty_N_go_step by lia. apply IH; [apply N.div_lt; lia|]. cbn [has_comma]. rewrite Hs, orb_false_r.
  apply bool_decide_eq_false. intros Hc.
  pose proof (pretty_N_char_digit (x mod 10) ltac:(apply N.mod_lt; lia)) as Hd. by rewrite Hc in Hd.
Qed.

(** Without its separators a formatted count is the number. *)
Lemma formatCount_digits n : 0 ≤ n → ∃ s, formatCount n = Ok s ∧ drop_commas s = FormatUint n.
Proof.
  intros Hn. unfold formatCount. rewrite (proj2 (Z.ltb_ge n 0)) by done. eexists. split; [done|].
  apply with_commas_drop. unfold FormatUint.
  assert (pretty n = pretty (Z.to_N n)) as -> by (by destruct n).
  unfold pretty, pretty_N. case_decide; [done|]. by apply pretty_go_no_comma.
Qed.

Example formatCount_1234567 : formatCount 1234567 = Ok "1,234,567".
Proof. vm_compute. done. Qed.

(** The one int64 that formatCount cannot format. *)
Lemma formatCount_min : formatCount (- two63) = Panic "stack overflow".
Proof. vm_compute. done. Qed.
