(* ===== verification/Flags.v ===== *)
(** * Flags: how the command line is read

    The part of package flag the commands use (FlagSet.Parse with ExitOnError,
    with strconv's base-0 integers), the flags of every subcommand, and main up
    to the choice of the subcommand. *)

From S2P Require Import Prelude GoStd GoTime.

(** ** strconv with base 0 *)

(** [c | ('x' - 'X')]. *)
Definition lower (a : ascii) : Z := Z.lor (byte_val a) 32.

Definition is_digit (a : ascii) : bool := (48 <=? byte_val a) && (byte_val a <=? 57).
Definition is_letter (a : ascii) : bool := (97 <=? lower a) && (lower a <=? 122).
Definition underscore : ascii := "_".

(** The value of a digit of any base, below 36. *)
Definition base_digit (a : ascii) : option Z :=
  if is_digit a then Some (byte_val a - 48)
  else if is_letter a then Some (lower a - 97 + 10)
  else None.

(** The base a number's prefix asks for, and what is left to read. *)
Definition base_prefix (s : string) : Z * string :=
  match s with
  | String "0" (String p (String _ _ as rest)) =>
      if lower p =? 98 then (2, rest)
      else if lower p =? 111 then (8, rest)
      else if lower p =? 120 then (16, rest)
      else (8, String p rest)
  | String "0" rest => (8, rest)
  | _ => (10, s)
  end.

(** The digit loop; with the value, whether it met an underscore. *)
Fixpoint base_digits (base acc : Z) (seen : bool) (s : string) : option (Z * bool) :=
  match s with
  | "" => Some (acc, seen)
  | String a s' =>
      if bool_decide (a = underscore) then base_digits base acc true s'
      else match base_digit a with
           | Some d =>
               if base <=? d then None
               else if two64 <=? acc * base + d then None
               else base_digits base (acc * base + d) seen s'
           | None => None
           end
  end.

(** What the last byte was: a digit (or a base prefix), an underscore, or
    something else. *)
Inductive last_seen := SawDigit | SawUnderscore | SawOther.

Fixpoint underscore_from (hex : bool) (saw : last_seen) (s : string) : bool :=
  match s with
  | "" => match saw with SawUnderscore => false | _ => true end
  | String a s' =>
      if is_digit a || hex && (97 <=? lower a) && (lower a <=? 102) then underscore_from hex SawDigit s'
      else if bool_decide (a = underscore) then
        match saw with SawDigit => underscore_from hex SawUnderscore s' | _ => false end
      else match saw with SawUnderscore => false | _ => underscore_from hex SawOther s' end
  end.

Definition underscoreOK (s : string) : bool :=
  let s := match s with String "-" t | String "+" t => t | _ => s end in
  match s with
  | String "0" (String p rest) =>
      if (lower p =? 98) || (lower p =? 111) || (lower p =? 120)
      then underscore_from (lower p =? 120) SawDigit rest
      else underscore_from false SawOther s
  | _ => underscore_from false SawOther s
  end.

(** [strconv.ParseUint(s, 0, 64)] and [strconv.ParseInt(s, 0, 64)], without the
    text of their errors. *)
Definition ParseUint0 (s : string) : option Z :=
  match s with
  | "" => None
  | _ =>
      let '(base, rest) := base_prefix s in
      match base_digits base 0 false rest with
      | Some (n, underscores) => if underscores && negb (underscoreOK s) then None else Some n
      | None => None
      end
  end.

Definition ParseInt0 (s : string) : option Z :=
  let '(neg, t) := match s with String "-" t => (true, t) | String "+" t => (false, t) | _ => (false, s) end in
  match ParseUint0 t with
  | Some n =>
      if neg then (if two63 <? n then None else Some (- n))
      else if two63 <=? n then None else Some n
  | None => None
  end.

Definition ParseBool (s : string) : option bool :=
  if bool_decide (s ∈ ["1"; "t"; "T"; "TRUE"; "true"; "True"]) then Some true
  else if bool_decide (s ∈ ["0"; "f"; "F"; "FALSE"; "false"; "False"]) then Some false
  else None.

(** ** FlagSet *)

Inductive flag_value :=
  | FBool (b : bool)
  | FInt (n : Z)
  | FUint64 (n : Z)
  | FString (s : string)
  | FDuration (ns : Z).

(** The flags that are defined, with their current values. *)
Abbreviation FlagSet := (gmap string flag_value).

(** [flag.Value.Set]: the value keeps its kind. *)
Definition flag_Set (v : flag_value) (s : string) : option flag_value :=
  match v with
  | FBool _ => FBool <$> ParseBool s
  | FInt _ => FInt <$> ParseInt0 s
  | FUint64 _ => FUint64 <$> ParseUint0 s
  | FString _ => Some (FString s)
  | FDuration _ => match ParseDuration s with Ok d => Some (FDuration d) | _ => None end
  end.

Definition is_bool_flag (v : flag_value) : bool := match v with FBool _ => true | _ => false end.

(** The name and, after an equals sign that is not the first byte, the value. *)
Fixpoint split_equals (s : string) : string * option string :=
  match s with
  | "" => ("", None)
  | String "=" rest => ("", Some rest)
  | String a rest => let '(name, v) := split_equals rest in (String a name, v)
  end.

Definition flag_parts (name : string) : string * option string :=
  match name with
  | "" => ("", None)
  | String a rest => let '(n, v) := split_equals rest in (String a n, v)
  end.

(** What an argument is: the end of the flags (the rest starts here, or after
    it for a double dash), a malformed flag, or a flag. *)
Inductive arg_kind := Stop | StopAfter | Malformed | IsFlag (name : string).

Definition arg_of (s : string) : arg_kind :=
  match s with
  | String "-" "-" => StopAfter
  | String "-" (String "-" name) | String "-" name =>
      match name with
      | "" => Stop
      | String "-" _ | String "=" _ => Malformed
      | _ => IsFlag name
      end
  | _ => Stop
  end.

(** What Parse ends with: the process exits, or the values and the arguments
    that are left. *)
Inductive parse_end := ParseExit (code : Z) | Parsed (fs : FlagSet) (rest : list string).

Definition help_code : Z := 0.
Definition bad_flag_code : Z := 2.

Fixpoint Parse (fs : FlagSet) (args : list string) : parse_end :=
  match args with
  | [] => Parsed fs []
  | s :: rest =>
      match arg_of s with
      | Stop => Parsed fs args
      | StopAfter => Parsed fs rest
      | Malformed => ParseExit bad_flag_code
      | IsFlag text =>
          let '(name, value) := flag_parts text in
          match fs !! name with
          | None => ParseExit (if bool_decide (name = "help" ∨ name = "h") then help_code else bad_flag_code)
          | Some v =>
              if is_bool_flag v then
                match flag_Set v (default "true" value) with
                | Some v' => Parse (<[name := v']> fs) rest
                | None => ParseExit bad_flag_code
                end
              else
                match value, rest with
                | Some x, _ =>
                    match flag_Set v x with
                    | Some v' => Parse (<[name := v']> fs) rest
                    | None => ParseExit bad_flag_code
                    end
                | None, x :: rest' =>
                    match flag_Set v x with
                    | Some v' => Parse (<[name := v']> fs) rest'
                    | None => ParseExit bad_flag_code
                    end
                | None, [] => ParseExit bad_flag_code
                end
          end
      end
  end.

Definition bool_flag (fs : FlagSet) (name : string) : bool := match fs !! name with Some (FBool b) => b | _ => false end.
Definition int_flag (fs : FlagSet) (name : string) : Z := match fs !! name with Some (FInt n) => n | _ => 0 end.
Definition uint64_flag (fs : FlagSet) (name : string) : Z := match fs !! name with Some (FUint64 n) => n | _ => 0 end.
Definition string_flag (fs : FlagSet) (name : string) : string := match fs !! name with Some (FString s) => s | _ => "" end.
Definition duration_flag (fs : FlagSet) (name : string) : Z := match fs !! name with Some (FDuration d) => d | _ => 0 end.

(** ** The subcommands and their flags *)

Inductive subcommand :=
  | Run | Serve | SingleEpoch | FinalizeEpoch | ExportCAR | ExportCARRange | BackfillIPFS
  | PinExisting | ExportBlobRefs | Summary | RepairEpochs | HealthCheck.

#[export] Instance subcommand_eq_dec : EqDecision subcommand.
Proof. solve_decision. Defined.

(** The switch of main. *)
Definition subcommand_of (s : string) : option subcommand :=
  if bool_decide (s = "run") then Some Run
  else if bool_decide (s = "serve") then Some Serve
  else if bool_decide (s = "epoch") then Some SingleEpoch
  else if bool_decide (s = "finalize-epoch") then Some FinalizeEpoch
  else if bool_decide (s = "export-car") then Some ExportCAR
  else if bool_decide (s = "export-car-range") then Some ExportCARRange
  else if bool_decide (s = "backfill-ipfs") then Some BackfillIPFS
  else if bool_decide (s = "pin-existing") then Some PinExisting
  else if bool_decide (s = "export-blob-refs") then Some ExportBlobRefs
  else if bool_decide (s = "summary") then Some Summary
  else if bool_decide (s = "repair-epochs") then Some RepairEpochs
  else if bool_decide (s = "health-check" ∨ s = "check") then Some HealthCheck
  else None.

(** [flag.NewFlagSet] and the definitions after it, in every command. *)
Definition serve_flags : FlagSet := {[ "pull" := FBool false ]}.
Definition epoch_flags : FlagSet := {[ "n" := FUint64 0 ]}.
Definition finalize_epoch_flags : FlagSet := {[ "n" := FUint64 0 ]}.
Definition export_car_flags : FlagSet := {[ "n" := FUint64 0; "out" := FString "" ]}.
Definition export_car_range_flags : FlagSet := {[ "from" := FUint64 0; "to" := FUint64 0; "out" := FString "" ]}.
Definition backfill_ipfs_flags : FlagSet := {[ "from" := FUint64 0; "to" := FUint64 0 ]}.
Definition pin_existing_flags : FlagSet :=
  {[ "dry-run" := FBool false; "workers" := FInt 4; "pin-timeout" := FDuration 120000000000;
     "retries" := FInt 2; "limit" := FInt 0 ]}.
Definition export_blob_refs_flags : FlagSet :=
  {[ "from" := FUint64 0; "to" := FUint64 0; "out" := FString ""; "meta" := FBool false; "binary" := FBool false ]}.
Definition summary_command_flags : FlagSet :=
  {[ "check-ipfs" := FBool false; "gaps" := FBool false; "empty" := FBool false; "top" := FInt 0; "monthly" := FBool false ]}.
Definition repair_epochs_flags : FlagSet := {[ "dry-run" := FBool false; "no-verify" := FBool false ]}.
Definition health_check_flags : FlagSet := {[ "tier" := FInt 1; "samples" := FInt 10 ]}.

Definition flags_of (c : subcommand) : FlagSet :=
  match c with
  | Run => ∅
  | Serve => serve_flags
  | SingleEpoch => epoch_flags
  | FinalizeEpoch => finalize_epoch_flags
  | ExportCAR => export_car_flags
  | ExportCARRange => export_car_range_flags
  | BackfillIPFS => backfill_ipfs_flags
  | PinExisting => pin_existing_flags
  | ExportBlobRefs => export_blob_refs_flags
  | Summary => summary_command_flags
  | RepairEpochs => repair_epochs_flags
  | HealthCheck => health_check_flags
  end.

Definition global_flags : FlagSet := {[ "log-level" := FString "info" ]}.

(** main up to the switch: the exit code, or the log level, the subcommand and
    the arguments it is given. *)
Inductive main_choice := MainExit (code : Z) | Chosen (logLevel subcommand : string) (args : list string).

Definition main_start (args : list string) : main_choice :=
  match args with
  | [] => MainExit 1
  | _ =>
      match Parse global_flags args with
      | ParseExit code => MainExit code
      | Parsed _ [] => MainExit 1
      | Parsed fs (subcommand :: rest) => Chosen (string_flag fs "log-level") subcommand rest
      end
  end.

(** ** Properties *)

(** Two values of one kind, the numbers at their width. *)
Definition kind_of (v : flag_value) : Z :=
  match v with FBool _ => 0 | FInt _ => 1 | FUint64 _ => 2 | FString _ => 3 | FDuration _ => 4 end.

Definition value_ok (v : flag_value) : Prop :=
  match v with
  | FInt n => is_i64 n
  | FUint64 n => is_u64 n
  | _ => True
  end.

Lemma base_digit_nonneg a d : base_digit a = Some d → 0 ≤ d.
Proof.
  unfold base_digit. destruct (is_digit a) eqn:H1; [intros [= <-]; unfold is_digit in H1; lia|].
  destruct (is_letter a) eqn:H2; [intros [= <-]; unfold is_letter in H2; lia|done].
Qed.

Lemma base_digits_range base s : 0 ≤ base → ∀ acc seen n b, is_u64 acc →
  base_digits base acc seen s = Some (n, b) → is_u64 n.
Proof.
  intros Hb. induction s as [|a s IH]; intros acc seen n b Ha; cbn [base_digits]; [by intros [= <- <-]|].
  case_bool_decide; [by apply IH|]. destruct (base_digit a) as [d|] eqn:Hd; [|done]. apply base_digit_nonneg in Hd.
  destruct (_ <=? _); [done|]. destruct (Z.leb_spec two64 (acc * base + d)); [done|]. apply IH.
  unfold is_u64 in *. nia.
Qed.

Lemma base_prefix_pos s : 0 ≤ fst (base_prefix s).
Proof.
  unfold base_prefix. destruct s as [|[[] [] [] [] [] [] [] []] s]; cbn; try lia.
  destruct s as [|p [|c t]]; cbn; try lia. repeat (case_match; cbn; try lia).
Qed.

Lemma ParseUint0_range s n : ParseUint0 s = Some n → is_u64 n.
Proof.
  unfold ParseUint0. destruct s as [|a s]; [done|]. pose proof (base_prefix_pos (String a s)) as Hb.
  destruct (base_prefix _) as [base rest]. destruct (base_digits base 0 false rest) as [[m u]|] eqn:Hd; [|done].
  apply base_digits_range in Hd; [|done|unfold is_u64, two64; lia]. destruct (_ && _); [done|]. by intros [= <-].
Qed.

Lemma ParseInt0_range s n : ParseInt0 s = Some n → is_i64 n.
Proof.
  unfold ParseInt0. destruct (match s with String "-" t => _ | _ => _ end) as [neg t].
  destruct (ParseUint0 t) as [m|] eqn:Hm; [|done]. apply ParseUint0_range in Hm. unfold is_i64, is_u64 in *.
  destruct neg; [destruct (Z.ltb_spec two63 m)|destruct (Z.leb_spec two63 m)]; try done; intros [= <-]; unfold two63 in *; lia.
Qed.

Lemma flag_Set_typed v s v' : flag_Set v s = Some v' → kind_of v' = kind_of v ∧ value_ok v'.
Proof.
  destruct v as [b|n|n|t|d]; cbn [flag_Set]; rewrite ?fmap_Some.
  - by intros (x & _ & ->).
  - intros (x & Hx%ParseInt0_range & ->). done.
  - intros (x & Hx%ParseUint0_range & ->). done.
  - by intros [= <-].
  - destruct (ParseDuration s); [by intros [= <-]|done..].
Qed.

Definition same_kinds (fs fs' : FlagSet) : Prop := ∀ name, kind_of <$> fs' !! name = kind_of <$> fs !! name.
Definition typed (fs : FlagSet) : Prop := map_Forall (λ _, value_ok) fs.

Lemma insert_typed fs name v x v' : typed fs → fs !! name = Some v → flag_Set v x = Some v' →
  typed (<[name := v']> fs) ∧ same_kinds fs (<[name := v']> fs).
Proof.
  intros Hfs Hv [Hk Hok]%flag_Set_typed. split; [by apply map_Forall_insert_2|]. intros k.
  destruct (decide (k = name)) as [->|Hne]; [|by rewrite lookup_insert_ne]. rewrite lookup_insert_eq, Hv. cbn. congruence.
Qed.

(** Parsing a command line keeps every flag at its kind, integers at their
    64-bit width, adds and drops no flag, and leaves a tail of the arguments. *)
Theorem Parse_typed args fs fs' rest : typed fs → Parse fs args = Parsed fs' rest →
  typed fs' ∧ same_kinds fs fs' ∧ rest `suffix_of` args.
Proof.
  remember (length args) as k eqn:Hk. assert (length args ≤ k)%nat as Hle by lia. clear Hk.
  revert args Hle fs. induction k as [|k IH]; intros args Hle fs Hfs.
  { destruct args; [|cbn in Hle; lia]. intros [= <- <-]. by split_and!. }
  destruct args as [|s args]; cbn [Parse]; [intros [= <- <-]; by split_and!|]. cbn in Hle.
  assert (∀ fs1 args', typed fs1 → same_kinds fs fs1 → args' `suffix_of` s :: args → (length args' ≤ k)%nat →
    Parse fs1 args' = Parsed fs' rest → typed fs' ∧ same_kinds fs fs' ∧ rest `suffix_of` s :: args) as Hrec.
  { intros fs1 args' Ht Hs Hsuf Hl Hp. destruct (IH args' Hl fs1 Ht Hp) as (H1 & H2 & H3). split_and!; [done| |by etransitivity].
    intros name. by rewrite H2. }
  destruct (arg_of s) as [| | |text]; [by intros [= <- <-]| |done|].
  { intros [= <- <-]. split_and!; [done|done|by apply suffix_cons_r]. }
  destruct (flag_parts text) as [name value]. destruct (fs !! name) as [v|] eqn:Hv; [|done].
  assert (∀ x args', args' `suffix_of` s :: args → (length args' ≤ k)%nat →
    match flag_Set v x with Some v' => Parse (<[name := v']> fs) args' | None => ParseExit bad_flag_code end = Parsed fs' rest →
    typed fs' ∧ same_kinds fs fs' ∧ rest `suffix_of` s :: args) as Hset.
  { intros x args' Hsuf Hl. destruct (flag_Set v x) as [v'|] eqn:Hx; [|done].
    destruct (insert_typed _ _ _ _ _ Hfs Hv Hx) as [H1 H2]. by apply Hrec. }
  destruct (is_bool_flag v); [apply Hset; [by apply suffix_cons_r|lia]|].
  destruct value as [x|]; [apply Hset; [by apply suffix_cons_r|lia]|].
  destruct args as [|x args]; [done|]. apply Hset; [by do 2 apply suffix_cons_r|cbn in Hle; lia].
Qed.

(** ** Printing a command line and reading it back *)

Lemma parse_digits_base s : ∀ acc seen n, parse_digits two64 acc s = inr n → base_digits 10 acc seen s = Some (n, seen).
Proof.
  induction s as [|a s IH]; intros acc seen n; cbn [parse_digits base_digits]; [by intros [= ->]|].
  destruct (digit_val a) as [d|] eqn:Hd; [|done].
  assert (a ≠ underscore ∧ base_digit a = Some d ∧ d < 10) as (Hu & -> & Hlt).
  { unfold digit_val in Hd. fold (is_digit a) in Hd. unfold base_digit. destruct (is_digit a) eqn:H1; [|done]. injection Hd as <-.
    split_and!; [by intros ->|done|]. unfold is_digit in H1. lia. }
  rewrite (bool_decide_eq_false_2 _ Hu), (proj2 (Z.leb_gt 10 d) Hlt). destruct (_ <=? _); [done|apply IH].
Qed.

(** The decimal digits of a positive number start with another digit than 0. *)
Lemma pretty_go_first x s : (0 < x)%N → ∃ a t, pretty_N_go x s = String a t ∧ a ≠ "0"%char.
Proof.
  revert s. induction (N.lt_wf_0 x) as [x _ IH]; intros s Hx. rewrite pretty_N_go_step by lia.
  destruct (decide (x `div` 10 = 0)%N) as [Hz|Hz]; [|apply IH; [apply N.div_lt; lia|by apply N.neq_0_lt_0]].
  rewrite Hz, pretty_N_go_0. eexists _, _. split; [done|]. intros Hc.
  pose proof (pretty_N_char_digit (x `mod` 10) ltac:(apply N.mod_lt; lia)) as Hd. rewrite Hc in Hd.
  change (digit_val "0") with (Some 0) in Hd. injection Hd as Hd. apply (N2Z.inj_iff 0) in Hd.
  pose proof (N.div_mod x 10 ltac:(lia)) as Hdm. rewrite Hz, <- Hd in Hdm. lia.
Qed.

Lemma base_prefix_decimal a t : a ≠ "0"%char → base_prefix (String a t) = (10, String a t).
Proof. intros Ha. unfold base_prefix. by repeat case_match; simplify_eq. Qed.

Lemma ParseUint0_FormatUint n : is_u64 n → ParseUint0 (FormatUint n) = Some n.
Proof.
  intros Hn. pose proof (ParseUint_FormatUint n Hn) as Hp. revert Hp. unfold FormatUint.
  destruct (decide (n = 0)) as [->|Hz]; [done|].
  assert (pretty n = pretty_N_go (Z.to_N n) "") as ->.
  { unfold is_u64 in Hn. destruct n as [|p|p]; [done|done|lia]. }
  destruct (pretty_go_first (Z.to_N n) "") as (a & t & -> & Ha); [unfold is_u64 in Hn; lia|].
  unfold ParseUint, ParseUint0. destruct (parse_digits two64 0 (String a t)) as [[]|m] eqn:Hd; [done|done|].
  intros [= ->]. rewrite base_prefix_decimal by done. by rewrite (parse_digits_base _ _ false _ Hd).
Qed.

Lemma FormatUint_no_sign n : 0 ≤ n → ∃ a t, FormatUint n = String a t ∧ a ≠ "-"%char ∧ a ≠ "+"%char.
Proof.
  intros Hn. destruct (decide (n = 0)) as [->|Hz]; [by eexists _, _|]. unfold FormatUint.
  assert (pretty n = pretty_N_go (Z.to_N n) "") as -> by (destruct n as [|p|p]; [done|done|lia]).
  destruct (pretty_go_first (Z.to_N n) "") as (a & t & Heq & _); [lia|]. exists a, t. split; [done|].
  pose proof (parse_digits_pretty_go (Z.of_N (Z.to_N n) + 1) (Z.to_N n) "" ltac:(lia)) as Hp. rewrite Heq in Hp.
  split; intros ->; by vm_compute in Hp.
Qed.

Lemma ParseInt0_pretty n : is_i64 n → ParseInt0 (pretty n) = Some n.
Proof.
  intros Hn. unfold is_i64, two63 in Hn. destruct (Z.leb_spec 0 n) as [H0|H0].
  - destruct (FormatUint_no_sign n H0) as (a & t & Heq & H1 & H2). unfold ParseInt0.
    change (pretty n) with (FormatUint n). rewrite Heq.
    assert (match String a t with String "-" t => (true, t) | String "+" t => (false, t) | _ => (false, String a t) end
      = (false, String a t)) as -> by (repeat case_match; by simplify_eq).
    rewrite <- Heq, ParseUint0_FormatUint by (unfold is_u64, two64; lia). by rewrite (proj2 (Z.leb_gt _ _)) by (unfold two63; lia).
  - assert (pretty n = String "-" (FormatUint (- n))) as -> by (destruct n as [|p|p]; [lia|lia|done]).
    cbn [ParseInt0]. rewrite ParseUint0_FormatUint by (unfold is_u64, two64; lia).
    rewrite (proj2 (Z.ltb_ge _ _)) by (unfold two63; lia). f_equal. lia.
Qed.

Definition value_text (v : flag_value) : string :=
  match v with
  | FBool b => if b then "true" else "false"
  | FInt n | FUint64 n => pretty n
  | FString s => s
  | FDuration d => pretty d +:+ "ns"
  end.

Lemma flag_Set_text v0 v : kind_of v0 = kind_of v → value_ok v → kind_of v ≠ kind_of (FDuration 0) →
  flag_Set v0 (value_text v) = Some v.
Proof.
  intros Hk Hok Hd. destruct v0 as [| | | |]; destruct v as [[]|m|m|t|d]; cbn in Hk |- *; try done.
  - by rewrite ParseInt0_pretty.
  - change (pretty m) with (FormatUint m). by rewrite ParseUint0_FormatUint.
Qed.

Fixpoint no_equals (s : string) : Prop :=
  match s with "" => True | String a s' => a ≠ "="%char ∧ no_equals s' end.

(** A name a flag can be given by: not empty, no leading dash, no equals sign. *)
Definition name_ok (s : string) : Prop :=
  match s with "" => False | String a s' => a ≠ "-"%char ∧ a ≠ "="%char ∧ no_equals s' end.

Definition print_flag (p : string * flag_value) : string := "-" +:+ fst p +:+ "=" +:+ value_text (snd p).

Lemma split_equals_text name text : no_equals name → split_equals (name +:+ "=" +:+ text) = (name, Some text).
Proof.
  induction name as [|a s IH]; [done|]. intros [Ha Hs]. change (String a s +:+ ?t) with (String a (s +:+ t)).
  assert (split_equals (String a (s +:+ "=" +:+ text)) =
    let '(n, v) := split_equals (s +:+ "=" +:+ text) in (String a n, v)) as -> by (cbn [split_equals]; repeat case_match; by simplify_eq).
  by rewrite IH.
Qed.

Lemma arg_of_print name v : name_ok name →
  arg_of (print_flag (name, v)) = IsFlag (name +:+ "=" +:+ value_text v) ∧
  flag_parts (name +:+ "=" +:+ value_text v) = (name, Some (value_text v)).
Proof.
  destruct name as [|a s]; [done|]. intros (H1 & H2 & Hs). split.
  - change (print_flag (String a s, v)) with (String "-" (String a (s +:+ "=" +:+ value_text v))).
    change (String a s +:+ ?t) with (String a (s +:+ t)). unfold arg_of. by repeat case_match; simplify_eq.
  - change (String a s +:+ ?t) with (String a (s +:+ t)). cbn [flag_parts]. by rewrite split_equals_text.
Qed.

(** An assignment that fits the flags. *)
Definition fits (fs : FlagSet) (p : string * flag_value) : Prop :=
  name_ok (fst p) ∧ kind_of <$> fs !! fst p = Some (kind_of (snd p)) ∧ value_ok (snd p) ∧
  kind_of (snd p) ≠ kind_of (FDuration 0).

(** Assignments read back: for flags of every kind but durations,
    written as [-name=value], Parse gives each flag the value written last and
    goes on with the arguments after them. *)
Lemma Parse_print l : ∀ fs rest, Forall (fits fs) l →
  Parse fs ((print_flag <$> l) ++ rest) = Parse (foldl (λ fs p, <[fst p := snd p]> fs) fs l) rest.
Proof.
  induction l as [|[name v] l IH]; intros fs rest Hl; [done|]. apply Forall_cons in Hl as [(Hn & Hk & Hok & Hd) Hl].
  cbn [fst snd] in *. destruct (fs !! name) as [v0|] eqn:Hv; [|done]. injection Hk as Hk.
  assert (Forall (fits (<[name := v]> fs)) l) as Hl'.
  { eapply Forall_impl; [exact Hl|]. intros [k x] (H1 & H2 & H3 & H4). split_and!; [done| |done|done]. cbn [fst snd] in *.
    destruct (decide (k = name)) as [->|Hne]; [rewrite lookup_insert_eq|by rewrite lookup_insert_ne].
    rewrite Hv in H2. cbn in H2 |- *. congruence. }
  rewrite fmap_cons. cbn [app Parse foldl fst snd]. destruct (arg_of_print name v Hn) as [-> ->]. rewrite Hv.
  destruct (is_bool_flag v0); cbn [from_option id]; rewrite (flag_Set_text v0 v Hk Hok Hd); by apply IH.
Qed.

Lemma subcommand_not_flag s c : subcommand_of s = Some c → arg_of s = Stop.
Proof. unfold subcommand_of. repeat case_bool_decide; naive_solver. Qed.


(** Flags of a subcommand have to follow it: a command line that starts with
    a flag other than the log level (or a request for help) ends the process
    with exit code 2 before the configuration is read. Four of the examples the
    usage text gives are of this form. *)
Theorem main_rejects_leading_flags s text rest :
  arg_of s = IsFlag text → fst (flag_parts text) ∉ ["log-level"; "help"; "h"] →
  main_start (s :: rest) = MainExit 2.
Proof.
  intros Hs Hn. unfold main_start. cbn [Parse]. rewrite Hs. destruct (flag_parts text) as [name value]. cbn [fst] in Hn.
  unfold global_flags. rewrite lookup_singleton_ne by (intros <-; set_solver).
  rewrite bool_decide_eq_false_2; [done|]. intros [->| ->]; set_solver.
Qed.

Lemma Parse_typed_demo :
  let fs := {[ "n" := FUint64 300000 ]} in
  Parse (flags_of SingleEpoch) ["-n"; "300_000"; "now"] = Parsed fs ["now"] ∧
  typed fs ∧ same_kinds (flags_of SingleEpoch) fs ∧ ["now"] `suffix_of` ["-n"; "300_000"; "now"].
Proof.
  assert (Parse (flags_of SingleEpoch) ["-n"; "300_000"; "now"] = Parsed {[ "n" := FUint64 300000 ]} ["now"]) as Hp
    by (vm_compute; reflexivity).
  split; [exact Hp|].
  refine (Parse_typed ["-n"; "300_000"; "now"] (flags_of SingleEpoch) _ _ _ Hp).
  apply map_Forall_singleton. unfold value_ok, is_u64, two64. lia.
Defined.


(** The examples of the usage text that name their flags first. *)
Lemma main_rejects_leading_flags_witness :
  Forall (λ args, main_start args = MainExit 2)
    [["-n"; "300000"; "epoch"]; ["-n"; "300000"; "finalize-epoch"];
     ["-n"; "300000"; "-out"; "/tmp/300000.car"; "export-car"];
     ["-from"; "300000"; "-to"; "300099"; "-out"; "/tmp/range.car"; "export-car-range"]] ∧
  main_start ["epoch"; "-n"; "300000"] = Chosen "info" "epoch" ["-n"; "300000"].
Proof.
  split; [|vm_compute; reflexivity]. repeat (apply Forall_cons; split); [..|apply Forall_nil; exact I];
    (eapply main_rejects_leading_flags; [reflexivity|apply (bool_decide_unpack _); vm_compute; exact I]).
Defined.
