(* ===== verification/Schema.v ===== *)
(** * Schema: how db.go opens the database

    db.New with ensureDatabase and migrate, over a catalog of databases, tables
    and columns; what a client can rely on after New, from an empty server or
    from the tables of an earlier version. *)

From S2P Require Import Prelude GoStd GoTime.

(** ** The catalog *)

Inductive sql_type := BIGINT | INT | TEXT | TIMESTAMPTZ.

#[export] Instance sql_type_eq_dec : EqDecision sql_type.
Proof. solve_decision. Defined.

Record column := mkColumn { col_name : string; col_type : sql_type; col_not_null : bool; col_default : option string }.

#[export] Instance column_eq_dec : EqDecision column.
Proof. solve_decision. Defined.

(** The columns in order, the primary key, the foreign keys and the indexes. *)
Record table := mkTable {
  tb_columns : list column;
  tb_key : string;
  tb_references : list (string * string);
  tb_indexes : gmap string string }.

#[export] Instance table_eq_dec : EqDecision table.
Proof. solve_decision. Defined.

Abbreviation catalog := (gmap string table).

Inductive statement :=
  | CreateTable (name : string) (t : table)                  (* IF NOT EXISTS *)
  | CreateIndex (index name column : string)                 (* IF NOT EXISTS *)
  | AddColumn (name : string) (c : column).                  (* IF NOT EXISTS *)

Definition column_names (t : table) : list string := col_name <$> tb_columns t.

Definition no_relation (name : string) : error :=
  errors_New ("ERROR: relation " +:+ quoted name +:+ " does not exist (SQLSTATE 42P01)").

Definition run_statement (s : statement) (c : catalog) : outcome catalog :=
  match s with
  | CreateTable name t => Ok (match c !! name with Some _ => c | None => <[name := t]> c end)
  | CreateIndex index name column =>
      match c !! name with
      | None => Err (no_relation name)
      | Some t =>
          if bool_decide (column ∈ column_names t) then
            Ok (<[name := mkTable (tb_columns t) (tb_key t) (tb_references t)
                            (match tb_indexes t !! index with Some _ => tb_indexes t | None => <[index := column]> (tb_indexes t) end)]> c)
          else Err (errors_New ("ERROR: column " +:+ quoted column +:+ " does not exist (SQLSTATE 42703)"))
      end
  | AddColumn name col =>
      match c !! name with
      | None => Err (no_relation name)
      | Some t =>
          Ok (<[name := if bool_decide (col_name col ∈ column_names t) then t
                        else mkTable (tb_columns t ++ [col]) (tb_key t) (tb_references t) (tb_indexes t)]> c)
      end
  end.

(** A string of several statements runs in one transaction. *)
Definition run_statements (l : list statement) (c : catalog) : outcome catalog :=
  foldl (λ o s, o ≫= run_statement s) (Ok c) l.

(** ** The statements of db.go *)

Definition not_null (name : string) (ty : sql_type) : column := mkColumn name ty true None.
Definition nullable (name : string) (ty : sql_type) : column := mkColumn name ty false None.
Definition with_default (name : string) (ty : sql_type) (d : string) : column := mkColumn name ty true (Some d).

Definition epoch_time_column : column := nullable "epoch_time" TIMESTAMPTZ.
Definition slot_time_column : column := nullable "slot_time" TIMESTAMPTZ.

Definition epochs_table : table := mkTable
  [not_null "epoch" BIGINT; not_null "network" TEXT; not_null "slot" BIGINT; epoch_time_column;
   not_null "cid" TEXT; not_null "car_path" TEXT; not_null "blob_count" INT; not_null "size_bytes" BIGINT;
   with_default "created_at" TIMESTAMPTZ "NOW()"] "epoch" [] ∅.

Definition blobs_table : table := mkTable
  [not_null "commitment" TEXT; not_null "epoch" BIGINT; not_null "slot" BIGINT; slot_time_column;
   not_null "network" TEXT; not_null "blob_index" INT; not_null "data_cid" TEXT; not_null "meta_cid" TEXT;
   not_null "versioned_hash" TEXT; with_default "tx_hash" TEXT "''"; with_default "block_number" BIGINT "0";
   with_default "block_hash" TEXT "''"; not_null "size_bytes" BIGINT;
   with_default "created_at" TIMESTAMPTZ "NOW()"] "commitment" [("epoch", "ipld_epochs")] ∅.

Definition state_table : table := mkTable
  [not_null "key" TEXT; with_default "value" BIGINT "0"] "key" [] ∅.

Definition schema : list statement :=
  [CreateTable "ipld_epochs" epochs_table; CreateTable "ipld_blobs" blobs_table;
   CreateIndex "ipld_blobs_epoch_idx" "ipld_blobs" "epoch"; CreateTable "ipld_state" state_table].

Definition migrations : list statement :=
  [AddColumn "ipld_epochs" epoch_time_column; AddColumn "ipld_blobs" slot_time_column].

(** ** Opening *)

(** The server: its databases, and what the next requests meet. *)
Record PgServer := mkPgServer { pg_databases : gmap string catalog; pg_faults : list (option error) }.

(** [pgx.ParseConfig(dsn).Database]. *)
Class Pgx := dsn_database : string → outcome string.

Section Open.
Context {X : Pgx}.

Definition pg_call : Go PgServer unit := λ s,
  match pg_faults s with
  | [] => (Ok tt, s)
  | None :: fs => (Ok tt, mkPgServer (pg_databases s) fs)
  | Some e :: fs => (Err e, mkPgServer (pg_databases s) fs)
  end.

Definition ensureDatabase (dsn : string) : Go PgServer unit :=
  dbName ← wrapf "db: parse dsn" (lift (dsn_database dsn));
  _ ← wrapf "db: connect to postgres maintenance db" pg_call;
  _ ← wrapf ("db: check database " +:+ quoted dbName) pg_call;
  found ← gets (A := bool) (λ s, bool_decide (is_Some (pg_databases s !! dbName)));
  if (found : bool) then mret tt
  else wrapf ("db: create database " +:+ quoted dbName)
         (_ ← pg_call; modify (λ s, mkPgServer (<[dbName := ∅]> (pg_databases s)) (pg_faults s))).

(** [c.pool.Exec(ctx, sql)] on the database the pool is connected to. *)
Definition pool_Exec (dbName : string) (l : list statement) : Go PgServer unit :=
  _ ← pg_call;
  c ← gets_out (λ s, match pg_databases s !! dbName with
                     | Some c => run_statements l c
                     | None => Err (errors_New "FATAL: database does not exist (SQLSTATE 3D000)")
                     end);
  modify (λ s, mkPgServer (<[dbName := c]> (pg_databases s)) (pg_faults s)).

Definition migrate (dbName : string) : Go PgServer unit :=
  _ ← wrapf "db: apply schema" (pool_Exec dbName schema);
  wrapf "db: apply migrations" (pool_Exec dbName migrations).

(** db.New; the pool connects when it is first used. *)
Definition open_client (dsn : string) : Go PgServer string :=
  _ ← ensureDatabase dsn;
  dbName ← wrapf ("db: connect " +:+ quoted dsn) (lift (dsn_database dsn));
  _ ← wrapf "db: migrate" (migrate dbName);
  mret dbName.
End Open.

(** ** What a client can rely on *)

(** The table is [t0], its columns in some order. *)
Definition current (t0 t : table) : Prop :=
  tb_columns t ≡ₚ tb_columns t0 ∧ tb_key t = tb_key t0 ∧ tb_references t = tb_references t0.

(** It is [t0], or as it was before the migration that added a column. *)
Definition earlier (t0 : table) (added : column) (t : table) : Prop :=
  (tb_columns t ≡ₚ tb_columns t0 ∨ added :: tb_columns t ≡ₚ tb_columns t0) ∧
  tb_key t = tb_key t0 ∧ tb_references t = tb_references t0.

Record upgradable (c : catalog) : Prop := {
  up_epochs t : c !! "ipld_epochs" = Some t → earlier epochs_table epoch_time_column t;
  up_blobs t : c !! "ipld_blobs" = Some t → earlier blobs_table slot_time_column t;
  up_state t : c !! "ipld_state" = Some t → current state_table t }.

Record ready (c : catalog) : Prop := {
  rd_epochs : ∃ t, c !! "ipld_epochs" = Some t ∧ current epochs_table t;
  rd_blobs : ∃ t, c !! "ipld_blobs" = Some t ∧ current blobs_table t ∧ is_Some (tb_indexes t !! "ipld_blobs_epoch_idx");
  rd_state : ∃ t, c !! "ipld_state" = Some t ∧ current state_table t }.

(** An INSERT that names its columns: they are there, and those it leaves out
    may be. *)
Definition insert_fits (cols : list string) (t : table) : Prop :=
  (∀ n, n ∈ cols → n ∈ column_names t) ∧
  ∀ col, col ∈ tb_columns t → col_not_null col = true → col_default col = None → col_name col ∈ cols.

(** The columns of the INSERTs of SaveEpoch, of SaveBlobs' epoch row, of its
    copy into ipld_blobs, and of the cursors. *)
Definition SaveEpoch_columns : list string :=
  ["epoch"; "network"; "slot"; "epoch_time"; "cid"; "car_path"; "blob_count"; "size_bytes"].
Definition ensure_epoch_columns : list string :=
  ["epoch"; "network"; "slot"; "cid"; "car_path"; "blob_count"; "size_bytes"].
Definition blobsCopyColumns : list string :=
  ["commitment"; "epoch"; "slot"; "slot_time"; "network"; "blob_index"; "data_cid"; "meta_cid"; "versioned_hash";
   "tx_hash"; "block_number"; "block_hash"; "size_bytes"].
Definition cursor_columns : list string := ["key"; "value"].

Definition inserts_fit (c : catalog) : Prop :=
  (∃ t, c !! "ipld_epochs" = Some t ∧ insert_fits SaveEpoch_columns t ∧ insert_fits ensure_epoch_columns t) ∧
  (∃ t, c !! "ipld_blobs" = Some t ∧ insert_fits blobsCopyColumns t) ∧
  ∃ t, c !! "ipld_state" = Some t ∧ insert_fits cursor_columns t.

Lemma insert_fits_current cols t0 t : current t0 t → insert_fits cols t0 → insert_fits cols t.
Proof.
  intros (Hp & _ & _) [H1 H2]. split; [|intros col; rewrite Hp; apply H2].
  intros n Hn. unfold column_names. rewrite Hp. by apply H1.
Qed.

Definition insert_fits_b (cols : list string) (t : table) : bool :=
  forallb (λ n, bool_decide (n ∈ column_names t)) cols &&
  forallb (λ col, negb (col_not_null col) || bool_decide (is_Some (col_default col)) || bool_decide (col_name col ∈ cols))
    (tb_columns t).

Lemma insert_fits_check cols t : insert_fits_b cols t = true → insert_fits cols t.
Proof.
  unfold insert_fits_b. rewrite andb_true_iff, !forallb_forall. intros [H1 H2]. split.
  - intros n Hn%list_elem_of_In. specialize (H1 n Hn). by apply bool_decide_eq_true in H1.
  - intros col Hc%list_elem_of_In Hn Hd. specialize (H2 col Hc). rewrite Hn, Hd in H2. cbn in H2.
    by apply bool_decide_eq_true in H2.
Qed.

Lemma ready_inserts c : ready c → inserts_fit c.
Proof.
  intros [(te & He & Hte) (tb & Hb & Htb & _) (ts & Hs & Hts)]. split_and!.
  - exists te. split_and!; [done|..]; (eapply insert_fits_current; [exact Hte|by apply insert_fits_check]).
  - exists tb. split; [done|]. eapply insert_fits_current; [exact Htb|by apply insert_fits_check].
  - exists ts. split; [done|]. eapply insert_fits_current; [exact Hts|by apply insert_fits_check].
Qed.

(** ** Applying the statements *)

(** The table after [CREATE TABLE IF NOT EXISTS], and after
    [ADD COLUMN IF NOT EXISTS]. *)
Definition created (t0 : table) (o : option table) : table := default t0 o.
Definition added (col : column) (t : table) : table :=
  if bool_decide (col_name col ∈ column_names t) then t
  else mkTable (tb_columns t ++ [col]) (tb_key t) (tb_references t) (tb_indexes t).

Lemma earlier_current t0 col t : earlier t0 col t → col ∈ tb_columns t0 → NoDup (column_names t0) → current t0 (added col t).
Proof.
  intros (Hp & Hk & Hr) Hcol Hnd. unfold added, column_names in *. case_bool_decide as Hin.
  - split_and!; [|done|done]. destruct Hp as [|Hp]; [done|]. exfalso. rewrite <- Hp, fmap_cons in Hnd.
    by apply NoDup_cons in Hnd as [Hni _].
  - split_and!; [|done|done]. cbn. destruct Hp as [Hp|Hp].
    + destruct Hin. rewrite Hp. by apply list_elem_of_fmap_2.
    + rewrite <- Hp. symmetry. apply Permutation_cons_append.
Qed.

Definition indexed (index column : string) (t : table) : table :=
  mkTable (tb_columns t) (tb_key t) (tb_references t)
    (match tb_indexes t !! index with Some _ => tb_indexes t | None => <[index := column]> (tb_indexes t) end).

Lemma run_CreateTable name t0 c : run_statement (CreateTable name t0) c = Ok (<[name := created t0 (c !! name)]> c).
Proof. cbn. destruct (c !! name) as [t|] eqn:Ht; [|done]. cbn. by rewrite insert_id. Qed.

Lemma run_CreateIndex index name column c t : c !! name = Some t → column ∈ column_names t →
  run_statement (CreateIndex index name column) c = Ok (<[name := indexed index column t]> c).
Proof. intros Ht Hc. cbn. rewrite Ht. by rewrite bool_decide_eq_true_2. Qed.

Lemma run_AddColumn name col c t : c !! name = Some t →
  run_statement (AddColumn name col) c = Ok (<[name := added col t]> c).
Proof. intros Ht. cbn. by rewrite Ht. Qed.

Lemma earlier_key t : earlier blobs_table slot_time_column t → "epoch" ∈ column_names t.
Proof.
  intros ([Hp|Hp] & _ & _); unfold column_names.
  - rewrite Hp. apply (bool_decide_unpack _). by vm_compute.
  - assert ("epoch" ∈ col_name <$> slot_time_column :: tb_columns t) as Hin
      by (rewrite Hp; apply (bool_decide_unpack _); by vm_compute).
    rewrite fmap_cons in Hin. apply elem_of_cons in Hin as [[=]|Hin]. done.
Qed.

(** The catalog after the schema, and after the migrations. *)
Definition after_schema (c : catalog) : catalog :=
  <["ipld_state" := created state_table (c !! "ipld_state")]>
  (<["ipld_blobs" := indexed "ipld_blobs_epoch_idx" "epoch" (created blobs_table (c !! "ipld_blobs"))]>
  (<["ipld_epochs" := created epochs_table (c !! "ipld_epochs")]> c)).

Definition after_migrations (c : catalog) : catalog :=
  let c1 := after_schema c in
  <["ipld_blobs" := added slot_time_column (indexed "ipld_blobs_epoch_idx" "epoch" (created blobs_table (c !! "ipld_blobs")))]>
  (<["ipld_epochs" := added epoch_time_column (created epochs_table (c !! "ipld_epochs"))]> c1).

Lemma created_earlier t0 col o : (∀ t, o = Some t → earlier t0 col t) → earlier t0 col (created t0 o).
Proof. intros H. destruct o as [t|]; [by apply H|]. cbn. split_and!; [by left|done|done]. Qed.

Lemma run_schema c : upgradable c → run_statements schema c = Ok (after_schema c).
Proof.
  intros [_ Hb _]. apply created_earlier, earlier_key in Hb. unfold run_statements, schema. cbn [foldl mbind outcome_bind].
  rewrite run_CreateTable. cbn [mbind outcome_bind]. rewrite run_CreateTable. cbn [mbind outcome_bind].
  rewrite lookup_insert_ne by done. erewrite run_CreateIndex; [|apply lookup_insert_eq|done]. cbn [mbind outcome_bind].
  rewrite insert_insert_eq, run_CreateTable. unfold after_schema. by rewrite !lookup_insert_ne by done.
Qed.

Lemma run_migrations c : run_statements migrations (after_schema c) = Ok (after_migrations c).
Proof.
  unfold run_statements, migrations. cbn [foldl mbind outcome_bind].
  erewrite run_AddColumn; [|unfold after_schema; rewrite !lookup_insert_ne by done; apply lookup_insert_eq].
  cbn [mbind outcome_bind].
  erewrite run_AddColumn; [done|]. unfold after_schema. rewrite !(lookup_insert_ne _ "ipld_epochs"), lookup_insert_ne by done.
  apply lookup_insert_eq.
Qed.

Lemma indexed_earlier index column t0 col t : earlier t0 col t → earlier t0 col (indexed index column t).
Proof. done. Qed.

Lemma indexed_has index column t : is_Some (tb_indexes (indexed index column t) !! index).
Proof. unfold indexed. cbn. destruct (tb_indexes t !! index) eqn:Hi; [by rewrite Hi|by rewrite lookup_insert_eq]. Qed.

Lemma added_indexes col t : tb_indexes (added col t) = tb_indexes t.
Proof. unfold added. by destruct (bool_decide _). Qed.

Lemma after_schema_lookup c :
  after_schema c !! "ipld_epochs" = Some (created epochs_table (c !! "ipld_epochs")) ∧
  after_schema c !! "ipld_blobs" = Some (indexed "ipld_blobs_epoch_idx" "epoch" (created blobs_table (c !! "ipld_blobs"))) ∧
  after_schema c !! "ipld_state" = Some (created state_table (c !! "ipld_state")) ∧
  ∀ n, n ∉ ["ipld_epochs"; "ipld_blobs"; "ipld_state"] → after_schema c !! n = c !! n.
Proof.
  unfold after_schema. split_and!.
  - rewrite !lookup_insert_ne by done. apply lookup_insert_eq.
  - rewrite lookup_insert_ne by done. apply lookup_insert_eq.
  - apply lookup_insert_eq.
  - intros n Hn. rewrite !lookup_insert_ne; [done|set_solver..].
Qed.

Lemma after_migrations_lookup c :
  after_migrations c !! "ipld_epochs" = Some (added epoch_time_column (created epochs_table (c !! "ipld_epochs"))) ∧
  after_migrations c !! "ipld_blobs" =
    Some (added slot_time_column (indexed "ipld_blobs_epoch_idx" "epoch" (created blobs_table (c !! "ipld_blobs")))) ∧
  after_migrations c !! "ipld_state" = Some (created state_table (c !! "ipld_state")) ∧
  ∀ n, n ∉ ["ipld_epochs"; "ipld_blobs"; "ipld_state"] → after_migrations c !! n = c !! n.
Proof.
  unfold after_migrations. destruct (after_schema_lookup c) as (_ & _ & Hs & Hn). split_and!.
  - rewrite lookup_insert_ne by done. apply lookup_insert_eq.
  - apply lookup_insert_eq.
  - by rewrite !lookup_insert_ne.
  - intros n Hni. rewrite !lookup_insert_ne; [by apply Hn|set_solver..].
Qed.

(** Between the two, and whenever opening stops, the catalog can be upgraded. *)
Lemma after_schema_upgradable c : upgradable c → upgradable (after_schema c).
Proof.
  intros [He Hb Hs]. destruct (after_schema_lookup c) as (Le & Lb & Ls & _).
  split; intros t Ht.
  - rewrite Le in Ht. injection Ht as <-. by apply created_earlier.
  - rewrite Lb in Ht. injection Ht as <-. by apply indexed_earlier, created_earlier.
  - rewrite Ls in Ht. injection Ht as <-. destruct (c !! "ipld_state") as [t|]; [by apply Hs|done].
Qed.

Lemma after_migrations_ready c : upgradable c → ready (after_migrations c).
Proof.
  intros [He Hb Hs]. destruct (after_migrations_lookup c) as (Le & Lb & Ls & _). split; eexists.
  - split; [exact Le|]. apply earlier_current; [by apply created_earlier|apply (bool_decide_unpack _); by vm_compute..].
  - split_and!; [exact Lb| |rewrite added_indexes; apply indexed_has].
    apply earlier_current; [by apply indexed_earlier, created_earlier|apply (bool_decide_unpack _); by vm_compute..].
  - split; [exact Ls|]. destruct (c !! "ipld_state") as [t|]; [by apply Hs|done].
Qed.

Lemma added_current t0 col t : current t0 t → col ∈ tb_columns t0 → added col t = t.
Proof.
  intros (Hp & _) Hin. unfold added, column_names. rewrite bool_decide_eq_true_2; [done|].
  apply list_elem_of_fmap_2. by rewrite Hp.
Qed.

Lemma indexed_id index column t : is_Some (tb_indexes t !! index) → indexed index column t = t.
Proof. intros [x Hx]. unfold indexed. rewrite Hx. by destruct t. Qed.

(** A catalog that is ready stays as it is. *)
Lemma after_migrations_id c : ready c → after_migrations c = c.
Proof.
  intros [(te & He & Hte) (tb & Hb & Htb & Hi) (ts & Hs & _)]. unfold after_migrations, after_schema.
  rewrite He, Hb, Hs. cbn [created default from_option id]. rewrite (indexed_id _ _ tb Hi).
  rewrite (added_current epochs_table _ te Hte), (added_current blobs_table _ tb Htb)
    by (apply (bool_decide_unpack _); by vm_compute).
  by repeat first [rewrite (insert_id c _ te He)|rewrite (insert_id c _ tb Hb)|rewrite (insert_id c _ ts Hs)].
Qed.

Lemma after_schema_id c : ready c → after_schema c = c.
Proof.
  intros [(te & He & _) (tb & Hb & _ & Hi) (ts & Hs & _)]. unfold after_schema.
  rewrite He, Hb, Hs. cbn [created default from_option id]. rewrite (indexed_id _ _ tb Hi).
  by rewrite (insert_id c _ te He), (insert_id c _ tb Hb), (insert_id c _ ts Hs).
Qed.

(** No column is lost. *)
Lemma after_migrations_keeps c n t col : c !! n = Some t → col ∈ tb_columns t →
  ∃ t', after_migrations c !! n = Some t' ∧ col ∈ tb_columns t'.
Proof.
  intros Ht Hcol. destruct (after_migrations_lookup c) as (Le & Lb & Ls & Ln).
  assert (∀ k t, col ∈ tb_columns t → col ∈ tb_columns (added k t)) as Ha.
  { intros k t1 Hin. unfold added. case_bool_decide; [done|]. cbn. set_solver. }
  destruct (decide (n = "ipld_epochs")) as [->|H1]; [rewrite Le, Ht; eexists; split; [done|by apply Ha]|].
  destruct (decide (n = "ipld_blobs")) as [->|H2]; [rewrite Lb, Ht; eexists; split; [done|by apply Ha]|].
  destruct (decide (n = "ipld_state")) as [->|H3]; [rewrite Ls, Ht; eexists; by split|].
  exists t. rewrite Ln by set_solver. by split.
Qed.

Lemma ready_upgradable c : ready c → upgradable c.
Proof.
  intros [(te & He & H1 & H2) (tb & Hb & [H3 H4] & _) (ts & Hs & Hts)]. split; intros t Ht; simplify_eq; [..|done].
  - split; [by left|done].
  - split; [by left|done].
Qed.

(** ** Opening a client *)

Section OpenFacts.
Context {X : Pgx}.

(** Every database on the server but [dbName] is as it was, and [dbName], if it
    is there, can be upgraded. *)
Definition safe (dbName : string) (s s' : PgServer) : Prop :=
  (∀ n, n ≠ dbName → pg_databases s' !! n = pg_databases s !! n) ∧
  (∀ c, pg_databases s' !! dbName = Some c → upgradable c).

Lemma pg_call_databases s : pg_databases (snd (pg_call s)) = pg_databases s.
Proof. unfold pg_call. by destruct (pg_faults s) as [|[e|] fs]. Qed.

Lemma empty_upgradable : upgradable ∅.
Proof. split; intros t Ht; by rewrite lookup_empty in Ht. Qed.

Lemma ensureDatabase_spec dsn dbName s :
  dsn_database dsn = Ok dbName → (∀ c, pg_databases s !! dbName = Some c → upgradable c) →
  let '(o, s') := ensureDatabase dsn s in
  safe dbName s s' ∧
  match o with Ok _ => pg_databases s' !! dbName = Some (default ∅ (pg_databases s !! dbName)) | _ => True end.
Proof.
  intros Hd Hup. unfold ensureDatabase. rewrite bind_eq. unfold wrapf at 1, lift. rewrite Hd. cbn [wrap].
  rewrite bind_eq. unfold wrapf at 1. pose proof (pg_call_databases s) as H1.
  destruct (pg_call s) as [[u|e|p] s1]; cbn [fst snd wrap] in *; [|split; [split; rewrite H1; done|done]..].
  rewrite bind_eq. unfold wrapf at 1. pose proof (pg_call_databases s1) as H2. rewrite H1 in H2.
  destruct (pg_call s1) as [[u2|e|p] s2]; cbn [fst snd wrap] in *; [|split; [split; rewrite H2; done|done]..].
  rewrite bind_eq. unfold gets. rewrite H2. case_bool_decide as Hex.
  { split; [split; rewrite H2; done|]. rewrite H2. by destruct Hex as [c ->]. }
  unfold wrapf. rewrite bind_eq. pose proof (pg_call_databases s2) as H3. rewrite H2 in H3.
  destruct (pg_call s2) as [[u3|e|p] s3]; cbn [fst snd wrap] in *; [|split; [split; rewrite H3; done|done]..].
  cbn -[safe]. apply eq_None_not_Some in Hex. rewrite Hex. split; [|by rewrite H3, lookup_insert_eq].
  split; cbn; rewrite H3; [intros n Hn; by rewrite lookup_insert_ne|].
  intros c. rewrite lookup_insert_eq. intros [= <-]. apply empty_upgradable.
Qed.

Lemma pool_Exec_spec dbName l s c c' : pg_databases s !! dbName = Some c → run_statements l c = Ok c' →
  let '(o, s') := pool_Exec dbName l s in
  pg_databases s' = match o with Ok _ => <[dbName := c']> (pg_databases s) | _ => pg_databases s end.
Proof.
  intros Hc Hr. unfold pool_Exec. rewrite bind_eq. pose proof (pg_call_databases s) as H1.
  destruct (pg_call s) as [[u|e|p] s1]; cbn [snd] in H1; [|done..].
  rewrite bind_eq. unfold gets_out. rewrite H1, Hc, Hr. cbn. by rewrite H1.
Qed.

Lemma migrate_spec dbName s c : pg_databases s !! dbName = Some c → upgradable c →
  let '(o, s') := migrate dbName s in
  safe dbName s s' ∧ match o with Ok _ => pg_databases s' = <[dbName := after_migrations c]> (pg_databases s) | _ => True end.
Proof.
  intros Hc Hup. unfold migrate. rewrite bind_eq. unfold wrapf at 1.
  pose proof (pool_Exec_spec dbName schema s c (after_schema c) Hc (run_schema c Hup)) as H1.
  destruct (pool_Exec dbName schema s) as [[u|e|p] s1]; cbn [wrap];
    [|split; [split; rewrite H1; [done|by intros c' [= <-]%(eq_trans (eq_sym Hc))]|done]..].
  assert (pg_databases s1 !! dbName = Some (after_schema c)) as Hc1 by (by rewrite H1, lookup_insert_eq).
  unfold wrapf.
  pose proof (pool_Exec_spec dbName migrations s1 _ _ Hc1 (run_migrations c)) as H2.
  destruct (pool_Exec dbName migrations s1) as [o2 s2]. split.
  - split.
    + intros n Hn. destruct o2; rewrite H2, H1, ?lookup_insert_ne by done; done.
    + intros c2. destruct o2; rewrite H2, ?H1, ?insert_insert_eq, lookup_insert_eq; intros [= <-];
        [by apply ready_upgradable, after_migrations_ready|by apply after_schema_upgradable..].
  - destruct o2; cbn [wrap]; [|done..]. by rewrite H2, H1, insert_insert_eq.
Qed.

Lemma pool_Exec_healthy dbs dbName l c c' : dbs !! dbName = Some c → run_statements l c = Ok c' →
  pool_Exec dbName l (mkPgServer dbs []) = (Ok tt, mkPgServer (<[dbName := c']> dbs) []).
Proof. intros Hc Hr. unfold pool_Exec, mbind, go_bind, gets_out. cbn. by rewrite Hc, Hr. Qed.

(** A database that is ready is opened without a change. *)
Lemma open_client_again dsn dbName dbs c : dsn_database dsn = Ok dbName → dbs !! dbName = Some c → ready c →
  open_client dsn (mkPgServer dbs []) = (Ok dbName, mkPgServer dbs []).
Proof.
  intros Hd Hc Hr. pose proof (ready_upgradable c Hr) as Hup.
  assert (ensureDatabase dsn (mkPgServer dbs []) = (Ok tt, mkPgServer dbs [])) as He.
  { unfold ensureDatabase, mbind, go_bind, wrapf, lift, gets. rewrite Hd. cbn. rewrite Hc. by rewrite bool_decide_eq_true_2. }
  unfold open_client. rewrite bind_eq, He, bind_eq. unfold wrapf at 1, lift. rewrite Hd. cbn [wrap]. rewrite bind_eq.
  unfold wrapf at 1, migrate. rewrite bind_eq. unfold wrapf at 1.
  rewrite (pool_Exec_healthy _ _ _ c (after_schema c) Hc (run_schema c Hup)). cbn [wrap]. unfold wrapf.
  erewrite pool_Exec_healthy; [|apply lookup_insert_eq|apply run_migrations]. cbn [wrap].
  by rewrite after_migrations_id, after_schema_id, insert_insert_eq, insert_id.
Qed.

(** C20. Opening the database, from a server without it, from the tables of an
    earlier version, or from current ones, and whatever request fails: every
    other database is as it was and this one can still be upgraded by the next
    start; when New succeeds the three tables have exactly their columns, key
    and references, every INSERT of the client fits them, no column that was
    there is lost, and a second New changes nothing. *)
Theorem open_client_ready dsn dbName s :
  dsn_database dsn = Ok dbName → (∀ c, pg_databases s !! dbName = Some c → upgradable c) →
  let '(o, s') := open_client dsn s in
  safe dbName s s' ∧
  (is_Ok o → o = Ok dbName ∧
    (∃ c, pg_databases s' !! dbName = Some c ∧ ready c ∧ inserts_fit c ∧
      ∀ c0 n t col, pg_databases s !! dbName = Some c0 → c0 !! n = Some t → col ∈ tb_columns t →
        ∃ t', c !! n = Some t' ∧ col ∈ tb_columns t') ∧
    pg_databases (snd (open_client dsn (mkPgServer (pg_databases s') []))) = pg_databases s').
Proof.
  intros Hd Hup. pose proof (ensureDatabase_spec dsn dbName s Hd Hup) as He.
  assert (open_client dsn s = (_ ← ensureDatabase dsn; _ ← wrapf "db: migrate" (migrate dbName); mret dbName) s) as ->.
  { unfold open_client, mbind, go_bind. destruct (ensureDatabase dsn s) as [[u|e|p] s1]; [|done..].
    unfold wrapf, lift. by rewrite Hd. }
  rewrite bind_eq. destruct (ensureDatabase dsn s) as [[u|e|p] s1]; destruct He as [[Ho Hu] He];
    [|by split; [split|intros [? [=]]]..].
  set (c0 := default ∅ (pg_databases s !! dbName)) in *.
  rewrite bind_eq. unfold wrapf. pose proof (migrate_spec dbName s1 c0 He (Hu _ He)) as Hm.
  destruct (migrate dbName s1) as [o s2]. destruct Hm as [[Ho2 Hu2] Hm].
  assert (safe dbName s s2) as Hsafe by (split; [intros n Hn; by rewrite Ho2, Ho|done]).
  destruct o as [u2|e|p]; cbn [wrap]; [|by split; [|intros [? [=]]]..]. split; [done|]. intros _.
  pose proof (after_migrations_ready c0 (Hu _ He)) as Hr. cbn [snd].
  assert (pg_databases s2 !! dbName = Some (after_migrations c0)) as Hc by (by rewrite Hm, lookup_insert_eq).
  split_and!; [done| |by rewrite (open_client_again dsn dbName _ _ Hd Hc Hr)].
  exists (after_migrations c0). split_and!; [done|done|by apply ready_inserts|].
  intros c n t col Hs. unfold c0. rewrite Hs. cbn. apply after_migrations_keeps.
Qed.
End OpenFacts.

(** ** The property at a concrete input *)

(** A server that has the tables of the version before the time columns. *)
Definition demo_pgx : Pgx := λ _, Ok "ipld".
Definition without (col : string) (t : table) : table :=
  mkTable (filter (λ c, col_name c ≠ col) (tb_columns t)) (tb_key t) (tb_references t) (tb_indexes t).
Definition demo_server : PgServer :=
  mkPgServer {[ "ipld" := {[ "ipld_epochs" := without "epoch_time" epochs_table; "ipld_blobs" := without "slot_time" blobs_table ]} ]} [].

Lemma demo_server_upgradable c : pg_databases demo_server !! "ipld" = Some c → upgradable c.
Proof.
  intros Hc. cbn in Hc. rewrite lookup_singleton_eq in Hc. injection Hc as <-. split; intros t Ht.
  - rewrite lookup_insert_eq in Ht. injection Ht as <-. split; [right|done].
    apply (bool_decide_unpack _). by vm_compute.
  - rewrite lookup_insert_ne, lookup_singleton_eq in Ht by done. injection Ht as <-. split; [right|done].
    apply (bool_decide_unpack _). by vm_compute.
  - by rewrite lookup_insert_ne, lookup_singleton_ne in Ht by done.
Qed.

Lemma open_client_ready_witness :
  let '(o, s') := open_client (X := demo_pgx) "postgres://localhost/ipld" demo_server in
  o = Ok "ipld" ∧ ∃ c, pg_databases s' !! "ipld" = Some c ∧ ready c ∧ inserts_fit c.
Proof.
  pose proof (open_client_ready (X := demo_pgx) "postgres://localhost/ipld" "ipld" demo_server eq_refl demo_server_upgradable) as H.
  assert (is_Ok (fst (open_client (X := demo_pgx) "postgres://localhost/ipld" demo_server))) as Hok by (vm_compute; eauto).
  destruct (open_client _ demo_server) as [o s']. destruct H as [_ H]. destruct (H Hok) as (Ho & (c & H1 & H2 & H3 & _) & _).
  split; [exact Ho|]. exists c. split; [exact H1|]. split; [exact H2|exact H3].
Defined.

