(* ===== verification/Sha256.v ===== *)
(** * Sha256: crypto/sha256.Sum256

    FIPS 180-4 SHA-256 on byte strings, with 32-bit words as [Z] and the
    wrap-around written out. [beacon/client.go] hashes KZG commitments with it;
    the multihash library uses the same function for CIDs. *)

From S2P Require Import Prelude GoStd.

Definition w32 (z : Z) : Z := Z.land z (Z.ones 32).
Definition add32 (a b : Z) : Z := w32 (a + b).
Definition rotr (n x : Z) : Z := Z.lor (Z.shiftr x n) (w32 (Z.shiftl x (32 - n))).

Definition big_sigma0 x := Z.lxor (Z.lxor (rotr 2 x) (rotr 13 x)) (rotr 22 x).
Definition big_sigma1 x := Z.lxor (Z.lxor (rotr 6 x) (rotr 11 x)) (rotr 25 x).
Definition small_sigma0 x := Z.lxor (Z.lxor (rotr 7 x) (rotr 18 x)) (Z.shiftr x 3).
Definition small_sigma1 x := Z.lxor (Z.lxor (rotr 17 x) (rotr 19 x)) (Z.shiftr x 10).
Definition ch x y z := Z.lxor (Z.land x y) (Z.land (Z.lxor x (Z.ones 32)) z).
Definition maj x y z := Z.lxor (Z.lxor (Z.land x y) (Z.land x z)) (Z.land y z).

(** The first [n] primes not divided by an earlier one, from [c] on; [fuel]
    bounds the candidates. *)
Fixpoint primes_from (fuel n : nat) (c : Z) (earlier : list Z) : list Z :=
  match fuel, n with
  | S fuel', S n' =>
      if existsb (λ p, c mod p =? 0) earlier then primes_from fuel' n (c + 1) earlier
      else c :: primes_from fuel' n' (c + 1) (c :: earlier)
  | _, _ => []
  end.

(** The largest [r] with [r ^ k <= z], bit by bit from [2 ^ bits] down. *)
Fixpoint root_below (bits : nat) (k z r : Z) : Z :=
  let r' := r + 2 ^ Z.of_nat bits in
  let r'' := if r' ^ k <=? z then r' else r in
  match bits with
  | O => r''
  | S bits' => root_below bits' k z r''
  end.

(** The first 32 bits of the fractional part of the [k]-th root of [p]. *)
Definition root_word (k p : Z) : Z := w32 (root_below 40 k (p * 2 ^ (32 * k)) 0).

(** FIPS 180-4, 4.2.2 and 5.3.3: cube roots of the first 64 primes for the
    rounds, square roots of the first 8 for the initial state. *)
Definition sha_k : list Z := Eval vm_compute in root_word 3 <$> primes_from 400 64 2 [].

Definition sha_h : list Z := Eval vm_compute in root_word 2 <$> primes_from 400 8 2 [].

Record sha_state := ShaState { sa : Z; sb : Z; sc : Z; sd : Z; se : Z; sf : Z; sg : Z; sh : Z }.

Definition sha_init : sha_state :=
  let h i := nth i sha_h 0 in
  ShaState (h 0%nat) (h 1%nat) (h 2%nat) (h 3%nat) (h 4%nat) (h 5%nat) (h 6%nat) (h 7%nat).

(** The message schedule, newest word first: [n] more words. *)
Fixpoint sha_extend (n : nat) (ws : list Z) : list Z :=
  match n with
  | O => ws
  | S n' =>
      let w i := nth i ws 0 in
      let t := add32 (add32 (small_sigma1 (w 1%nat)) (w 6%nat))
                     (add32 (small_sigma0 (w 14%nat)) (w 15%nat)) in
      sha_extend n' (t :: ws)
  end.

Definition sha_round (s : sha_state) (kw : Z * Z) : sha_state :=
  let '(k, w) := kw in
  let t1 := add32 (add32 (sh s) (big_sigma1 (se s)))
                  (add32 (ch (se s) (sf s) (sg s)) (add32 k w)) in
  let t2 := add32 (big_sigma0 (sa s)) (maj (sa s) (sb s) (sc s)) in
  ShaState (add32 t1 t2) (sa s) (sb s) (sc s) (add32 (sd s) t1) (se s) (sf s) (sg s).

Definition sha_block (s : sha_state) (ws : list Z) : sha_state :=
  let r := foldl sha_round s (zip sha_k (reverse (sha_extend 48 (reverse ws)))) in
  ShaState (add32 (sa s) (sa r)) (add32 (sb s) (sb r)) (add32 (sc s) (sc r)) (add32 (sd s) (sd r))
           (add32 (se s) (se r)) (add32 (sf s) (sf r)) (add32 (sg s) (sg r)) (add32 (sh s) (sh r)).

Fixpoint string_bytes (s : string) : list Z :=
  match s with "" => [] | String a s' => byte_val a :: string_bytes s' end.

Fixpoint bytes_string (l : list Z) : string :=
  match l with [] => "" | b :: l' => String (byte_of b) (bytes_string l') end.

(** Big-endian split of [z] into [n] bytes. *)
Fixpoint be_bytes (n : nat) (z : Z) : list Z :=
  match n with
  | O => []
  | S n' => Z.land (Z.shiftr z (8 * Z.of_nat n')) 255 :: be_bytes n' z
  end.

Definition sha_pad (m : list Z) : list Z :=
  let len := Z.of_nat (length m) in
  m ++ 128 :: replicate (Z.to_nat ((55 - len) mod 64)) 0 ++ be_bytes 8 (8 * len).

Fixpoint to_words (l : list Z) : list Z :=
  match l with
  | b0 :: b1 :: b2 :: b3 :: l' =>
      Z.lor (Z.shiftl b0 24) (Z.lor (Z.shiftl b1 16) (Z.lor (Z.shiftl b2 8) b3)) :: to_words l'
  | _ => []
  end.

(** The 64-byte chunks of the padded message; [n] bounds their number. *)
Fixpoint sha_blocks (n : nat) (s : sha_state) (ws : list Z) : sha_state :=
  match n with
  | O => s
  | S n' => if bool_decide (ws = []) then s
            else sha_blocks n' (sha_block s (take 16 ws)) (drop 16 ws)
  end.

Definition sha256_Sum256 (data : string) : string :=
  let ws := to_words (sha_pad (string_bytes data)) in
  let s := sha_blocks (length ws) sha_init ws in
  bytes_string (concat (be_bytes 4 <$> [sa s; sb s; sc s; sd s; se s; sf s; sg s; sh s])).

Lemma bytes_string_length l : String.length (bytes_string l) = length l.
Proof. induction l; simpl; congruence. Qed.

(** Every digest is 32 bytes long. *)
Lemma sha256_length data : String.length (sha256_Sum256 data) = 32%nat.
Proof. unfold sha256_Sum256. by rewrite bytes_string_length. Qed.

(** The FIPS 180-4 test vector for "abc" and the empty string. *)
Example sha256_abc :
  hex_EncodeToString (sha256_Sum256 "abc")
  = "ba7816bf8f01cfea414140de5dae2223b00361a396177a9cb410ff61f20015ad".
Proof. vm_compute. reflexivity. Qed.

Example sha256_empty :
  hex_EncodeToString (sha256_Sum256 "")
  = "e3b0c44298fc1c149afbf4c8996fb92427ae41e4649b934ca495991b7852b855".
Proof. vm_compute. reflexivity. Qed.
