(* ===== verification/Types.v ===== *)
(** * Types: the domain types of types/types.go, and CIDs *)

From S2P Require Import Prelude GoStd.

(** A CID as the sources inspect it: its prefix (version, codec, multihash type
    and length) and the digest. *)
Record cid := Cid {
  cid_Version : Z; cid_Codec : Z; cid_MhType : Z; cid_MhLength : Z; cid_Digest : string }.

#[export] Instance cid_eq_dec : EqDecision cid.
Proof. solve_decision. Defined.

#[export] Instance cid_countable : Countable cid.
Proof.
  refine (inj_countable'
    (λ c, (cid_Version c, cid_Codec c, cid_MhType c, cid_MhLength c, cid_Digest c))
    (λ '(v, c, t, l, d), Cid v c t l d) _).
  by intros [].
Defined.

(** [cid.Undef], the zero value. *)
Definition cid_Undef : cid := Cid 0 0 0 0 "".

Record BlobInput := mkBlobInput {
  bi_Commitment : string;
  bi_VersionedHash : string;
  bi_TxHash : string;
  bi_BlockNumber : Z;
  bi_BlockHash : string;
  bi_Slot : Z;
  bi_Epoch : Z;
  bi_Index : Z;
  bi_Data : string;
  bi_Size : Z }.

#[export] Instance BlobInput_eq_dec : EqDecision BlobInput.
Proof. solve_decision. Defined.

Record EpochInput := mkEpochInput {
  ei_Epoch : Z;
  ei_Slot : Z;
  ei_Blobs : list BlobInput }.

Record BlobResult := mkBlobResult {
  br_Commitment : string;
  br_DataCID : cid;
  br_MetaCID : cid;
  br_SizeBytes : Z }.

Definition BlobResult_zero : BlobResult := mkBlobResult "" cid_Undef cid_Undef 0.

Record EpochResult := mkEpochResult {
  er_Epoch : Z;
  er_CID : cid;
  er_CARPath : string;
  er_ApproximateSizeBytes : Z }.

#[export] Instance EpochResult_eq_dec : EqDecision EpochResult.
Proof. solve_decision. Defined.

Record NetworkRootResult := mkNetworkRootResult {
  nr_CID : cid;
  nr_PageCount : Z }.

Record State := mkState {
  st_Network : string;
  st_LastProcessedEpoch : Z;
  st_BackfillCursor : Z }.
