(* ===== verification/Ipld.v ===== *)
(** * Ipld: the IPLD data model and the interface of the IPLD libraries

    The sources build dag-cbor nodes with [qp], store them through an
    [ipld.LinkSystem], and pass CIDs around. The libraries that do this
    (go-ipld-prime, go-cid, go-multihash, go-block-format) are not part of the
    repository: they are the operations of the class [Ipld], and what the code
    relies on is the class [IpldLaws]. *)

From S2P Require Import Prelude GoStd Types.

(** ** Nodes *)

Inductive node :=
  | NString (s : string)
  | NInt (z : Z)
  | NBytes (b : string)
  | NLink (c : cid)
  | NList (l : list node)
  | NMap (es : list (string * node)).

Section NodeInd.
Context (P : node → Prop).
Context (HS : ∀ s, P (NString s)) (HI : ∀ z, P (NInt z)) (HB : ∀ b, P (NBytes b))
        (HK : ∀ c, P (NLink c)) (HL : ∀ l, Forall P l → P (NList l))
        (HM : ∀ es, Forall (λ e, P (snd e)) es → P (NMap es)).

Fixpoint node_ind' (n : node) : P n :=
  match n with
  | NString s => HS s
  | NInt z => HI z
  | NBytes b => HB b
  | NLink c => HK c
  | NList l => HL l ((fix go l : Forall P l := match l with
      | [] => List.Forall_nil _
      | x :: l' => List.Forall_cons _ _ _ (node_ind' x) (go l') end) l)
  | NMap es => HM es ((fix go es : Forall (λ e, P (snd e)) es := match es with
      | [] => List.Forall_nil _
      | e :: es' => List.Forall_cons (λ e, P (snd e)) _ _ (node_ind' (snd e)) (go es') end) es)
  end.
End NodeInd.

(** Looking up a map key (the first entry with it). *)
Fixpoint assoc {A} (k : string) (es : list (string * A)) : option A :=
  match es with
  | [] => None
  | (k', v) :: es' => if bool_decide (k = k') then Some v else assoc k es'
  end.

Definition node_get (k : string) (n : node) : option node :=
  match n with NMap es => assoc k es | _ => None end.

(** No map of the node repeats a key: what the basicnode assembler accepts. *)
Fixpoint node_wf (n : node) : bool :=
  match n with
  | NList l => forallb node_wf l
  | NMap es => bool_decide (NoDup (fst <$> es)) && forallb (λ e, node_wf (snd e)) es
  | _ => true
  end.

(** No link of the node is [cid.Undef], which dag-cbor refuses to encode. *)
Fixpoint node_links_ok (n : node) : bool :=
  match n with
  | NLink c => negb (bool_decide (c = cid_Undef))
  | NList l => forallb node_links_ok l
  | NMap es => forallb (λ e, node_links_ok (snd e)) es
  | _ => true
  end.

(** The dag-cbor order of map keys: shorter first, then bytewise. *)
Definition canon_lt (k1 k2 : string) : bool :=
  if str_len k1 =? str_len k2 then String.ltb k1 k2 else str_len k1 <? str_len k2.

Fixpoint canon_insert {A} (e : string * A) (es : list (string * A)) : list (string * A) :=
  match es with
  | [] => [e]
  | e' :: es' => if canon_lt (fst e') (fst e) then e' :: canon_insert e es' else e :: es
  end.

(** A node with all its maps in dag-cbor order, which is how it reads back. *)
Fixpoint canon (n : node) : node :=
  match n with
  | NList l => NList (map canon l)
  | NMap es => NMap ((fix go es := match es with
      | [] => []
      | (k, v) :: es' => canon_insert (k, canon v) (go es') end) es)
  | _ => n
  end.

(** ** Link systems *)

Record LinkPrototype := mkLinkPrototype {
  lp_Version : Z; lp_Codec : Z; lp_MhType : Z; lp_MhLength : Z }.

Definition BuildLink (lp : LinkPrototype) (digest : string) : cid :=
  Cid (lp_Version lp) (lp_Codec lp) (lp_MhType lp) (lp_MhLength lp) digest.

Record block := mkBlock { blk_Cid : cid; blk_RawData : string }.

#[export] Instance block_eq_dec : EqDecision block.
Proof. solve_decision. Defined.

(** The fields of [ipld.LinkSystem] the sources set, over a blockstore [BS]. *)
Record LinkSystem (BS : Type) := mkLinkSystem {
  StorageWriteOpener : cid → string → Go BS unit;   (* the committer, on the written bytes *)
  StorageReadOpener : cid → BS → outcome string;
  EncoderChooser : LinkPrototype → outcome (node → outcome string);
  DecoderChooser : cid → outcome (string → outcome node) }.
Arguments StorageWriteOpener {BS}.
Arguments StorageReadOpener {BS}.
Arguments EncoderChooser {BS}.
Arguments DecoderChooser {BS}.

(** ** The libraries *)

Class Ipld := {
  BuildMap : list (string * node) → outcome node;        (* qp.BuildMap *)
  dagcbor_Encode : node → outcome string;
  dagcbor_Decode : string → outcome node;
  mh_Sum : Z → string → string;                          (* multihash digest *)
  NewBlockWithCid : string → cid → outcome block;
  cid_String : cid → string;
  cid_Decode : string → outcome cid;
  lsys_Store : ∀ {BS : Type}, LinkSystem BS → LinkPrototype → node → Go BS cid }.

Class IpldLaws (I : Ipld) : Prop := {
  BuildMap_ok es : node_wf (NMap es) = true → BuildMap es = Ok (NMap es);
  BuildMap_repeated es : node_wf (NMap es) = false → ∃ e, BuildMap es = Err e;
  dagcbor_Encode_ok n :
    node_wf n = true → node_links_ok n = true → is_Ok (dagcbor_Encode n);
  dagcbor_Decode_Encode n bs :
    node_wf n = true → dagcbor_Encode n = Ok bs → dagcbor_Decode bs = Ok (canon n);
  NewBlockWithCid_ok bs c : NewBlockWithCid bs c = Ok (mkBlock c bs);
  cid_Decode_String c : c ≠ cid_Undef → cid_Decode (cid_String c) = Ok c;
  cid_Decode_defined s c : cid_Decode s = Ok c → c ≠ cid_Undef;
  cid_Decode_no_panic s p : cid_Decode s ≠ Panic p;
  (** [LinkSystem.Store]: encode, hash, build the link, commit the bytes. *)
  lsys_Store_ok {BS} (lsys : LinkSystem BS) lp n enc data bs bs' :
    EncoderChooser lsys lp = Ok enc → enc n = Ok data →
    let c := BuildLink lp (mh_Sum (lp_MhType lp) data) in
    StorageWriteOpener lsys c data bs = (Ok tt, bs') →
    lsys_Store lsys lp n bs = (Ok c, bs');
  lsys_Store_encode_err {BS} (lsys : LinkSystem BS) lp n enc e bs :
    EncoderChooser lsys lp = Ok enc → enc n = Err e →
    ∃ e', lsys_Store lsys lp n bs = (Err e', bs);
}.

(** ** Facts about canonical nodes *)

Lemma canon_insert_perm {A} (e : string * A) es : canon_insert e es ≡ₚ e :: es.
Proof.
  induction es as [|e' es IH]; simpl; [done|].
  destruct (canon_lt _ _); [|done]. rewrite IH. constructor.
Qed.

Definition canon_entries (es : list (string * node)) : list (string * node) :=
  foldr (λ e acc, canon_insert (fst e, canon (snd e)) acc) [] es.

Lemma canon_NMap es : canon (NMap es) = NMap (canon_entries es).
Proof. simpl. f_equal. induction es as [|[k v] es IH]; simpl; [done|]. by rewrite IH. Qed.

Lemma canon_entries_perm es :
  canon_entries es ≡ₚ (λ e, (fst e, canon (snd e))) <$> es.
Proof.
  induction es as [|e es IH]; simpl; [done|]. by rewrite canon_insert_perm, IH.
Qed.

Lemma assoc_Some {A} k (es : list (string * A)) v :
  NoDup (fst <$> es) → assoc k es = Some v ↔ (k, v) ∈ es.
Proof.
  induction es as [|[k' v'] es IH]; simpl; intros Hnd.
  { split; [done|]. by intros ?%not_elem_of_nil. }
  apply NoDup_cons in Hnd as [Hk Hnd]. rewrite elem_of_cons. case_bool_decide; subst.
  - split; [naive_solver|]. intros [[= ->]|Hin]; [done|].
    destruct Hk. apply list_elem_of_fmap. by exists (k', v).
  - rewrite IH by done. naive_solver.
Qed.

Lemma assoc_app {A} k (es es' : list (string * A)) :
  assoc k (es ++ es') = match assoc k es with Some v => Some v | None => assoc k es' end.
Proof. induction es as [|[k' v] es IH]; simpl; [done|]. by case_bool_decide. Qed.

Lemma assoc_elem {A} k (es : list (string * A)) v : assoc k es = Some v → (k, v) ∈ es.
Proof.
  induction es as [|[k' v'] es IH]; simpl; [done|].
  case_bool_decide; [intros [= ->]; subst; by left|]. intros. right. auto.
Qed.

Lemma assoc_perm {A} k (es es' : list (string * A)) :
  NoDup (fst <$> es) → es ≡ₚ es' → assoc k es = assoc k es'.
Proof.
  intros Hnd Hp. apply option_eq; intros v.
  rewrite !assoc_Some; [by rewrite Hp| |done]. by rewrite <- Hp.
Qed.

(** Reading a key of a map commutes with putting the node in canonical order. *)
Lemma node_get_canon k es :
  NoDup (fst <$> es) → node_get k (canon (NMap es)) = canon <$> assoc k es.
Proof.
  intros Hnd. rewrite canon_NMap. simpl.
  assert (assoc k (canon_entries es) = assoc k ((λ e, (fst e, canon (snd e))) <$> es)) as ->.
  { symmetry. apply assoc_perm; [|symmetry; apply canon_entries_perm].
    by rewrite <- list_fmap_compose. }
  clear Hnd. induction es as [|[k' v] es IH]; simpl; [done|]. by case_bool_decide.
Qed.

Lemma node_get_canon_Some k es v :
  NoDup (fst <$> es) → assoc k es = Some v → node_get k (canon (NMap es)) = Some (canon v).
Proof. intros Hnd Ha. by rewrite node_get_canon, Ha. Qed.

Lemma node_wf_NMap es :
  node_wf (NMap es) = true ↔ NoDup (fst <$> es) ∧ ∀ k v, (k, v) ∈ es → node_wf v = true.
Proof.
  simpl. rewrite andb_true_iff, bool_decide_eq_true, forallb_forall.
  split; intros [H1 H2]; split; try done.
  - intros k v Hin. apply (H2 (k, v)). by apply list_elem_of_In.
  - intros [k v] Hin. apply (H2 k v). by apply list_elem_of_In.
Qed.

Lemma node_wf_links cs : node_wf (NList (NLink <$> cs)) = true.
Proof. simpl. induction cs; simpl; done. Qed.

Lemma canon_links cs : canon (NList (NLink <$> cs)) = NList (NLink <$> cs).
Proof. simpl. f_equal. induction cs as [|c cs IH]; [done|]. rewrite fmap_cons; simpl. by rewrite IH. Qed.

Lemma node_links_ok_links cs :
  node_links_ok (NList (NLink <$> cs)) = true ↔ Forall (λ c, c ≠ cid_Undef) cs.
Proof.
  simpl. induction cs as [|c cs IH]; simpl; [done|].
  rewrite Forall_cons, andb_true_iff, negb_true_iff, bool_decide_eq_false, IH. done.
Qed.

(** The keys of a map written out in the source are distinct: by evaluation. *)
Ltac keys_nodup := apply (bool_decide_unpack _); vm_compute; exact Logic.I.

#[export] Hint Rewrite canon_links node_wf_links : go.
