(* ===== verification/Store.v ===== *)
(** * Store: the staging blockstores and the link system

    [store/blockstore.go] (MemBlockstore, NullBlockstore) and
    [store/linksystem.go] (NewLinkSystem, the raw codec). The blockstore is the
    state the builder's computations run in. *)

From S2P Require Import Prelude GoStd Types Ipld.

Definition err_NotFound : error := mkError "blockstore: block not found" [ErrNotFound].

(** ** MemBlockstore *)
Module MemBlockstore.
Record t := mk { blocks : gmap cid block }.

Definition NewMemBlockstore : t := mk ∅.

Definition Put (b : block) : Go t unit := modify (λ m, mk (<[blk_Cid b := b]> (blocks m))).

Definition PutMany (bs : list block) : Go t unit :=
  modify (λ m, mk (foldl (λ acc b, <[blk_Cid b := b]> acc) (blocks m) bs)).

Definition Get (c : cid) (m : t) : outcome block :=
  match blocks m !! c with
  | Some b => Ok b
  | None => Err err_NotFound
  end.

Definition Has (c : cid) (m : t) : outcome bool := Ok (bool_decide (is_Some (blocks m !! c))).

Definition GetSize (c : cid) (m : t) : outcome Z :=
  match blocks m !! c with
  | Some b => Ok (str_len (blk_RawData b))
  | None => Err err_NotFound
  end.

Definition DeleteBlock (c : cid) : Go t unit := modify (λ m, mk (delete c (blocks m))).

Definition Len (m : t) : Z := Z.of_nat (size (blocks m)).

Section Iteration.
Context {R : GoRuntime}.

Definition All (m : t) : list block := snd <$> map_range (blocks m).

(** The CIDs that arrive on the channel. The goroutine stops when its
    context is done, after [stop] sends; the channel holds all the keys, so
    it never blocks. *)
Definition AllKeysChan (stop : option nat) (m : t) : list cid :=
  let keys := fst <$> map_range (blocks m) in
  match stop with Some n => take n keys | None => keys end.
End Iteration.
End MemBlockstore.

(** ** NullBlockstore: discards writes, never finds anything *)
Module NullBlockstore.
Inductive t := Null.

Definition Put (_ : block) : Go t unit := mret tt.
Definition PutMany (_ : list block) : Go t unit := mret tt.
Definition Get (_ : cid) (_ : t) : outcome block := Err err_NotFound.
Definition Has (_ : cid) (_ : t) : outcome bool := Ok false.
Definition GetSize (_ : cid) (_ : t) : outcome Z := Err err_NotFound.
Definition DeleteBlock (_ : cid) : Go t unit := mret tt.
Definition AllKeysChan (_ : t) : list cid := [].
End NullBlockstore.

(** ** The link system *)

(** The minimal interface NewLinkSystem needs of a blockstore. *)
Class blockstoreBackend (BS : Type) := {
  bs_Put : block → Go BS unit;
  bs_Get : cid → BS → outcome block }.

#[export] Instance mem_backend : blockstoreBackend MemBlockstore.t :=
  {| bs_Put := MemBlockstore.Put; bs_Get := MemBlockstore.Get |}.
#[export] Instance null_backend : blockstoreBackend NullBlockstore.t :=
  {| bs_Put := NullBlockstore.Put; bs_Get := NullBlockstore.Get |}.

Definition mc_Raw : Z := 0x55.
Definition mc_DagCbor : Z := 0x71.

(** [n.AsBytes()], then write them. *)
Definition rawEncode (n : node) : outcome string :=
  match n with
  | NBytes b => Ok b
  | _ => Err (errors_New "AsBytes: wrong kind")
  end.

Definition rawDecode (data : string) : outcome node := Ok (NBytes data).

Section LinkSystem.
Context {I : Ipld} {BS : Type} {B : blockstoreBackend BS}.

Definition ls_commit (c : cid) (raw : string) : Go BS unit :=
  blk ← wrapf ("linksystem: create block " +:+ cid_String c) (lift (NewBlockWithCid raw c));
  bs_Put blk.

Definition ls_read (c : cid) (bs : BS) : outcome string :=
  blk ← wrap ("linksystem: get block " +:+ cid_String c) (bs_Get c bs);
  Ok (blk_RawData blk).

Definition ls_encoder (lp : LinkPrototype) : outcome (node → outcome string) :=
  if lp_Codec lp =? mc_DagCbor then Ok dagcbor_Encode
  else if lp_Codec lp =? mc_Raw then Ok rawEncode
  else Err (errors_New "linksystem: unsupported encoder codec").

Definition ls_decoder (c : cid) : outcome (string → outcome node) :=
  if cid_Codec c =? mc_DagCbor then Ok dagcbor_Decode
  else if cid_Codec c =? mc_Raw then Ok rawDecode
  else Err (errors_New "linksystem: unsupported decoder codec").

Definition NewLinkSystem : LinkSystem BS := {|
  StorageWriteOpener := ls_commit;
  StorageReadOpener := ls_read;
  EncoderChooser := ls_encoder;
  DecoderChooser := ls_decoder |}.

(** Reading a node back: open the block, decode it with the codec of its CID. *)
Definition read_node (c : cid) (bs : BS) : outcome node :=
  data ← StorageReadOpener NewLinkSystem c bs;
  dec ← DecoderChooser NewLinkSystem c;
  dec data.
End LinkSystem.

Arguments NewLinkSystem {I} BS {B}.

(** ** Facts *)

(** What a client of a blockstore may rely on: a block it put is what a later
    read finds under that CID, and nothing else changed. *)
Class BlockstoreSpec (BS : Type) {B : blockstoreBackend BS} := {
  bs_view : BS → cid → option block;
  bs_Get_view : ∀ c bs b, bs_Get c bs = Ok b ↔ bs_view bs c = Some b;
  bs_Put_ok : ∀ b bs, ∃ bs', bs_Put b bs = (Ok tt, bs') ∧
    ∀ c, bs_view bs' c = if decide (c = blk_Cid b) then Some b else bs_view bs c }.

#[export] Instance mem_spec : BlockstoreSpec MemBlockstore.t.
Proof.
  refine {| bs_view m c := MemBlockstore.blocks m !! c |}.
  - intros c m b. simpl. unfold MemBlockstore.Get.
    destruct (MemBlockstore.blocks m !! c); split; congruence.
  - intros b m. eexists. split; [reflexivity|]. intros c. simpl.
    case_decide; subst; [apply lookup_insert_eq|by apply lookup_insert_ne].
Defined.

(** A blockstore that accepts every write, whether or not it keeps it. *)
Class AcceptsWrites (BS : Type) {B : blockstoreBackend BS} : Prop :=
  put_accepts : ∀ b bs, ∃ bs', bs_Put b bs = (Ok tt, bs').

#[export] Instance mem_accepts : AcceptsWrites MemBlockstore.t.
Proof. intros b bs. eexists. reflexivity. Qed.
#[export] Instance null_accepts : AcceptsWrites NullBlockstore.t.
Proof. intros b bs. eexists. reflexivity. Qed.

Section StoreFacts.
Context {I : Ipld} {L : IpldLaws I}.

(** The encoding and the CID the link system gives a node. *)
Definition node_data (lp : LinkPrototype) (n : node) : outcome string :=
  enc ← ls_encoder lp; enc n.
Definition data_cid (lp : LinkPrototype) (data : string) : cid :=
  BuildLink lp (mh_Sum (lp_MhType lp) data).

Lemma Store_encoded {BS} `{!blockstoreBackend BS} lp n data (bs bs' : BS) :
  node_data lp n = Ok data →
  bs_Put (mkBlock (data_cid lp data) data) bs = (Ok tt, bs') →
  lsys_Store (NewLinkSystem BS) lp n bs = (Ok (data_cid lp data), bs').
Proof.
  unfold node_data. destruct (ls_encoder lp) as [enc| |] eqn:He; simpl; try done.
  intros Hd Hp. apply (lsys_Store_ok _ _ _ enc data); [done|done|].
  simpl. unfold ls_commit, wrapf, lift. cbn. rewrite NewBlockWithCid_ok. simpl. done.
Qed.

Lemma Store_accepts {BS} `{!blockstoreBackend BS} `{!AcceptsWrites BS} lp n data (bs : BS) :
  node_data lp n = Ok data →
  ∃ bs', bs_Put (mkBlock (data_cid lp data) data) bs = (Ok tt, bs') ∧
         lsys_Store (NewLinkSystem BS) lp n bs = (Ok (data_cid lp data), bs').
Proof.
  intros Hd. destruct (put_accepts (mkBlock (data_cid lp data) data) bs) as [bs' Hp].
  exists bs'. split; [done|]. by apply Store_encoded.
Qed.
End StoreFacts.

(** ** Computations that only put blocks

    The builder reads nothing back: on a blockstore that accepts writes, each
    of its operations comes down to a result and a list of blocks put in order,
    neither of which depends on the blockstore. *)
Section Runs.
Context {I : Ipld} {L : IpldLaws I}.
Context {BS : Type} {B : blockstoreBackend BS}.

Definition put_all (blks : list block) (bs : BS) : BS :=
  foldl (λ s b, snd (bs_Put b s)) bs blks.

Definition runs_as {A} (m : Go BS A) (r : A) (blks : list block) : Prop :=
  ∀ bs, m bs = (Ok r, put_all blks bs).

Lemma put_all_app b1 b2 bs : put_all (b1 ++ b2) bs = put_all b2 (put_all b1 bs).
Proof. apply foldl_app. Qed.

Lemma runs_as_ret {A} (a : A) : runs_as (mret a) a [].
Proof. by intros bs. Qed.

Lemma runs_as_bind {A C} (m : Go BS A) (f : A → Go BS C) a r b1 b2 :
  runs_as m a b1 → runs_as (f a) r b2 → runs_as (m ≫= f) r (b1 ++ b2).
Proof.
  intros Hm Hf bs. unfold mbind, go_bind. rewrite Hm, Hf. by rewrite put_all_app.
Qed.

Lemma runs_as_map {A C} (m : Go BS A) (f : A → C) a blks :
  runs_as m a blks → runs_as (x ← m; mret (f x)) (f a) blks.
Proof. intros Hm bs. unfold mbind, go_bind. by rewrite Hm. Qed.

Lemma runs_as_lift {A} (o : outcome A) a : o = Ok a → runs_as (lift o) a [].
Proof. by intros -> bs. Qed.

Lemma runs_as_wrapf {A} ctx (m : Go BS A) a blks :
  runs_as m a blks → runs_as (wrapf ctx m) a blks.
Proof. intros Hm bs. unfold wrapf. by rewrite Hm. Qed.

Lemma runs_as_store `{!AcceptsWrites BS} lp n data :
  node_data lp n = Ok data →
  runs_as (lsys_Store (NewLinkSystem BS) lp n) (data_cid lp data)
          [mkBlock (data_cid lp data) data].
Proof.
  intros Hd bs. destruct (Store_accepts lp n data bs Hd) as (bs' & Hp & Hs).
  rewrite Hs. simpl. by rewrite Hp.
Qed.

Lemma runs_as_fst {A} (m : Go BS A) r blks bs : runs_as m r blks → fst (m bs) = Ok r.
Proof. intros Hm. by rewrite Hm. Qed.
End Runs.

#[export] Hint Resolve runs_as_ret runs_as_lift runs_as_wrapf runs_as_bind runs_as_store : go.

(** Blocks whose CIDs tell their data apart: no hash collision among them. *)
Definition collision_free (blks : list block) : Prop :=
  ∀ b1 b2, b1 ∈ blks → b2 ∈ blks → blk_Cid b1 = blk_Cid b2 → b1 = b2.

Section ReadBack.
Context {I : Ipld} {L : IpldLaws I}.
Context {BS : Type} {B : blockstoreBackend BS} {V : BlockstoreSpec BS}.

Lemma put_all_view_notin blks bs c :
  (∀ b, b ∈ blks → blk_Cid b ≠ c) → bs_view (put_all blks bs) c = bs_view bs c.
Proof.
  revert bs; induction blks as [|b blks IH]; intros bs Hn; [done|]. simpl.
  destruct (bs_Put_ok b bs) as (bs' & Hp & Hv). rewrite Hp; simpl.
  rewrite IH by set_solver. rewrite Hv. rewrite decide_False; [done|].
  intros ->. apply (Hn b); [left|done].
Qed.

(** Every block put is what the blockstore then holds under its CID. *)
Lemma put_all_view blks bs b :
  collision_free blks → b ∈ blks → bs_view (put_all blks bs) (blk_Cid b) = Some b.
Proof.
  revert bs; induction blks as [|b' blks IH]; intros bs Hc Hin.
  { by apply not_elem_of_nil in Hin. }
  assert (collision_free blks) as Hc' by (intros ????; apply Hc; by right).
  simpl. destruct (bs_Put_ok b' bs) as (bs' & Hp & Hv). rewrite Hp; simpl.
  destruct (decide (b ∈ blks)) as [Hb|Hb]; [by apply IH|].
  apply elem_of_cons in Hin as [->|]; [|done].
  rewrite put_all_view_notin.
  - by rewrite Hv, decide_True.
  - intros b2 Hb2 Heq. apply Hb. by rewrite (Hc b' b2 ltac:(left) ltac:(by right) (eq_sym Heq)).
Qed.

Lemma read_node_put blks bs b dec n :
  collision_free blks → b ∈ blks →
  ls_decoder (blk_Cid b) = Ok dec → dec (blk_RawData b) = Ok n →
  read_node (blk_Cid b) (put_all blks bs) = Ok n.
Proof.
  intros Hc Hin Hd Hn. unfold read_node. simpl. unfold ls_read.
  pose proof (proj2 (bs_Get_view (blk_Cid b) (put_all blks bs) b)
                (put_all_view blks bs b Hc Hin)) as Hg.
  rewrite Hg. simpl. rewrite Hd. simpl. done.
Qed.
End ReadBack.
