(* ===== verification/IpldModel.v ===== *)
(** * IpldModel: a concrete instance of the IPLD interface

    Used to evaluate the definitions on concrete inputs. Nodes are encoded in
    canonical order through the countable encoding of trees, digests are
    SHA-256, and a CID prints as its fields. *)

From S2P Require Import Prelude GoStd Sha256 Types Ipld Store.

(** A positive number as bytes: its bits from the lowest up to the leading 1,
    then zeros up to a whole byte. *)
Fixpoint pos_to_bits (p : positive) : list bool :=
  match p with xH => [true] | xO p => false :: pos_to_bits p | xI p => true :: pos_to_bits p end.

Fixpoint bits_to_pos (l : list bool) : option positive :=
  match l with
  | [] => None
  | b :: l' =>
      match bits_to_pos l' with
      | Some p => Some (if b then xI p else xO p)
      | None => if b then Some xH else None
      end
  end.

Fixpoint pack (l : list bool) : string :=
  match l with
  | b0 :: b1 :: b2 :: b3 :: b4 :: b5 :: b6 :: b7 :: l' => String (Ascii b0 b1 b2 b3 b4 b5 b6 b7) (pack l')
  | [] => ""
  | _ => let b i := nth i l false in String (Ascii (b 0) (b 1) (b 2) (b 3) (b 4) (b 5) (b 6) (b 7))%nat ""
  end.

Fixpoint unpack (s : string) : list bool :=
  match s with
  | "" => []
  | String (Ascii b0 b1 b2 b3 b4 b5 b6 b7) s' => [b0; b1; b2; b3; b4; b5; b6; b7] ++ unpack s'
  end.

Definition pos_bits (p : positive) : string := pack (pos_to_bits p).
Definition bits_pos (s : string) : positive := default xH (bits_to_pos (unpack s)).

Lemma unpack_pack n : ∀ l, (length l ≤ n)%nat → ∃ k, unpack (pack l) = l ++ replicate k false.
Proof.
  induction n as [n IH] using lt_wf_ind. intros l Hl.
  destruct l as [|b0 [|b1 [|b2 [|b3 [|b4 [|b5 [|b6 [|b7 l]]]]]]]]; [by exists 0%nat|by exists 7%nat|by exists 6%nat
    |by exists 5%nat|by exists 4%nat|by exists 3%nat|by exists 2%nat|by exists 1%nat|].
  cbn [length] in Hl. destruct (IH (length l) ltac:(lia) l ltac:(lia)) as [k Hk]. exists k. cbn. by rewrite Hk.
Qed.

Lemma bits_to_pos_zeros k : bits_to_pos (replicate k false) = None.
Proof. induction k as [|k IH]; [done|]. cbn. by rewrite IH. Qed.

Lemma bits_to_pos_bits p k : bits_to_pos (pos_to_bits p ++ replicate k false) = Some p.
Proof. induction p as [p IH|p IH|]; cbn; rewrite ?IH, ?bits_to_pos_zeros; done. Qed.

Lemma bits_pos_bits p : bits_pos (pos_bits p) = p.
Proof.
  unfold bits_pos, pos_bits. destruct (unpack_pack _ (pos_to_bits p) (Nat.le_refl _)) as [k ->].
  by rewrite bits_to_pos_bits.
Qed.

Definition leaf : Type := string + Z + cid.

Fixpoint node_tree (n : node) : gen_tree leaf :=
  match n with
  | NString s => GenNode 0 [GenLeaf (inl (inl s))]
  | NInt z => GenNode 1 [GenLeaf (inl (inr z))]
  | NBytes s => GenNode 2 [GenLeaf (inl (inl s))]
  | NLink c => GenNode 3 [GenLeaf (inr c)]
  | NList l => GenNode 4 (map node_tree l)
  | NMap es => GenNode 5 (map (λ e, GenNode 6 [GenLeaf (inl (inl (fst e))); node_tree (snd e)]) es)
  end.

Fixpoint tree_node (t : gen_tree leaf) : node :=
  match t with
  | GenNode 0 [GenLeaf (inl (inl s))] => NString s
  | GenNode 1 [GenLeaf (inl (inr z))] => NInt z
  | GenNode 2 [GenLeaf (inl (inl s))] => NBytes s
  | GenNode 3 [GenLeaf (inr c)] => NLink c
  | GenNode 4 ts => NList (map tree_node ts)
  | GenNode 5 ts => NMap (map (λ t, match t with
      | GenNode 6 [GenLeaf (inl (inl k)); t'] => (k, tree_node t')
      | _ => ("", NInt 0) end) ts)
  | _ => NInt 0
  end.

Lemma tree_node_tree n : tree_node (node_tree n) = n.
Proof.
  induction n using node_ind'; simpl; try done; f_equal.
  - induction H as [|x l Hx Hl IH]; simpl; congruence.
  - induction H as [|[k v] es Hv Hes IH]; simpl in *; congruence.
Qed.

Definition model_Encode (n : node) : outcome string :=
  if node_wf n && node_links_ok n then Ok (pos_bits (encode (node_tree (canon n))))
  else Err (errors_New "dagcbor: cannot encode").

Definition model_Decode (s : string) : outcome node :=
  match decode (bits_pos s) with
  | Some t => Ok (tree_node t)
  | None => Err (errors_New "dagcbor: cannot decode")
  end.

Definition model_String (c : cid) : string :=
  if bool_decide (c = cid_Undef) then "" else String "b" (pos_bits (encode c)).

Definition model_cid_Decode (s : string) : outcome cid :=
  match s with
  | "" => Err (errors_New "cid too short")
  | String _ s' =>
      c ← of_option (errors_New "invalid cid") (decode (bits_pos s'));
      if bool_decide (c = cid_Undef) then Err (errors_New "invalid cid") else Ok c
  end.

Definition model_BuildMap (es : list (string * node)) : outcome node :=
  if node_wf (NMap es) then Ok (NMap es) else Err (errors_New "cannot repeat map key").

Definition model_Store {BS} (lsys : LinkSystem BS) (lp : LinkPrototype) (n : node) : Go BS cid :=
  enc ← lift (EncoderChooser lsys lp);
  data ← lift (enc n);
  let c := BuildLink lp (sha256_Sum256 data) in
  _ ← StorageWriteOpener lsys c data;
  mret c.

#[export] Instance ipld_model : Ipld := {|
  BuildMap := model_BuildMap;
  dagcbor_Encode := model_Encode;
  dagcbor_Decode := model_Decode;
  mh_Sum _ := sha256_Sum256;
  NewBlockWithCid bs c := Ok (mkBlock c bs);
  cid_String := model_String;
  cid_Decode := model_cid_Decode;
  lsys_Store := @model_Store |}.

#[export] Instance ipld_model_laws : IpldLaws ipld_model.
Proof.
  split.
  - intros es Hw. cbn -[node_wf]. unfold model_BuildMap. by rewrite Hw.
  - intros es Hw. cbn -[node_wf]. unfold model_BuildMap. rewrite Hw. eauto.
  - intros n Hw Hl. cbn. unfold model_Encode. rewrite Hw, Hl. eexists. reflexivity.
  - intros n bs Hw. cbn. unfold model_Encode, model_Decode.
    destruct (_ && _); [|done]. intros [= <-].
    by rewrite bits_pos_bits, decode_encode, tree_node_tree.
  - done.
  - intros c Hc. cbn. unfold model_cid_Decode, model_String.
    rewrite bool_decide_eq_false_2 by done. rewrite bits_pos_bits, decode_encode. cbn.
    by rewrite bool_decide_eq_false_2.
  - intros s c. cbn. unfold model_cid_Decode. destruct s; [done|].
    destruct (decode _); cbn; [|done]. case_bool_decide; [done|]. by intros [= <-].
  - intros s p. cbn. unfold model_cid_Decode. destruct s; [done|].
    destruct (decode _); cbn; [|done]. by case_bool_decide.
  - intros BS lsys lp n enc data bs bs' He Hd c Hw. cbn. unfold model_Store. cbn.
    unfold mbind, go_bind, lift. rewrite He, Hd. unfold c in Hw. cbn in Hw. by rewrite Hw.
  - intros BS lsys lp n enc e bs He Hd. cbn. unfold model_Store, mbind, go_bind, lift.
    rewrite He, Hd. eauto.
Qed.
