(* ===== verification/Blob.v ===== *)
(** * Blob: builder/blob.go

    StoreRawBlob, StoreBlobMetadata and ProcessBlob: a blob becomes a raw block
    and a dag-cbor metadata block that links to it. *)

From S2P Require Import Prelude GoStd Types Ipld Store IpldModel.

Definition mh_SHA2_256 : Z := 0x12.

Definition linkProtoRaw : LinkPrototype :=
  {| lp_Version := 1; lp_Codec := mc_Raw; lp_MhType := mh_SHA2_256; lp_MhLength := 32 |}.

Definition linkProtoDagCBOR : LinkPrototype :=
  {| lp_Version := 1; lp_Codec := mc_DagCbor; lp_MhType := mh_SHA2_256; lp_MhLength := 32 |}.

(** The size recorded in the metadata: [inp.Size] when set, else [len(inp.Data)]. *)
Definition blob_size (inp : BlobInput) : Z :=
  if bi_Size inp =? 0 then str_len (bi_Data inp) else bi_Size inp.

Definition metadata_entries (inp : BlobInput) (dataCID : cid) : list (string * node) :=
  [("commitment", NString (bi_Commitment inp));
   ("versionedHash", NString (bi_VersionedHash inp));
   ("txHash", NString (bi_TxHash inp));
   ("blockNumber", NInt (to_i64 (bi_BlockNumber inp)));
   ("blockHash", NString (bi_BlockHash inp));
   ("slot", NInt (to_i64 (bi_Slot inp)));
   ("epoch", NInt (to_i64 (bi_Epoch inp)));
   ("index", NInt (bi_Index inp));
   ("size", NInt (blob_size inp));
   ("data", NLink dataCID)].

Section Blob.
Context {I : Ipld} {BS : Type} {B : blockstoreBackend BS}.

Definition StoreRawBlob (data : string) : Go BS cid :=
  wrapf "builder: store raw blob" (lsys_Store (NewLinkSystem BS) linkProtoRaw (NBytes data)).

Definition StoreBlobMetadata (inp : BlobInput) (dataCID : cid) : Go BS cid :=
  n ← wrapf "builder: build blob metadata node" (lift (BuildMap (metadata_entries inp dataCID)));
  wrapf "builder: store blob metadata" (lsys_Store (NewLinkSystem BS) linkProtoDagCBOR n).

Definition ProcessBlob (inp : BlobInput) : Go BS BlobResult :=
  dataCID ← wrapf ("builder: process blob " +:+ bi_Commitment inp) (StoreRawBlob (bi_Data inp));
  metaCID ← wrapf ("builder: process blob metadata " +:+ bi_Commitment inp)
              (StoreBlobMetadata inp dataCID);
  mret {| br_Commitment := bi_Commitment inp;
          br_DataCID := dataCID;
          br_MetaCID := metaCID;
          br_SizeBytes := str_len (bi_Data inp) |}.
End Blob.

(** ** What the operations compute *)

Section BlobSpec.
Context {I : Ipld} {L : IpldLaws I}.

Definition raw_block (data : string) : block := mkBlock (data_cid linkProtoRaw data) data.

(** The dag-cbor block of a node. *)
Definition cbor_block (n : node) : outcome block :=
  data ← dagcbor_Encode n; Ok (mkBlock (data_cid linkProtoDagCBOR data) data).

Lemma data_cid_defined lp data : lp_Version lp = 1 → data_cid lp data ≠ cid_Undef.
Proof. intros Hv. unfold data_cid, BuildLink. rewrite Hv. discriminate. Qed.

Lemma cbor_block_codec n b : cbor_block n = Ok b → cid_Codec (blk_Cid b) = mc_DagCbor.
Proof. unfold cbor_block. destruct (dagcbor_Encode n); [|done|done]. by intros [= <-]. Qed.

Lemma cbor_block_decode n b : node_wf n = true → cbor_block n = Ok b → dagcbor_Decode (blk_RawData b) = Ok (canon n).
Proof.
  unfold cbor_block. destruct (dagcbor_Encode n) as [data| |] eqn:Hd; [|done|done]. intros Hw [= <-].
  by apply dagcbor_Decode_Encode.
Qed.

Lemma cbor_block_defined n b : cbor_block n = Ok b → blk_Cid b ≠ cid_Undef.
Proof.
  unfold cbor_block. destruct (dagcbor_Encode n); [|done|done]. intros [= <-].
  by apply data_cid_defined.
Qed.

Lemma cbor_block_ok n :
  node_wf n = true → node_links_ok n = true → ∃ b, cbor_block n = Ok b.
Proof.
  intros Hw Hl. destruct (dagcbor_Encode_ok n Hw Hl) as [d Hd]. unfold cbor_block.
  rewrite Hd. eauto.
Qed.

Lemma store_cbor {BS} `{!blockstoreBackend BS} `{!AcceptsWrites BS} n b :
  cbor_block n = Ok b →
  runs_as (lsys_Store (NewLinkSystem BS) linkProtoDagCBOR n) (blk_Cid b) [b].
Proof.
  unfold cbor_block. destruct (dagcbor_Encode n) as [data| |] eqn:Hd; [|done|done].
  intros [= <-]. simpl. apply runs_as_store. unfold node_data. done.
Qed.

(** A dag-cbor block that was put reads back as its node, in canonical order. *)
Lemma read_cbor {BS} `{!blockstoreBackend BS} `{!BlockstoreSpec BS} blks (bs : BS) n b :
  collision_free blks → b ∈ blks → node_wf n = true → cbor_block n = Ok b →
  read_node (blk_Cid b) (put_all blks bs) = Ok (canon n).
Proof.
  intros Hc Hin Hw Hb. apply (read_node_put blks bs b dagcbor_Decode); [done|done| |].
  - unfold ls_decoder. by rewrite (cbor_block_codec n b Hb).
  - by apply cbor_block_decode.
Qed.

Lemma store_raw {BS} `{!blockstoreBackend BS} `{!AcceptsWrites BS} data :
  runs_as (StoreRawBlob (BS := BS) data) (blk_Cid (raw_block data)) [raw_block data].
Proof. apply runs_as_wrapf, runs_as_store. done. Qed.

Lemma metadata_wf inp c : node_wf (NMap (metadata_entries inp c)) = true.
Proof. done. Qed.

Lemma metadata_links inp c :
  c ≠ cid_Undef → node_links_ok (NMap (metadata_entries inp c)) = true.
Proof. intros Hc. simpl. by rewrite bool_decide_eq_false_2. Qed.

Definition metadata_block (inp : BlobInput) (c : cid) : outcome block :=
  cbor_block (NMap (metadata_entries inp c)).

Lemma store_metadata {BS} `{!blockstoreBackend BS} `{!AcceptsWrites BS} inp c b :
  metadata_block inp c = Ok b →
  runs_as (StoreBlobMetadata (BS := BS) inp c) (blk_Cid b) [b].
Proof.
  intros Hb. unfold StoreBlobMetadata. apply (runs_as_bind _ _ (NMap (metadata_entries inp c)) _ []).
  - apply runs_as_wrapf, runs_as_lift, BuildMap_ok, metadata_wf.
  - apply runs_as_wrapf. by apply store_cbor.
Qed.

(** ProcessBlob always succeeds on a blockstore that accepts writes: it puts
    the raw block, then the metadata block, and returns their CIDs. *)
Lemma ProcessBlob_runs inp : ∃ mb,
  metadata_block inp (data_cid linkProtoRaw (bi_Data inp)) = Ok mb ∧
  ∀ BS (B : blockstoreBackend BS) (W : AcceptsWrites BS),
    runs_as (ProcessBlob (BS := BS) inp)
      (mkBlobResult (bi_Commitment inp) (data_cid linkProtoRaw (bi_Data inp)) (blk_Cid mb)
         (str_len (bi_Data inp)))
      [raw_block (bi_Data inp); mb].
Proof.
  set (c := data_cid linkProtoRaw (bi_Data inp)).
  destruct (cbor_block_ok (NMap (metadata_entries inp c))) as [mb Hmb].
  { apply metadata_wf. }
  { by apply metadata_links, data_cid_defined. }
  exists mb. split; [done|]. intros BS ? ?. unfold ProcessBlob.
  apply (runs_as_bind _ _ c _ [raw_block (bi_Data inp)] [mb]).
  { apply runs_as_wrapf, store_raw. }
  apply (runs_as_bind _ _ (blk_Cid mb) _ [mb] []).
  { apply runs_as_wrapf. by apply store_metadata. }
  apply runs_as_ret.
Qed.

Lemma raw_meta_collision_free inp c mb :
  metadata_block inp c = Ok mb → collision_free [raw_block (bi_Data inp); mb].
Proof.
  intros Hmb b1 b2 H1 H2 Heq.
  assert (blk_Cid (raw_block (bi_Data inp)) ≠ blk_Cid mb) as Hne.
  { intros Hc. apply cbor_block_codec in Hmb. rewrite <- Hc in Hmb. discriminate. }
  set_unfold. naive_solver congruence.
Qed.

(** What the metadata records of an input: the size is the effective one. *)
Definition recorded (inp : BlobInput) : BlobInput :=
  mkBlobInput (bi_Commitment inp) (bi_VersionedHash inp) (bi_TxHash inp)
    (bi_BlockNumber inp) (bi_BlockHash inp) (bi_Slot inp) (bi_Epoch inp)
    (bi_Index inp) (bi_Data inp) (blob_size inp).

(** The unsigned fields of an input are uint64 values. *)
Definition BlobInput_u64 (inp : BlobInput) : Prop :=
  is_u64 (bi_BlockNumber inp) ∧ is_u64 (bi_Slot inp) ∧ is_u64 (bi_Epoch inp).

Definition digest_collision : Prop :=
  ∃ d1 d2, d1 ≠ d2 ∧ mh_Sum mh_SHA2_256 d1 = mh_Sum mh_SHA2_256 d2.

(** Equal CIDs come from equal bytes, or the digest has a collision. *)
Lemma data_cid_binding lp d1 d2 :
  lp_MhType lp = mh_SHA2_256 → data_cid lp d1 = data_cid lp d2 → d1 = d2 ∨ digest_collision.
Proof.
  unfold data_cid, BuildLink. intros -> [= Hd].
  destruct (decide (d1 = d2)); [by left|]. right. by exists d1, d2.
Qed.

(** A block as the link system makes them: a version 1 CID of the SHA-256 of
    its bytes. *)
Definition certified (b : block) : Prop :=
  ∃ lp, lp_Version lp = 1 ∧ lp_MhType lp = mh_SHA2_256 ∧ blk_Cid b = data_cid lp (blk_RawData b).

Lemma raw_block_certified data : certified (raw_block data).
Proof. by exists linkProtoRaw. Qed.

Lemma cbor_block_certified n b : cbor_block n = Ok b → certified b.
Proof.
  unfold cbor_block. destruct (dagcbor_Encode n) as [data| |]; [|done|done]. intros [= <-].
  by exists linkProtoDagCBOR.
Qed.

(** Certified blocks are told apart by their CIDs, unless the digest collides. *)
Lemma certified_collision_free blks :
  Forall certified blks → collision_free blks ∨ digest_collision.
Proof.
  intros Hc.
  destruct (Forall_Exists_dec (λ b1, Forall (λ b2, blk_Cid b1 = blk_Cid b2 → b1 = b2) blks)
              (λ b1, Exists (λ b2, ¬ (blk_Cid b1 = blk_Cid b2 → b1 = b2)) blks)
              (λ b1, Forall_Exists_dec _ _ (λ b2, decide _) blks) blks) as [Hf|He].
  - left. intros b1 b2 H1 H2. rewrite Forall_forall in Hf. specialize (Hf b1 H1).
    rewrite Forall_forall in Hf. by apply Hf.
  - right. apply Exists_exists in He as (b1 & H1 & He).
    apply Exists_exists in He as (b2 & H2 & Hn).
    assert (blk_Cid b1 = blk_Cid b2) as Heq.
    { destruct (decide (blk_Cid b1 = blk_Cid b2)); [done|]. by destruct Hn. }
    rewrite Forall_forall in Hc.
    destruct (Hc b1 H1) as (lp1 & _ & Hl1 & Hc1), (Hc b2 H2) as (lp2 & _ & Hl2 & Hc2).
    exists (blk_RawData b1), (blk_RawData b2). split.
    + intros Hd. apply Hn. intros _. destruct b1, b2; simpl in *; congruence.
    + rewrite Hc1, Hc2 in Heq. unfold data_cid, BuildLink in Heq.
      rewrite Hl1, Hl2 in Heq. congruence.
Qed.

Lemma cbor_block_binding n1 n2 b1 b2 :
  node_wf n1 = true → node_wf n2 = true → cbor_block n1 = Ok b1 → cbor_block n2 = Ok b2 →
  blk_Cid b1 = blk_Cid b2 → canon n1 = canon n2 ∨ digest_collision.
Proof.
  intros Hw1 Hw2. unfold cbor_block.
  destruct (dagcbor_Encode n1) as [d1| |] eqn:H1; [|done|done].
  destruct (dagcbor_Encode n2) as [d2| |] eqn:H2; [|done|done].
  intros [= <-] [= <-] Hc. apply data_cid_binding in Hc as [->|]; [left|by right|done].
  apply dagcbor_Decode_Encode in H1, H2; [|done|done]. congruence.
Qed.

(** Equal metadata nodes have equal entries. *)
Lemma metadata_entry k inp1 inp2 c1 c2 :
  canon (NMap (metadata_entries inp1 c1)) = canon (NMap (metadata_entries inp2 c2)) →
  canon <$> assoc k (metadata_entries inp1 c1) = canon <$> assoc k (metadata_entries inp2 c2).
Proof.
  intros Hc. apply (f_equal (node_get k)) in Hc.
  rewrite !node_get_canon in Hc; [done|..];
    apply (proj1 (node_wf_NMap _) (metadata_wf _ _)).
Qed.

Lemma metadata_inj inp1 inp2 c1 c2 :
  BlobInput_u64 inp1 → BlobInput_u64 inp2 → bi_Data inp1 = bi_Data inp2 →
  canon (NMap (metadata_entries inp1 c1)) = canon (NMap (metadata_entries inp2 c2)) →
  recorded inp1 = recorded inp2.
Proof.
  intros (?&?&?) (?&?&?) Hd Hc.
  pose proof (λ k, metadata_entry k _ _ _ _ Hc) as He.
  injection (He "commitment") as ?. injection (He "versionedHash") as ?.
  injection (He "txHash") as ?. injection (He "blockNumber") as ?.
  injection (He "blockHash") as ?. injection (He "slot") as ?.
  injection (He "epoch") as ?. injection (He "index") as ?. injection (He "size") as ?.
  unfold recorded. f_equal; try congruence; by apply to_i64_inj.
Qed.
End BlobSpec.

(** ** Properties *)

Section BlobProperties.
Context {I : Ipld} {L : IpldLaws I}.

(** C21. ProcessBlob succeeds on every input and every blockstore that keeps
    what is put, and the result can be followed back: DataCID reads as the
    blob's bytes, MetaCID as the metadata map (in dag-cbor order), whose
    "data" entry links to DataCID; no other block of the store changes. *)
Theorem ProcessBlob_stored {BS} `{!blockstoreBackend BS} `{!BlockstoreSpec BS} `{!AcceptsWrites BS}
    inp (bs : BS) : ∃ r bs',
  ProcessBlob inp bs = (Ok r, bs') ∧
  br_Commitment r = bi_Commitment inp ∧ br_SizeBytes r = str_len (bi_Data inp) ∧
  read_node (br_DataCID r) bs' = Ok (NBytes (bi_Data inp)) ∧
  read_node (br_MetaCID r) bs' = Ok (canon (NMap (metadata_entries inp (br_DataCID r)))) ∧
  node_get "data" (canon (NMap (metadata_entries inp (br_DataCID r)))) = Some (NLink (br_DataCID r)) ∧
  ∀ c, c ≠ br_DataCID r → c ≠ br_MetaCID r → bs_view bs' c = bs_view bs c.
Proof.
  destruct (ProcessBlob_runs inp) as (mb & Hmb & Hrun).
  specialize (Hrun BS _ _ bs). eexists _, _. split; [exact Hrun|].
  pose proof (raw_meta_collision_free inp _ mb Hmb) as Hcf. cbn -[put_all canon node_get].
  split_and!; [done|done| | | |].
  - apply (read_node_put _ bs (raw_block (bi_Data inp)) rawDecode); [done|by left|done|done].
  - apply read_cbor; [done|by right; left|apply metadata_wf|done].
  - apply node_get_canon, (proj1 (node_wf_NMap _)), metadata_wf.
  - intros c H1 H2. apply put_all_view_notin. intros b Hb <-. set_unfold. naive_solver.
Qed.

(** The dry run (skip_upload, a NullBlockstore that discards writes)
    computes exactly the result of a real run on any blockstore that accepts
    writes. *)
Theorem ProcessBlob_dry_run {BS} `{!blockstoreBackend BS} `{!AcceptsWrites BS} inp (bs : BS) :
  fst (ProcessBlob inp NullBlockstore.Null) = fst (ProcessBlob inp bs) ∧
  is_Ok (fst (ProcessBlob inp bs)).
Proof.
  destruct (ProcessBlob_runs inp) as (mb & _ & Hrun).
  rewrite (runs_as_fst _ _ _ _ (Hrun BS _ _)), (runs_as_fst _ _ _ _ (Hrun _ _ null_accepts)).
  split; [done|eexists; done].
Qed.

(** A metadata CID commits to the whole blob record: two inputs that get
    the same MetaCID agree on every field (sizes as recorded) and on the
    data, or else SHA-256 has a collision. *)
Theorem MetaCID_binding {BS} `{!blockstoreBackend BS} `{!AcceptsWrites BS}
    inp1 inp2 r1 r2 (bs bs1 bs2 : BS) :
  BlobInput_u64 inp1 → BlobInput_u64 inp2 →
  ProcessBlob inp1 bs = (Ok r1, bs1) → ProcessBlob inp2 bs = (Ok r2, bs2) →
  br_MetaCID r1 = br_MetaCID r2 →
  recorded inp1 = recorded inp2 ∨ digest_collision.
Proof.
  intros Hu1 Hu2.
  destruct (ProcessBlob_runs inp1) as (mb1 & Hm1 & Hr1).
  destruct (ProcessBlob_runs inp2) as (mb2 & Hm2 & Hr2).
  rewrite (Hr1 BS _ _ bs), (Hr2 BS _ _ bs). intros [= <- _] [= <- _]. simpl. intros Hc.
  destruct (cbor_block_binding _ _ _ _ (metadata_wf _ _) (metadata_wf _ _) Hm1 Hm2 Hc)
    as [Hn|]; [|by right].
  assert (data_cid linkProtoRaw (bi_Data inp1) = data_cid linkProtoRaw (bi_Data inp2)) as Hd.
  { pose proof (metadata_entry "data" _ _ _ _ Hn) as He.
    injection He as He. unfold data_cid, BuildLink. cbn. by rewrite He. }
  apply data_cid_binding in Hd as [Hd|]; [|by right|done].
  left. by eapply metadata_inj.
Qed.
End BlobProperties.

(** ** The properties at concrete inputs *)

Definition demo_blob (index : Z) (data : string) (size : Z) : BlobInput :=
  mkBlobInput "0xc0" "0x01aa" "0x7e" 19000000 "0xb1" 320 10 index data size.

Lemma ProcessBlob_stored_witness : ∃ r bs',
  ProcessBlob (demo_blob 0 "blob" 0) MemBlockstore.NewMemBlockstore = (Ok r, bs') ∧
  read_node (br_DataCID r) bs' = Ok (NBytes "blob").
Proof.
  destruct (ProcessBlob_stored (demo_blob 0 "blob" 0) MemBlockstore.NewMemBlockstore)
    as (r & bs' & Hr & _ & _ & Hd & _).
  exists r, bs'. split; [exact Hr|exact Hd].
Defined.

Lemma ProcessBlob_dry_run_witness :
  fst (ProcessBlob (demo_blob 0 "blob" 0) NullBlockstore.Null) =
  fst (ProcessBlob (demo_blob 0 "blob" 0) MemBlockstore.NewMemBlockstore).
Proof.
  exact (proj1 (ProcessBlob_dry_run (demo_blob 0 "blob" 0) MemBlockstore.NewMemBlockstore)).
Defined.

(** A size left at zero and the length given explicitly are the same record. *)
Lemma MetaCID_binding_witness :
  recorded (demo_blob 0 "blob" 0) = recorded (demo_blob 0 "blob" 4) ∨ digest_collision.
Proof.
  eapply (MetaCID_binding (BS := NullBlockstore.t) (demo_blob 0 "blob" 0) (demo_blob 0 "blob" 4)).
  - split_and!; done.
  - split_and!; done.
  - vm_compute. reflexivity.
  - vm_compute. reflexivity.
  - reflexivity.
  Unshelve. exact NullBlockstore.Null.
Defined.
