(* ===== verification/Epoch.v ===== *)
(** * Epoch: builder/epoch.go

    BuildEpochNode and the two forms of its blob index: a plain map, or shards
    of up to 256 entries for large epochs. *)

From S2P Require Import Prelude GoStd Types Ipld Store IpldModel Blob.

Record blobGroup := mkBlobGroup {
  bg_versionedHash : string;
  bg_metaCIDs : list cid }.

Record occurrence := mkOccurrence {
  occ_slot : Z; occ_index : Z; occ_meta : cid }.

#[export] Instance occurrence_eq_dec : EqDecision occurrence.
Proof. solve_decision. Defined.

Definition occ_less (a b : occurrence) : bool :=
  if negb (occ_slot a =? occ_slot b) then occ_slot a <? occ_slot b
  else occ_index a <? occ_index b.

(** The occurrences appended by the [for i := range blobs] loop, each with the
    key it is filed under; [results[i]] panics past the end. *)
Fixpoint occurrences_from (i : nat) (blobs : list BlobInput) (results : list BlobResult)
    : outcome (list (string * occurrence)) :=
  match blobs with
  | [] => Ok []
  | b :: blobs' =>
      r ← index results i;
      rest ← occurrences_from (S i) blobs' results;
      Ok ((bi_VersionedHash b, mkOccurrence (bi_Slot b) (bi_Index b) (br_MetaCID r)) :: rest)
  end.

Definition shardSize : nat := 256.

Section Epoch.
Context {R : GoRuntime}.

Definition make_group (e : string * list (string * occurrence)) : blobGroup :=
  mkBlobGroup (fst e) (occ_meta <$> sort_Slice occ_less (snd <$> snd e)).

Definition groupByVersionedHash (blobs : list BlobInput) (results : list BlobResult)
    : outcome (list blobGroup) :=
  occs ← occurrences_from 0 blobs results;
  let byHash := group_by fst occs in
  let groups := make_group <$> map_range byHash in
  Ok (sort_Slice (by_key bg_versionedHash String.ltb) groups).

Definition appendGroupEntry (g : blobGroup) : string * node :=
  (bg_versionedHash g, NList (NLink <$> bg_metaCIDs g)).

Definition map_index_entries (groups : list blobGroup) : list (string * node) :=
  [("type", NString "map"); ("entries", NMap (appendGroupEntry <$> groups))].

Definition hamt_index_entries (shardCIDs : list cid) : list (string * node) :=
  [("type", NString "hamt"); ("shardSize", NInt (Z.of_nat shardSize));
   ("shards", NList (NLink <$> shardCIDs))].

Context {I : Ipld} {BS : Type} {B : blockstoreBackend BS}.

Definition buildMapBlobIndex (blobs : list BlobInput) (results : list BlobResult) : Go BS node :=
  groups ← lift (groupByVersionedHash blobs results);
  wrapf "builder: build map blob index" (lift (BuildMap (map_index_entries groups))).

(** [for start := 0; start < len(groups); start += shardSize]. *)
Fixpoint hamt_shards (fuel : nat) (groups : list blobGroup) (start : nat) : Go BS (list cid) :=
  if decide (start < length groups)%nat then
    match fuel with
    | O => fail (errors_New "hamt_shards: out of fuel")
    | S fuel' =>
        let end_ := (start + shardSize)%nat in
        let end_ := if decide (length groups < end_)%nat then length groups else end_ in
        let shard := take (end_ - start) (drop start groups) in
        shardNode ← wrapf "builder: build hamt shard"
                      (lift (BuildMap (appendGroupEntry <$> shard)));
        lnk ← wrapf "builder: store hamt shard"
                (lsys_Store (NewLinkSystem BS) linkProtoDagCBOR shardNode);
        rest ← hamt_shards fuel' groups (start + shardSize);
        mret (lnk :: rest)
    end
  else mret [].

Definition buildHAMTBlobIndex (blobs : list BlobInput) (results : list BlobResult) : Go BS node :=
  groups ← lift (groupByVersionedHash blobs results);
  shardCIDs ← hamt_shards (length groups) groups 0;
  wrapf "builder: build hamt root" (lift (BuildMap (hamt_index_entries shardCIDs))).

Definition total_size (results : list BlobResult) : Z :=
  foldl (λ acc r, i64_add acc (br_SizeBytes r)) 0 results.

Definition epoch_entries (inp : EpochInput) (network : string) (totalSize count : Z)
    (blobsNode : node) : list (string * node) :=
  [("epoch", NInt (to_i64 (ei_Epoch inp)));
   ("slot", NInt (to_i64 (ei_Slot inp)));
   ("network", NString network);
   ("approximateSizeBytes", NInt totalSize);
   ("blobCount", NInt count);
   ("blobs", blobsNode)].

Definition BuildEpochNode (inp : EpochInput) (results : list BlobResult)
    (network : string) (hamtThreshold : Z) : Go BS EpochResult :=
  let totalSize := total_size results in
  blobsNode ← wrapf ("builder: epoch " +:+ FormatUint (ei_Epoch inp) +:+ " blob index")
    (if hamtThreshold <=? Z.of_nat (length results)
     then buildHAMTBlobIndex (ei_Blobs inp) results
     else buildMapBlobIndex (ei_Blobs inp) results);
  epochNode ← wrapf ("builder: build epoch node " +:+ FormatUint (ei_Epoch inp))
    (lift (BuildMap (epoch_entries inp network totalSize (Z.of_nat (length results)) blobsNode)));
  lnk ← wrapf ("builder: store epoch node " +:+ FormatUint (ei_Epoch inp))
    (lsys_Store (NewLinkSystem BS) linkProtoDagCBOR epochNode);
  mret {| er_Epoch := ei_Epoch inp; er_CID := lnk; er_CARPath := "";
          er_ApproximateSizeBytes := totalSize |}.
End Epoch.

(** ** Facts about the grouping *)

Definition occ_of (b : BlobInput) (r : BlobResult) : string * occurrence :=
  (bi_VersionedHash b, mkOccurrence (bi_Slot b) (bi_Index b) (br_MetaCID r)).

Lemma occurrences_from_ok i blobs results :
  (i + length blobs ≤ length results)%nat →
  occurrences_from i blobs results = Ok (zip_with occ_of blobs (drop i results)).
Proof.
  revert i; induction blobs as [|b blobs IH]; intros i Hlen; simpl in *; [done|].
  destruct (lookup_lt_is_Some_2 results i) as [r Hr]; [lia|].
  unfold index. rewrite Hr. simpl. rewrite IH by lia. simpl.
  by rewrite (drop_S _ _ _ Hr).
Qed.

Lemma occurrences_from_panic i blobs results :
  (i ≤ length results)%nat → (length results < i + length blobs)%nat →
  ∃ p, occurrences_from i blobs results = Panic p.
Proof.
  revert i; induction blobs as [|b blobs IH]; intros i Hi Hlen; simpl in *; [lia|].
  unfold index. destruct (results !! i) as [r|] eqn:Hr; simpl; [|eauto].
  apply lookup_lt_Some in Hr. destruct (IH (S i)) as [p ->]; [lia|lia|]. eauto.
Qed.

#[export] Instance occ_less_strict_weak : StrictWeak occ_less.
Proof.
  split; unfold sle, occ_less; [intros x y; zcases; by auto|intros x y z; zcases].
Qed.

Lemma occ_less_antisymm x y :
  sle occ_less x y → sle occ_less y x → (occ_slot x, occ_index x) = (occ_slot y, occ_index y).
Proof.
  unfold sle, occ_less. zcases. intros; f_equal; lia.
Qed.

(** [metas] lists the occurrences filed under [vh], each once, by (slot, index). *)
Definition occurrence_list (occs : list (string * occurrence)) (vh : string) (metas : list cid)
    : Prop :=
  ∃ so, so ≡ₚ snd <$> bucket fst vh occs ∧ Sorted (sle occ_less) so ∧ metas = occ_meta <$> so.

(** What groupByVersionedHash promises its callers. *)
Record groups_spec (occs : list (string * occurrence)) (groups : list blobGroup) : Prop := {
  gs_sorted : Sorted (sle String.ltb) (bg_versionedHash <$> groups);
  gs_nodup : NoDup (bg_versionedHash <$> groups);
  gs_keys : ∀ vh, vh ∈ bg_versionedHash <$> groups ↔ vh ∈ fst <$> occs;
  gs_lists : ∀ g, g ∈ groups → occurrence_list occs (bg_versionedHash g) (bg_metaCIDs g) }.

Section Groups.
Context {R : GoRuntime}.

Definition groups_of (occs : list (string * occurrence)) : list blobGroup :=
  sort_Slice (by_key bg_versionedHash String.ltb) (make_group <$> map_range (group_by fst occs)).

Lemma groupByVersionedHash_ok blobs results :
  (length blobs ≤ length results)%nat →
  groupByVersionedHash blobs results = Ok (groups_of (zip_with occ_of blobs results)).
Proof. intros Hlen. unfold groupByVersionedHash. by rewrite occurrences_from_ok. Qed.

Lemma groups_of_perm occs :
  groups_of occs ≡ₚ make_group <$> map_to_list (group_by fst occs).
Proof. unfold groups_of. by rewrite sort_Slice_perm, map_range_perm. Qed.

Lemma groups_of_keys occs :
  bg_versionedHash <$> groups_of occs ≡ₚ (map_to_list (group_by fst occs)).*1.
Proof. rewrite groups_of_perm, <- list_fmap_compose. done. Qed.

Lemma groups_of_spec occs : groups_spec occs (groups_of occs).
Proof.
  split.
  - apply sort_by_key_sorted, _.
  - rewrite groups_of_keys. apply NoDup_fst_map_to_list.
  - intros vh. rewrite groups_of_keys, list_elem_of_fmap. split.
    + intros ([k g] & -> & Hin%elem_of_map_to_list%group_by_lookup). naive_solver.
    + intros Hin. exists (vh, bucket fst vh occs). split; [done|].
      apply elem_of_map_to_list, group_by_lookup. done.
  - intros g. rewrite groups_of_perm, list_elem_of_fmap.
    intros ([vh b] & -> & [-> _]%elem_of_map_to_list%group_by_lookup). simpl.
    eexists. split_and!; [apply sort_Slice_perm|apply sort_Slice_sorted, _|done].
Qed.
End Groups.

Lemma appendGroupEntry_keys groups :
  (appendGroupEntry <$> groups).*1 = bg_versionedHash <$> groups.
Proof. by rewrite <- list_fmap_compose. Qed.

(** Every meta CID is filed exactly once. *)
Lemma groups_complete occs groups :
  groups_spec occs groups → concat (bg_metaCIDs <$> groups) ≡ₚ occ_meta ∘ snd <$> occs.
Proof.
  intros [_ Hnd Hk Hl].
  transitivity (occ_meta ∘ snd <$>
    concat ((λ k, bucket fst k occs) <$> (bg_versionedHash <$> groups))).
  - clear Hnd Hk. induction groups as [|g groups IH]; [done|]. simpl.
    rewrite fmap_app, IH by (intros; apply Hl; by right).
    destruct (Hl g) as (so & Hp & _ & ->); [by left|].
    rewrite Hp, <- list_fmap_compose. done.
  - rewrite concat_buckets_perm by done.
    assert (filter (λ x, fst x ∈ bg_versionedHash <$> groups) occs = occs) as ->; [|done].
    apply list_filter_all. intros x Hx. apply Hk, list_elem_of_fmap. eauto.
Qed.

(** Looking a hash up among the entries finds its occurrences, or nothing when
    no blob carries it. *)
Lemma groups_assoc occs groups vh :
  groups_spec occs groups →
  match assoc vh (appendGroupEntry <$> groups) with
  | Some n => ∃ metas, n = NList (NLink <$> metas) ∧ metas ≠ [] ∧ occurrence_list occs vh metas
  | None => vh ∉ fst <$> occs
  end.
Proof.
  intros [Hs Hnd Hk Hl].
  assert (NoDup (appendGroupEntry <$> groups).*1) as Hnd' by by rewrite appendGroupEntry_keys.
  destruct (assoc _ _) as [n|] eqn:Ha.
  - apply assoc_Some in Ha; [|done]. apply list_elem_of_fmap in Ha as (g & [= -> ->] & Hg).
    eexists. split; [done|]. specialize (Hl g Hg). split; [|done].
    destruct Hl as (so & Hp & _ & Hm). rewrite Hm. intros Hnil%fmap_nil_inv. subst so.
    assert (bg_versionedHash g ∈ fst <$> occs) as Hin.
    { apply Hk, list_elem_of_fmap. eauto. }
    apply list_elem_of_fmap in Hin as (o & Ho & Hin).
    apply Permutation_nil_l in Hp. symmetry in Hp. apply fmap_nil_inv in Hp.
    assert (o ∈ bucket fst (bg_versionedHash g) occs) as Hb by (apply elem_of_bucket; done).
    rewrite Hp in Hb. by apply not_elem_of_nil in Hb.
  - rewrite <- Hk. intros Hin. apply list_elem_of_fmap in Hin as (g & -> & Hg).
    assert (∃ n, (bg_versionedHash g, n) ∈ appendGroupEntry <$> groups) as [n Hn].
    { eexists. apply list_elem_of_fmap. by exists g. }
    apply assoc_Some in Hn; [|done]. congruence.
Qed.

(** ** What BuildEpochNode writes *)

(** The blob index [n] in its plain or sharded form, and the shard blocks
    [blks] the sharded form needs. *)
Inductive index_built {I : Ipld} (groups : list blobGroup) : bool → node → list block → Prop :=
  | built_map : index_built groups false (NMap (map_index_entries groups)) []
  | built_hamt shards blks :
      concat shards = groups →
      Forall (λ sh, 1 ≤ length sh ≤ shardSize)%nat shards →
      Forall2 (λ sh b, cbor_block (NMap (appendGroupEntry <$> sh)) = Ok b) shards blks →
      index_built groups true (NMap (hamt_index_entries (blk_Cid <$> blks))) blks.

Definition links_defined (groups : list blobGroup) : Prop :=
  Forall (λ g, Forall (λ c, c ≠ cid_Undef) (bg_metaCIDs g)) groups.

Section EpochSpec.
Context {R : GoRuntime} {I : Ipld} {L : IpldLaws I}.

Lemma group_entries_wf groups :
  NoDup (bg_versionedHash <$> groups) → node_wf (NMap (appendGroupEntry <$> groups)) = true.
Proof.
  intros Hnd. apply node_wf_NMap. rewrite appendGroupEntry_keys. split; [done|].
  intros k v (g & [= -> ->] & _)%list_elem_of_fmap. apply node_wf_links.
Qed.

Lemma group_entries_links groups :
  links_defined groups → node_links_ok (NMap (appendGroupEntry <$> groups)) = true.
Proof.
  intros Hl. cbn -[appendGroupEntry]. apply forallb_forall. intros [k v] Hin%list_elem_of_In.
  apply list_elem_of_fmap in Hin as (g & [= -> ->] & Hg).
  apply node_links_ok_links. unfold links_defined in Hl. rewrite Forall_forall in Hl. auto.
Qed.

Lemma hamt_shards_runs fuel groups start :
  NoDup (bg_versionedHash <$> groups) → links_defined groups →
  (length groups - start ≤ fuel)%nat →
  ∃ shards blks,
    concat shards = drop start groups ∧
    Forall (λ sh, 1 ≤ length sh ≤ shardSize)%nat shards ∧
    Forall2 (λ sh b, cbor_block (NMap (appendGroupEntry <$> sh)) = Ok b) shards blks ∧
    ∀ BS (B : blockstoreBackend BS) (W : AcceptsWrites BS),
      runs_as (hamt_shards (BS := BS) fuel groups start) (blk_Cid <$> blks) blks.
Proof.
  intros Hnd Hl. revert start. induction fuel as [|fuel IH]; intros start Hf;
    cbn -[take drop shardSize];
    (destruct (decide (start < length groups)%nat) as [Hlt|Hge];
      [|exists [], []; split_and!; [by rewrite drop_ge by lia|done|done|intros; apply runs_as_ret]]).
  { lia. }
  set (end_ := if decide (length groups < start + shardSize)%nat then length groups else _).
  set (shard := take (end_ - start) (drop start groups)).
  assert (shard ++ drop (start + shardSize) groups = drop start groups) as Hsplit.
  { rewrite <- (take_drop shardSize (drop start groups)), drop_drop. f_equal.
    unfold shard, end_. destruct (decide _); [|f_equal; lia].
    rewrite !take_ge; [done|..]; rewrite length_drop; unfold shardSize in *; lia. }
  rewrite <- (take_drop start groups), <- Hsplit, !fmap_app in Hnd.
  apply NoDup_app in Hnd as (_ & _ & [Hnds _]%NoDup_app).
  rewrite <- (take_drop start groups), <- Hsplit in Hl.
  apply Forall_app in Hl as [_ [Hls _]%Forall_app].
  apply group_entries_wf in Hnds as Hw.
  destruct (cbor_block_ok (NMap (appendGroupEntry <$> shard)) Hw) as [b Hb].
  { by apply group_entries_links. }
  destruct (IH (start + shardSize)%nat) as (shards & blks & Hc & Hlen & Hbl & Hrun).
  { unfold shardSize in *. lia. }
  exists (shard :: shards), (b :: blks). split_and!.
  - simpl. by rewrite Hc.
  - constructor; [|done]. unfold shard, end_. rewrite length_take, length_drop.
    unfold shardSize in *. destruct (decide _); lia.
  - by constructor.
  - intros BS B W. apply (runs_as_bind _ _ (NMap (appendGroupEntry <$> shard)) _ [] (b :: blks)).
    { by apply runs_as_wrapf, runs_as_lift, BuildMap_ok. }
    apply (runs_as_bind _ _ (blk_Cid b) _ [b] blks).
    { by apply runs_as_wrapf, store_cbor. }
    apply (runs_as_map _ (cons (blk_Cid b))), Hrun, W.
Qed.

Lemma hamt_entries_wf cs : node_wf (NMap (hamt_index_entries cs)) = true.
Proof.
  cbn -[shardSize]. rewrite andb_true_r. exact (node_wf_links cs).
Qed.

Lemma index_built_ok groups h n blks :
  NoDup (bg_versionedHash <$> groups) → links_defined groups → index_built groups h n blks →
  node_wf n = true ∧ node_links_ok n = true ∧ Forall certified blks.
Proof.
  intros Hnd Hl Hb. destruct Hb as [|shards blks Hc Hlen Hbl].
  - split_and!; [..|done]; cbn -[appendGroupEntry];
      rewrite andb_true_r; [by apply group_entries_wf|by apply group_entries_links].
  - assert (Forall certified blks ∧ Forall (λ c, c ≠ cid_Undef) (blk_Cid <$> blks)) as [Hcert Hd].
    { clear -L Hbl. induction Hbl as [|sh b shards blks Hb _ [IH1 IH2]]; [done|].
      split; constructor; eauto using cbor_block_certified, cbor_block_defined. }
    split_and!; [apply hamt_entries_wf| |done].
    cbn -[shardSize]. rewrite andb_true_r. by apply node_links_ok_links.
Qed.

Definition epoch_node (inp : EpochInput) (results : list BlobResult) (network : string)
    (n : node) : node :=
  NMap (epoch_entries inp network (total_size results) (Z.of_nat (length results)) n).

Lemma epoch_node_wf inp results network n :
  node_wf (epoch_node inp results network n) = node_wf n.
Proof. cbn. by rewrite andb_true_r. Qed.

Lemma epoch_node_links inp results network n :
  node_links_ok (epoch_node inp results network n) = node_links_ok n.
Proof. cbn. by rewrite andb_true_r. Qed.

Lemma groups_links_defined occs groups :
  groups_spec occs groups → Forall (λ o, occ_meta (snd o) ≠ cid_Undef) occs →
  links_defined groups.
Proof.
  intros Hs Ho. apply Forall_forall. intros g Hg. apply Forall_forall. intros c Hc.
  assert (c ∈ occ_meta ∘ snd <$> occs) as Hin.
  { rewrite <- (groups_complete _ _ Hs). apply elem_of_concat. exists (bg_metaCIDs g).
    split; [|done]. apply list_elem_of_fmap. eauto. }
  apply list_elem_of_fmap in Hin as (o & -> & Hin). rewrite Forall_forall in Ho. by apply Ho.
Qed.

Lemma zip_occ_defined blobs results :
  Forall (λ r, br_MetaCID r ≠ cid_Undef) results →
  Forall (λ o, occ_meta (snd o) ≠ cid_Undef) (zip_with occ_of blobs results).
Proof.
  intros Hr. revert blobs. induction Hr; intros [|b blobs]; simpl; constructor; auto.
Qed.

Lemma index_runs groups (h : bool) :
  NoDup (bg_versionedHash <$> groups) → links_defined groups →
  ∃ n blks, index_built groups h n blks ∧
    ∀ blobs results, groupByVersionedHash blobs results = Ok groups →
    ∀ BS (B : blockstoreBackend BS) (W : AcceptsWrites BS),
      runs_as (if h then buildHAMTBlobIndex (BS := BS) blobs results
               else buildMapBlobIndex blobs results) n blks.
Proof.
  intros Hnd Hl. destruct h.
  - destruct (hamt_shards_runs (length groups) groups 0) as (shards & blks & Hc & Hlen & Hb & Hr);
      [done|done|lia|].
    eexists _, blks. split; [by eapply built_hamt|]. intros blobs results Hg BS B W.
    eapply (runs_as_bind _ _ groups _ [] blks); [by apply runs_as_lift|].
    rewrite <- (app_nil_r blks). eapply runs_as_bind; [apply Hr, W|].
    rewrite app_nil_r. apply runs_as_wrapf, runs_as_lift, BuildMap_ok, hamt_entries_wf.
  - eexists _, []. split; [by apply built_map|]. intros blobs results Hg BS B W.
    eapply (runs_as_bind _ _ groups _ [] []); [by apply runs_as_lift|].
    apply runs_as_wrapf, runs_as_lift, BuildMap_ok.
    apply (index_built_ok groups false _ []); [done|done|]. apply built_map.
Qed.

(** BuildEpochNode always succeeds when every blob has a result with a
    defined meta CID: it puts the shards, then the epoch node. *)
Lemma BuildEpochNode_runs inp results network thr :
  (length (ei_Blobs inp) ≤ length results)%nat →
  Forall (λ r, br_MetaCID r ≠ cid_Undef) results →
  ∃ n blks eb,
    index_built (groups_of (zip_with occ_of (ei_Blobs inp) results))
      (thr <=? Z.of_nat (length results)) n blks ∧
    node_wf n = true ∧ Forall certified (blks ++ [eb]) ∧
    cbor_block (epoch_node inp results network n) = Ok eb ∧
    ∀ BS (B : blockstoreBackend BS) (W : AcceptsWrites BS),
      runs_as (BuildEpochNode (BS := BS) inp results network thr)
        (mkEpochResult (ei_Epoch inp) (blk_Cid eb) "" (total_size results)) (blks ++ [eb]).
Proof.
  intros Hlen Hdef. set (occs := zip_with occ_of (ei_Blobs inp) results).
  pose proof (groups_of_spec occs) as Hg.
  assert (links_defined (groups_of occs)) as Hl.
  { eapply groups_links_defined; [done|]. by apply zip_occ_defined. }
  destruct (index_runs (groups_of occs) (thr <=? Z.of_nat (length results)) (gs_nodup _ _ Hg) Hl)
    as (n & blks & Hib & Hrun).
  destruct (index_built_ok _ _ _ _ (gs_nodup _ _ Hg) Hl Hib) as (Hw & Hlk & Hcert).
  destruct (cbor_block_ok (epoch_node inp results network n)) as [eb Heb].
  { by rewrite epoch_node_wf. }
  { by rewrite epoch_node_links. }
  exists n, blks, eb. split_and!; [done|done| |done|].
  { apply Forall_app. eauto using cbor_block_certified. }
  intros BS B W. unfold BuildEpochNode.
  eapply runs_as_bind; [apply runs_as_wrapf, Hrun, W; by apply groupByVersionedHash_ok|].
  apply (runs_as_bind _ _ (epoch_node inp results network n) _ [] [eb]).
  { apply runs_as_wrapf, runs_as_lift, BuildMap_ok. fold (epoch_node inp results network n).
    by rewrite epoch_node_wf. }
  apply (runs_as_map _ (λ lnk, mkEpochResult (ei_Epoch inp) lnk "" (total_size results))).
  by apply runs_as_wrapf, store_cbor.
Qed.
End EpochSpec.

(** ** Following an epoch's index *)

Section Reader.
Context {I : Ipld} {BS : Type} {B : blockstoreBackend BS}.

Fixpoint scan_shards (vh : string) (shards : list node) (bs : BS) : outcome (option node) :=
  match shards with
  | [] => Ok None
  | NLink c :: rest =>
      n ← read_node c bs;
      match node_get vh n with Some l => Ok (Some l) | None => scan_shards vh rest bs end
  | _ :: _ => Err (errors_New "not a link")
  end.

Definition index_lookup (vh : string) (ix : node) (bs : BS) : outcome (option node) :=
  match node_get "type" ix with
  | Some (NString "map") =>
      match node_get "entries" ix with
      | Some es => Ok (node_get vh es)
      | None => Err (errors_New "no entries")
      end
  | Some (NString "hamt") =>
      match node_get "shards" ix with
      | Some (NList shards) => scan_shards vh shards bs
      | _ => Err (errors_New "no shards")
      end
  | _ => Err (errors_New "unknown index type")
  end.

(** [<EpochCID>/blobs/entries/<versionedHash>], or the shard that has it. *)
Definition lookup_blob (epochCID : cid) (vh : string) (bs : BS) : outcome (option node) :=
  n ← read_node epochCID bs;
  match node_get "blobs" n with
  | Some ix => index_lookup vh ix bs
  | None => Err (errors_New "no blob index")
  end.
End Reader.

Section ReaderFacts.
Context {I : Ipld} {L : IpldLaws I}.
Context {BS : Type} {B : blockstoreBackend BS} {V : BlockstoreSpec BS}.

Lemma group_entries_get vh groups :
  NoDup (bg_versionedHash <$> groups) →
  node_get vh (canon (NMap (appendGroupEntry <$> groups))) = assoc vh (appendGroupEntry <$> groups).
Proof.
  intros Hnd. rewrite node_get_canon by by rewrite appendGroupEntry_keys.
  destruct (assoc _ _) as [n|] eqn:Ha; [|done].
  apply assoc_elem, list_elem_of_fmap in Ha as (g & [= -> ->] & _).
  cbn -[canon]. by rewrite canon_links.
Qed.

Lemma scan_shards_ok blks (bs : BS) vh shards sblks :
  collision_free blks → sblks ⊆ blks → NoDup (bg_versionedHash <$> concat shards) →
  Forall2 (λ sh b, cbor_block (NMap (appendGroupEntry <$> sh)) = Ok b) shards sblks →
  scan_shards vh (NLink <$> (blk_Cid <$> sblks)) (put_all blks bs) =
  Ok (assoc vh (appendGroupEntry <$> concat shards)).
Proof.
  intros Hcf Hsub Hnd Hb. revert Hsub Hnd.
  induction Hb as [|sh b shards sblks Hb _ IH]; intros Hsub Hnd; [done|].
  simpl in *. rewrite fmap_app in Hnd. apply NoDup_app in Hnd as (Hn1 & _ & Hn2).
  erewrite read_cbor; [|done| |apply group_entries_wf; exact Hn1|exact Hb];
    [|apply Hsub; by left].
  cbn -[canon node_get]. rewrite group_entries_get by done.
  rewrite fmap_app, assoc_app. destruct (assoc vh (appendGroupEntry <$> sh)); [done|].
  apply IH; [|done]. intros x Hx. apply Hsub. by right.
Qed.

Lemma index_lookup_ok blks (bs : BS) groups h n sblks vh :
  collision_free blks → sblks ⊆ blks → NoDup (bg_versionedHash <$> groups) →
  index_built groups h n sblks →
  index_lookup vh (canon n) (put_all blks bs) = Ok (assoc vh (appendGroupEntry <$> groups)).
Proof.
  intros Hcf Hsub Hnd Hb. destruct Hb as [|shards sblks Hc Hlen Hb]; unfold index_lookup.
  - rewrite !node_get_canon by keys_nodup.
    cbn -[canon node_get]. f_equal. by apply group_entries_get.
  - rewrite (node_get_canon_Some "type" _ (NString "hamt")),
      (node_get_canon_Some "shards" _ (NList (NLink <$> (blk_Cid <$> sblks)))),
      canon_links by (reflexivity || keys_nodup).
    cbn. rewrite <- Hc.
    apply scan_shards_ok; [done|done|by rewrite Hc|done].
Qed.
End ReaderFacts.

(** ** Determinism of the grouping *)

(** No two occurrences share hash, slot and index without being the same. *)
Definition occs_distinct (occs : list (string * occurrence)) : Prop :=
  ∀ x y, x ∈ occs → y ∈ occs → fst x = fst y →
    occ_slot (snd x) = occ_slot (snd y) → occ_index (snd x) = occ_index (snd y) → x = y.

Section Determinism.
Context (R1 R2 : GoRuntime).

Definition bucket_metas {R : GoRuntime} (b : list (string * occurrence)) : list cid :=
  occ_meta <$> sort_Slice occ_less (snd <$> b).

Lemma bucket_metas_unique b1 b2 :
  occs_distinct b1 → (∀ x y, x ∈ b1 → y ∈ b1 → fst x = fst y) → b1 ≡ₚ b2 →
  bucket_metas (R := R1) b1 = bucket_metas (R := R2) b2.
Proof.
  intros Hd Hk Hp. unfold bucket_metas. f_equal.
  apply sort_Slice_unique; [apply _|by rewrite Hp|].
  intros x y ([k x'] & -> & Hx)%list_elem_of_fmap ([k' y'] & -> & Hy)%list_elem_of_fmap H1 H2.
  pose proof (occ_less_antisymm _ _ H1 H2) as [= ? ?].
  by rewrite (Hd _ _ Hx Hy (Hk _ _ Hx Hy)).
Qed.

Lemma group_by_metas occs1 occs2 :
  occs_distinct occs1 → occs1 ≡ₚ occs2 →
  bucket_metas (R := R1) <$> group_by fst occs1 = bucket_metas (R := R2) <$> group_by fst occs2.
Proof.
  intros Hd Hp. apply map_eq. intros k. rewrite !lookup_fmap.
  destruct (decide (k ∈ fst <$> occs1)) as [Hk|Hk].
  - assert (k ∈ fst <$> occs2) as Hk2 by by rewrite <- Hp.
    rewrite (proj2 (group_by_lookup fst occs1 k _) (conj eq_refl Hk)),
      (proj2 (group_by_lookup fst occs2 k _) (conj eq_refl Hk2)). cbn. f_equal.
    apply bucket_metas_unique; [| |by apply bucket_perm].
    + intros x y [_ Hx]%elem_of_bucket [_ Hy]%elem_of_bucket. by apply Hd.
    + intros x y [<- _]%elem_of_bucket [<- _]%elem_of_bucket. done.
  - assert (k ∉ fst <$> occs2) as Hk2 by by rewrite <- Hp.
    destruct (group_by fst occs1 !! k) eqn:E1; [apply group_by_lookup in E1 as [_ ?]; done|].
    destruct (group_by fst occs2 !! k) eqn:E2; [apply group_by_lookup in E2 as [_ ?]; done|].
    done.
Qed.

Lemma make_groups_perm {R : GoRuntime} occs :
  make_group <$> map_range (group_by fst occs) ≡ₚ
  (λ e, mkBlobGroup (fst e) (snd e)) <$> map_to_list (bucket_metas <$> group_by fst occs).
Proof.
  rewrite map_range_perm, map_to_list_fmap, <- list_fmap_compose. apply reflexive_eq.
  apply list_fmap_ext. by intros ? [k b] _.
Qed.

Lemma groups_of_deterministic occs1 occs2 :
  occs_distinct occs1 → occs1 ≡ₚ occs2 →
  groups_of (R := R1) occs1 = groups_of (R := R2) occs2.
Proof.
  intros Hd Hp. unfold groups_of.
  apply sort_by_key_unique; [apply _|apply _| |].
  - by rewrite !make_groups_perm, (group_by_metas occs1 occs2).
  - intros g1 g2. rewrite make_groups_perm.
    intros ([k1 m1] & -> & H1%elem_of_map_to_list)%list_elem_of_fmap
           ([k2 m2] & -> & H2%elem_of_map_to_list)%list_elem_of_fmap. simpl. intros <-. congruence.
Qed.
End Determinism.

(** ** Properties *)

Lemma zip_occ_keys blobs results :
  (length blobs ≤ length results)%nat →
  fst <$> zip_with occ_of blobs results = bi_VersionedHash <$> blobs.
Proof.
  revert results. induction blobs as [|b blobs IH]; intros [|r results] Hlen; simpl in *;
    try done; try lia. f_equal. apply IH. lia.
Qed.

Lemma zip_occ_metas blobs results :
  occ_meta ∘ snd <$> zip_with occ_of blobs results = br_MetaCID <$> take (length blobs) results.
Proof. revert results. induction blobs as [|b blobs IH]; intros [|r results]; cbn; [done..|].
  f_equal. apply IH.
Qed.

(** groupByVersionedHash, given a result per blob: the groups' hashes are
    strictly increasing and are exactly the hashes that occur, each group lists
    its occurrences by (slot, index), and no blob's meta CID is dropped or
    repeated. With fewer results than blobs it panics. *)
Theorem groupByVersionedHash_correct {R : GoRuntime} blobs results :
  if decide (length blobs ≤ length results)%nat then
    ∃ groups, groupByVersionedHash blobs results = Ok groups ∧
      groups_spec (zip_with occ_of blobs results) groups ∧
      concat (bg_metaCIDs <$> groups) ≡ₚ br_MetaCID <$> take (length blobs) results
  else ∃ p, groupByVersionedHash blobs results = Panic p.
Proof.
  case_decide as Hlen.
  - eexists. split; [by apply groupByVersionedHash_ok|]. split; [apply groups_of_spec|].
    rewrite <- zip_occ_metas. apply groups_complete, groups_of_spec.
  - destruct (occurrences_from_panic 0 blobs results) as [p Hp]; [lia|simpl; lia|].
    exists p. unfold groupByVersionedHash. by rewrite Hp.
Qed.

Section EpochProperties.
Context {R : GoRuntime} {I : Ipld} {L : IpldLaws I}.


(** Block size: an epoch node is written after its shards, which cut the
    sorted groups into consecutive runs of at most 256 hashes each; below the
    threshold the epoch node is the only block. *)
Theorem BuildEpochNode_shards {BS} `{!blockstoreBackend BS} `{!AcceptsWrites BS}
    inp results network thr (bs : BS) :
  (length (ei_Blobs inp) ≤ length results)%nat →
  Forall (λ r, br_MetaCID r ≠ cid_Undef) results →
  ∃ shards blks eb r groups,
    groupByVersionedHash (ei_Blobs inp) results = Ok groups ∧
    BuildEpochNode inp results network thr bs = (Ok r, put_all (blks ++ [eb]) bs) ∧
    er_CID r = blk_Cid eb ∧
    Forall (λ sh, 1 ≤ length sh ≤ 256)%nat shards ∧
    Forall2 (λ sh b, cbor_block (NMap (appendGroupEntry <$> sh)) = Ok b) shards blks ∧
    concat shards = if thr <=? Z.of_nat (length results) then groups else [].
Proof.
  intros Hlen Hdef.
  destruct (BuildEpochNode_runs inp results network thr Hlen Hdef)
    as (n & blks & eb & Hib & _ & _ & _ & Hrun).
  destruct Hib as [|shards blks Hc Hs Hb]; [exists []|exists shards];
    eexists _, eb, _, _; (split; [by apply groupByVersionedHash_ok|]); (split; [apply Hrun, _|done]).
Qed.
End EpochProperties.

(** The epoch node depends only on the occurrences, the sizes and their number. *)
Lemma BuildEpochNode_occs (R1 R2 : GoRuntime) {I : Ipld} {BS} `{!blockstoreBackend BS}
    epoch slot (ps1 ps2 : list (BlobInput * BlobResult)) network thr :
  uncurry occ_of <$> ps1 ≡ₚ uncurry occ_of <$> ps2 →
  br_SizeBytes <$> ps1.*2 ≡ₚ br_SizeBytes <$> ps2.*2 →
  occs_distinct (uncurry occ_of <$> ps1) →
  BuildEpochNode (R := R1) (BS := BS) (mkEpochInput epoch slot ps1.*1) ps1.*2 network thr =
  BuildEpochNode (R := R2) (mkEpochInput epoch slot ps2.*1) ps2.*2 network thr.
Proof.
  intros Hp Hs Hd.
  assert (∀ R (ps : list (BlobInput * BlobResult)), groupByVersionedHash (R := R) ps.*1 ps.*2 =
    Ok (groups_of (uncurry occ_of <$> ps))) as Hg.
  { intros R ps. rewrite groupByVersionedHash_ok by by rewrite !length_fmap.
    by rewrite zip_with_fst_snd. }
  unfold BuildEpochNode, buildHAMTBlobIndex, buildMapBlobIndex. cbn [ei_Blobs ei_Epoch ei_Slot].
  rewrite !Hg, (groups_of_deterministic R1 R2 _ (uncurry occ_of <$> ps2)) by done.
  assert (∀ rs, total_size rs = foldl (λ acc z, i64_add acc z) 0 (br_SizeBytes <$> rs)) as Ht.
  { intros rs. unfold total_size. generalize 0. induction rs; intros z; [done|]. cbn. auto. }
  rewrite !Ht, (i64_sum_perm _ _ _ 0 Hs).
  apply Permutation_length in Hs. rewrite !length_fmap in Hs. by rewrite !length_fmap, Hs.
Qed.

(** C24. The epoch CID is deterministic: processing the same (blob, result)
    pairs in any order, with any order of map iteration and any sorting
    algorithm, gives the same outcome and the same blocks, as long as no two
    blobs share hash, slot and index. *)
Theorem BuildEpochNode_deterministic (R1 R2 : GoRuntime) {I : Ipld} {BS} `{!blockstoreBackend BS}
    epoch slot (ps1 ps2 : list (BlobInput * BlobResult)) network thr :
  ps1 ≡ₚ ps2 →
  occs_distinct (uncurry occ_of <$> ps1) →
  BuildEpochNode (R := R1) (BS := BS) (mkEpochInput epoch slot ps1.*1) ps1.*2 network thr =
  BuildEpochNode (R := R2) (mkEpochInput epoch slot ps2.*1) ps2.*2 network thr.
Proof. intros Hp. by apply BuildEpochNode_occs; rewrite Hp. Qed.

(** ** The properties at concrete inputs *)

Definition demo_cid (d : string) : cid := Cid 1 mc_DagCbor mh_SHA2_256 32 d.
Definition demo_result (d : string) : BlobResult :=
  mkBlobResult "0xc0" (demo_cid "data") (demo_cid d) 4.

(** The same blob twice in an epoch, and another one. *)
Definition demo_epoch : EpochInput :=
  mkEpochInput 10 320 [demo_blob 1 "b" 0; demo_blob 0 "a" 0;
    mkBlobInput "0xc1" "0x01bb" "0x7f" 19000000 "0xb1" 321 10 0 "c" 0].
Definition demo_results : list BlobResult :=
  [demo_result "m1"; demo_result "m0"; demo_result "m2"].


(** Evaluated: the two occurrences come back in (slot, index) order, from the
    map form and from the sharded form. *)
Example demo_lookup_evaluated thr : thr = 2 ∨ thr = 1000 →
  let '(o, bs) := BuildEpochNode demo_epoch demo_results "mainnet" thr
                    MemBlockstore.NewMemBlockstore in
  match o with
  | Ok r => lookup_blob (er_CID r) "0x01aa" bs
  | _ => Ok None
  end = Ok (Some (NList [NLink (demo_cid "m0"); NLink (demo_cid "m1")])).
Proof. intros [-> | ->]; vm_compute; reflexivity. Qed.

Lemma BuildEpochNode_shards_witness : ∃ shards blks eb r groups,
  groupByVersionedHash (ei_Blobs demo_epoch) demo_results = Ok groups ∧
  BuildEpochNode demo_epoch demo_results "mainnet" 2 NullBlockstore.Null
    = (Ok r, put_all (blks ++ [eb]) NullBlockstore.Null) ∧
  er_CID r = blk_Cid eb ∧
  Forall (λ sh, 1 ≤ length sh ≤ 256)%nat shards ∧
  Forall2 (λ sh b, cbor_block (NMap (appendGroupEntry <$> sh)) = Ok b) shards blks ∧
  concat shards = groups.
Proof.
  exact (BuildEpochNode_shards demo_epoch demo_results "mainnet" 2 NullBlockstore.Null
    ltac:(simpl; lia) ltac:(repeat constructor; discriminate)).
Defined.

Lemma BuildEpochNode_deterministic_witness :
  BuildEpochNode (R := default_runtime) (mkEpochInput 10 320 [demo_blob 1 "b" 0; demo_blob 0 "a" 0])
    [demo_result "m1"; demo_result "m0"] "mainnet" 2 NullBlockstore.Null =
  BuildEpochNode (R := backward_runtime) (mkEpochInput 10 320 [demo_blob 0 "a" 0; demo_blob 1 "b" 0])
    [demo_result "m0"; demo_result "m1"] "mainnet" 2 NullBlockstore.Null.
Proof.
  apply (f_equal (λ f, f NullBlockstore.Null)).
  apply (BuildEpochNode_deterministic default_runtime backward_runtime 10 320
    [(demo_blob 1 "b" 0, demo_result "m1"); (demo_blob 0 "a" 0, demo_result "m0")]
    [(demo_blob 0 "a" 0, demo_result "m0"); (demo_blob 1 "b" 0, demo_result "m1")]).
  - apply Permutation_swap.
  - intros x y Hx%list_elem_of_In Hy%list_elem_of_In. simpl in Hx, Hy.
    destruct Hx as [<-|[<-|[]]], Hy as [<-|[<-|[]]]; simpl; congruence.
Defined.
