(* ===== verification/Network.v ===== *)
(** * Network: builder/network.go and builder/range.go

    The paged NetworkRoot over all known epochs, its EpochPages, and the root
    of a multi-epoch export. *)

From S2P Require Import Prelude GoStd Types Ipld Store IpldModel Blob Epoch.

Definition epoch_less : EpochResult → EpochResult → bool := by_key er_Epoch Z.ltb.

(** The entry of an epoch: its decimal number, linked to its node. *)
Definition epoch_entry (e : EpochResult) : string * node :=
  (FormatUint (er_Epoch e), NLink (er_CID e)).

(** The start of the aligned page that holds [epoch]. *)
Definition page_start (ps epoch : Z) : Z := u64_mul (epoch / ps) ps.

Definition sum_sizes (es : list EpochResult) : Z :=
  foldl (λ acc e, i64_add acc (er_ApproximateSizeBytes e)) 0 es.

Definition clamp_page_size (pageSize : Z) : Z := if pageSize <? 1000 then 1000 else pageSize.

Definition network_entries (network : string) (pageSize latestEpoch totalSizeBytes : Z)
    (pages : list (string * cid)) : list (string * node) :=
  [("type", NString "paged");
   ("network", NString network);
   ("pageSize", NInt pageSize);
   ("latestEpoch", NInt (to_i64 latestEpoch));
   ("totalSizeBytes", NInt totalSizeBytes);
   ("pages", NMap ((λ p, (fst p, NLink (snd p))) <$> pages))].

Definition range_entries (network : string) (firstEpoch lastEpoch totalSize : Z)
    (sorted : list EpochResult) : list (string * node) :=
  [("network", NString network);
   ("firstEpoch", NInt (to_i64 firstEpoch));
   ("lastEpoch", NInt (to_i64 lastEpoch));
   ("totalSizeBytes", NInt totalSize);
   ("epochs", NMap (epoch_entry <$> sorted))].

Section Network.
Context {R : GoRuntime} {I : Ipld} {BS : Type} {B : blockstoreBackend BS}.

Definition buildEpochPage (epochs : list EpochResult) : Go BS cid :=
  node ← wrapf "builder: build epoch page node"
           (lift (BuildMap [("epochs", NMap (epoch_entry <$> epochs))]));
  wrapf "builder: store epoch page" (lsys_Store (NewLinkSystem BS) linkProtoDagCBOR node).

Definition BuildNetworkRoot (network : string) (epochs : list EpochResult) (pageSize : Z)
    : Go BS NetworkRootResult :=
  let pageSize := clamp_page_size pageSize in
  let sorted := sort_Slice epoch_less epochs in
  let latestEpoch := from_option er_Epoch 0 (last sorted) in
  let totalSizeBytes := sum_sizes sorted in
  let ps := wrap64 pageSize in
  let pageMap := group_by (λ e, page_start ps (er_Epoch e)) sorted in
  let pageStarts := sort_Slice Z.ltb (fst <$> map_range pageMap) in
  pages ← map_go (λ start,
      pageCID ← wrapf ("builder: build epoch page " +:+ FormatUint start)
                  (buildEpochPage (default [] (pageMap !! start)));
      mret (FormatUint start, pageCID)) pageStarts;
  rootNode ← wrapf "builder: build network root"
    (lift (BuildMap (network_entries network pageSize latestEpoch totalSizeBytes pages)));
  lnk ← wrapf "builder: store network root"
    (lsys_Store (NewLinkSystem BS) linkProtoDagCBOR rootNode);
  mret {| nr_CID := lnk; nr_PageCount := Z.of_nat (length pages) |}.

Definition BuildRangeNode (network : string) (epochs : list EpochResult) : Go BS EpochResult :=
  let sorted := sort_Slice epoch_less epochs in
  let totalSize := sum_sizes sorted in
  first ← lift (index sorted 0);
  last ← lift (index sorted (length sorted - 1));
  let firstEpoch := er_Epoch first in
  let lastEpoch := er_Epoch last in
  node ← wrapf "builder: build range node"
    (lift (BuildMap (range_entries network firstEpoch lastEpoch totalSize sorted)));
  lnk ← wrapf "builder: store range node"
    (lsys_Store (NewLinkSystem BS) linkProtoDagCBOR node);
  mret {| er_Epoch := firstEpoch; er_CID := lnk; er_CARPath := "";
          er_ApproximateSizeBytes := totalSize |}.
End Network.

(** ** Facts about pages *)

Lemma page_start_div ps e : 0 < ps → is_u64 e → page_start ps e = e / ps * ps.
Proof.
  intros Hps [H0 H1]. unfold page_start, u64_mul. apply wrap64_id.
  split; [apply Z.mul_nonneg_nonneg; [by apply Z.div_pos|lia]|].
  pose proof (Z.mul_div_le e ps Hps). lia.
Qed.

Lemma page_start_bounds ps e :
  0 < ps → is_u64 e → page_start ps e ≤ e < page_start ps e + ps.
Proof.
  intros Hps He. rewrite page_start_div by done.
  pose proof (Z.div_mod e ps). pose proof (Z.mod_pos_bound e ps). lia.
Qed.

Lemma epoch_entry_keys es : (epoch_entry <$> es).*1 = FormatUint <$> (er_Epoch <$> es).
Proof. by rewrite <- !list_fmap_compose. Qed.

Lemma epoch_entries_wf es :
  node_wf (NMap (epoch_entry <$> es)) = bool_decide (NoDup (er_Epoch <$> es)).
Proof.
  assert (forallb (λ e, node_wf (snd e)) (epoch_entry <$> es) = true) as Hf.
  { by apply forallb_forall; intros ? (e & -> & _)%list_elem_of_In%list_elem_of_fmap. }
  change (node_wf (NMap (epoch_entry <$> es))) with
    (bool_decide (NoDup (epoch_entry <$> es).*1) && forallb (λ e, node_wf (snd e)) (epoch_entry <$> es)).
  rewrite Hf, andb_true_r, epoch_entry_keys. apply bool_decide_ext.
  split; [apply NoDup_fmap_1|apply NoDup_fmap_2; intros x y; apply FormatUint_inj].
Qed.

Lemma epoch_entries_links es :
  Forall (λ e, er_CID e ≠ cid_Undef) es → node_links_ok (NMap (epoch_entry <$> es)) = true.
Proof.
  intros Hd. cbn -[epoch_entry]. apply forallb_forall.
  intros ? (e & -> & He)%list_elem_of_In%list_elem_of_fmap. cbn.
  rewrite Forall_forall in Hd. apply negb_true_iff, bool_decide_eq_false. auto.
Qed.

(** Looking an epoch number up among the entries. *)
Lemma epoch_entries_assoc n es :
  NoDup (er_Epoch <$> es) →
  assoc (FormatUint n) (epoch_entry <$> es) =
  NLink ∘ er_CID <$> head (filter (λ e, er_Epoch e = n) es).
Proof.
  induction es as [|e es IH]; [done|]. rewrite !fmap_cons, filter_cons. intros [Hn Hnd]%NoDup_cons.
  simpl. case_bool_decide as Hc.
  - apply FormatUint_inj in Hc. by rewrite decide_True.
  - rewrite decide_False; [by apply IH|]. intros <-. by destruct Hc.
Qed.

(** ** What the operations write *)

Definition page_node (es : list EpochResult) : node := NMap [("epochs", NMap (epoch_entry <$> es))].

(** The pages of a root: the sorted starts, each with the block of its page. *)
Definition pages_of (starts : list Z) (blks : list block) : list (string * cid) :=
  zip_with (λ s b, (FormatUint s, blk_Cid b)) starts blks.

Section NetworkSpec.
Context {R : GoRuntime} {I : Ipld} {L : IpldLaws I}.

Lemma page_node_wf es : node_wf (page_node es) = bool_decide (NoDup (er_Epoch <$> es)).
Proof. rewrite <- epoch_entries_wf. cbn -[epoch_entry]. by rewrite andb_true_r. Qed.

Lemma page_node_links es :
  Forall (λ e, er_CID e ≠ cid_Undef) es → node_links_ok (page_node es) = true.
Proof.
  intros Hd. cbn -[epoch_entry]. rewrite andb_true_r. by apply epoch_entries_links.
Qed.

Lemma buildEpochPage_runs es :
  NoDup (er_Epoch <$> es) → Forall (λ e, er_CID e ≠ cid_Undef) es →
  ∃ b, cbor_block (page_node es) = Ok b ∧
    ∀ BS (B : blockstoreBackend BS) (W : AcceptsWrites BS),
      runs_as (buildEpochPage (BS := BS) es) (blk_Cid b) [b].
Proof.
  intros Hnd Hd.
  assert (node_wf (page_node es) = true) as Hw by by rewrite page_node_wf, bool_decide_eq_true.
  destruct (cbor_block_ok _ Hw (page_node_links es Hd)) as [b Hb].
  exists b. split; [done|]. intros BS B W. apply (runs_as_bind _ _ (page_node es) _ [] [b]).
  - by apply runs_as_wrapf, runs_as_lift, BuildMap_ok.
  - by apply runs_as_wrapf, store_cbor.
Qed.

Lemma pages_runs (page : Z → list EpochResult) starts :
  (∀ s, s ∈ starts → NoDup (er_Epoch <$> page s) ∧ Forall (λ e, er_CID e ≠ cid_Undef) (page s)) →
  ∃ blks, Forall2 (λ s b, cbor_block (page_node (page s)) = Ok b) starts blks ∧
    ∀ BS (B : blockstoreBackend BS) (W : AcceptsWrites BS),
      runs_as (map_go (λ start,
          pageCID ← wrapf ("builder: build epoch page " +:+ FormatUint start)
                      (buildEpochPage (BS := BS) (page start));
          mret (FormatUint start, pageCID)) starts) (pages_of starts blks) blks.
Proof.
  induction starts as [|s starts IH]; intros Hp.
  { exists []. split; [done|]. intros. apply runs_as_ret. }
  destruct (Hp s ltac:(left)) as [Hnd Hd].
  destruct (buildEpochPage_runs (page s) Hnd Hd) as (b & Hb & Hr).
  destruct IH as (blks & Hbl & Hrs); [intros; apply Hp; by right|].
  exists (b :: blks). split; [by constructor|]. intros BS B W.
  apply (runs_as_bind _ _ (FormatUint s, blk_Cid b) _ [b] blks).
  - apply (runs_as_map _ (λ c, (FormatUint s, c))), runs_as_wrapf, Hr, W.
  - apply (runs_as_map _ (cons (FormatUint s, blk_Cid b))), Hrs, W.
Qed.

Lemma pages_assoc (P : Z → block → Prop) s starts blks :
  Forall2 P starts blks →
  match assoc (FormatUint s) ((λ p, (fst p, NLink (snd p))) <$> pages_of starts blks) with
  | Some n => ∃ b, n = NLink (blk_Cid b) ∧ b ∈ blks ∧ P s b
  | None => s ∉ starts
  end.
Proof.
  induction 1 as [|s' b starts blks Hb _ IH]; simpl; [apply not_elem_of_nil|].
  case_bool_decide as Hs.
  - apply FormatUint_inj in Hs as ->. eexists. split_and!; [done|left|done].
  - destruct (assoc _ _).
    + destruct IH as (b' & ? & ? & ?). exists b'. split_and!; [done|by right|done].
    + apply not_elem_of_cons. split; [|done]. intros ->. by destruct Hs.
Qed.

Lemma pages_wf starts blks :
  NoDup starts → Forall (λ b, blk_Cid b ≠ cid_Undef) blks →
  node_wf (NMap ((λ p, (fst p, NLink (snd p))) <$> pages_of starts blks)) = true ∧
  node_links_ok (NMap ((λ p, (fst p, NLink (snd p))) <$> pages_of starts blks)) = true.
Proof.
  intros Hnd Hd. rewrite node_wf_NMap, <- list_fmap_compose. split; [split|].
  - change (NoDup (fst <$> pages_of starts blks)). revert blks Hd.
    induction Hnd as [|s starts Hs _ IH]; intros [|b blks] Hd; simpl; try constructor.
    + intros (x & Hx & Hin)%list_elem_of_fmap. unfold pages_of in Hin.
      apply elem_of_lookup_zip_with in Hin as (i & s' & b' & -> & Hl & _).
      simpl in Hx. apply FormatUint_inj in Hx as ->. by apply list_elem_of_lookup_2 in Hl.
    + apply IH. by inversion Hd.
  - by intros k v (p & [= -> ->] & _)%list_elem_of_fmap.
  - cbn. apply forallb_forall. intros ? (p & -> & Hin)%list_elem_of_In%list_elem_of_fmap. cbn.
    apply elem_of_lookup_zip_with in Hin as (i & s' & b' & -> & _ & Hl).
    rewrite Forall_forall in Hd. apply negb_true_iff, bool_decide_eq_false, Hd.
    by eapply list_elem_of_lookup_2.
Qed.
End NetworkSpec.

(** ** The pages of a network root *)

Section Pages.
Context {R : GoRuntime}.

Definition sorted_epochs (epochs : list EpochResult) : list EpochResult :=
  sort_Slice epoch_less epochs.

Definition page_key (ps : Z) (e : EpochResult) : Z := page_start ps (er_Epoch e).

(** The epochs of the page that starts at [s]. *)
Definition page_epochs (ps : Z) (epochs : list EpochResult) (s : Z) : list EpochResult :=
  bucket (page_key ps) s (sorted_epochs epochs).

Definition page_starts (ps : Z) (epochs : list EpochResult) : list Z :=
  sort_Slice Z.ltb (fst <$> map_range (group_by (page_key ps) (sorted_epochs epochs))).

Lemma sorted_epochs_perm epochs : sorted_epochs epochs ≡ₚ epochs.
Proof. apply sort_Slice_perm. Qed.

Lemma page_starts_perm ps epochs :
  page_starts ps epochs ≡ₚ fst <$> map_to_list (group_by (page_key ps) (sorted_epochs epochs)).
Proof. unfold page_starts. by rewrite sort_Slice_perm, map_range_perm. Qed.

Lemma page_starts_NoDup ps epochs : NoDup (page_starts ps epochs).
Proof. rewrite page_starts_perm. apply NoDup_fst_map_to_list. Qed.

Lemma page_starts_sorted ps epochs : Sorted Z.le (page_starts ps epochs).
Proof.
  rewrite <- (list_fmap_id (page_starts ps epochs)).
  apply (Sorted_fmap id (sle Z.ltb)); [|apply sort_Slice_sorted, _].
  intros x y. unfold sle. by rewrite Z.ltb_ge.
Qed.

(** A page for exactly the starts some epoch falls under. *)
Lemma elem_of_page_starts ps epochs s :
  s ∈ page_starts ps epochs ↔ s ∈ page_key ps <$> epochs.
Proof.
  rewrite page_starts_perm, list_elem_of_fmap. split.
  - intros ([k g] & -> & [_ Hk]%elem_of_map_to_list%group_by_lookup). simpl in *.
    by rewrite sorted_epochs_perm in Hk.
  - intros Hk. rewrite <- sorted_epochs_perm in Hk.
    exists (s, page_epochs ps epochs s). split; [done|].
    apply elem_of_map_to_list, group_by_lookup. done.
Qed.

Lemma page_epochs_default ps epochs s :
  default [] (group_by (page_key ps) (sorted_epochs epochs) !! s) = page_epochs ps epochs s.
Proof. apply group_by_default. Qed.

Lemma page_epochs_NoDup ps epochs s :
  NoDup (er_Epoch <$> epochs) → NoDup (er_Epoch <$> page_epochs ps epochs s).
Proof. intros Hnd. apply NoDup_fmap_filter. by rewrite sorted_epochs_perm. Qed.

Lemma elem_of_page_epochs ps epochs s e :
  e ∈ page_epochs ps epochs s ↔ page_key ps e = s ∧ e ∈ epochs.
Proof. unfold page_epochs. by rewrite elem_of_bucket, sorted_epochs_perm. Qed.

Lemma page_epochs_defined ps epochs s :
  Forall (λ e, er_CID e ≠ cid_Undef) epochs →
  Forall (λ e, er_CID e ≠ cid_Undef) (page_epochs ps epochs s).
Proof. rewrite !Forall_forall. intros Hd e [_ He]%elem_of_page_epochs. auto. Qed.

(** A page holds at most [ps] epochs: they are distinct numbers of its range. *)
Lemma page_epochs_length ps epochs s :
  0 < ps → Forall (λ e, is_u64 (er_Epoch e)) epochs → NoDup (er_Epoch <$> epochs) →
  Z.of_nat (length (page_epochs ps epochs s)) ≤ ps.
Proof.
  intros Hps Hu Hnd. rewrite Forall_forall in Hu.
  assert (er_Epoch <$> page_epochs ps epochs s ⊆+ seqZ s ps) as Hsub.
  { apply NoDup_submseteq; [by apply page_epochs_NoDup|].
    intros n (e & -> & [<- He]%elem_of_page_epochs)%list_elem_of_fmap.
    apply elem_of_seqZ, page_start_bounds; auto. }
  apply submseteq_length in Hsub. rewrite length_fmap, length_seqZ in Hsub. lia.
Qed.

Lemma last_sorted_max epochs e :
  last (sorted_epochs epochs) = Some e → Forall (λ e', er_Epoch e' ≤ er_Epoch e) epochs.
Proof.
  intros Hl. rewrite <- (sorted_epochs_perm epochs).
  pose proof (sort_Slice_sorted epoch_less epochs _) as Hs.
  apply Sorted_StronglySorted in Hs; [|apply (strict_weak_trans (less := epoch_less))].
  fold (sorted_epochs epochs) in Hs.
  induction Hs as [|x l Hs IH Hx]; [done|]. destruct l as [|y l].
  - simpl in Hl. simplify_eq. repeat constructor. lia.
  - rewrite last_cons_cons in Hl. constructor; [|by apply IH].
    rewrite Forall_forall in Hx. apply last_Some_elem_of, Hx in Hl.
    unfold sle, epoch_less, by_key in Hl. apply Z.ltb_ge in Hl. done.
Qed.
End Pages.

(** An epoch list the root can be built from. *)
Record epochs_ok (epochs : list EpochResult) : Prop := {
  eo_u64 : Forall (λ e, is_u64 (er_Epoch e)) epochs;
  eo_nodup : NoDup (er_Epoch <$> epochs);
  eo_cids : Forall (λ e, er_CID e ≠ cid_Undef) epochs }.

Section Root.
Context {R : GoRuntime} {I : Ipld} {L : IpldLaws I}.

Definition root_node (network : string) (epochs : list EpochResult) (ps : Z) (blks : list block)
    : node :=
  NMap (network_entries network ps (from_option er_Epoch 0 (last (sorted_epochs epochs)))
          (sum_sizes (sorted_epochs epochs)) (pages_of (page_starts ps epochs) blks)).

Lemma root_node_ok network epochs ps blks :
  Forall (λ b, blk_Cid b ≠ cid_Undef) blks →
  node_wf (root_node network epochs ps blks) = true ∧
  node_links_ok (root_node network epochs ps blks) = true.
Proof.
  intros Hd. destruct (pages_wf (page_starts ps epochs) blks) as [Hw Hl];
    [apply page_starts_NoDup|done|].
  split; cbn; rewrite andb_true_r; [exact Hw|exact Hl].
Qed.

Lemma clamp_bounds pageSize :
  is_i64 pageSize → 1000 ≤ clamp_page_size pageSize < two63.
Proof. unfold is_i64, clamp_page_size, two63. zcases. Qed.

Lemma clamp_wrap pageSize : is_i64 pageSize → wrap64 (clamp_page_size pageSize) = clamp_page_size pageSize.
Proof.
  intros Hi. apply clamp_bounds in Hi. apply wrap64_id. unfold is_u64, two63, two64 in *. lia.
Qed.

Lemma BuildNetworkRoot_runs network epochs pageSize :
  is_i64 pageSize → epochs_ok epochs →
  let ps := clamp_page_size pageSize in
  ∃ blks rb,
    Forall2 (λ s b, cbor_block (page_node (page_epochs ps epochs s)) = Ok b)
      (page_starts ps epochs) blks ∧
    cbor_block (root_node network epochs ps blks) = Ok rb ∧
    node_wf (root_node network epochs ps blks) = true ∧
    Forall certified (blks ++ [rb]) ∧
    ∀ BS (B : blockstoreBackend BS) (W : AcceptsWrites BS),
      runs_as (BuildNetworkRoot (BS := BS) network epochs pageSize)
        (mkNetworkRootResult (blk_Cid rb) (Z.of_nat (length (page_starts ps epochs))))
        (blks ++ [rb]).
Proof.
  intros Hi [Hu Hnd Hd] ps.
  destruct (pages_runs (λ s, default [] (group_by (page_key ps) (sorted_epochs epochs) !! s))
    (page_starts ps epochs)) as (blks & Hb & Hrun).
  { intros s _. rewrite page_epochs_default.
    split; [by apply page_epochs_NoDup|by apply page_epochs_defined]. }
  assert (Forall certified blks ∧ Forall (λ b, blk_Cid b ≠ cid_Undef) blks) as [Hcert Hdef].
  { clear -Hb L. induction Hb as [|s b ss blks Hb _ [IH1 IH2]]; [done|].
    split; constructor; eauto using cbor_block_certified, cbor_block_defined. }
  destruct (root_node_ok network epochs ps blks Hdef) as [Hw Hl].
  destruct (cbor_block_ok _ Hw Hl) as [rb Hrb].
  exists blks, rb. split_and!; [|done|done| |].
  { eapply Forall2_impl; [exact Hb|]. intros s b. cbn. by rewrite page_epochs_default. }
  { apply Forall_app. eauto using cbor_block_certified. }
  intros BS B W. unfold BuildNetworkRoot. rewrite clamp_wrap by done. fold ps.
  eapply runs_as_bind; [apply Hrun, W|].
  eapply (runs_as_bind _ _ _ _ [] [rb]).
  { by apply runs_as_wrapf, runs_as_lift, BuildMap_ok. }
  assert (length (pages_of (page_starts ps epochs) blks) = length (page_starts ps epochs)) as Hlen.
  { unfold pages_of. rewrite length_zip_with, (Forall2_length _ _ _ Hb). lia. }
  rewrite <- Hlen.
  apply (runs_as_map _ (λ lnk, mkNetworkRootResult lnk _)). by apply runs_as_wrapf, store_cbor.
Qed.
End Root.

(** ** Following a network root *)

Section RootReader.
Context {I : Ipld} {BS : Type} {B : blockstoreBackend BS}.

(** [pages/<start>/epochs/<n>], with the start computed from the root's pageSize. *)
Definition lookup_epoch (root : cid) (n : Z) (bs : BS) : outcome (option node) :=
  r ← read_node root bs;
  match node_get "pageSize" r, node_get "pages" r with
  | Some (NInt ps), Some pages =>
      match node_get (FormatUint (page_start ps n)) pages with
      | Some (NLink pc) =>
          p ← read_node pc bs;
          Ok (node_get "epochs" p ≫= node_get (FormatUint n))
      | Some _ => Err (errors_New "page is not a link")
      | None => Ok None
      end
  | _, _ => Err (errors_New "not a network root")
  end.
End RootReader.

Section RootReaderFacts.
Context {R : GoRuntime} {I : Ipld} {L : IpldLaws I}.
Context {BS : Type} {B : blockstoreBackend BS} {V : BlockstoreSpec BS}.

Lemma page_lookup n es :
  NoDup (er_Epoch <$> es) →
  node_get "epochs" (canon (page_node es)) ≫= node_get (FormatUint n) =
  NLink ∘ er_CID <$> head (filter (λ e, er_Epoch e = n) es).
Proof.
  intros Hnd. unfold page_node. rewrite (node_get_canon_Some "epochs" _ (NMap (epoch_entry <$> es)))
    by (reflexivity || keys_nodup).
  cbn [mbind option_bind]. rewrite node_get_canon.
  - rewrite epoch_entries_assoc by done. by destruct (head _).
  - rewrite epoch_entry_keys. apply NoDup_fmap_2; [apply _|done].
Qed.

(** Within its page or in the whole list: the same epoch is found. *)
Lemma page_filter ps epochs n :
  filter (λ e, er_Epoch e = n) (page_epochs ps epochs (page_start ps n)) =
  filter (λ e, er_Epoch e = n) (sorted_epochs epochs).
Proof.
  unfold page_epochs, bucket. apply list_filter_filter_l. intros e <-. done.
Qed.

Lemma filter_unique epochs e :
  NoDup (er_Epoch <$> epochs) → e ∈ epochs →
  filter (λ e', er_Epoch e' = er_Epoch e) (sorted_epochs epochs) = [e].
Proof.
  intros Hnd He. apply Permutation_singleton_r. rewrite sorted_epochs_perm.
  apply elem_of_Permutation in He as [l Hl]. rewrite Hl in *. rewrite fmap_cons in Hnd.
  apply NoDup_cons in Hnd as [Hn _]. rewrite filter_cons_True by done. f_equiv.
  apply reflexive_eq, elem_of_nil_inv. intros x [Hx Hin]%list_elem_of_filter. apply Hn.
  rewrite <- Hx. apply list_elem_of_fmap. eauto.
Qed.

Lemma pages_canon s pages :
  NoDup (fst <$> pages) →
  node_get s (canon (NMap ((λ p : string * cid, (fst p, NLink (snd p))) <$> pages))) =
  assoc s ((λ p, (fst p, NLink (snd p))) <$> pages).
Proof.
  intros Hnd. rewrite node_get_canon by by rewrite <- list_fmap_compose.
  destruct (assoc _ _) as [n|] eqn:Ha; [|done].
  by apply assoc_elem, list_elem_of_fmap in Ha as (p & [= -> ->] & _).
Qed.
End RootReaderFacts.

(** ** Properties *)

Section NetworkProperties.
Context {R : GoRuntime} {I : Ipld} {L : IpldLaws I}.
Context {BS : Type} {B : blockstoreBackend BS} {V : BlockstoreSpec BS} {W : AcceptsWrites BS}.

(** What following the root finds, in terms of the sorted epochs. *)
Lemma lookup_epoch_root network epochs pageSize blks rb (bs : BS) n :
  is_i64 pageSize → epochs_ok epochs →
  let ps := clamp_page_size pageSize in
  Forall2 (λ s b, cbor_block (page_node (page_epochs ps epochs s)) = Ok b)
    (page_starts ps epochs) blks →
  cbor_block (root_node network epochs ps blks) = Ok rb →
  node_wf (root_node network epochs ps blks) = true →
  collision_free (blks ++ [rb]) →
  lookup_epoch (blk_Cid rb) n (put_all (blks ++ [rb]) bs) =
  Ok (NLink ∘ er_CID <$> head (filter (λ e, er_Epoch e = n) (sorted_epochs epochs))).
Proof.
  intros Hi [Hu Hnd Hd] ps Hb Hrb Hw Hcf. unfold lookup_epoch.
  erewrite read_cbor; [|done|set_solver|exact Hw|exact Hrb]. unfold root_node at 1.
  cbn [mbind outcome_bind]. unfold root_node.
  rewrite (node_get_canon_Some "pageSize" _ (NInt ps)) by (reflexivity || keys_nodup).
  rewrite (node_get_canon_Some "pages" _
    (NMap ((λ p, (fst p, NLink (snd p))) <$> pages_of (page_starts ps epochs) blks)))
    by (reflexivity || keys_nodup).
  apply node_wf_NMap in Hw as [_ Hw]. specialize (Hw "pages" _ ltac:(do 5 right; left)).
  apply node_wf_NMap in Hw as [Hnp _]. rewrite <- list_fmap_compose in Hnp.
  change (canon (NInt ps)) with (NInt ps). cbv beta iota. rewrite pages_canon by done.
  pose proof (pages_assoc _ (page_start ps n) _ _ Hb) as Ha.
  destruct (assoc _ _) as [m|].
  - destruct Ha as (b & -> & Hin & Hpb).
    erewrite read_cbor; [|done|set_solver| |exact Hpb].
    + cbn [mbind outcome_bind]. rewrite page_lookup, page_filter by by apply page_epochs_NoDup. done.
    + rewrite page_node_wf. by apply bool_decide_eq_true, page_epochs_NoDup.
  - destruct (filter _ (sorted_epochs epochs)) as [|e l] eqn:Hf; [done|].
    assert (e ∈ filter (λ e, er_Epoch e = n) (sorted_epochs epochs)) as He by (rewrite Hf; left).
    apply list_elem_of_filter in He as [<- He]. rewrite sorted_epochs_perm in He.
    destruct Ha. apply elem_of_page_starts, list_elem_of_fmap. by exists e.
Qed.


(** Page bounds: the root writes one page block per start, in increasing
    order, then the root block; every page has at least one and at most
    pageSize epochs (at least 1000), all inside [start, start + pageSize);
    PageCount counts the pages, and latestEpoch is the largest number. *)
Theorem BuildNetworkRoot_pages network epochs pageSize (bs : BS) :
  is_i64 pageSize → epochs_ok epochs →
  let ps := Z.max 1000 pageSize in
  ∃ starts blks rb r total latest,
    BuildNetworkRoot network epochs pageSize bs = (Ok r, put_all (blks ++ [rb]) bs) ∧
    nr_CID r = blk_Cid rb ∧ nr_PageCount r = Z.of_nat (length starts) ∧
    Sorted Z.le starts ∧ NoDup starts ∧
    Forall2 (λ s b, ∃ es, cbor_block (page_node es) = Ok b ∧
      (1 ≤ length es)%nat ∧ Z.of_nat (length es) ≤ ps ∧
      Forall (λ e, s ≤ er_Epoch e < s + ps) es ∧
      ∀ e, e ∈ es ↔ e ∈ epochs ∧ page_start ps (er_Epoch e) = s) starts blks ∧
    cbor_block (NMap (network_entries network ps latest total (pages_of starts blks))) = Ok rb ∧
    Forall (λ e, er_Epoch e ≤ latest) epochs.
Proof.
  intros Hi Hok ps.
  assert (ps = clamp_page_size pageSize) as -> by (unfold ps, clamp_page_size; zcases).
  pose proof (clamp_bounds pageSize Hi) as Hps.
  destruct (BuildNetworkRoot_runs network epochs pageSize Hi Hok)
    as (blks & rb & Hb & Hrb & Hw & Hcert & Hrun).
  destruct Hok as [Hu Hnd _].
  eexists _, blks, rb, _, _, _. split_and!; [apply Hrun, W|done|done|apply page_starts_sorted
    |apply page_starts_NoDup| |exact Hrb|].
  - eapply Forall2_same_length_lookup_2; [by eapply Forall2_length|].
    intros i s b Hs Hbi. exists (page_epochs (clamp_page_size pageSize) epochs s).
    split; [by eapply (Forall2_lookup_lr _ _ _ i s b Hb)|].
    apply list_elem_of_lookup_2, elem_of_page_starts in Hs.
    apply list_elem_of_fmap in Hs as (e & -> & He). split_and!.
    + destruct (page_epochs _ _ _) eqn:Hp; [|simpl; lia].
      assert (e ∈ @nil EpochResult) as []%not_elem_of_nil. rewrite <- Hp.
      by apply elem_of_page_epochs.
    + apply page_epochs_length; [lia|done|done].
    + apply Forall_forall. intros e' [<- He']%elem_of_page_epochs.
      rewrite Forall_forall in Hu. apply page_start_bounds; [lia|auto].
    + intros e'. rewrite elem_of_page_epochs. unfold page_key. tauto.
  - destruct (last (sorted_epochs epochs)) as [e|] eqn:Hl; [by apply last_sorted_max|].
    apply last_None in Hl. pose proof (sorted_epochs_perm epochs) as Hp. rewrite Hl in Hp.
    by apply Permutation_nil_l in Hp as <-.
Qed.
End NetworkProperties.

(** The network root is deterministic: for the same set of epochs (distinct
    numbers) the order of the list, of map iteration and of sorting ties does
    not change the outcome or the blocks written. *)
Theorem BuildNetworkRoot_deterministic (R1 R2 : GoRuntime) {I : Ipld} {BS} `{!blockstoreBackend BS}
    network epochs1 epochs2 pageSize :
  epochs1 ≡ₚ epochs2 → NoDup (er_Epoch <$> epochs1) →
  BuildNetworkRoot (R := R1) (BS := BS) network epochs1 pageSize =
  BuildNetworkRoot (R := R2) network epochs2 pageSize.
Proof.
  intros Hp Hnd. unfold BuildNetworkRoot, epoch_less.
  rewrite (sort_by_key_unique er_Epoch Z.ltb (R1 := R1) (R2 := R2) epochs1 epochs2)
    by (done || intros x y; by apply NoDup_fmap_inj).
  set (m := group_by _ _).
  rewrite (sort_Slice_unique Z.ltb (R1 := R1) (R2 := R2) (fst <$> @map_range R1 _ _ _ _ m)
    (fst <$> @map_range R2 _ _ _ _ m)); [done|apply _|by rewrite !map_range_perm|].
  intros x y _ _. apply (anti_symm (sle Z.ltb)).
Qed.

Section NetworkErrors.
Context {R : GoRuntime} {I : Ipld} {L : IpldLaws I}.
Context {BS : Type} {B : blockstoreBackend BS} {W : AcceptsWrites BS}.

Lemma buildEpochPage_dup es (bs : BS) :
  ¬ NoDup (er_Epoch <$> es) → ∃ e, buildEpochPage es bs = (Err e, bs).
Proof.
  intros Hnd. destruct (BuildMap_repeated [("epochs", NMap (epoch_entry <$> es))]) as [e He].
  { fold (page_node es). by rewrite page_node_wf, bool_decide_eq_false. }
  eexists. unfold buildEpochPage, mbind, go_bind, wrapf, lift. by rewrite He.
Qed.

(** A repeated epoch number is refused: BuildNetworkRoot then always
    returns an error (the page's map would repeat a key), never a root that
    hides one of the two. *)
Theorem BuildNetworkRoot_duplicate network epochs pageSize (bs : BS) :
  Forall (λ e, er_CID e ≠ cid_Undef) epochs → ¬ NoDup (er_Epoch <$> epochs) →
  ∃ e, fst (BuildNetworkRoot network epochs pageSize bs) = Err e.
Proof.
  intros Hd Hdup. unfold BuildNetworkRoot. set (ps := wrap64 _).
  change (λ e, page_start ps (er_Epoch e)) with (page_key ps).
  change (sort_Slice epoch_less epochs) with (sorted_epochs epochs).
  fold (page_starts ps epochs).
  set (body := λ start : Z, _).
  destruct (map_go_err body (page_starts ps epochs) bs) as (e & s' & Hm).
  - intros s bs' _. unfold body. rewrite page_epochs_default.
    destruct (decide (NoDup (er_Epoch <$> page_epochs ps epochs s))) as [Hn|Hn].
    + destruct (buildEpochPage_runs _ Hn (page_epochs_defined ps epochs s Hd)) as (b & _ & Hr).
      left. unfold mbind, go_bind, wrapf. rewrite (Hr BS _ _ bs'). cbn. eauto.
    + right. destruct (buildEpochPage_dup _ bs' Hn) as [e He].
      unfold mbind, go_bind, wrapf. rewrite He. cbn. eauto.
  - rewrite <- sorted_epochs_perm in Hdup.
    assert (∃ s, s ∈ page_starts ps epochs ∧ ¬ NoDup (er_Epoch <$> page_epochs ps epochs s))
      as (s & Hs & Hn).
    { destruct (decide (Forall (λ s, NoDup (er_Epoch <$> page_epochs ps epochs s))
        (page_starts ps epochs))) as [Hf|Hf].
      - destruct Hdup. rewrite Forall_forall in Hf.
        apply (NoDup_buckets (page_key ps)); [by unfold page_key; intros ?? ->|].
        intros x Hx. apply Hf, elem_of_page_starts. rewrite sorted_epochs_perm in Hx.
        apply list_elem_of_fmap. eauto.
      - apply not_Forall_Exists, Exists_exists in Hf; [|apply _]. naive_solver. }
    exists s. split; [done|]. intros bs'. unfold body. rewrite page_epochs_default.
    destruct (buildEpochPage_dup _ bs' Hn) as [e He].
    unfold mbind, go_bind, wrapf. rewrite He. cbn. eauto.
  - exists e. unfold mbind at 1, go_bind at 1. by rewrite Hm.
Qed.
End NetworkErrors.

Section RangeProperties.
Context {R : GoRuntime} {I : Ipld} {L : IpldLaws I}.

Lemma range_node_ok network f l t es :
  NoDup (er_Epoch <$> es) → Forall (λ e, er_CID e ≠ cid_Undef) es →
  node_wf (NMap (range_entries network f l t es)) = true ∧
  node_links_ok (NMap (range_entries network f l t es)) = true.
Proof.
  intros Hnd Hd. split; cbn -[epoch_entry]; rewrite andb_true_r.
  - pose proof (epoch_entries_wf es) as Hw. rewrite bool_decide_eq_true_2 in Hw by done. exact Hw.
  - by apply epoch_entries_links.
Qed.

Lemma head_sorted_min epochs e :
  sorted_epochs epochs !! 0%nat = Some e →
  e ∈ epochs ∧ Forall (λ e', er_Epoch e ≤ er_Epoch e') epochs.
Proof.
  intros Hl. rewrite <- (sorted_epochs_perm epochs).
  pose proof (sort_Slice_sorted epoch_less epochs _) as Hs.
  apply Sorted_StronglySorted in Hs; [|apply (strict_weak_trans (less := epoch_less))].
  fold (sorted_epochs epochs) in Hs. split; [by eapply list_elem_of_lookup_2|].
  destruct Hs as [|x l Hs Hx]; [done|]. simpl in Hl. simplify_eq. constructor; [lia|].
  eapply Forall_impl; [exact Hx|]. intros y. unfold sle, epoch_less, by_key. by rewrite Z.ltb_ge.
Qed.

(** The node of a range, from its first and last epoch. *)
Definition range_node (network : string) (epochs : list EpochResult) (first last : EpochResult) : node :=
  NMap (range_entries network (er_Epoch first) (er_Epoch last) (sum_sizes (sorted_epochs epochs)) (sorted_epochs epochs)).

Lemma BuildRangeNode_runs {BS} {B : blockstoreBackend BS} {W : AcceptsWrites BS} network epochs :
  epochs_ok epochs → epochs ≠ [] →
  ∃ e0 e1 b, sorted_epochs epochs !! 0%nat = Some e0 ∧
    node_wf (range_node network epochs e0 e1) = true ∧ cbor_block (range_node network epochs e0 e1) = Ok b ∧
    runs_as (BuildRangeNode (BS := BS) network epochs)
      (mkEpochResult (er_Epoch e0) (blk_Cid b) "" (sum_sizes (sorted_epochs epochs))) [b].
Proof.
  intros [_ Hnd Hd] Hne. pose proof (sorted_epochs_perm epochs) as Hp.
  assert (sorted_epochs epochs ≠ []) as Hse by (intros Hn; rewrite Hn in Hp; by apply Permutation_nil_l in Hp).
  destruct (lookup_lt_is_Some_2 (sorted_epochs epochs) 0) as [e0 H0].
  { destruct (sorted_epochs epochs); simpl; [done|lia]. }
  destruct (lookup_lt_is_Some_2 (sorted_epochs epochs) (length (sorted_epochs epochs) - 1)) as [e1 H1].
  { destruct (sorted_epochs epochs); simpl; [done|lia]. }
  destruct (range_node_ok network (er_Epoch e0) (er_Epoch e1) (sum_sizes (sorted_epochs epochs)) (sorted_epochs epochs))
    as [Hw Hl]; [by rewrite Hp|by rewrite Hp|].
  destruct (cbor_block_ok (range_node network epochs e0 e1) Hw Hl) as [b Hb].
  exists e0, e1, b. split_and!; [done..|]. unfold BuildRangeNode. fold (sorted_epochs epochs).
  apply (runs_as_bind _ _ e0 _ [] [b]); [apply runs_as_lift; unfold index; by rewrite H0|].
  apply (runs_as_bind _ _ e1 _ [] [b]); [apply runs_as_lift; unfold index; by rewrite H1|].
  apply (runs_as_bind _ _ (range_node network epochs e0 e1) _ [] [b]); [by apply runs_as_wrapf, runs_as_lift, BuildMap_ok|].
  apply (runs_as_map _ (λ lnk, mkEpochResult (er_Epoch e0) lnk "" _)). by apply runs_as_wrapf, store_cbor.
Qed.

Lemma range_node_get network epochs e0 e1 e : epochs_ok epochs → e ∈ epochs →
  node_get "epochs" (canon (range_node network epochs e0 e1)) ≫= node_get (FormatUint (er_Epoch e)) = Some (NLink (er_CID e)).
Proof.
  intros [_ Hnd _] He. pose proof (sorted_epochs_perm epochs) as Hp. unfold range_node.
  rewrite (node_get_canon_Some "epochs" _ (NMap (epoch_entry <$> sorted_epochs epochs))) by (reflexivity || keys_nodup).
  cbn [mbind option_bind]. rewrite node_get_canon.
  - rewrite epoch_entries_assoc by by rewrite Hp. by rewrite filter_unique.
  - rewrite epoch_entry_keys. apply NoDup_fmap_2; [apply _|by rewrite Hp].
Qed.

(** BuildRangeNode over a non-empty list of distinct epochs writes one
    node whose result carries the smallest epoch and in which every epoch's
    number leads to its CID; over an empty list it panics. *)
Theorem BuildRangeNode_correct {BS} {B : blockstoreBackend BS} {V : BlockstoreSpec BS}
    {W : AcceptsWrites BS} network epochs (bs : BS) :
  epochs_ok epochs →
  if decide (epochs = []) then ∃ p, BuildRangeNode network epochs bs = (Panic p, bs)
  else ∃ r bs' n, BuildRangeNode network epochs bs = (Ok r, bs') ∧
    er_Epoch r ∈ er_Epoch <$> epochs ∧ Forall (λ e, er_Epoch r ≤ er_Epoch e) epochs ∧
    er_ApproximateSizeBytes r = sum_sizes epochs ∧
    read_node (er_CID r) bs' = Ok n ∧
    ∀ e, e ∈ epochs →
      node_get "epochs" n ≫= node_get (FormatUint (er_Epoch e)) = Some (NLink (er_CID e)).
Proof.
  intros Hok. case_decide as Hne.
  { subst. eexists. unfold BuildRangeNode.
    change (sort_Slice epoch_less []) with (sorted_epochs []).
    by rewrite (proj1 (Permutation_nil_r _) (sorted_epochs_perm [])). }
  destruct (BuildRangeNode_runs (BS := BS) network epochs Hok Hne) as (e0 & e1 & b & H0 & Hw & Hb & Hrun).
  destruct (head_sorted_min epochs e0 H0) as [Hin Hmin].
  eexists _, _, (canon (range_node network epochs e0 e1)). split_and!; [apply Hrun|..].
  - apply list_elem_of_fmap. by exists e0.
  - done.
  - apply i64_sum_perm, sorted_epochs_perm.
  - apply read_cbor; [|left|done|done]. intros b1 b2. set_unfold. naive_solver.
  - intros e He. by apply range_node_get.
Qed.
End RangeProperties.

(** ** The properties at concrete inputs *)

(** Epochs of two pages, out of order. *)
Definition demo_epochs : list EpochResult :=
  [mkEpochResult 2500 (demo_cid "e2500") "" 30; mkEpochResult 7 (demo_cid "e7") "" 10;
   mkEpochResult 2001 (demo_cid "e2001") "" 20].

Lemma demo_epochs_ok : epochs_ok demo_epochs.
Proof.
  split; [by repeat constructor| |by repeat constructor].
  apply (bool_decide_unpack _). vm_compute. done.
Qed.


(** Evaluated: two pages, and epoch 2001 found through the page of 2000. *)
Example demo_root_evaluated :
  let '(o, bs) := BuildNetworkRoot "mainnet" demo_epochs 500 MemBlockstore.NewMemBlockstore in
  match o with
  | Ok r => (nr_PageCount r, lookup_epoch (nr_CID r) 2001 bs)
  | _ => (0, Ok None)
  end = (2, Ok (Some (NLink (demo_cid "e2001")))).
Proof. vm_compute. reflexivity. Qed.

Lemma BuildNetworkRoot_pages_witness : ∃ (starts : list Z) blks rb r,
  BuildNetworkRoot "mainnet" demo_epochs 500 NullBlockstore.Null =
    (Ok r, put_all (blks ++ [rb]) NullBlockstore.Null) ∧
  nr_PageCount r = Z.of_nat (length starts) ∧ NoDup starts.
Proof.
  destruct (BuildNetworkRoot_pages "mainnet" demo_epochs 500 NullBlockstore.Null ltac:(done)
    demo_epochs_ok) as (starts & blks & rb & r & _ & _ & Hr & _ & Hc & _ & Hn & _).
  exists starts, blks, rb, r. split; [exact Hr|]. split; [exact Hc|exact Hn].
Defined.

Lemma BuildNetworkRoot_deterministic_witness :
  BuildNetworkRoot (R := default_runtime) (BS := NullBlockstore.t) "mainnet" demo_epochs 500 =
  BuildNetworkRoot (R := backward_runtime) "mainnet" (reverse demo_epochs) 500.
Proof.
  apply (BuildNetworkRoot_deterministic default_runtime backward_runtime "mainnet" demo_epochs).
  - symmetry. apply reverse_Permutation.
  - apply demo_epochs_ok.
Defined.

Lemma BuildNetworkRoot_duplicate_witness : ∃ e,
  fst (BuildNetworkRoot "mainnet" (mkEpochResult 7 (demo_cid "other") "" 1 :: demo_epochs) 1000
         NullBlockstore.Null) = Err e.
Proof.
  apply BuildNetworkRoot_duplicate; [by repeat constructor|].
  apply (bool_decide_unpack _). vm_compute. done.
Defined.

Lemma BuildRangeNode_correct_witness : ∃ r bs' n,
  BuildRangeNode "mainnet" demo_epochs MemBlockstore.NewMemBlockstore = (Ok r, bs') ∧
  read_node (er_CID r) bs' = Ok n.
Proof.
  destruct (BuildRangeNode_correct "mainnet" demo_epochs MemBlockstore.NewMemBlockstore demo_epochs_ok)
    as (r & bs' & n & Hr & _ & _ & _ & Hn & _).
  exists r, bs', n. split; [exact Hr|exact Hn].
Defined.
