(* ===== verification/Db.v ===== *)
(** * Db: db/db.go

    The three PostgreSQL tables and every statement the client runs on them:
    the upserts SaveEpoch and SaveBlobs, the cursors of DBStateBackend, and the
    read queries. A statement may fail (a lost connection, a cancelled
    context): the state carries the faults the next calls will meet. The
    created_at columns, which nothing reads, are left out. *)

From S2P Require Import Prelude GoStd Types Ipld IpldModel.

(** [time.Time]: nanoseconds since the zero time. *)
Definition IsZero (t : Z) : bool := t =? 0.
Definition nullTime (t : Z) : option Z := if IsZero t then None else Some t.
Definition time_Second : Z := 1000000000.

(** ** Schema *)

Record epoch_row := mkEpochRow {
  ep_network : string;
  ep_slot : Z;
  ep_epoch_time : option Z;
  ep_cid : string;
  ep_car_path : string;
  ep_blob_count : Z;
  ep_size_bytes : Z }.

Record blob_row := mkBlobRow {
  bl_epoch : Z;
  bl_slot : Z;
  bl_slot_time : option Z;
  bl_network : string;
  bl_blob_index : Z;
  bl_data_cid : string;
  bl_meta_cid : string;
  bl_versioned_hash : string;
  bl_tx_hash : string;
  bl_block_number : Z;
  bl_block_hash : string;
  bl_size_bytes : Z }.

Record tables := mkTables {
  ipld_epochs : gmap Z epoch_row;        (* PRIMARY KEY epoch *)
  ipld_blobs : gmap string blob_row;     (* PRIMARY KEY commitment *)
  ipld_state : gmap string Z }.          (* PRIMARY KEY key *)

Definition tables_empty : tables := mkTables ∅ ∅ ∅.

(** A client: the tables behind the pool, and what the next calls meet. *)
Record Client := mkClient { c_tables : tables; c_faults : list (option error) }.

Definition set_tables (f : tables → tables) (c : Client) : Client :=
  mkClient (f (c_tables c)) (c_faults c).

Definition set_epochs (f : gmap Z epoch_row → gmap Z epoch_row) (t : tables) : tables :=
  mkTables (f (ipld_epochs t)) (ipld_blobs t) (ipld_state t).
Definition set_blobs (f : gmap string blob_row → gmap string blob_row) (t : tables) : tables :=
  mkTables (ipld_epochs t) (f (ipld_blobs t)) (ipld_state t).
Definition set_state (f : gmap string Z → gmap string Z) (t : tables) : tables :=
  mkTables (ipld_epochs t) (ipld_blobs t) (f (ipld_state t)).

(** One round trip to the server. *)
Definition db_call : Go Client unit := λ c,
  match c_faults c with
  | [] => (Ok tt, c)
  | None :: fs => (Ok tt, mkClient (c_tables c) fs)
  | Some e :: fs => (Err e, mkClient (c_tables c) fs)
  end.

Definition db_exec (f : tables → tables) : Go Client unit :=
  _ ← db_call; modify (set_tables f).
Definition db_query {A} (f : tables → outcome A) : Go Client A :=
  _ ← db_call; gets_out (λ c, f (c_tables c)).

(** [pool.Begin] ... [tx.Commit], with the deferred Rollback: an error leaves
    the tables as they were. *)
Definition transaction {A} (m : Go Client A) : Go Client A := λ c,
  match m c with
  | (Ok a, c') => (Ok a, c')
  | (o, c') => (o, mkClient (c_tables c) (c_faults c'))
  end.

(** Encoding a parameter as BIGINT or INT, and scanning a BIGINT as uint64. *)
Definition int8 (z : Z) : outcome Z :=
  if (- two63 <=? z) && (z <? two63) then Ok z else Err (errors_New "out of range for int8").
Definition int4 (z : Z) : outcome Z :=
  if (- 2 ^ 31 <=? z) && (z <? 2 ^ 31) then Ok z else Err (errors_New "out of range for int4").
Definition scan_uint64 (z : Z) : outcome Z :=
  if 0 <=? z then Ok z else Err (errors_New "cannot scan negative value into uint64").

Fixpoint mapM_out {A B} (f : A → outcome B) (l : list A) : outcome (list B) :=
  match l with
  | [] => Ok []
  | x :: l' => y ← f x; ys ← mapM_out f l'; Ok (y :: ys)
  end.

(** What SQL leaves open: which row DISTINCT ON keeps among equals. The order
    of rows that ORDER BY does not tell apart is the sort's of [GoRuntime]. *)
Class Postgres := {
  distinct_pick : ∀ {A : Type}, A → list A → A;
  distinct_pick_elem : ∀ {A} (x : A) l, distinct_pick x l ∈ x :: l }.

#[export] Instance first_row : Postgres.
Proof. refine {| distinct_pick A x l := x |}. intros. left. Defined.

(** ** Write operations *)

Section Writes.
Context {I : Ipld}.

Definition upsert_epoch (network : string) (result : EpochResult) (blobCount epochTime : Z)
    (m : gmap Z epoch_row) : gmap Z epoch_row :=
  let row := mkEpochRow network (u64_mul (er_Epoch result) 32) (nullTime epochTime)
               (cid_String (er_CID result)) (er_CARPath result) blobCount
               (er_ApproximateSizeBytes result) in
  match m !! er_Epoch result with
  | None => <[er_Epoch result := row]> m
  | Some old => <[er_Epoch result :=
      mkEpochRow (ep_network old) (ep_slot old) (ep_epoch_time row) (ep_cid row)
        (ep_car_path row) (ep_blob_count row) (ep_size_bytes row)]> m
  end.

Definition SaveEpoch (network : string) (result : EpochResult) (blobCount epochTime : Z)
    : Go Client unit :=
  wrapf ("db: save epoch " +:+ FormatUint (er_Epoch result))
    (_ ← lift (int8 (er_Epoch result));
     _ ← lift (int8 (u64_mul (er_Epoch result) 32));
     _ ← lift (int4 blobCount);
     db_exec (set_epochs (upsert_epoch network result blobCount epochTime))).

(** [INSERT ... ON CONFLICT (epoch) DO NOTHING]. *)
Definition ensure_epoch (network : string) (epoch : Z) (m : gmap Z epoch_row)
    : gmap Z epoch_row :=
  match m !! epoch with
  | Some _ => m
  | None => <[epoch := mkEpochRow network (i64_mul epoch 32) None "" "" 0 0]> m
  end.

Definition blob_slot_time (genesisTime secondsPerSlot slot : Z) : option Z :=
  if negb (IsZero genesisTime) && (0 <? secondsPerSlot)
  then Some (genesisTime + i64_mul (i64_mul (to_i64 slot) (to_i64 secondsPerSlot)) time_Second)
  else None.

(** A row of the staging table: the commitment and the other columns. *)
Definition stage_row (network : string) (epoch genesisTime secondsPerSlot : Z)
    (inp : BlobInput) (res : BlobResult) : string * blob_row :=
  (bi_Commitment inp,
   mkBlobRow (to_i64 epoch) (to_i64 (bi_Slot inp))
     (blob_slot_time genesisTime secondsPerSlot (bi_Slot inp)) network (bi_Index inp)
     (cid_String (br_DataCID res)) (cid_String (br_MetaCID res)) (bi_VersionedHash inp)
     (bi_TxHash inp) (to_i64 (bi_BlockNumber inp)) (bi_BlockHash inp) (br_SizeBytes res)).

(** [ON CONFLICT (commitment) DO UPDATE SET ...]. *)
Definition merge_blob (old new : blob_row) : blob_row :=
  mkBlobRow (bl_epoch old) (bl_slot old) (bl_slot_time new) (bl_network old) (bl_blob_index old)
    (bl_data_cid new) (bl_meta_cid new) (bl_versioned_hash new) (bl_tx_hash new)
    (bl_block_number new) (bl_block_hash new) (bl_size_bytes old).

Context {P : Postgres}.

(** [SELECT DISTINCT ON (commitment) ... FROM ipld_blobs_stage]. *)
Definition distinct_stage (rows : list (string * blob_row)) : gmap string blob_row :=
  omap (λ g, match g with
             | [] => None
             | x :: l => Some (snd (distinct_pick x l))
             end) (group_by fst rows).

Definition upsert_blobs (rows : list (string * blob_row)) (m : gmap string blob_row)
    : gmap string blob_row :=
  union_with (λ new old, Some (merge_blob old new)) (distinct_stage rows) m.

Definition SaveBlobs (network : string) (epoch : Z) (blobs : list BlobInput)
    (results : list BlobResult) (genesisTime secondsPerSlot : Z) : Go Client unit :=
  if negb (Nat.eqb (length blobs) (length results)) then
    fail (errors_New "db: SaveBlobs: blobs/results length mismatch")
  else if Nat.eqb (length blobs) 0 then mret tt
  else transaction (
    _ ← wrapf "db: begin tx" db_call;
    _ ← wrapf ("db: ensure epoch row " +:+ FormatUint epoch)
          (db_exec (set_epochs (ensure_epoch network (to_i64 epoch))));
    _ ← wrapf ("db: create stage table epoch " +:+ FormatUint epoch) db_call;
    let rows := zip_with (stage_row network epoch genesisTime secondsPerSlot) blobs results in
    _ ← wrapf ("db: copy blobs epoch " +:+ FormatUint epoch)
          (_ ← lift (mapM_out (λ r, int4 (bl_blob_index (snd r))) rows); db_call);
    _ ← wrapf ("db: upsert blobs epoch " +:+ FormatUint epoch)
          (db_exec (set_blobs (upsert_blobs rows)));
    wrapf ("db: commit blobs tx epoch " +:+ FormatUint epoch) db_call).
End Writes.

(** ** State backend *)

Section State.
Context (network : string).

Definition live_key : string := "live_" +:+ network.
Definition backfill_key : string := "backfill_" +:+ network.

(** The rows of a network. *)
Definition network_rows (t : tables) : gmap Z epoch_row :=
  filter (λ e, ep_network (snd e) = network) (ipld_epochs t).

Definition max_epoch (t : tables) : option Z :=
  map_fold (λ e _ acc, Some (match acc with None => e | Some m => Z.max e m end)) None
    (network_rows t).

Definition GetLastProcessedEpoch : Go Client Z :=
  wrapf "db: get last processed epoch"
    (db_query (λ t, scan_uint64
      (match ipld_state t !! live_key with
       | Some v => v
       | None => match max_epoch t with Some m => m | None => 0 end
       end))).

Definition SetLastProcessedEpoch (epoch : Z) : Go Client unit :=
  wrapf ("db: set live cursor " +:+ FormatUint epoch)
    (_ ← lift (int8 epoch); db_exec (set_state (insert live_key epoch))).

Definition GetBackfillCursor : Go Client Z :=
  wrapf "db: get backfill cursor"
    (db_query (λ t, scan_uint64 (default 0 (ipld_state t !! backfill_key)))).

Definition SetBackfillCursor (epoch : Z) : Go Client unit :=
  wrapf ("db: set backfill cursor " +:+ FormatUint epoch)
    (_ ← lift (int8 epoch); db_exec (set_state (insert backfill_key epoch))).

Definition GetMaxEpoch : Go Client Z :=
  wrapf "db: get max epoch" (db_query (λ t, scan_uint64 (default 0 (max_epoch t)))).

Definition EpochExists (epoch : Z) : Go Client bool :=
  wrapf ("db: epoch exists " +:+ FormatUint epoch)
    (_ ← lift (int8 epoch);
     db_query (λ t, Ok (bool_decide (is_Some (network_rows t !! epoch))))).
End State.

(** ** Read operations *)

Record EpochRecord := mkEpochRecord { rec_Epoch : Z; rec_CID : string; rec_SizeBytes : Z }.

Record BlobRecord := mkBlobRecord {
  rb_Commitment : string;
  rb_DataCID : string;
  rb_MetaCID : string;
  rb_BlobIndex : Z;
  rb_Slot : Z;
  rb_SlotTime : option Z;
  rb_VersionedHash : string;
  rb_TxHash : string;
  rb_BlockNumber : Z;
  rb_BlockHash : string;
  rb_SizeBytes : Z }.

Record BlobRef := mkBlobRef { ref_VersionedHash : string; ref_DataCID : string; ref_MetaCID : string }.

Record GapRange := mkGapRange { gap_Start : Z; gap_End : Z }.
Definition GapRange_Count (g : GapRange) : Z := u64_add (u64_sub (gap_End g) (gap_Start g)) 1.

Record EpochTopRow := mkEpochTopRow {
  top_Epoch : Z; top_BlobCount : Z; top_SizeBytes : Z; top_EpochTime : option Z }.

(** The average is kept in tenths, as ROUND(AVG(blob_count), 1) returns it. *)
Record SummaryStats := mkSummaryStats {
  ss_EpochCount : Z;
  ss_EmptyEpochCount : Z;
  ss_FirstEpoch : Z;
  ss_LastEpoch : Z;
  ss_ExpectedEpochCount : Z;
  ss_GapCount : Z;
  ss_TotalBlobs : Z;
  ss_TotalSizeBytes : Z;
  ss_AvgBlobsPerEpoch_tenths : Z;
  ss_MaxBlobsPerEpoch : Z;
  ss_MaxBlobsEpoch : Z;
  ss_FirstEpochTime : option Z;
  ss_LastEpochTime : option Z;
  ss_LiveCursor : Z;
  ss_BackfillCursor : Z }.

Record EpochCountMismatch := mkEpochCountMismatch { cm_Epoch : Z; cm_Stored : Z; cm_Actual : Z }.
Record EpochAnomaly := mkEpochAnomaly { an_Epoch : Z; an_Count : Z }.
Record BlobIndexAnomaly := mkBlobIndexAnomaly {
  ia_Epoch : Z; ia_Rows : Z; ia_DistinctIdx : Z; ia_MaxIdx : Z }.

Definition sum_Z (l : list Z) : Z := foldr Z.add 0 l.
Definition max_Z (l : list Z) : option Z :=
  foldr (λ x acc, Some (match acc with None => x | Some m => Z.max x m end)) None l.
Definition min_Z (l : list Z) : option Z :=
  foldr (λ x acc, Some (match acc with None => x | Some m => Z.min x m end)) None l.

(** [LEAD(epoch) OVER (ORDER BY epoch)] on sorted epochs, keeping the pairs
    that are not consecutive. *)
Fixpoint lead_gaps (epochs : list Z) : list GapRange :=
  match epochs with
  | [] => []
  | e :: rest =>
      match rest with
      | [] => []
      | next :: _ =>
          if e + 1 <? next then mkGapRange (e + 1) (next - 1) :: lead_gaps rest
          else lead_gaps rest
      end
  end.

Section Reads.
Context {R : GoRuntime} (network : string).

(** [... FROM ipld_epochs WHERE network = $1 ORDER BY epoch]. *)
Definition epochs_ordered (t : tables) : list (Z * epoch_row) :=
  sort_Slice (by_key fst Z.ltb) (map_range (network_rows network t)).

(** [ORDER BY blob_count DESC]. *)
Definition epochs_by_count (t : tables) : list (Z * epoch_row) :=
  sort_Slice (λ a b, ep_blob_count (snd b) <? ep_blob_count (snd a)) (map_range (network_rows network t)).

(** The blobs joined to an epoch row: [b.epoch = e.epoch AND b.network = e.network]. *)
Definition joined_blobs (epoch : Z) (net : string) (t : tables) : list (string * blob_row) :=
  filter (λ b, bl_epoch (snd b) = epoch ∧ bl_network (snd b) = net) (map_range (ipld_blobs t)).

Definition GetAllEpochs : Go Client (list EpochRecord) :=
  wrapf "db: get all epochs"
    (db_query (λ t, mapM_out (λ e, n ← scan_uint64 (fst e);
      Ok (mkEpochRecord n (ep_cid (snd e)) (ep_size_bytes (snd e)))) (epochs_ordered t))).

Definition GetEpochGapRanges : Go Client (list GapRange) :=
  wrapf "db: epoch gap ranges"
    (db_query (λ t, mapM_out (λ g, s ← scan_uint64 (gap_Start g); e ← scan_uint64 (gap_End g);
      Ok (mkGapRange s e)) (lead_gaps (fst <$> epochs_ordered t)))).

Definition GetTopEpochsByBlobCount (limit : nat) : Go Client (list EpochTopRow) :=
  wrapf "db: top epochs"
    (db_query (λ t, mapM_out (λ e, n ← scan_uint64 (fst e);
      Ok (mkEpochTopRow n (ep_blob_count (snd e)) (ep_size_bytes (snd e)) (ep_epoch_time (snd e))))
      (take limit (epochs_by_count t)))).

Definition GetSummaryStats : Go Client SummaryStats :=
  agg ← wrapf "db: summary stats" (db_query (λ t,
    let rows := epochs_ordered t in
    let es := fst <$> rows in
    let counts := ep_blob_count ∘ snd <$> rows in
    let times := omap (ep_epoch_time ∘ snd) rows in
    let n := Z.of_nat (length rows) in
    first ← scan_uint64 (default 0 (min_Z es));
    last ← scan_uint64 (default 0 (max_Z es));
    maxEpoch ← scan_uint64 (from_option fst 0 (head (epochs_by_count t)));
    Ok (n, Z.of_nat (length (filter (λ c, c = 0) counts)), first, last,
        match max_Z es, min_Z es with Some mx, Some mn => mx - mn + 1 | _, _ => 0 end,
        sum_Z counts, sum_Z (ep_size_bytes ∘ snd <$> rows),
        (if n =? 0 then 0 else (20 * sum_Z counts + n) / (2 * n)),
        default 0 (max_Z counts), maxEpoch, min_Z times, max_Z times)));
  let '(n, empty, first, last, expected, blobs, size, avg, maxBlobs, maxEpoch, ft, lt) := agg in
  cursors ← wrapf "db: summary cursors" (db_query (λ t,
    live ← scan_uint64 (default 0 (ipld_state t !! live_key network));
    back ← scan_uint64 (default 0 (ipld_state t !! backfill_key network));
    Ok (live, back)));
  mret (mkSummaryStats n empty first last expected (to_i64 (expected - n)) blobs size avg maxBlobs
          maxEpoch ft lt (fst cursors) (snd cursors)).

(** [ORDER BY epoch, blob_index] *)
Definition ref_less (a b : string * blob_row) : bool :=
  if negb (bl_epoch (snd a) =? bl_epoch (snd b)) then bl_epoch (snd a) <? bl_epoch (snd b)
  else bl_blob_index (snd a) <? bl_blob_index (snd b).

Definition GetBlobRefs (fromEpoch toEpoch : Z) : Go Client (list BlobRef) :=
  wrapf "db: get blob refs"
    (_ ← lift (int8 fromEpoch); _ ← lift (int8 toEpoch);
     db_query (λ t, Ok ((λ b, mkBlobRef (bl_versioned_hash (snd b)) (bl_data_cid (snd b)) (bl_meta_cid (snd b)))
       <$> sort_Slice ref_less
           (filter (λ b, bl_network (snd b) = network ∧ fromEpoch ≤ bl_epoch (snd b) ≤ toEpoch)
              (map_range (ipld_blobs t)))))).

(** The rows of an epoch, joined to their blobs: [ORDER BY blob_index]. *)
Definition epoch_records (epoch : Z) (t : tables) : outcome (list BlobRecord) :=
  mapM_out (λ b,
    slot ← scan_uint64 (bl_slot (snd b));
    bn ← scan_uint64 (bl_block_number (snd b));
    Ok (mkBlobRecord (fst b) (bl_data_cid (snd b)) (bl_meta_cid (snd b)) (bl_blob_index (snd b))
          slot (bl_slot_time (snd b)) (bl_versioned_hash (snd b)) (bl_tx_hash (snd b)) bn
          (bl_block_hash (snd b)) (bl_size_bytes (snd b))))
    (sort_Slice (by_key (bl_blob_index ∘ snd) Z.ltb) (joined_blobs epoch network t)).

Definition GetBlobsByEpoch (epoch : Z) : Go Client (list BlobRecord) :=
  wrapf ("db: get blobs epoch " +:+ FormatUint epoch)
    (_ ← lift (int8 epoch); db_query (epoch_records epoch)).

Definition GetEmptyEpochs : Go Client (list Z) :=
  wrapf "db: get empty epochs"
    (db_query (λ t, mapM_out (λ e, scan_uint64 (fst e))
      (filter (λ e, ep_blob_count (snd e) = 0 ∧ joined_blobs (fst e) (ep_network (snd e)) t = [])
         (epochs_ordered t)))).

(** [LEFT JOIN ... GROUP BY ... HAVING stored <> actual]. *)
Definition mismatches (stored : epoch_row → Z) (actual : list (string * blob_row) → Z) (t : tables)
    : list EpochCountMismatch :=
  filter (λ m, cm_Stored m ≠ cm_Actual m)
    ((λ e, mkEpochCountMismatch (fst e) (stored (snd e))
             (actual (joined_blobs (fst e) (ep_network (snd e)) t))) <$> epochs_ordered t).

Definition scan_mismatch (m : EpochCountMismatch) : outcome EpochCountMismatch :=
  n ← scan_uint64 (cm_Epoch m); Ok (mkEpochCountMismatch n (cm_Stored m) (cm_Actual m)).

Definition GetBlobCountMismatches : Go Client (list EpochCountMismatch) :=
  wrapf "db: get blob_count mismatches"
    (db_query (λ t, mapM_out scan_mismatch
      (mismatches ep_blob_count (λ bs, Z.of_nat (length bs)) t))).

Definition GetSizeMismatches : Go Client (list EpochCountMismatch) :=
  wrapf "db: get size mismatches"
    (db_query (λ t, mapM_out scan_mismatch
      (mismatches ep_size_bytes (λ bs, sum_Z (bl_size_bytes ∘ snd <$> bs)) t))).

(** [GROUP BY epoch ... ORDER BY epoch] of a selection of blobs. *)
Definition grouped_by_epoch (bs : list (string * blob_row)) : list (Z * list (string * blob_row)) :=
  sort_Slice (by_key fst Z.ltb) (map_range (group_by (bl_epoch ∘ snd) bs)).

Definition scanEpochAnomalies (gs : list (Z * list (string * blob_row))) : outcome (list EpochAnomaly) :=
  mapM_out (λ g, n ← scan_uint64 (fst g); Ok (mkEpochAnomaly n (Z.of_nat (length (snd g))))) gs.

Definition epoch_network (epoch : Z) (t : tables) : option string :=
  ep_network <$> ipld_epochs t !! epoch.

Definition GetNetworkMismatches : Go Client (list EpochAnomaly) :=
  wrapf "db: get network mismatches"
    (db_query (λ t, scanEpochAnomalies (grouped_by_epoch (filter (λ b,
      epoch_network (bl_epoch (snd b)) t = Some network ∧ bl_network (snd b) ≠ network)
        (map_range (ipld_blobs t)))))).

Definition GetOrphanBlobs : Go Client (list EpochAnomaly) :=
  wrapf "db: get orphan blobs"
    (db_query (λ t, scanEpochAnomalies (grouped_by_epoch (filter (λ b,
      bl_network (snd b) = network ∧
      epoch_network (bl_epoch (snd b)) t ≠ Some network) (map_range (ipld_blobs t)))))).

Definition index_anomaly (g : Z * list (string * blob_row)) : BlobIndexAnomaly :=
  let idx := bl_blob_index ∘ snd <$> snd g in
  mkBlobIndexAnomaly (fst g) (Z.of_nat (length idx)) (Z.of_nat (length (remove_dups idx)))
    (default 0 (max_Z idx)).

Definition GetBlobIndexAnomalies : Go Client (list BlobIndexAnomaly) :=
  wrapf "db: get blob_index anomalies"
    (db_query (λ t, mapM_out (λ a, n ← scan_uint64 (ia_Epoch a);
        Ok (mkBlobIndexAnomaly n (ia_Rows a) (ia_DistinctIdx a) (ia_MaxIdx a)))
      (filter (λ a, ia_Rows a ≠ ia_DistinctIdx a ∨ ia_MaxIdx a + 1 ≠ ia_DistinctIdx a)
        (index_anomaly <$> grouped_by_epoch
          (filter (λ b, bl_network (snd b) = network) (map_range (ipld_blobs t))))))).
End Reads.

(** ** Facts *)

(** Running with no fault ahead. *)
Definition healthy (t : tables) : Client := mkClient t [].

Lemma db_query_healthy {A} (f : tables → outcome A) t : db_query f (healthy t) = (f t, healthy t).
Proof. done. Qed.

Lemma mapM_out_ok {A B} (f : A → outcome B) (g : A → B) l :
  (∀ x, x ∈ l → f x = Ok (g x)) → mapM_out f l = Ok (g <$> l).
Proof.
  induction l as [|x l IH]; intros Hf; [done|]. simpl.
  rewrite (Hf x ltac:(left)). simpl. rewrite IH; [done|]. intros; apply Hf; by right.
Qed.

Lemma scan_uint64_ok z : 0 ≤ z → scan_uint64 z = Ok z.
Proof. intros Hz. unfold scan_uint64. zcases. Qed.

Lemma int8_ok z : is_i64 z → int8 z = Ok z.
Proof.
  intros [H1 H2]. unfold int8. apply Z.leb_le in H1. apply Z.ltb_lt in H2. by rewrite H1, H2.
Qed.

#[export] Instance ref_less_strict_weak : StrictWeak ref_less.
Proof. split; unfold sle, ref_less; [intros x y; zcases; by auto|intros x y z; zcases]. Qed.

(** *** SaveBlobs *)

Section SaveBlobsFacts.
Context {I : Ipld} {P : Postgres}.

(** The tables after a successful SaveBlobs. *)
Definition saved_blobs (network : string) (epoch : Z) (blobs : list BlobInput)
    (results : list BlobResult) (genesisTime secondsPerSlot : Z) (t : tables) : tables :=
  set_blobs (upsert_blobs (zip_with (stage_row network epoch genesisTime secondsPerSlot) blobs results))
    (set_epochs (ensure_epoch network (to_i64 epoch)) t).

Lemma distinct_stage_lookup rows c :
  match distinct_stage rows !! c with
  | Some r => (c, r) ∈ rows
  | None => c ∉ fst <$> rows
  end.
Proof.
  unfold distinct_stage. rewrite lookup_omap.
  destruct (group_by fst rows !! c) as [g|] eqn:Hg; simpl.
  - apply group_by_lookup in Hg as [-> Hin].
    destruct (bucket fst c rows) as [|x l] eqn:Hb.
    + apply list_elem_of_fmap in Hin as (r & -> & Hr).
      assert (r ∈ bucket fst (fst r) rows) as Hr' by (apply elem_of_bucket; done).
      rewrite Hb in Hr'. by apply not_elem_of_nil in Hr'.
    + pose proof (distinct_pick_elem x l) as Hp. rewrite <- Hb in Hp.
      apply elem_of_bucket in Hp as [<- Hp]. by destruct (distinct_pick x l).
  - intros Hin. assert (group_by fst rows !! c = Some (bucket fst c rows)) as Hc
      by (apply group_by_lookup; done). congruence.
Qed.

Lemma upsert_blobs_lookup rows m c :
  upsert_blobs rows m !! c =
  match distinct_stage rows !! c with
  | Some new => Some (match m !! c with Some old => merge_blob old new | None => new end)
  | None => m !! c
  end.
Proof.
  unfold upsert_blobs. rewrite lookup_union_with.
  by destruct (distinct_stage rows !! c), (m !! c).
Qed.

Lemma merge_blob_idem old new : merge_blob (merge_blob old new) new = merge_blob old new.
Proof. done. Qed.

Lemma merge_blob_same new : merge_blob new new = new.
Proof. by destruct new. Qed.

Lemma upsert_blobs_idem rows m : upsert_blobs rows (upsert_blobs rows m) = upsert_blobs rows m.
Proof.
  apply map_eq. intros c. rewrite !upsert_blobs_lookup.
  destruct (distinct_stage rows !! c) as [new|]; [|done].
  f_equal. destruct (m !! c); [apply merge_blob_idem|apply merge_blob_same].
Qed.

Lemma ensure_epoch_idem network e m :
  ensure_epoch network e (ensure_epoch network e m) = ensure_epoch network e m.
Proof.
  unfold ensure_epoch. destruct (m !! e) eqn:He; [by rewrite He|]. by rewrite lookup_insert_eq.
Qed.

Lemma saved_blobs_idem network epoch blobs results gt sps t :
  saved_blobs network epoch blobs results gt sps (saved_blobs network epoch blobs results gt sps t) =
  saved_blobs network epoch blobs results gt sps t.
Proof. 
  unfold saved_blobs, set_blobs, set_epochs. cbn [ipld_epochs ipld_blobs ipld_state].
  by rewrite upsert_blobs_idem, ensure_epoch_idem.
Qed.

(** With no fault and int4 indices, SaveBlobs does its work. *)
Lemma SaveBlobs_healthy network epoch blobs results gt sps t :
  length blobs = length results → blobs ≠ [] →
  Forall (λ b, - 2 ^ 31 ≤ bi_Index b < 2 ^ 31) blobs →
  SaveBlobs network epoch blobs results gt sps (healthy t) =
  (Ok tt, healthy (saved_blobs network epoch blobs results gt sps t)).
Proof.
  intros Hlen Hne Hidx. unfold SaveBlobs.
  rewrite (proj2 (Nat.eqb_eq _ _) Hlen). cbn [negb].
  assert (Nat.eqb (length blobs) 0 = false) as -> by by destruct blobs.
  unfold transaction, mbind, go_bind, wrapf, lift. cbn.
  assert (mapM_out (λ r, int4 (bl_blob_index (snd r))) (zip_with (stage_row network epoch gt sps)
    blobs results) = Ok (bl_blob_index ∘ snd <$> zip_with (stage_row network epoch gt sps) blobs results)) as ->; [|done].
  apply mapM_out_ok. intros r Hr. apply elem_of_lookup_zip_with in Hr as (i & b & res & -> & Hb & _).
  simpl. rewrite Forall_forall in Hidx. apply list_elem_of_lookup_2, Hidx in Hb as [H1 H2].
  unfold int4. apply Z.leb_le in H1. apply Z.ltb_lt in H2. by rewrite H1, H2.
Qed.
End SaveBlobsFacts.

(** *** Effects of the statements on the tables *)

(** [m] changes the tables by [f] when it succeeds, may fail, never panics. *)
Definition does {A} (m : Go Client A) (f : tables → tables) : Prop := ∀ c,
  match m c with
  | (Ok _, c') => c_tables c' = f (c_tables c)
  | (Err _, _) => True
  | (Panic _, _) => False
  end.

(** The same, and a failure leaves the tables alone. *)
Definition atomically {A} (m : Go Client A) (f : tables → tables) : Prop := ∀ c,
  match m c with
  | (Ok _, c') => c_tables c' = f (c_tables c)
  | (Err _, c') => c_tables c' = c_tables c
  | (Panic _, _) => False
  end.

Section Effects.
Lemma does_bind {A B} (m : Go Client A) (k : A → Go Client B) f g :
  does m f → (∀ a, does (k a) g) → does (m ≫= k) (λ t, g (f t)).
Proof.
  intros Hm Hk c. specialize (Hm c). unfold mbind, go_bind.
  destruct (m c) as [[a|e|p] c']; [|done|done]. specialize (Hk a c'). rewrite <- Hm. done.
Qed.

Lemma atomically_does {A} (m : Go Client A) f : atomically m f → does m f.
Proof. intros Hm c. specialize (Hm c). destruct (m c) as [[]]; done. Qed.

Lemma does_wrapf {A} ctx (m : Go Client A) f : does m f → does (wrapf ctx m) f.
Proof. intros Hm c. specialize (Hm c). unfold wrapf. by destruct (m c) as [[]]. Qed.

Lemma atomically_wrapf {A} ctx (m : Go Client A) f : atomically m f → atomically (wrapf ctx m) f.
Proof. intros Hm c. specialize (Hm c). unfold wrapf. by destruct (m c) as [[]]. Qed.

Lemma atomically_call : atomically db_call id.
Proof. intros [t fs]. by destruct fs as [|[e|] fs]. Qed.

Lemma atomically_exec f : atomically (db_exec f) f.
Proof. intros [t fs]. by destruct fs as [|[e|] fs]. Qed.

Lemma atomically_query {A} (f : tables → outcome A) :
  (∀ t p, f t ≠ Panic p) → atomically (db_query f) id.
Proof.
  intros Hf [t fs]. specialize (Hf t). unfold db_query, gets_out, mbind, go_bind, db_call.
  destruct fs as [|[e|] fs]; cbn; try done; destruct (f t) as [| |p]; try done; by destruct (Hf p).
Qed.

(** An encoding check before the statement. *)
Lemma atomically_check {A B} (o : outcome A) (k : A → Go Client B) f :
  (∀ p, o ≠ Panic p) → (∀ a, atomically (k a) f) → atomically (lift o ≫= k) f.
Proof.
  intros Ho Hk c. unfold mbind, go_bind, lift. destruct o as [a|e|p]; [apply Hk|done|by destruct (Ho p)].
Qed.

Lemma int8_no_panic z p : int8 z ≠ Panic p.
Proof. unfold int8. by destruct (_ && _). Qed.
Lemma int4_no_panic z p : int4 z ≠ Panic p.
Proof. unfold int4. by destruct (_ && _). Qed.
Lemma scan_no_panic z p : scan_uint64 z ≠ Panic p.
Proof. unfold scan_uint64. by destruct (_ <=? _). Qed.

Lemma mapM_out_no_panic {A B} (f : A → outcome B) l p :
  (∀ x q, f x ≠ Panic q) → mapM_out f l ≠ Panic p.
Proof.
  intros Hf. induction l as [|x l IH]; simpl; [done|].
  destruct (f x) as [y|e|q] eqn:Hx; simpl; [|done|by destruct (Hf x q)].
  destruct (mapM_out f l); simpl; congruence.
Qed.

Lemma atomically_transaction {A} (m : Go Client A) f : does m f → atomically (transaction m) f.
Proof.
  intros Hm c. specialize (Hm c). unfold transaction. by destruct (m c) as [[]].
Qed.
End Effects.

#[export] Hint Resolve atomically_wrapf atomically_call atomically_exec atomically_check
  atomically_does does_wrapf int8_no_panic int4_no_panic scan_no_panic mapM_out_no_panic : go.

Section WriteEffects.
Context {I : Ipld} {P : Postgres}.

Lemma SaveEpoch_atomically network result n time :
  atomically (SaveEpoch network result n time) (set_epochs (upsert_epoch network result n time)).
Proof. unfold SaveEpoch. eauto 10 with go. Qed.

Lemma SetLastProcessedEpoch_atomically network e :
  atomically (SetLastProcessedEpoch network e) (set_state (insert (live_key network) e)).
Proof. unfold SetLastProcessedEpoch. eauto 10 with go. Qed.

Lemma SetBackfillCursor_atomically network e :
  atomically (SetBackfillCursor network e) (set_state (insert (backfill_key network) e)).
Proof. unfold SetBackfillCursor. eauto 10 with go. Qed.

Lemma SaveBlobs_atomically network epoch blobs results gt sps :
  atomically (SaveBlobs network epoch blobs results gt sps)
    (if decide (blobs = []) then id else saved_blobs network epoch blobs results gt sps).
Proof.
  unfold SaveBlobs. destruct (negb _); [by intros c|].
  destruct blobs as [|b blobs]; [by intros c|]. set (bs := b :: blobs).
  rewrite decide_False by done. cbn [Nat.eqb length bs]. apply atomically_transaction.
  unfold saved_blobs.
  eapply (does_bind _ _ id (λ t, set_blobs _ (set_epochs _ t))); [eauto with go|intros _].
  eapply (does_bind _ _ _ (λ t, set_blobs _ t)); [eauto with go|intros _].
  eapply (does_bind _ _ id (λ t, set_blobs _ t)); [eauto with go|intros _].
  eapply (does_bind _ _ id (λ t, set_blobs _ t)); [eauto 10 with go|intros _].
  eapply (does_bind _ _ _ id); [eauto with go|intros _]. eauto with go.
Qed.

Lemma upsert_epoch_lookup network result n time m e :
  upsert_epoch network result n time m !! e =
  if decide (e = er_Epoch result) then
    Some (mkEpochRow (from_option ep_network network (m !! e))
            (from_option ep_slot (u64_mul e 32) (m !! e))
            (nullTime time) (cid_String (er_CID result)) (er_CARPath result) n
            (er_ApproximateSizeBytes result))
  else m !! e.
Proof.
  unfold upsert_epoch. destruct (m !! er_Epoch result) eqn:Hm; case_decide; subst;
    rewrite ?Hm, ?lookup_insert_eq, ?lookup_insert_ne by done; done.
Qed.

Lemma upsert_epoch_idem network result n time m :
  upsert_epoch network result n time (upsert_epoch network result n time m) =
  upsert_epoch network result n time m.
Proof.
  apply map_eq. intros e. rewrite !upsert_epoch_lookup. by case_decide.
Qed.
End WriteEffects.

(** *** Gaps *)

Definition in_gap (n : Z) (g : GapRange) : Prop := gap_Start g ≤ n ≤ gap_End g.

(** How many epochs the ranges cover. *)
Definition gaps_total (gs : list GapRange) : Z := sum_Z ((λ g, gap_End g - gap_Start g + 1) <$> gs).

Lemma lead_gaps_cons e e' es :
  lead_gaps (e :: e' :: es) =
  (if e + 1 <? e' then [mkGapRange (e + 1) (e' - 1)] else []) ++ lead_gaps (e' :: es).
Proof. simpl. by destruct (e + 1 <? e'). Qed.

(** The ranges cover exactly the absent numbers between two present ones. *)
Lemma lead_gaps_exact es n :
  StronglySorted Z.lt es →
  Exists (in_gap n) (lead_gaps es) ↔ (∃ a b, a ∈ es ∧ b ∈ es ∧ a < n < b) ∧ n ∉ es.
Proof.
  intros Hs. induction Hs as [|e es Hs IH He].
  { rewrite Exists_nil. split; [done|]. intros [(a & _ & []%not_elem_of_nil & _) _]. }
  destruct es as [|e' es].
  { simpl. rewrite Exists_nil. split; [done|]. intros [(a & b & Ha & Hb & ?) _].
    apply list_elem_of_singleton in Ha, Hb. lia. }
  rewrite lead_gaps_cons, Exists_app, IH. clear IH.
  assert (∀ x, x ∈ e' :: es → e < x ∧ e' ≤ x) as Hmin.
  { intros x Hx. rewrite Forall_forall in He. split; [by apply He|].
    apply StronglySorted_inv in Hs as [_ Hs]. rewrite Forall_forall in Hs.
    apply elem_of_cons in Hx as [->|Hx]; [lia|]. specialize (Hs x Hx). lia. }
  pose proof (Hmin e' ltac:(left)) as [Hee' _].
  assert (Exists (in_gap n) (if e + 1 <? e' then [mkGapRange (e + 1) (e' - 1)] else []) ↔ e < n < e') as ->.
  { destruct (Z.ltb_spec (e + 1) e'); rewrite ?Exists_cons, ?Exists_nil; unfold in_gap; simpl; lia. }
  rewrite (not_elem_of_cons (e' :: es) n e). split.
  - intros [Hn|[(a & b & Ha & Hb & Hab) Hn]].
    + split; [exists e, e'; split_and!; [left|by right; left|lia|lia]|].
      split; [lia|]. intros Hin%Hmin. lia.
    + split; [exists a, b; split_and!; [by right|by right|lia|lia]|].
      split; [|done]. apply Hmin in Ha. lia.
  - intros [(a & b & Ha & Hb & Hab) [Hne Hn]].
    assert (e < n) by (apply elem_of_cons in Ha as [->|Ha%Hmin]; lia).
    assert (n ≠ e') by (intros ->; apply Hn; left).
    destruct (decide (n < e')); [left; lia|right]. split; [|done].
    exists e', b. apply elem_of_cons in Hb as [->|Hb]; [lia|].
    split_and!; [left|done|lia|lia].
Qed.

Lemma lead_gaps_nonneg es g :
  Forall (λ e, 0 ≤ e) es → g ∈ lead_gaps es → 0 ≤ gap_Start g ≤ gap_End g.
Proof.
  induction es as [|e es IH]; [by intros _ ?%not_elem_of_nil|]. intros [H0 Hes]%Forall_cons.
  destruct es as [|e' es]; [by intros ?%not_elem_of_nil|]. rewrite lead_gaps_cons, elem_of_app.
  intros [Hg|Hg]; [|by apply IH]. destruct (Z.ltb_spec (e + 1) e'); [|by apply not_elem_of_nil in Hg].
  apply list_elem_of_singleton in Hg as ->. simpl. lia.
Qed.

Lemma max_Z_cons x l : max_Z (x :: l) = Some (match max_Z l with None => x | Some m => Z.max x m end).
Proof. done. Qed.

(** They account for every number missing between the first and the last. *)
Lemma lead_gaps_total es :
  StronglySorted Z.lt es →
  gaps_total (lead_gaps es) =
  match max_Z es, min_Z es with Some mx, Some mn => mx - mn + 1 | _, _ => 0 end - Z.of_nat (length es).
Proof.
  assert (∀ e es, StronglySorted Z.lt (e :: es) → ∃ m, max_Z (e :: es) = Some m ∧ e ≤ m ∧
    min_Z (e :: es) = Some e ∧
    gaps_total (lead_gaps (e :: es)) = m - e + 1 - Z.of_nat (length (e :: es))) as Hm.
  { intros e l. revert e. induction l as [|e' l IH]; intros e Hs.
    { exists e. split_and!; [done|lia|done|unfold gaps_total; simpl; lia]. }
    apply StronglySorted_inv in Hs as [Hs He]. apply Forall_inv in He as Hlt.
    destruct (IH e' Hs) as (m & Hmx & Hle & Hmn & Ht).
    exists m. rewrite max_Z_cons, Hmx. split_and!; [f_equal; lia|lia| |].
    - change (min_Z (e :: e' :: l)) with
        (Some (match min_Z (e' :: l) with None => e | Some m => Z.min e m end)).
      rewrite Hmn. f_equal. lia.
    - rewrite lead_gaps_cons. unfold gaps_total in *. rewrite fmap_app.
      assert (∀ a b, sum_Z (a ++ b) = sum_Z a + sum_Z b) as ->.
      { intros a b. unfold sum_Z. induction a; simpl in *; lia. }
      rewrite Ht. cbn [length]. destruct (Z.ltb_spec (e + 1) e'); simpl; lia. }
  intros Hs. destruct es as [|e es]; [done|].
  destruct (Hm e es Hs) as (m & -> & _ & -> & ->). done.
Qed.

Section OrderedFacts.
Context {R : GoRuntime} (network : string).

Lemma epochs_ordered_perm t : epochs_ordered network t ≡ₚ map_to_list (network_rows network t).
Proof. unfold epochs_ordered. by rewrite sort_Slice_perm, map_range_perm. Qed.

Lemma epochs_ordered_lt t : StronglySorted Z.lt (fst <$> epochs_ordered network t).
Proof.
  apply sorted_NoDup_lt; [apply sort_by_key_sorted, _|].
  rewrite epochs_ordered_perm. apply NoDup_fst_map_to_list.
Qed.

Lemma elem_of_epochs_ordered t e r :
  (e, r) ∈ epochs_ordered network t ↔ ipld_epochs t !! e = Some r ∧ ep_network r = network.
Proof.
  rewrite epochs_ordered_perm, elem_of_map_to_list. unfold network_rows.
  by rewrite map_lookup_filter_Some.
Qed.

Lemma elem_of_joined t e net c b :
  (c, b) ∈ joined_blobs e net t ↔ ipld_blobs t !! c = Some b ∧ bl_epoch b = e ∧ bl_network b = net.
Proof.
  unfold joined_blobs. rewrite list_elem_of_filter, map_range_perm, elem_of_map_to_list. naive_solver.
Qed.
End OrderedFacts.

(** ** Reachable databases *)

Inductive db_op :=
  | OpSaveEpoch (result : EpochResult) (blobCount epochTime : Z)
  | OpSaveBlobs (epoch : Z) (blobs : list BlobInput) (results : list BlobResult)
      (genesisTime secondsPerSlot : Z)
  | OpSetLive (epoch : Z)
  | OpSetBackfill (epoch : Z).

Section Reachable.
Context {I : Ipld} {P : Postgres} {R : GoRuntime} (network : string).

Definition run_op (op : db_op) : Go Client unit :=
  match op with
  | OpSaveEpoch r n t => SaveEpoch network r n t
  | OpSaveBlobs e bs rs gt sps => SaveBlobs network e bs rs gt sps
  | OpSetLive e => SetLastProcessedEpoch network e
  | OpSetBackfill e => SetBackfillCursor network e
  end.

(** One operation of a deployment for [network], failing or not. *)
Inductive db_step : Client → Client → Prop :=
  | db_step_op op c o c' : run_op op c = (o, c') → db_step c c'.

Definition db_reachable (c : Client) : Prop :=
  ∃ fs, rtc db_step (mkClient tables_empty fs) c.

Record consistent (t : tables) : Prop := {
  cons_network : ∀ e r, ipld_epochs t !! e = Some r → ep_network r = network;
  cons_blobs : ∀ c b, ipld_blobs t !! c = Some b →
    bl_network b = network ∧ is_Some (ipld_epochs t !! bl_epoch b) }.

Lemma consistent_SaveEpoch t r n time :
  consistent t → consistent (set_epochs (upsert_epoch network r n time) t).
Proof.
  intros [H1 H2]. split; cbn.
  - intros e row. rewrite upsert_epoch_lookup. case_decide; [|apply H1]. intros [= <-]. cbn.
    destruct (ipld_epochs t !! e) eqn:He; [by eapply H1|done].
  - intros c b Hb. destruct (H2 c b Hb) as [? ?]. split; [done|].
    rewrite upsert_epoch_lookup. case_decide; [done|done].
Qed.

Lemma consistent_SaveBlobs t e bs rs gt sps :
  consistent t → consistent (saved_blobs network e bs rs gt sps t).
Proof.
  intros [H1 H2]. split; cbn.
  - intros e' row. unfold ensure_epoch. destruct (ipld_epochs t !! to_i64 e) eqn:He; [apply H1|].
    destruct (decide (to_i64 e = e')) as [<-|]; [rewrite lookup_insert_eq; by intros [= <-]|].
    rewrite lookup_insert_ne by done. apply H1.
  - assert (∀ k, is_Some (ipld_epochs t !! k) → is_Some (ensure_epoch network (to_i64 e) (ipld_epochs t) !! k)) as Hmono.
    { intros k Hk. unfold ensure_epoch. destruct (ipld_epochs t !! to_i64 e) eqn:He; [done|].
      by apply lookup_insert_is_Some'; right. }
    assert (is_Some (ensure_epoch network (to_i64 e) (ipld_epochs t) !! to_i64 e)) as Hself.
    { unfold ensure_epoch. destruct (ipld_epochs t !! to_i64 e) eqn:He; [by rewrite He|].
      by rewrite lookup_insert_eq. }
    intros c b. rewrite upsert_blobs_lookup.
    pose proof (distinct_stage_lookup (zip_with (stage_row network e gt sps) bs rs) c) as Hd.
    destruct (distinct_stage _ !! c) as [new|].
    + apply elem_of_lookup_zip_with in Hd as (i & inp & res & [= -> ->] & _).
      destruct (ipld_blobs t !! _) as [old|] eqn:Ho; intros [= <-]; cbn; [|done].
      destruct (H2 _ _ Ho). auto.
    + intros Hb. destruct (H2 _ _ Hb). auto.
Qed.

Lemma db_reachable_consistent c : db_reachable c → consistent (c_tables c).
Proof.
  intros [fs Hr]. remember (mkClient tables_empty fs) as c0 eqn:Hc0.
  assert (consistent (c_tables c0)) as H0 by by subst; split.
  clear Hc0. induction Hr as [|c1 c2 c3 [op c o c' Hop] _ IH]; [done|]. apply IH. clear IH.
  assert (∃ f, atomically (run_op op) f ∧ (∀ t, consistent t → consistent (f t))) as (f & Hf & Hc).
  { destruct op; cbn.
    - eexists. split; [apply SaveEpoch_atomically|]. intros; by apply consistent_SaveEpoch.
    - eexists. split; [apply SaveBlobs_atomically|]. intros t Ht.
      destruct (decide _); [done|by apply consistent_SaveBlobs].
    - eexists. split; [apply SetLastProcessedEpoch_atomically|]. intros t [? ?]. by split.
    - eexists. split; [apply SetBackfillCursor_atomically|]. intros t [? ?]. by split. }
  specialize (Hf c). rewrite Hop in Hf. destruct o; [rewrite Hf; by apply Hc|by rewrite Hf|done].
Qed.
End Reachable.

(** ** Properties *)

Section DbProperties.
Context {I : Ipld} {P : Postgres} {R : GoRuntime} (network : string).


(** The foreign-key checks of the health command raise no false alarm: in
    every database reached from an empty one by the client's operations for
    one network, under any faults, GetOrphanBlobs and GetNetworkMismatches
    report nothing. *)
Theorem health_no_orphans c :
  db_reachable network c →
  GetOrphanBlobs network (healthy (c_tables c)) = (Ok [], healthy (c_tables c)) ∧
  GetNetworkMismatches network (healthy (c_tables c)) = (Ok [], healthy (c_tables c)).
Proof.
  intros [H1 H2]%db_reachable_consistent. set (t := c_tables c) in *.
  assert (grouped_by_epoch [] = []) as Hg.
  { unfold grouped_by_epoch. apply Permutation_nil_r. by rewrite sort_Slice_perm, map_range_perm. }
  assert (∀ (Q : string * blob_row → Prop) `{!∀ b, Decision (Q b)},
    (∀ k b, ipld_blobs t !! k = Some b → ¬ Q (k, b)) → filter Q (map_range (ipld_blobs t)) = []) as Hf.
  { intros Q ? HQ. apply elem_of_nil_inv. intros [k b] [Hq Hin]%list_elem_of_filter.
    rewrite map_range_perm, elem_of_map_to_list in Hin. by eapply HQ. }
  unfold GetOrphanBlobs, GetNetworkMismatches, wrapf. rewrite !db_query_healthy.
  rewrite !Hf, Hg; [done| |]; intros k b Hb [Hq1 Hq2]; destruct (H2 k b Hb) as [? [r Hr]].
  - done.
  - apply Hq2. unfold epoch_network. cbn. rewrite Hr. cbn. f_equal. by eapply H1.
Qed.

Lemma min_Z_nonneg l : Forall (λ e, 0 ≤ e) l → 0 ≤ default 0 (min_Z l).
Proof. induction 1 as [|x l Hx _ IH]; simpl; [done|]. destruct (min_Z l); simpl in *; lia. Qed.

Lemma max_Z_nonneg l : Forall (λ e, 0 ≤ e) l → 0 ≤ default 0 (max_Z l).
Proof. induction 1 as [|x l Hx _ IH]; simpl; [done|]. destruct (max_Z l); simpl in *; lia. Qed.

Lemma from_option_head_nonneg (l : list (Z * epoch_row)) :
  Forall (λ e, 0 ≤ fst e) l → 0 ≤ from_option fst 0 (head l).
Proof. by destruct 1. Qed.

Lemma epochs_by_count_nonneg t :
  (∀ e r, ipld_epochs t !! e = Some r → 0 ≤ e) → Forall (λ e, 0 ≤ fst e) (epochs_by_count network t).
Proof.
  intros He. unfold epochs_by_count. rewrite sort_Slice_perm, map_range_perm.
  apply Forall_forall. intros [e r]. rewrite elem_of_map_to_list. unfold network_rows.
  rewrite map_lookup_filter_Some. intros [Hr _]. by eapply He.
Qed.

(** Gap detection is exact: the ranges cover exactly the epochs without a
    row that lie between two saved epochs, and together as many as the
    expected count of the summary exceeds the saved count. *)
Theorem GetEpochGapRanges_exact t :
  (∀ e r, ipld_epochs t !! e = Some r → 0 ≤ e) → (∀ k v, ipld_state t !! k = Some v → 0 ≤ v) →
  ∃ gaps stats,
    GetEpochGapRanges network (healthy t) = (Ok gaps, healthy t) ∧
    GetSummaryStats network (healthy t) = (Ok stats, healthy t) ∧
    (∀ n, Exists (in_gap n) gaps ↔
      (∃ a b, a < n < b ∧ is_Some (network_rows network t !! a) ∧ is_Some (network_rows network t !! b))
      ∧ network_rows network t !! n = None) ∧
    gaps_total gaps = ss_ExpectedEpochCount stats - ss_EpochCount stats.
Proof.
  intros He Hv.
  assert (∀ e, e ∈ fst <$> epochs_ordered network t ↔ is_Some (network_rows network t !! e)) as Hin.
  { intros e. rewrite epochs_ordered_perm, list_elem_of_fmap. split.
    - intros ([e' r] & -> & Hr%elem_of_map_to_list). eauto.
    - intros [r Hr]. exists (e, r). by rewrite elem_of_map_to_list. }
  assert (Forall (λ e, 0 ≤ e) (fst <$> epochs_ordered network t)) as H0.
  { apply Forall_forall. intros e ([e' r] & -> & [Hr _]%elem_of_epochs_ordered)%list_elem_of_fmap.
    by eapply He. }
  pose proof (epochs_ordered_lt network t) as Hs.
  eexists (lead_gaps (fst <$> epochs_ordered network t)), _. split_and!.
  - unfold GetEpochGapRanges, wrapf. rewrite db_query_healthy, (mapM_out_ok _ id), list_fmap_id; [done|].
    intros g Hg. pose proof (lead_gaps_nonneg _ g H0 Hg).
    rewrite !scan_uint64_ok by lia. by destruct g.
  - unfold GetSummaryStats, mbind, go_bind, wrapf, outcome_bind. rewrite db_query_healthy.
    rewrite !scan_uint64_ok; [cbn|by apply from_option_head_nonneg, epochs_by_count_nonneg
      |by apply max_Z_nonneg|by apply min_Z_nonneg].
    rewrite db_query_healthy, !scan_uint64_ok; [done|..];
      (destruct (ipld_state t !! _) eqn:Hk; [by eapply Hv|done]).
  - intros n. rewrite lead_gaps_exact, Hin, <- eq_None_not_Some by done.
    setoid_rewrite Hin. naive_solver.
  - cbn. rewrite lead_gaps_total, length_fmap by done. done.
Qed.

(** No blob row of [t] is about the epoch [e] or one of the commitments [cs]. *)
Definition fresh (e : Z) (cs : list string) (t : tables) : Prop :=
  ∀ c b, ipld_blobs t !! c = Some b → bl_epoch b ≠ e ∧ c ∉ cs.

Lemma stage_rows_keys e gt sps blobs results :
  length blobs = length results →
  fst <$> zip_with (stage_row network e gt sps) blobs results = bi_Commitment <$> blobs.
Proof.
  revert results. induction blobs as [|b blobs IH]; intros [|r results] Hl; simpl in *; try done.
  f_equal. apply IH. lia.
Qed.

Lemma to_i64_epoch e : 0 ≤ e < two63 → to_i64 e = e.
Proof. intros He. apply to_i64_id. unfold is_i64, two63 in *. lia. Qed.

(** After saving a fresh epoch, its joined rows are the distinct staged ones. *)
Lemma joined_saved e blobs results gt sps t c b :
  0 ≤ e < two63 → length blobs = length results → fresh e (bi_Commitment <$> blobs) t →
  (c, b) ∈ joined_blobs e network (saved_blobs network e blobs results gt sps t) ↔
  distinct_stage (zip_with (stage_row network e gt sps) blobs results) !! c = Some b.
Proof.
  intros He Hl Hf. rewrite elem_of_joined. cbn. rewrite upsert_blobs_lookup.
  pose proof (distinct_stage_lookup (zip_with (stage_row network e gt sps) blobs results) c) as Hd.
  destruct (distinct_stage _ !! c) as [new|].
  - destruct (ipld_blobs t !! c) as [old|] eqn:Ho.
    + destruct (Hf c old Ho) as [_ Hn]. destruct Hn.
      rewrite <- (stage_rows_keys e gt sps blobs results) by done.
      apply list_elem_of_fmap. by exists (c, new).
    + apply elem_of_lookup_zip_with in Hd as (i & inp & res & [= -> ->] & _).
      rewrite to_i64_epoch by done. naive_solver.
  - split; [|done]. intros (Hb & Hbe & _). by destruct (Hf c b Hb).
Qed.

Lemma joined_saved_length e blobs results gt sps t :
  0 ≤ e < two63 → length blobs = length results → fresh e (bi_Commitment <$> blobs) t →
  length (joined_blobs e network (saved_blobs network e blobs results gt sps t)) =
  length (remove_dups (bi_Commitment <$> blobs)).
Proof.
  intros He Hl Hf. rewrite <- (length_fmap fst). apply Permutation_length, NoDup_Permutation.
  - unfold joined_blobs. apply NoDup_fmap_filter. rewrite map_range_perm. apply NoDup_fst_map_to_list.
  - apply NoDup_remove_dups.
  - intros c. rewrite elem_of_remove_dups, <- (stage_rows_keys e gt sps blobs results) by done.
    pose proof (distinct_stage_lookup (zip_with (stage_row network e gt sps) blobs results) c) as Hd.
    rewrite list_elem_of_fmap. split.
    + intros ([c' b] & -> & Hb%joined_saved); [|done..]. cbn in *. rewrite Hb in Hd.
      apply list_elem_of_fmap. by exists (c', b).
    + intros Hc. destruct (distinct_stage _ !! c) as [b|] eqn:Hb; [|done].
      exists (c, b). split; [done|]. by apply joined_saved.
Qed.

(** With distinct commitments, they are the staged ones. *)
Lemma joined_saved_perm e blobs results gt sps t :
  0 ≤ e < two63 → length blobs = length results → fresh e (bi_Commitment <$> blobs) t →
  NoDup (bi_Commitment <$> blobs) →
  joined_blobs e network (saved_blobs network e blobs results gt sps t) ≡ₚ
  zip_with (stage_row network e gt sps) blobs results.
Proof.
  intros He Hl Hf Hnd. rewrite <- (stage_rows_keys e gt sps blobs results) in Hnd by done.
  apply NoDup_Permutation.
  - apply (NoDup_fmap_1 fst). unfold joined_blobs. apply NoDup_fmap_filter.
    rewrite map_range_perm. apply NoDup_fst_map_to_list.
  - by apply (NoDup_fmap_1 fst).
  - intros [c b]. rewrite joined_saved by done.
    pose proof (distinct_stage_lookup (zip_with (stage_row network e gt sps) blobs results) c) as Hd.
    split; [by intros Hs; rewrite Hs in Hd|]. intros Hin.
    destruct (distinct_stage _ !! c) as [b'|].
    + f_equal. by injection (NoDup_fmap_inj fst _ _ _ Hnd Hd Hin eq_refl).
    + destruct Hd. apply list_elem_of_fmap. by exists (c, b).
Qed.

Lemma remove_dups_length (l : list string) : length (remove_dups l) = length l ↔ NoDup l.
Proof.
  split; [|intros Hnd; by apply Permutation_length, NoDup_Permutation;
    [apply NoDup_remove_dups|done|intros; apply elem_of_remove_dups]].
  intros Hl. assert (remove_dups l ≡ₚ l) as <-; [|apply NoDup_remove_dups].
  apply submseteq_length_Permutation; [|lia].
  apply NoDup_submseteq; [apply NoDup_remove_dups|]. intros x. by rewrite elem_of_remove_dups.
Qed.

Lemma SaveEpoch_healthy er n time t :
  0 ≤ er_Epoch er < 2 ^ 58 → 0 ≤ n < 2 ^ 31 →
  SaveEpoch network er n time (healthy t) =
  (Ok tt, healthy (set_epochs (upsert_epoch network er n time) t)).
Proof.
  intros He Hn. unfold SaveEpoch, mbind, go_bind, wrapf, lift.
  rewrite int8_ok by (unfold is_i64, two63; lia).
  rewrite int8_ok by (unfold u64_mul; rewrite wrap64_id; unfold is_i64, is_u64, two63, two64; lia).
  unfold int4. rewrite (proj2 (Z.leb_le _ _)), (proj2 (Z.ltb_lt _ _)) by lia. done.
Qed.

(** The blob_count check on a newly persisted epoch (SaveEpoch with the
    number of results, then SaveBlobs, on a database with no blob of the
    epoch and none of its commitments): the epoch is reported as a mismatch
    exactly when two of its blobs share a commitment, since ipld_blobs keeps
    one row per commitment while blob_count counts occurrences. *)
Theorem blob_count_mismatch_iff_repeated e blobs results er time gt sps t :
  0 ≤ e < 2 ^ 58 → er_Epoch er = e → length blobs = length results →
  Z.of_nat (length blobs) < 2 ^ 31 → blobs ≠ [] →
  Forall (λ b, - 2 ^ 31 ≤ bi_Index b < 2 ^ 31) blobs →
  (∀ e' r, ipld_epochs t !! e' = Some r → 0 ≤ e' ∧ (e' = e → ep_network r = network)) →
  fresh e (bi_Commitment <$> blobs) t →
  ∃ c1 c2 ms,
    SaveEpoch network er (Z.of_nat (length results)) time (healthy t) = (Ok tt, c1) ∧
    SaveBlobs network e blobs results gt sps c1 = (Ok tt, c2) ∧
    GetBlobCountMismatches network c2 = (Ok ms, c2) ∧
    (e ∈ cm_Epoch <$> ms ↔ ¬ NoDup (bi_Commitment <$> blobs)).
Proof.
  intros He Her Hlen Hsmall Hne Hidx Hrows Hfresh.
  set (t1 := set_epochs (upsert_epoch network er (Z.of_nat (length results)) time) t).
  set (t2 := saved_blobs network e blobs results gt sps t1).
  assert (ipld_epochs t2 = ipld_epochs t1) as Heq.
  { cbn. rewrite to_i64_epoch by (unfold two63; lia). unfold ensure_epoch.
    rewrite upsert_epoch_lookup, decide_True by done. done. }
  assert (∀ e' r, ipld_epochs t2 !! e' = Some r → 0 ≤ e') as Hnn.
  { intros e' r. rewrite Heq. cbn. rewrite upsert_epoch_lookup.
    case_decide; [lia|]. intros Hr. by apply (Hrows e' r). }
  eexists _, (healthy t2), _. split_and!.
  - apply SaveEpoch_healthy; lia.
  - by apply SaveBlobs_healthy.
  - unfold GetBlobCountMismatches, wrapf. rewrite db_query_healthy, (mapM_out_ok _ id), list_fmap_id; [done|].
    intros m [_ ([e' r] & -> & [Hr _]%elem_of_epochs_ordered)%list_elem_of_fmap]%list_elem_of_filter.
    unfold scan_mismatch. cbn. rewrite scan_uint64_ok by by eapply Hnn. done.
  - rewrite <- remove_dups_length, length_fmap,
      <- (joined_saved_length e blobs results gt sps t1) by (done || unfold two63; lia).
    fold t2. rewrite list_elem_of_fmap. split.
    + intros (m & Hm & [Hms ([e' r] & -> & [Hr Hnet]%elem_of_epochs_ordered)%list_elem_of_fmap]%list_elem_of_filter).
      cbn [cm_Epoch cm_Stored cm_Actual fst snd] in Hm, Hms. subst e'. rewrite Hnet in Hms.
      rewrite Heq in Hr. cbn in Hr. rewrite upsert_epoch_lookup, decide_True in Hr by done.
      injection Hr as <-. cbn [ep_blob_count] in Hms. lia.
    + intros Hn. eexists (mkEpochCountMismatch e (Z.of_nat (length results))
        (Z.of_nat (length (joined_blobs e network t2)))). split; [done|].
      apply list_elem_of_filter. split; [cbn; lia|]. apply list_elem_of_fmap.
      assert (ep_network <$> ipld_epochs t2 !! e = Some network ∧
              ep_blob_count <$> ipld_epochs t2 !! e = Some (Z.of_nat (length results))) as [H1 H2].
      { rewrite Heq. cbn. rewrite upsert_epoch_lookup, decide_True by done. cbn. split; [|done].
        destruct (ipld_epochs t !! e) as [r|] eqn:Hr; [|done]. cbn. f_equal. by apply (Hrows e r). }
      destruct (ipld_epochs t2 !! e) as [r|] eqn:Hr; [|done].
      injection H1 as H1. injection H2 as H2. exists (e, r).
      cbn [fst snd]. rewrite H1, H2. split; [done|]. by apply elem_of_epochs_ordered.
Qed.
End DbProperties.

(** ** The properties at concrete inputs *)

Definition demo_in (c : string) (slot index : Z) : BlobInput :=
  mkBlobInput c "0x01aa" "" 0 "0xb1" slot 10 index "data" 0.
Definition demo_res (c : string) : BlobResult := mkBlobResult c cid_Undef cid_Undef 4.
Definition demo_er : EpochResult := mkEpochResult 10 cid_Undef "" 8.

(** A two-block epoch with one blob, of index 0, in each block. *)
Definition demo_blobs : list BlobInput := [demo_in "0xc0" 320 0; demo_in "0xc1" 321 0].
Definition demo_tables : tables :=
  saved_blobs "mainnet" 10 demo_blobs [demo_res "0xc0"; demo_res "0xc1"] 0 12
    (set_epochs (upsert_epoch "mainnet" demo_er 2 0) tables_empty).

Lemma demo_reachable : db_reachable "mainnet" (healthy demo_tables).
Proof.
  exists []. eapply rtc_l; [|eapply rtc_l; [|apply rtc_refl]].
  - eapply (db_step_op "mainnet" (OpSaveEpoch demo_er 2 0)). apply SaveEpoch_healthy; done.
  - eapply (db_step_op "mainnet" (OpSaveBlobs 10 demo_blobs [demo_res "0xc0"; demo_res "0xc1"] 0 12)).
    apply SaveBlobs_healthy; [done|done|]. by repeat constructor.
Qed.

Lemma health_no_orphans_witness :
  GetOrphanBlobs "mainnet" (healthy demo_tables) = (Ok [], healthy demo_tables).
Proof. exact (proj1 (health_no_orphans "mainnet" (healthy demo_tables) demo_reachable)). Defined.

Definition demo_gapped : tables :=
  foldr (λ e, set_epochs (upsert_epoch "mainnet" (mkEpochResult e cid_Undef "" 0) 0 0)) tables_empty
    [3; 4; 9].

Lemma GetEpochGapRanges_exact_witness : ∃ gaps,
  GetEpochGapRanges "mainnet" (healthy demo_gapped) = (Ok gaps, healthy demo_gapped) ∧
  (Exists (in_gap 7) gaps ↔
    (∃ a b, a < 7 < b ∧ is_Some (network_rows "mainnet" demo_gapped !! a) ∧
            is_Some (network_rows "mainnet" demo_gapped !! b)) ∧
    network_rows "mainnet" demo_gapped !! 7 = None).
Proof.
  destruct (GetEpochGapRanges_exact "mainnet" demo_gapped) as (gaps & stats & Hg & _ & Hx & _).
  - intros e r. unfold demo_gapped. cbn. rewrite !upsert_epoch_lookup. cbn.
    repeat case_decide; subst; done.
  - done.
  - exists gaps. split; [exact Hg|exact (Hx 7)].
Defined.

(** Evaluated: the only gap of epochs 3, 4, 9 is [5, 8]. *)
Example demo_gaps_evaluated :
  fst (GetEpochGapRanges "mainnet" (healthy demo_gapped)) = Ok [mkGapRange 5 8].
Proof. vm_compute. reflexivity. Qed.

Lemma blob_count_mismatch_iff_repeated_witness : ∃ c1 c2 ms,
  SaveEpoch "mainnet" demo_er 2 0 (healthy tables_empty) = (Ok tt, c1) ∧
  SaveBlobs "mainnet" 10 [demo_in "0xc0" 320 0; demo_in "0xc0" 321 0]
    [demo_res "0xc0"; demo_res "0xc0"] 0 12 c1 = (Ok tt, c2) ∧
  GetBlobCountMismatches "mainnet" c2 = (Ok ms, c2) ∧ 10 ∈ cm_Epoch <$> ms.
Proof.
  destruct (blob_count_mismatch_iff_repeated "mainnet" 10 [demo_in "0xc0" 320 0; demo_in "0xc0" 321 0]
    [demo_res "0xc0"; demo_res "0xc0"] demo_er 0 0 12 tables_empty) as (c1 & c2 & ms & H1 & H2 & H3 & H4);
    [done|done|done|done|done|by repeat constructor|done|done|].
  exists c1, c2, ms. split; [exact H1|]. split; [exact H2|]. split; [exact H3|].
  apply H4. apply (bool_decide_unpack _). vm_compute. done.
Defined.

(** The blob_index check reads indices as unique within an epoch, while they
    are per block: an ordinary epoch of two blocks is reported. *)
Theorem two_block_epoch_flagged :
  fst (GetBlobIndexAnomalies "mainnet" (healthy demo_tables)) = Ok [mkBlobIndexAnomaly 10 2 1 0].
Proof. vm_compute. reflexivity. Qed.
