(* ===== verification/ExportRefs.v ===== *)
(** * ExportRefs: the export-blob-refs command of cmd/blobscan-ipld/main.go

    The writer of PostgreSQL's binary COPY format, encoding/csv's writer, and
    the command that writes the blob references of a range of epochs in one of
    the two. A file is the bytes written to it and the errors its next writes
    meet. *)

From S2P Require Import Prelude GoStd Types Ipld Db.

(** ** The file *)

Record sink := mkSink { sk_bytes : string; sk_faults : list (option error) }.

(** [w.Write]: nothing is appended by a write that fails. *)
Definition write (s : string) : Go sink unit := λ w,
  match sk_faults w with
  | Some e :: fs => (Err e, mkSink (sk_bytes w) fs)
  | None :: fs => (Ok tt, mkSink (sk_bytes w +:+ s) fs)
  | [] => (Ok tt, mkSink (sk_bytes w +:+ s) [])
  end.

(** ** pgBinaryCopyWriter *)

Definition byte_str (n : Z) : string := String (byte_of (n mod 256)) "".

(** [binary.BigEndian.PutUint16(uint16(n))] and PutUint32. *)
Definition be16 (n : Z) : string := byte_str (n / 256) +:+ byte_str n.
Definition be32 (n : Z) : string :=
  byte_str (n / 16777216) +:+ byte_str (n / 65536) +:+ byte_str (n / 256) +:+ byte_str n.

Definition pg_signature : string :=
  "PGCOPY" +:+ byte_str 10 +:+ byte_str 255 +:+ byte_str 13 +:+ byte_str 10 +:+ byte_str 0.

Definition newPGBinaryCopyWriter : Go sink unit := write (pg_signature +:+ be32 0 +:+ be32 0).

Definition write_field (f : string) : Go sink unit := _ ← write (be32 (str_len f)); write f.
Definition writeRow (fields : list string) : Go sink unit :=
  _ ← write (be16 (Z.of_nat (length fields)));
  for_each fields write_field.

Definition close : Go sink unit := write (byte_str 255 +:+ byte_str 255).

(** ** encoding/csv *)

Definition quote_char : ascii := byte_of 34.
Definition newline_char : ascii := byte_of 10.

(** [unicode.IsSpace] of the first rune, on its UTF-8 bytes. *)
Definition leading_space (s : string) : bool :=
  match byte_val <$> String.list_ascii_of_string s with
  | b1 :: rest =>
      bool_decide (b1 ∈ [9; 10; 11; 12; 13; 32]) ||
      match b1, rest with
      | 194, b2 :: _ => bool_decide (b2 ∈ [133; 160])
      | 225, b2 :: b3 :: _ => (b2 =? 154) && (b3 =? 128)
      | 226, b2 :: b3 :: _ =>
          (b2 =? 128) && ((128 <=? b3) && (b3 <=? 138) || bool_decide (b3 ∈ [168; 169; 175])) || (b2 =? 129) && (b3 =? 159)
      | 227, b2 :: b3 :: _ => (b2 =? 128) && (b3 =? 128)
      | _, _ => false
      end
  | [] => false
  end.

Fixpoint has_special (s : string) : bool :=
  match s with
  | "" => false
  | String a s' => bool_decide (a ∈ [newline_char; byte_of 13; quote_char; ","%char]) || has_special s'
  end.

Definition fieldNeedsQuotes (field : string) : bool :=
  if bool_decide (field = "") then false
  else if bool_decide (field = "\.") then true
  else has_special field || leading_space field.

Fixpoint escape_quotes (s : string) : string :=
  match s with
  | "" => ""
  | String a s' => if bool_decide (a = quote_char) then String a (String a (escape_quotes s')) else String a (escape_quotes s')
  end.

Definition csv_field (f : string) : string :=
  if fieldNeedsQuotes f then String quote_char (escape_quotes f +:+ String quote_char "") else f.

Definition csv_record (fields : list string) : string := Join (csv_field <$> fields) "," +:+ String newline_char "".

(** The writer is a bufio.Writer: the records reach the file in writes of 4096
    bytes, the last at Flush; the first that fails is the one Write or Error
    reports, and nothing is written after it. *)
Fixpoint chunks_from (fuel : nat) (s : string) : list string :=
  match fuel with
  | O => []
  | S fuel =>
      if bool_decide (s = "") then [] else str_take 4096 s :: chunks_from fuel (str_drop 4096 s)
  end.
Definition chunks (s : string) : list string := chunks_from (String.length s) s.

(** ** The command *)

Section Command.
Context {R : GoRuntime} {P : Postgres} (network : string).

Definition ref_fields (includeMeta : bool) (ref : BlobRef) : list string :=
  [ref_VersionedHash ref; "ipfs"; ref_DataCID ref] ++ (if includeMeta then [ref_MetaCID ref] else []).

Definition csv_header (includeMeta : bool) : list string :=
  ["blob_hash"; "storage"; "data_reference"] ++ (if includeMeta then ["meta_reference"] else []).

Definition write_refs (binary includeMeta : bool) (refs : list BlobRef) : Go sink unit :=
  if binary then
    _ ← newPGBinaryCopyWriter;
    _ ← for_each refs (λ ref, writeRow (ref_fields includeMeta ref));
    close
  else
    for_each (chunks (foldr String.app "" (csv_record <$> csv_header includeMeta :: (ref_fields includeMeta <$> refs)))) write.

(** What the command prints on standard error when it is done: how to import
    the file. *)
Definition import_cols (includeMeta : bool) : string :=
  if includeMeta then "blob_hash, storage, data_reference, meta_reference" else "blob_hash, storage, data_reference".

Definition import_file (binary : bool) (outPath : string) : string :=
  if bool_decide (outPath = "") then (if binary then "<file.bin>" else "<file.csv>") else outPath.

Definition copy_command (binary includeMeta : bool) (outPath target : string) : string :=
  "\copy " +:+ target +:+ "(" +:+ import_cols includeMeta +:+ ") FROM '" +:+ import_file binary outPath +:+
  "' WITH (" +:+ (if binary then "FORMAT binary" else "FORMAT csv, HEADER true") +:+ ")".

Definition import_instructions (binary includeMeta : bool) (outPath : string) : list string :=
  let q s := String quote_char (s +:+ String quote_char "") in
  let psql := "  psql " +:+ q "$BLOBSCAN_DATABASE_URL" in
  let cols := import_cols includeMeta in
  [""; "To import into blobscan, run:"; "";
   psql +:+ " -c " +:+ q (copy_command binary includeMeta outPath "blob_data_storage_reference"); "";
   "To upsert (update existing rows):"; "";
   psql +:+ " <<'SQL'";
   "  CREATE TEMP TABLE staging (LIKE blob_data_storage_reference INCLUDING ALL);";
   "  " +:+ copy_command binary includeMeta outPath "staging";
   "  INSERT INTO blob_data_storage_reference(" +:+ cols +:+ ")";
   "  SELECT " +:+ cols +:+ " FROM staging";
   "  ON CONFLICT (blob_hash, storage) DO UPDATE SET"] ++
  (if includeMeta then ["    data_reference = EXCLUDED.data_reference,"; "    meta_reference = EXCLUDED.meta_reference;"]
   else ["    data_reference = EXCLUDED.data_reference;"]) ++
  ["  SQL"].

(** The columns it names are those of the file. *)
Lemma import_cols_header includeMeta : import_cols includeMeta = Join (csv_header includeMeta) ", ".
Proof. by destruct includeMeta. Qed.

(** The command once it has a database: a missing [-to] is the newest epoch;
    [create] is what os.Create returns, or standard output; any error is logged
    and ends it with exit code 1, before the file is created if it is one of the
    queries. *)
Definition cmdExportBlobRefs (fromEpoch toEpoch : Z) (includeMeta binary : bool) (create : error + sink)
    : Go Db.Client (option sink * Z) :=
  q ← attempt (
    toEpoch ← (if toEpoch =? 0 then GetMaxEpoch network else mret toEpoch);
    GetBlobRefs network fromEpoch toEpoch);
  mret (match q, create with
        | inl _, _ | inr _, inl _ => (None, 1)
        | inr refs, inr out =>
            match write_refs binary includeMeta refs out with
            | (Ok _, out') => (Some out', 0)
            | (_, out') => (Some out', 1)
            end
        end).
End Command.

(** ** Reading the formats back *)

(** PostgreSQL's reader of the binary format, for text columns: a signature,
    flags and extension length, then rows of length-prefixed fields up to the
    trailer, after which nothing may follow. *)
Definition read16 (s : string) : option (Z * string) :=
  match s with
  | String a (String b r) => Some (byte_val a * 256 + byte_val b, r)
  | _ => None
  end.
Definition read32 (s : string) : option (Z * string) :=
  '(hi, s) ← read16 s; '(lo, s) ← read16 s; Some (hi * 65536 + lo, s).

Fixpoint read_fields (n : nat) (s : string) : option (list string * string) :=
  match n with
  | O => Some ([], s)
  | S n =>
      '(len, s) ← read32 s;
      if (2147483648 <=? len) || (str_len s <? len) then None
      else
        '(fs, r) ← read_fields n (str_drop (Z.to_nat len) s);
        Some (str_take (Z.to_nat len) s :: fs, r)
  end.

Fixpoint read_rows (fuel : nat) (s : string) : option (list (list string)) :=
  match fuel with
  | O => None
  | S fuel =>
      '(n, s) ← read16 s;
      if n =? 65535 then if bool_decide (s = "") then Some [] else None
      else '(fs, s) ← read_fields (Z.to_nat n) s; (fs ::.) <$> read_rows fuel s
  end.

Definition pg_read (s : string) : option (list (list string)) :=
  if HasPrefix s (pg_signature +:+ be32 0 +:+ be32 0) then read_rows (String.length s) (str_drop 19 s) else None.

Lemma read16_be16 n s : 0 ≤ n < 65536 → read16 (be16 n +:+ s) = Some (n, s).
Proof.
  intros Hn.
  change (read16 (be16 n +:+ s)) with
    (Some (byte_val (byte_of ((n / 256) mod 256)) * 256 + byte_val (byte_of (n mod 256)), s)).
  assert (0 ≤ n / 256 < 256) by (split; [apply Z.div_pos|apply Z.div_lt_upper_bound]; lia).
  rewrite !byte_val_of by (apply Z.mod_pos_bound; lia). rewrite (Z.mod_small (n / 256)) by done.
  do 2 f_equal. pose proof (Z.div_mod n 256). lia.
Qed.

Lemma read32_be32 n s : 0 ≤ n < 4294967296 → read32 (be32 n +:+ s) = Some (n, s).
Proof.
  intros Hn. assert (be32 n +:+ s = be16 (n / 65536) +:+ (be16 n +:+ s)) as ->.
  { unfold be16. rewrite Z.div_div by lia. done. }
  assert (be16 n = be16 (n mod 65536)) as ->.
  { unfold be16, byte_str. assert (n = n mod 65536 + (n / 65536 * 256) * 256) as Hd by (pose proof (Z.div_mod n 65536); lia).
    assert ((n / 256) mod 256 = (n mod 65536 / 256) mod 256) as ->.
    { rewrite Hd at 1. by rewrite Z.div_add, Z.mod_add by lia. }
    assert (n mod 256 = (n mod 65536) mod 256) as ->; [|done]. rewrite Hd at 1. by rewrite Z.mod_add by lia. }
  assert (0 ≤ n / 65536 < 65536) by (split; [apply Z.div_pos|apply Z.div_lt_upper_bound]; lia).
  unfold read32. rewrite read16_be16 by done. cbn. rewrite read16_be16 by (apply Z.mod_pos_bound; lia). cbn.
  do 2 f_equal. pose proof (Z.div_mod n 65536). lia.
Qed.

Lemma str_take_app p s : str_take (String.length p) (p +:+ s) = p.
Proof. induction p as [|a p IH]; simpl; [by destruct s|]. by rewrite IH. Qed.

Lemma str_app_length p s : String.length (p +:+ s) = (String.length p + String.length s)%nat.
Proof. induction p as [|a p IH]; [done|]. simpl. by rewrite IH. Qed.

Lemma str_app_assoc (p q s : string) : (p +:+ q) +:+ s = p +:+ (q +:+ s).
Proof. induction p as [|a p IH]; [done|]. exact (f_equal (String a) IH). Qed.

Definition field_bytes (f : string) : string := be32 (str_len f) +:+ f.
Definition row_bytes (fs : list string) : string := be16 (Z.of_nat (length fs)) +:+ foldr String.app "" (field_bytes <$> fs).

(** A field fits an int32 length, a row an int16 count other than the trailer. *)
Definition field_ok (f : string) : Prop := str_len f < 2147483648.
Definition row_ok (fs : list string) : Prop := Z.of_nat (length fs) < 65535 ∧ Forall field_ok fs.

Lemma read_fields_bytes fs s : Forall field_ok fs →
  read_fields (length fs) (foldr String.app "" (field_bytes <$> fs) +:+ s) = Some (fs, s).
Proof.
  induction 1 as [|f fs Hf _ IH]; [done|]. cbn [length fmap list_fmap foldr read_fields].
  unfold field_ok, str_len in *. unfold field_bytes at 1.
  rewrite !str_app_assoc, read32_be32 by (unfold str_len; lia). cbn [mbind option_bind].
  rewrite (proj2 (Z.leb_gt _ _)) by (unfold str_len; lia). cbn [orb].
  rewrite (proj2 (Z.ltb_ge _ _)) by (unfold str_len; rewrite str_app_length; lia).
  unfold str_len. rewrite Nat2Z.id, str_drop_app, IH. cbn. by rewrite str_take_app.
Qed.

Lemma read_rows_bytes rows : ∀ fuel, (length rows < fuel)%nat → Forall row_ok rows →
  read_rows fuel (foldr String.app "" (row_bytes <$> rows) +:+ (byte_str 255 +:+ byte_str 255)) = Some rows.
Proof.
  induction rows as [|fs rows IH]; intros [|fuel] Hf Hr; [lia|done|lia|].
  apply Forall_cons in Hr as [[Hn Hfs] Hr]. cbn [fmap list_fmap foldr read_rows]. unfold row_bytes at 1.
  rewrite !str_app_assoc, read16_be16 by lia. cbn [mbind option_bind].
  rewrite (proj2 (Z.eqb_neq _ _)) by lia. rewrite Nat2Z.id, read_fields_bytes by done. cbn [mbind option_bind].
  rewrite IH by (done || cbn in *; lia). done.
Qed.

(** ** What the command writes *)

(** A writer that does not fail appends [s]. *)
Definition appends (m : Go sink unit) (s : string) : Prop :=
  ∀ b, m (mkSink b []) = (Ok tt, mkSink (b +:+ s) []).

Lemma appends_write s : appends (write s) s.
Proof. done. Qed.

Lemma appends_bind m k s t : appends m s → appends k t → appends (_ ← m; k) (s +:+ t).
Proof. intros Hm Hk b. unfold mbind, go_bind. by rewrite Hm, Hk, str_app_assoc. Qed.

Lemma str_app_nil (s : string) : s +:+ "" = s.
Proof. induction s as [|a s IH]; [done|]. exact (f_equal (String a) IH). Qed.

Lemma appends_for_each {A} (l : list A) f (g : A → string) :
  (∀ x, appends (f x) (g x)) → appends (for_each l f) (foldr String.app "" (g <$> l)).
Proof.
  intros Hf. induction l as [|x l IH]; [intros b; by rewrite str_app_nil|]. cbn. by apply appends_bind.
Qed.

Lemma for_each_fmap {S A B} (g : A → B) (l : list A) (f : B → Go S unit) s :
  for_each (g <$> l) f s = for_each l (λ x, f (g x)) s.
Proof.
  revert s. induction l as [|x l IH]; intros s; [done|]. cbn. unfold mbind, go_bind.
  destruct (f (g x) s) as [[]?]; [apply IH|done..].
Qed.

Lemma appends_row fs : appends (writeRow fs) (row_bytes fs).
Proof. apply appends_bind; [done|]. apply appends_for_each. intros f. by apply appends_bind. Qed.

Lemma pg_read_written rows : Forall row_ok rows →
  ∃ w, (_ ← newPGBinaryCopyWriter; _ ← for_each rows writeRow; close) (mkSink "" []) = (Ok tt, w) ∧
    pg_read (sk_bytes w) = Some rows.
Proof.
  intros Hr. set (body := foldr String.app "" (row_bytes <$> rows)).
  assert (appends (_ ← newPGBinaryCopyWriter; _ ← for_each rows writeRow; close)
    ((pg_signature +:+ be32 0 +:+ be32 0) +:+ (body +:+ (byte_str 255 +:+ byte_str 255)))) as Ha.
  { apply appends_bind; [done|]. apply appends_bind; [|done]. apply appends_for_each, appends_row. }
  eexists. split; [exact (Ha "")|]. cbn [sk_bytes].
  assert (∀ s : string, "" +:+ s = s) as -> by done. unfold pg_read, HasPrefix.
  rewrite prefix_app. change 19%nat with (String.length (pg_signature +:+ be32 0 +:+ be32 0)).
  rewrite str_drop_app. apply read_rows_bytes; [|done].
  rewrite (str_app_length _ (body +:+ _)), (str_app_length body).
  change (String.length (byte_str 255 +:+ byte_str 255)) with 2%nat.
  assert (length rows ≤ String.length body)%nat; [|lia].
  unfold body. clear. induction rows as [|fs rows IH]; [done|]. cbn [fmap list_fmap foldr length].
  rewrite str_app_length. unfold row_bytes at 1. rewrite str_app_length.
  change (String.length (be16 _)) with 2%nat. lia.
Qed.

(** ** CSV *)

(** A reader of records: a field is quoted, or goes up to the next separator. *)
Fixpoint read_quoted (s : string) : option (string * string) :=
  match s with
  | "" => None
  | String a r =>
      if bool_decide (a = quote_char) then
        match r with
        | String b r' => if bool_decide (b = quote_char) then '(f, t) ← read_quoted r'; Some (String b f, t) else Some ("", r)
        | "" => Some ("", "")
        end
      else '(f, t) ← read_quoted r; Some (String a f, t)
  end.

Fixpoint read_bare (s : string) : string * string :=
  match s with
  | "" => ("", "")
  | String a r =>
      if bool_decide (a = ","%char) || bool_decide (a = newline_char) then ("", s)
      else let '(f, t) := read_bare r in (String a f, t)
  end.

Definition read_csv_field (s : string) : option (string * string) :=
  match s with
  | String a r => if bool_decide (a = quote_char) then read_quoted r else Some (read_bare s)
  | "" => Some ("", "")
  end.

Fixpoint read_record (n : nat) (s : string) : option (list string * string) :=
  match n with
  | O => None
  | S n =>
      '(f, r) ← read_csv_field s;
      match r with
      | String a r =>
          if bool_decide (a = ","%char) then '(fs, t) ← read_record n r; Some (f :: fs, t)
          else if bool_decide (a = newline_char) then Some ([f], r) else None
      | "" => None
      end
  end.

Lemma read_quoted_escaped f a r : a ≠ quote_char →
  read_quoted (escape_quotes f +:+ String quote_char (String a r)) = Some (f, String a r).
Proof.
  intros Ha. induction f as [|c f IH].
  - change (read_quoted (String quote_char (String a r)) = Some ("", String a r)). cbn [read_quoted].
    by rewrite (bool_decide_true (quote_char = quote_char)), bool_decide_false.
  - cbn [escape_quotes]. destruct (bool_decide_reflect (c = quote_char)) as [->|Hc].
    + change (read_quoted (String quote_char (String quote_char (escape_quotes f +:+ String quote_char (String a r))))
        = Some (String quote_char f, String a r)). cbn [read_quoted].
      rewrite (bool_decide_true (quote_char = quote_char)) by done. by rewrite IH.
    + change (read_quoted (String c (escape_quotes f +:+ String quote_char (String a r))) = Some (String c f, String a r)).
      cbn [read_quoted]. rewrite (bool_decide_false (c = quote_char)) by done. by rewrite IH.
Qed.

Lemma read_bare_plain f a r : has_special f = false → a = ","%char ∨ a = newline_char →
  read_bare (f +:+ String a r) = (f, String a r).
Proof.
  intros Hf Ha. induction f as [|c f IH].
  - change (read_bare (String a r) = ("", String a r)). cbn [read_bare].
    destruct Ha as [->| ->]; [by rewrite bool_decide_true|]. by rewrite (bool_decide_true (newline_char = newline_char)), orb_true_r.
  - cbn [has_special] in Hf. apply orb_false_iff in Hf as [Hc Hf]. apply bool_decide_eq_false in Hc.
    change (read_bare (String c (f +:+ String a r)) = (String c f, String a r)). cbn [read_bare].
    rewrite (bool_decide_false (c = ","%char)), (bool_decide_false (c = newline_char)) by set_solver.
    cbn [orb]. by rewrite IH.
Qed.

Lemma read_csv_field_written f a r : a = ","%char ∨ a = newline_char →
  read_csv_field (csv_field f +:+ String a r) = Some (f, String a r).
Proof.
  intros Ha. assert (a ≠ quote_char) as Hq by (by destruct Ha as [->| ->]). unfold csv_field.
  destruct (fieldNeedsQuotes f) eqn:Hn.
  - assert (String quote_char (escape_quotes f +:+ String quote_char "") +:+ String a r =
      String quote_char (escape_quotes f +:+ String quote_char (String a r))) as ->.
    { exact (f_equal (String quote_char) (str_app_assoc (escape_quotes f) (String quote_char "") (String a r))). }
    cbn [read_csv_field]. rewrite bool_decide_true by done. by apply read_quoted_escaped.
  - assert (has_special f = false) as Hs.
    { unfold fieldNeedsQuotes in Hn. destruct (bool_decide_reflect (f = "")) as [->|]; [done|].
      case_bool_decide; [done|]. by apply orb_false_iff in Hn as [? _]. }
    destruct f as [|c f].
    + change (read_csv_field (String a r) = Some ("", String a r)). cbn [read_csv_field].
      rewrite bool_decide_false by done. f_equal. by apply (read_bare_plain "").
    + change (read_csv_field (String c (f +:+ String a r)) = Some (String c f, String a r)). cbn [read_csv_field].
      assert (c ≠ quote_char) as Hc.
      { cbn [has_special] in Hs. apply orb_false_iff in Hs as [Hs _]. apply bool_decide_eq_false in Hs. set_solver. }
      rewrite bool_decide_false by done. f_equal. by apply (read_bare_plain (String c f)).
Qed.

Lemma read_record_written fs r : fs ≠ [] → read_record (length fs) (csv_record fs +:+ r) = Some (fs, r).
Proof.
  induction fs as [|f fs IH]; intros Hne; [done|]. destruct fs as [|f' fs].
  - unfold csv_record. cbn [fmap list_fmap Join length read_record]. rewrite str_app_assoc.
    change (String newline_char "" +:+ r) with (String newline_char r).
    rewrite (read_csv_field_written f newline_char r) by (by right). cbn [mbind option_bind].
    rewrite bool_decide_false, bool_decide_true by done. done.
  - assert (csv_record (f :: f' :: fs) +:+ r = csv_field f +:+ String "," (csv_record (f' :: fs) +:+ r)) as ->.
    { unfold csv_record. cbn [fmap list_fmap Join]. rewrite !str_app_assoc. done. }
    specialize (IH ltac:(done)). change (length (f :: f' :: fs)) with (S (length (f' :: fs))).
    revert IH. generalize (length (f' :: fs)) as n. intros n IH. cbn [read_record].
    rewrite (read_csv_field_written f ",") by (by left). cbn [mbind option_bind].
    rewrite bool_decide_true by done. by rewrite IH.
Qed.

(** The whole file: records of [n] fields up to its end. *)
Fixpoint read_csv (fuel n : nat) (s : string) : option (list (list string)) :=
  match fuel with
  | O => None
  | S fuel =>
      if bool_decide (s = "") then Some []
      else '(fs, r) ← read_record n s; (fs ::.) <$> read_csv fuel n r
  end.

Lemma csv_record_neq fs s : csv_record fs +:+ s ≠ "".
Proof.
  unfold csv_record. rewrite str_app_assoc. intros H%(f_equal String.length). rewrite str_app_length in H.
  change (String.length (String newline_char "" +:+ s)) with (S (String.length s)) in H. cbn in H. lia.
Qed.

Lemma read_csv_records n rows : (0 < n)%nat → Forall (λ fs, length fs = n) rows → ∀ fuel, (length rows < fuel)%nat →
  read_csv fuel n (foldr String.app "" (csv_record <$> rows)) = Some rows.
Proof.
  intros Hn. induction 1 as [|fs rows Hfs _ IH]; intros [|fuel] Hf; [lia|done|lia|].
  cbn [fmap list_fmap foldr read_csv]. rewrite bool_decide_false by apply csv_record_neq.
  rewrite <- Hfs at 1. rewrite read_record_written by (by intros ->; simpl in *; lia). cbn [mbind option_bind].
  rewrite IH by (simpl in *; lia). done.
Qed.

Lemma records_length rows : (length rows ≤ String.length (foldr String.app "" (csv_record <$> rows)))%nat.
Proof.
  induction rows as [|fs rows IH]; [done|]. cbn [fmap list_fmap foldr length].
  rewrite str_app_length. unfold csv_record at 1. rewrite str_app_length.
  change (String.length (String newline_char "")) with 1%nat. lia.
Qed.

Lemma str_take_drop k s : str_take k s +:+ str_drop k s = s.
Proof.
  revert s. induction k as [|k IH]; intros [|a s]; [done..|]. exact (f_equal (String a) (IH s)).
Qed.

Lemma str_drop_length k s : String.length (str_drop k s) = (String.length s - k)%nat.
Proof. revert s. induction k as [|k IH]; intros [|a s]; simpl; [done..|]. apply IH. Qed.

Lemma chunks_concat s : foldr String.app "" (chunks s) = s.
Proof.
  unfold chunks. generalize (Nat.le_refl (String.length s)). generalize (String.length s) at 2 3 as fuel.
  intros fuel. revert s. induction fuel as [|fuel IH]; intros s Hf; [destruct s; [done|simpl in Hf; lia]|].
  cbn [chunks_from]. case_bool_decide as Hs; [done|]. cbn [foldr].
  rewrite IH, str_take_drop; [done|]. rewrite str_drop_length. lia.
Qed.

(** ** The round trip *)

Section RoundTrip.
Context {R : GoRuntime} {P : Postgres} (network : string).

(** The blobs of the range, in the order of the export. *)
Definition exported (from to : Z) (t : tables) (bs : list (string * blob_row)) : Prop :=
  bs ≡ₚ filter (λ b, bl_network (snd b) = network ∧ from ≤ bl_epoch (snd b) ≤ to) (map_to_list (ipld_blobs t)) ∧
  Sorted (sle ref_less) bs.

Definition export_row (includeMeta : bool) (b : string * blob_row) : list string :=
  if includeMeta then [bl_versioned_hash (snd b); "ipfs"; bl_data_cid (snd b); bl_meta_cid (snd b)]
  else [bl_versioned_hash (snd b); "ipfs"; bl_data_cid (snd b)].

(** The import side: psql's [FORMAT binary], or its [FORMAT csv, HEADER true]. *)
Definition import (binary includeMeta : bool) (s : string) : option (list (list string)) :=
  if binary then pg_read s
  else tail <$> read_csv (S (String.length s)) (if includeMeta then 4 else 3) s.

Definition refs_fit (t : tables) : Prop :=
  map_Forall (λ _ b, Forall field_ok [bl_versioned_hash b; bl_data_cid b; bl_meta_cid b]) (ipld_blobs t).

Lemma GetBlobRefs_healthy from to t : is_i64 from → is_i64 to →
  GetBlobRefs network from to (healthy t) =
    (Ok ((λ b, mkBlobRef (bl_versioned_hash (snd b)) (bl_data_cid (snd b)) (bl_meta_cid (snd b))) <$>
         sort_Slice ref_less (filter (λ b, bl_network (snd b) = network ∧ from ≤ bl_epoch (snd b) ≤ to)
           (map_range (ipld_blobs t)))), healthy t).
Proof. intros Hf Ht. unfold GetBlobRefs, wrapf, mbind, go_bind, lift. by rewrite !int8_ok. Qed.

Lemma write_refs_imports binary includeMeta bs :
  Forall row_ok (export_row includeMeta <$> bs) →
  ∃ w, write_refs binary includeMeta
         ((λ b : string * blob_row, mkBlobRef (bl_versioned_hash (snd b)) (bl_data_cid (snd b)) (bl_meta_cid (snd b))) <$> bs)
         (mkSink "" []) = (Ok tt, w) ∧
    import binary includeMeta (sk_bytes w) = Some (export_row includeMeta <$> bs).
Proof.
  intros Hr. destruct binary.
  - destruct (pg_read_written _ Hr) as (w & Hw & Hread). exists w. split; [|done]. rewrite <- Hw.
    unfold write_refs, mbind, go_bind. destruct (newPGBinaryCopyWriter _) as [[|e|p] w1]; [|done..].
    rewrite !for_each_fmap. by destruct includeMeta.
  - set (rows := export_row includeMeta <$> bs) in *.
    set (text := foldr String.app "" (csv_record <$> csv_header includeMeta :: rows)).
    assert (appends (for_each (chunks text) write) text) as Ha.
    { rewrite <- (chunks_concat text) at 2. rewrite <- (list_fmap_id (chunks text)) at 2.
      by apply appends_for_each. }
    exists (mkSink text []). split.
    + unfold write_refs. rewrite <- list_fmap_compose. destruct includeMeta; exact (Ha "").
    + unfold import. cbn [sk_bytes]. unfold text at 2. rewrite read_csv_records; [done|destruct includeMeta; lia| |].
      * constructor; [by destruct includeMeta|]. apply Forall_fmap, Forall_true. intros b. by destruct includeMeta.
      * pose proof (records_length (csv_header includeMeta :: rows)). unfold text. lia.
Qed.

End RoundTrip.

