(* ===== verification/StateFile.v ===== *)
(** * StateFile: state/manager.go, and the state.Backend interface

    The interface Backend with its laws; the JSON file Manager, whose save goes
    through a temporary file and a rename, over a file system that may fail
    midway; and the two implementations of the interface, Manager and
    DBStateBackend. *)

From S2P Require Import Prelude GoStd Types Ipld IpldModel Db.

(** ** The interface *)

Class StateBackend (W : Type) := {
  sb_GetLastProcessedEpoch : Go W Z;
  sb_SetLastProcessedEpoch : Z → Go W unit;
  sb_GetBackfillCursor : Go W Z;
  sb_SetBackfillCursor : Z → Go W unit }.

(** What the generator relies on: two independent cursors, each returning the
    last value stored. *)
Class StateBackendLaws (W : Type) {S : StateBackend W} := {
  sb_live : W → Z;
  sb_backfill : W → Z;
  sb_get_live w e w' : sb_GetLastProcessedEpoch w = (Ok e, w') →
    e = sb_live w ∧ sb_live w' = sb_live w ∧ sb_backfill w' = sb_backfill w;
  sb_get_backfill w e w' : sb_GetBackfillCursor w = (Ok e, w') →
    e = sb_backfill w ∧ sb_live w' = sb_live w ∧ sb_backfill w' = sb_backfill w;
  sb_set_live w e w' : sb_SetLastProcessedEpoch e w = (Ok tt, w') →
    sb_live w' = e ∧ sb_backfill w' = sb_backfill w;
  sb_set_backfill w e w' : sb_SetBackfillCursor e w = (Ok tt, w') →
    sb_backfill w' = e ∧ sb_live w' = sb_live w }.

(** ** The file system *)

(** What the next call does besides succeeding: a write may stop after [n]
    bytes, any call may fail outright. *)
Inductive fs_fault :=
  | NoFault
  | Fails (e : error)
  | ShortWrite (n : nat) (e : error).

(** [fs_seen] records every content of the disk so far: what a crash could
    leave behind. *)
Record FS := mkFS {
  fs_files : gmap string string;
  fs_seen : list (gmap string string);
  fs_faults : list fs_fault }.

Definition fs_next (w : FS) : fs_fault * FS :=
  match fs_faults w with
  | [] => (NoFault, w)
  | f :: fs => (f, mkFS (fs_files w) (fs_seen w) fs)
  end.

(** The disk takes each of these contents in turn. *)
Definition fs_through (states : list (gmap string string)) (w : FS) : FS :=
  mkFS (default (fs_files w) (last states)) (fs_seen w ++ states) (fs_faults w).

(** [os.WriteFile]: truncates, then the bytes appear one after the other. *)
Definition write_states (path data : string) (n : nat) (m : gmap string string)
    : list (gmap string string) :=
  (λ k, <[path := str_take k data]> m) <$> seq 0 (S n).

Definition os_WriteFile (path data : string) : Go FS unit := λ w,
  let '(f, w) := fs_next w in
  match f with
  | NoFault => (Ok tt, fs_through (write_states path data (String.length data) (fs_files w)) w)
  | Fails e => (Err e, w)
  | ShortWrite n e =>
      (Err e, fs_through (write_states path data (Nat.min n (String.length data)) (fs_files w)) w)
  end.

(** [os.Rename]: atomic. *)
Definition os_Rename (old new : string) : Go FS unit := λ w,
  let '(f, w) := fs_next w in
  match f, fs_files w !! old with
  | NoFault, Some data => (Ok tt, fs_through [<[new := data]> (delete old (fs_files w))] w)
  | NoFault, None => (Err (errors_New "rename: no such file or directory"), w)
  | (Fails e | ShortWrite _ e), _ => (Err e, w)
  end.

Definition os_Remove (path : string) : Go FS unit := λ w,
  let '(f, w) := fs_next w in
  match f with
  | NoFault => (Ok tt, fs_through [delete path (fs_files w)] w)
  | Fails e | ShortWrite _ e => (Err e, w)
  end.

(** ** The manager *)

(** encoding/json on State. *)
Class JsonState := {
  json_MarshalIndent : State → outcome string;
  json_Unmarshal : string → outcome State;
  json_valid : string → Prop;  (* a network name that is valid UTF-8 *)
  json_roundtrip st : json_valid (st_Network st) →
    ∃ data, json_MarshalIndent st = Ok data ∧ json_Unmarshal data = Ok st }.

Record Manager := mkManager { m_path : string; m_current : State }.

Definition set_current (st : State) (m : Manager) : Manager := mkManager (m_path m) st.
Definition set_live (e : Z) (st : State) : State := mkState (st_Network st) e (st_BackfillCursor st).
Definition set_backfill (e : Z) (st : State) : State :=
  mkState (st_Network st) (st_LastProcessedEpoch st) e.

Definition state_path (dataDir network : string) : string :=
  dataDir +:+ "/" +:+ network +:+ "-state.json".

Section Manager.
Context {J : JsonState}.

(** On a disk with the files [m]; a failure of the read itself is [rd]. *)
Definition NewManager (dataDir network : string) (rd : option error) (m : gmap string string)
    : outcome Manager :=
  let path := state_path dataDir network in
  match rd, m !! path with
  | Some e, _ => Err (errorf_w ("state: read " +:+ path) e)
  | None, None => Ok (mkManager path (mkState network 0 0))
  | None, Some data =>
      st ← wrap ("state: parse " +:+ path) (json_Unmarshal data);
      Ok (mkManager path st)
  end.

Definition save : Go (Manager * FS) unit := λ w,
  let '(m, fs) := w in
  match json_MarshalIndent (m_current m) with
  | Panic p => (Panic p, w)
  | Err e => (Err (errorf_w "state: marshal" e), w)
  | Ok data =>
      let tmp := m_path m +:+ ".tmp" in
      match os_WriteFile tmp data fs with
      | (Ok _, fs) =>
          match os_Rename tmp (m_path m) fs with
          | (Ok _, fs) => (Ok tt, (m, fs))
          | (Err e, fs) =>
              (Err (errorf_w "state: rename" e), (m, snd (os_Remove tmp fs)))
          | (Panic p, fs) => (Panic p, (m, fs))
          end
      | (Err e, fs) => (Err (errorf_w ("state: write tmp " +:+ tmp) e), (m, fs))
      | (Panic p, fs) => (Panic p, (m, fs))
      end
  end.

Definition Manager_Get (w : Manager * FS) : State := m_current (fst w).

Definition Manager_GetLastProcessedEpoch : Go (Manager * FS) Z :=
  gets (λ w, st_LastProcessedEpoch (m_current (fst w))).

Definition Manager_SetLastProcessedEpoch (epoch : Z) : Go (Manager * FS) unit :=
  _ ← modify (λ w, (set_current (set_live epoch (m_current (fst w))) (fst w), snd w));
  save.

Definition Manager_GetBackfillCursor : Go (Manager * FS) Z :=
  gets (λ w, st_BackfillCursor (m_current (fst w))).

Definition Manager_SetBackfillCursor (epoch : Z) : Go (Manager * FS) unit :=
  _ ← modify (λ w, (set_current (set_backfill epoch (m_current (fst w))) (fst w), snd w));
  save.
End Manager.

(** ** The implementations *)

#[export] Instance manager_backend `{J : JsonState} : StateBackend (Manager * FS) := {|
  sb_GetLastProcessedEpoch := Manager_GetLastProcessedEpoch;
  sb_SetLastProcessedEpoch := Manager_SetLastProcessedEpoch;
  sb_GetBackfillCursor := Manager_GetBackfillCursor;
  sb_SetBackfillCursor := Manager_SetBackfillCursor |}.

(** [db.NewDBStateBackend(c, network)]. *)
Definition NewDBStateBackend (network : string) : StateBackend Client := {|
  sb_GetLastProcessedEpoch := GetLastProcessedEpoch network;
  sb_SetLastProcessedEpoch := SetLastProcessedEpoch network;
  sb_GetBackfillCursor := GetBackfillCursor network;
  sb_SetBackfillCursor := SetBackfillCursor network |}.

(** ** Facts *)

Section ManagerFacts.
Context {J : JsonState}.

Lemma tmp_ne path : path +:+ ".tmp" ≠ path.
Proof.
  induction path as [|a path IH]; [done|]. intros [= H]. by apply IH.
Qed.

Lemma str_take_all s : str_take (String.length s) s = s.
Proof. induction s; simpl; congruence. Qed.

(** Writing a file shows only that file's prefixes. *)
Lemma write_states_other path data n m p :
  p ≠ path → Forall (λ s, s !! p = m !! p) (write_states path data n m).
Proof.
  intros Hp. apply Forall_forall. intros s (k & -> & _)%list_elem_of_fmap.
  by rewrite lookup_insert_ne.
Qed.

Lemma write_states_last path data n m :
  last (write_states path data n m) = Some (<[path := str_take n data]> m).
Proof.
  unfold write_states. rewrite fmap_last, seq_S, last_snoc. done.
Qed.

(** What a call leaves: the states shown, under an invariant on each. *)
Definition shows (w w' : FS) (Q : gmap string string → Prop) : Prop :=
  ∃ states, fs_seen w' = fs_seen w ++ states ∧ Forall Q states ∧ Q (fs_files w').

Lemma shows_trans w1 w2 w3 Q : shows w1 w2 Q → shows w2 w3 Q → shows w1 w3 Q.
Proof.
  intros (s1 & H1 & F1 & _) (s2 & H2 & F2 & Q2). exists (s1 ++ s2).
  split_and!; [by rewrite H2, H1, (assoc_L (++))|by apply Forall_app|done].
Qed.

Lemma fs_next_files w : fs_files (snd (fs_next w)) = fs_files w ∧ fs_seen (snd (fs_next w)) = fs_seen w.
Proof. unfold fs_next. by destruct (fs_faults w). Qed.

Lemma shows_through w states Q :
  Q (fs_files w) → Forall Q states → shows w (fs_through states w) Q.
Proof.
  intros Hw Hs. exists states. split_and!; [done|done|]. cbn.
  destruct (last states) as [s|] eqn:Hl; [|done]. cbn. apply last_Some_elem_of in Hl.
  rewrite Forall_forall in Hs. auto.
Qed.

Lemma shows_refl w Q : Q (fs_files w) → shows w w Q.
Proof. intros HQ. exists []. by rewrite app_nil_r. Qed.

Lemma os_WriteFile_spec path data w (Q : gmap string string → Prop) :
  Q (fs_files w) → (∀ n, Forall Q (write_states path data n (fs_files w))) →
  let '(o, w') := os_WriteFile path data w in
  shows w w' Q ∧
  match o with Ok _ => fs_files w' = <[path := data]> (fs_files w) | Err _ => True | Panic _ => False end.
Proof.
  intros HQ Hs. unfold os_WriteFile. destruct (fs_next_files w) as [Hf Hseen].
  destruct (fs_next w) as [f w1]. cbn in Hf, Hseen.
  assert (∀ w2, shows w1 w2 Q → shows w w2 Q) as Htr.
  { intros w2 (s & H1 & H2). exists s. by rewrite H1, Hseen. }
  rewrite <- Hf in HQ, Hs. destruct f as [|e|n e]; cbn -[write_states].
  - split; [apply Htr, shows_through; [done|apply Hs]|]. rewrite write_states_last. cbn.
    by rewrite str_take_all, Hf.
  - split; [|done]. by apply Htr, shows_refl.
  - split; [|done]. apply Htr, shows_through; [done|apply Hs].
Qed.

Lemma os_Rename_spec old new data w (Q : gmap string string → Prop) :
  fs_files w !! old = Some data → Q (fs_files w) → Q (<[new := data]> (delete old (fs_files w))) →
  let '(o, w') := os_Rename old new w in
  shows w w' Q ∧
  match o with
  | Ok _ => fs_files w' = <[new := data]> (delete old (fs_files w))
  | Err _ => fs_files w' = fs_files w
  | Panic _ => False
  end.
Proof.
  intros Ho HQ Hn. unfold os_Rename. destruct (fs_next_files w) as [Hf Hseen].
  destruct (fs_next w) as [f w1]. cbn in Hf, Hseen. rewrite Hf, Ho.
  assert (∀ w2, shows w1 w2 Q → shows w w2 Q) as Htr.
  { intros w2 (s & H1 & H2). exists s. by rewrite H1, Hseen. }
  rewrite <- Hf in HQ. destruct f; cbn.
  - split; [|done]. apply Htr, shows_through; [done|by constructor].
  - split; [|done]. by apply Htr, shows_refl.
  - split; [|done]. by apply Htr, shows_refl.
Qed.

Lemma os_Remove_shows path w (Q : gmap string string → Prop) :
  Q (fs_files w) → Q (delete path (fs_files w)) → shows w (snd (os_Remove path w)) Q.
Proof.
  intros HQ Hd. unfold os_Remove. destruct (fs_next_files w) as [Hf Hseen].
  destruct (fs_next w) as [f w1]. cbn in Hf, Hseen.
  assert (∀ w2, shows w1 w2 Q → shows w w2 Q) as Htr.
  { intros w2 (s & H1 & H2). exists s. by rewrite H1, Hseen. }
  rewrite <- Hf in HQ, Hd.
  destruct f; cbn; apply Htr; [apply shows_through; [done|by constructor]|by apply shows_refl..].
Qed.
End ManagerFacts.

Section SaveFacts.
Context {J : JsonState}.

(** save, whatever fails: the state file only ever holds its old content or
    the new one, a success installs the new one, an error keeps the old. *)
Lemma save_spec m fs data :
  json_MarshalIndent (m_current m) = Ok data →
  let old := fs_files fs !! m_path m in
  let '(o, (m', fs')) := save (m, fs) in
  m' = m ∧ shows fs fs' (λ s, s !! m_path m = old ∨ s !! m_path m = Some data) ∧
  match o with
  | Ok _ => fs_files fs' !! m_path m = Some data
  | Err _ => fs_files fs' !! m_path m = old
  | Panic _ => False
  end.
Proof.
  intros Hd old. unfold save. rewrite Hd. set (tmp := m_path m +:+ ".tmp").
  set (Q := λ s : gmap string string, s !! m_path m = old ∨ s !! m_path m = Some data).
  assert (m_path m ≠ tmp) as Hne by (intros H; by apply (tmp_ne (m_path m))).
  assert (∀ n, Forall (λ s, s !! m_path m = old) (write_states tmp data n (fs_files fs))) as Hws.
  { intros n. by apply write_states_other. }
  pose proof (os_WriteFile_spec tmp data fs (λ s, s !! m_path m = old) eq_refl Hws) as Hw.
  destruct (os_WriteFile tmp data fs) as [[u|e|p] fs1]; destruct Hw as [Hsh Hw]; [| |done].
  2: { destruct Hsh as (st & H1 & H2 & H3). split_and!; [done| |done].
       exists st. split_and!; [done|eapply Forall_impl; [exact H2|unfold Q; auto]|unfold Q; auto]. }
  assert (shows fs fs1 Q) as Hs1.
  { destruct Hsh as (st & H1 & H2 & H3).
    exists st. split_and!; [done|eapply Forall_impl; [exact H2|unfold Q; auto]|unfold Q; auto]. }
  pose proof (os_Rename_spec tmp (m_path m) data fs1 Q) as Hr.
  rewrite Hw in Hr. specialize (Hr (lookup_insert_eq _ _ _)).
  assert (Q (<[tmp:=data]> (fs_files fs))) as Hq1 by (left; by rewrite lookup_insert_ne).
  specialize (Hr Hq1 ltac:(right; by rewrite lookup_insert_eq)).
  destruct (os_Rename tmp (m_path m) fs1) as [[v|e|p] fs2]; destruct Hr as [Hsh2 Hr]; [| |done].
  - split_and!; [done|by eapply shows_trans|]. rewrite Hr. by rewrite lookup_insert_eq.
  - assert (fs_files fs2 !! m_path m = old) as Hold by (rewrite Hr; by rewrite lookup_insert_ne).
    assert (shows fs2 (snd (os_Remove tmp fs2)) (λ s, s !! m_path m = old)) as (st & H1 & H2 & H3).
    { apply os_Remove_shows; [done|]. by rewrite lookup_delete_ne. }
    split_and!; [done| |done]. eapply shows_trans; [by eapply shows_trans|].
    exists st. split_and!; [done|eapply Forall_impl; [exact H2|unfold Q; auto]|unfold Q; auto].
Qed.

(** NewManager only looks at the state file. *)
Lemma NewManager_ext dir net m m' :
  m !! state_path dir net = m' !! state_path dir net →
  NewManager dir net None m = NewManager dir net None m'.
Proof. intros H. unfold NewManager. by rewrite H. Qed.

Lemma NewManager_path dir net s m : NewManager dir net None s = Ok m → m_path m = state_path dir net.
Proof.
  unfold NewManager. destruct (s !! _) as [d|]; [|by intros [= <-]].
  destruct (json_Unmarshal d) as [st|e|p]; cbn; [by intros [= <-]|done|done].
Qed.

(** Saving [m1] over a disk that loads as [m0]. *)
Lemma save_recovers dir net m0 m1 fs :
  NewManager dir net None (fs_files fs) = Ok m0 → m_path m1 = state_path dir net →
  json_valid (st_Network (m_current m1)) →
  let '(o, (m', fs')) := save (m1, fs) in
  m' = m1 ∧
  shows fs fs' (λ s, NewManager dir net None s = Ok m0 ∨ NewManager dir net None s = Ok m1) ∧
  match o with
  | Ok _ => NewManager dir net None (fs_files fs') = Ok m1
  | Err _ => NewManager dir net None (fs_files fs') = Ok m0
  | Panic _ => False
  end.
Proof.
  intros H0 Hp Hv. destruct (json_roundtrip _ Hv) as (data & Hm & Hu).
  assert (∀ s, s !! state_path dir net = Some data → NewManager dir net None s = Ok m1) as Hnew.
  { intros s Hs. unfold NewManager. rewrite Hs, Hu. cbn. destruct m1; cbn in *; congruence. }
  assert (∀ s, s !! state_path dir net = fs_files fs !! state_path dir net →
    NewManager dir net None s = Ok m0) as Hold.
  { intros s Hs. by rewrite (NewManager_ext _ _ _ _ Hs). }
  pose proof (save_spec m1 fs data Hm) as Hsv. rewrite Hp in Hsv.
  destruct (save (m1, fs)) as [o [m' fs']]. destruct Hsv as (-> & (st & H1 & H2 & H3) & Ho).
  split_and!; [done| |destruct o; auto]. exists st. split_and!; [done| |naive_solver].
  eapply Forall_impl; [exact H2|]. naive_solver.
Qed.
End SaveFacts.

(** ** Properties *)

Section StateProperties.
Context {J : JsonState}.

(** C22. The cursor file survives a crash: when the manager in memory agrees
    with the disk, then at every moment of SetLastProcessedEpoch or
    SetBackfillCursor, whatever call fails and however many bytes were
    written, a restart loads either the old state or the new one, never a
    torn file; after success it loads the new one, after an error the old
    one (while the manager in memory already holds the new value). *)
Theorem Manager_crash_safe dir net m fs epoch (live : bool) :
  NewManager dir net None (fs_files fs) = Ok m → json_valid (st_Network (m_current m)) →
  let new := set_current ((if live then set_live else set_backfill) epoch (m_current m)) m in
  let '(o, (m', fs')) :=
    (if live then Manager_SetLastProcessedEpoch epoch else Manager_SetBackfillCursor epoch) (m, fs) in
  m' = new ∧
  shows fs fs' (λ s, NewManager dir net None s = Ok m ∨ NewManager dir net None s = Ok new) ∧
  match o with
  | Ok _ => NewManager dir net None (fs_files fs') = Ok new
  | Err _ => NewManager dir net None (fs_files fs') = Ok m
  | Panic _ => False
  end.
Proof.
  intros Hm Hv new.
  assert ((if live then Manager_SetLastProcessedEpoch epoch else Manager_SetBackfillCursor epoch) (m, fs)
    = save (new, fs)) as -> by by destruct live.
  apply save_recovers; [done|by apply NewManager_path in Hm|]. unfold new. by destruct live.
Qed.
End StateProperties.

#[export] Instance manager_laws `{J : JsonState} : StateBackendLaws (Manager * FS).
Proof.
  refine {| sb_live w := st_LastProcessedEpoch (m_current (fst w));
            sb_backfill w := st_BackfillCursor (m_current (fst w)) |}.
  - intros w e w' [= <- <-]. done.
  - intros w e w' [= <- <-]. done.
  - intros [m fs] e [m' fs']. cbn. unfold Manager_SetLastProcessedEpoch, mbind, go_bind, modify. cbn.
    unfold save. cbn. repeat case_match; intros; simplify_eq; done.
  - intros [m fs] e [m' fs']. cbn. unfold Manager_SetBackfillCursor, mbind, go_bind, modify. cbn.
    unfold save. cbn. repeat case_match; intros; simplify_eq; done.
Defined.

Lemma live_backfill_keys n1 n2 : live_key n1 ≠ backfill_key n2.
Proof. done. Qed.

Lemma db_query_Ok {A} (f : tables → outcome A) ctx c a c' :
  wrapf ctx (db_query f) c = (Ok a, c') → f (c_tables c) = Ok a ∧ c_tables c' = c_tables c.
Proof.
  unfold wrapf, db_query, mbind, go_bind, db_call, gets_out.
  destruct c as [t [|[e|] fs]]; cbn; [|done|]; destruct (f t); cbn; intros; simplify_eq; done.
Qed.

Lemma scan_uint64_inv z e : scan_uint64 z = Ok e → z = e.
Proof. unfold scan_uint64. destruct (_ <=? _); [by intros [= ->]|done]. Qed.

#[export] Instance db_laws (network : string) : StateBackendLaws Client (S := NewDBStateBackend network).
Proof.
  refine (@Build_StateBackendLaws Client (NewDBStateBackend network)
    (λ c, match ipld_state (c_tables c) !! live_key network with
          | Some v => v
          | None => match max_epoch network (c_tables c) with Some m => m | None => 0 end
          end)
    (λ c, default 0 (ipld_state (c_tables c) !! backfill_key network)) _ _ _ _).
  - intros w e w' [H ->]%db_query_Ok. by apply scan_uint64_inv in H.
  - intros w e w' [H ->]%db_query_Ok. by apply scan_uint64_inv in H.
  - intros w e w' H. cbn in H. pose proof (SetLastProcessedEpoch_atomically network e w) as Ha.
    rewrite H in Ha. rewrite Ha. cbn. by rewrite lookup_insert_eq, lookup_insert_ne.
  - intros w e w' H. cbn in H. pose proof (SetBackfillCursor_atomically network e w) as Ha.
    rewrite H in Ha. rewrite Ha. cbn. rewrite lookup_insert_eq, lookup_insert_ne by done. done.
Defined.

(** ** The property at a concrete input *)

Definition state_code (st : State) : string * Z * Z :=
  (st_Network st, st_LastProcessedEpoch st, st_BackfillCursor st).

#[export] Instance json_model : JsonState.
Proof.
  refine {|
    json_MarshalIndent st := Ok (String "{" (pos_bits (encode (state_code st))));
    json_Unmarshal s := match s with
      | String "{" s' => match decode (bits_pos s') with
          | Some (n, l, b) => Ok (mkState n l b)
          | None => Err (errors_New "invalid character")
          end
      | _ => Err (errors_New "unexpected end of JSON input")
      end;
    json_valid _ := True |}.
  intros [n l b] _. eexists. split; [reflexivity|]. cbn -[encode decode].
  by rewrite bits_pos_bits, decode_encode.
Defined.

(** The write of a new cursor stops after three bytes: the restart loads the
    old state. *)
Lemma Manager_crash_safe_witness :
  let m := mkManager (state_path "/data" "mainnet") (mkState "mainnet" 0 0) in
  let fs := mkFS ∅ [] [ShortWrite 3 (errors_New "disk full")] in
  let '(o, (m', fs')) := Manager_SetLastProcessedEpoch 7 (m, fs) in
  shows fs fs' (λ s, NewManager "/data" "mainnet" None s = Ok m ∨
                     NewManager "/data" "mainnet" None s = Ok (set_current (mkState "mainnet" 7 0) m)).
Proof.
  exact (proj1 (proj2 (Manager_crash_safe "/data" "mainnet"
    (mkManager (state_path "/data" "mainnet") (mkState "mainnet" 0 0))
    (mkFS ∅ [] [ShortWrite 3 (errors_New "disk full")]) 7 true eq_refl I))).
Defined.
