(* ===== verification/Beacon.v ===== *)
(** * Beacon: beacon/client.go

    The Beacon REST client: its request function with the 429 backoff, the
    typed queries, and FetchEpochInput, which fetches the slots of an epoch
    concurrently. The node behind the HTTP transport is a parameter [http],
    the reply to each URL; encoding/json is the class [BeaconJson]. *)

From S2P Require Import Prelude GoStd Sha256 Types Db.

(** ** Bytes and hashes *)

Definition hexVal (c : ascii) : Z :=
  let v := byte_val c in
  if (48 <=? v) && (v <=? 57) then v - 48
  else if (97 <=? v) && (v <=? 102) then v - 97 + 10
  else if (65 <=? v) && (v <=? 70) then v - 65 + 10
  else 255.

(** The loop over the pairs of an even-length string. *)
Fixpoint hex_pairs (pos : Z) (h : string) : outcome string :=
  match h with
  | String p (String q h') =>
      let hi := hexVal p in
      let lo := hexVal q in
      if (15 <? hi) || (15 <? lo) then
        Err (errors_New ("invalid hex char at position " +:+ FormatUint pos))
      else b ← hex_pairs (pos + 2) h'; Ok (String (byte_of (Z.lor (Z.shiftl hi 4) lo)) b)
  | _ => Ok ""
  end.

Definition hexToBytes (h : string) : outcome string :=
  let h := TrimPrefix h "0x" in
  let h := if negb (str_len h mod 2 =? 0) then "0" +:+ h else h in
  hex_pairs 0 h.

Definition kzgCommitmentToVersionedHash (commitment : string) : outcome string :=
  raw ← wrap ("decode commitment " +:+ commitment) (hex_DecodeString (TrimPrefix commitment "0x"));
  let sum := sha256_Sum256 raw in
  let sum := match sum with "" => "" | String _ rest => String (byte_of 1) rest end in
  Ok ("0x" +:+ hex_EncodeToString sum).

(** ** Slots and epochs *)

Definition EpochToFirstSlot (epoch slotsPerEpoch : Z) : Z := u64_mul epoch slotsPerEpoch.
Definition SlotToEpoch (slot slotsPerEpoch : Z) : outcome Z :=
  if slotsPerEpoch =? 0 then Panic "integer divide by zero" else Ok (slot / slotsPerEpoch).
Definition SlotTime (genesisTime slot secondsPerSlot : Z) : Z :=
  genesisTime + i64_mul (i64_mul (to_i64 slot) (to_i64 secondsPerSlot)) time_Second.

(** ** The client *)

Definition seconds (n : Z) : Z := n * time_Second.

Record Client := mkClient {
  bc_base : string;
  bc_timeout : Z;
  bc_slotWorkers : Z;
  bc_limited : bool;          (* limiter != nil *)
  bc_backoffBase : Z;
  bc_lastBackoffTime : Z;
  bc_backoffDuration : Z;
  bc_rpcRequests : Z;
  bc_rpc429 : Z;
  bc_slotsPerEpoch : Z;
  bc_secondsPerSlot : Z;
  bc_waits : list Z }.        (* the backoff waits made so far, latest first *)

Definition NewClient (baseURL : string) (timeout slotWorkers : Z) (rateLimited : bool)
    (backoff429 slotsPerEpoch secondsPerSlot : Z) : Client :=
  {| bc_base := TrimRight baseURL "/";
     bc_timeout := timeout;
     bc_slotWorkers := if slotWorkers <=? 0 then 8 else slotWorkers;
     bc_limited := rateLimited;
     bc_backoffBase := if backoff429 <=? 0 then seconds 1 else backoff429;
     bc_lastBackoffTime := 0;
     bc_backoffDuration := 0;
     bc_rpcRequests := 0;
     bc_rpc429 := 0;
     bc_slotsPerEpoch := if slotsPerEpoch =? 0 then 32 else slotsPerEpoch;
     bc_secondsPerSlot := if secondsPerSlot =? 0 then 12 else secondsPerSlot;
     bc_waits := [] |}.

Definition GetRPCRequestCount (c : Client) : Z := bc_rpcRequests c.
Definition Get429Count (c : Client) : Z := bc_rpc429 c.

Definition count_request (c : Client) : Client :=
  mkClient (bc_base c) (bc_timeout c) (bc_slotWorkers c) (bc_limited c) (bc_backoffBase c)
    (bc_lastBackoffTime c) (bc_backoffDuration c) (i64_add (bc_rpcRequests c) 1) (bc_rpc429 c)
    (bc_slotsPerEpoch c) (bc_secondsPerSlot c) (bc_waits c).

(** The update under the lock on a 429. *)
Definition on_429 (now : Z) (c : Client) : Client :=
  let d :=
    if bc_backoffDuration c =? 0 then bc_backoffBase c
    else let d := i64_mul (bc_backoffDuration c) 2 in
         if seconds 60 <? d then seconds 60 else d in
  mkClient (bc_base c) (bc_timeout c) (bc_slotWorkers c) (bc_limited c) (bc_backoffBase c)
    now d (bc_rpcRequests c) (i64_add (bc_rpc429 c) 1) (bc_slotsPerEpoch c) (bc_secondsPerSlot c) (bc_waits c).

Definition reset_backoff (c : Client) : Client :=
  mkClient (bc_base c) (bc_timeout c) (bc_slotWorkers c) (bc_limited c) (bc_backoffBase c)
    (bc_lastBackoffTime c) 0 (bc_rpcRequests c) (bc_rpc429 c) (bc_slotsPerEpoch c) (bc_secondsPerSlot c) (bc_waits c).

Definition log_wait (d : Z) (c : Client) : Client :=
  mkClient (bc_base c) (bc_timeout c) (bc_slotWorkers c) (bc_limited c) (bc_backoffBase c)
    (bc_lastBackoffTime c) (bc_backoffDuration c) (bc_rpcRequests c) (bc_rpc429 c)
    (bc_slotsPerEpoch c) (bc_secondsPerSlot c) (d :: bc_waits c).

(** What a request meets: the clock when it starts and when the reply is in,
    and whether its context is done. *)
Record ReqEnv := mkReqEnv { rq_start : Z; rq_reply : Z; rq_ctx : option error; rq_limit : option error }.

Inductive http_reply :=
  | Transport (e : error)
  | Response (status : Z) (body : string).

Definition StatusOK : Z := 200.
Definition StatusNotFound : Z := 404.
Definition StatusTooManyRequests : Z := 429.
Definition StatusServiceUnavailable : Z := 503.

Definition err_InsufficientCustody : error :=
  mkError "beacon node does not custody enough data columns to serve blob sidecars (PeerDAS); reconfigure it with --custody-group-count=64 or higher (or equivalent for your client)"
    [ErrInsufficientCustody].
Definition err_NoExecutionPayload : error :=
  mkError "beacon block has no execution payload" [ErrNoExecutionPayload].

Definition isNotFound (e : error) : bool := Contains (err_msg e) "not found (404)".

(** How long [get] waits before it sends. *)
Definition backoff_wait (now : Z) (c : Client) : Z :=
  if (0 <? bc_backoffDuration c) && (now - bc_lastBackoffTime c <? bc_backoffDuration c)
  then bc_backoffDuration c - (now - bc_lastBackoffTime c) else 0.

Section Get.
Context (http : string → http_reply) (env : ReqEnv).

Definition get {A} (url : string) (decode : string → outcome A) : Go Client A := λ c,
  let c := log_wait (backoff_wait (rq_start env) c) c in
  match rq_ctx env with
  | Some e => (Err e, c)
  | None =>
  match (if bc_limited c then rq_limit env else None) with
  | Some e => (Err e, c)
  | None =>
  match http url with
  | Transport e => (Err e, c)
  | Response status body =>
      let c := count_request c in
      if status =? StatusNotFound then (Err (errors_New ("not found (404): " +:+ url)), c)
      else if status =? StatusTooManyRequests then
        (Err (errors_New ("HTTP 429 (rate limited): " +:+ body)), on_429 (rq_reply env) c)
      else
        let c := reset_backoff c in
        if negb (status =? StatusOK) then
          if (status =? StatusServiceUnavailable) &&
             Contains body "not sufficient to serve blob sidecars"
          then (Err err_InsufficientCustody, c)
          else (Err (errors_New ("HTTP " +:+ FormatUint status +:+ ": " +:+ body)), c)
        else (decode body, c)
  end end end.
End Get.

(** ** Queries *)

Record FinalityCheckpoints := mkFinalityCheckpoints { fc_FinalizedEpoch : Z; fc_JustifiedEpoch : Z }.

Record BlockHeader := mkBlockHeader {
  bh_Slot : Z; bh_ProposerIndex : Z; bh_ParentRoot : string; bh_StateRoot : string; bh_BodyRoot : string }.

Record BlobSidecar := mkBlobSidecar {
  sc_BlockRoot : string; sc_Index : string; sc_Slot : string; sc_BlockParentRoot : string;
  sc_ProposerIndex : string; sc_Blob : string; sc_KZGCommitment : string; sc_KZGProof : string }.

Record ExecutionPayloadInfo := mkExecutionPayloadInfo { pi_BlockHash : string; pi_BlockNumber : Z }.

Record ELBlobData := mkELBlobData { el_TxHash : string; el_BlockNumber : Z; el_BlockHash : string }.

(** The string fields encoding/json finds in a reply ("" when absent). *)
Class BeaconJson := {
  json_finality : string → outcome (string * string);   (* finalized.epoch, current_justified.epoch *)
  json_header : string → outcome (string * string * string * string * string);
  json_sidecars : string → outcome (list BlobSidecar);
  json_payload : string → outcome (string * string);    (* block_hash, block_number *)
  json_genesis : string → outcome string;
  json_config_name : string → outcome string }.

Section Queries.
Context {J : BeaconJson} (http : string → http_reply) (env : ReqEnv).

Definition GetFinalityCheckpoints (stateID : string) : Go Client FinalityCheckpoints :=
  base ← gets bc_base;
  resp ← wrapf "beacon: finality checkpoints"
    (get http env (base +:+ "/eth/v1/beacon/states/" +:+ stateID +:+ "/finality_checkpoints") json_finality);
  finalized ← wrapf "beacon: parse finalized epoch" (lift (ParseUint (fst resp)));
  justified ← wrapf "beacon: parse justified epoch" (lift (ParseUint (snd resp)));
  mret (mkFinalityCheckpoints finalized justified).

(** [slot, _ := strconv.ParseUint(...)]: what it returns next to an error. *)
Definition ParseUint_value (s : string) : Z :=
  match s with
  | "" => 0
  | _ => match parse_digits two64 0 s with inr n => n | inl true => two64 - 1 | inl false => 0 end
  end.

Definition GetBlockHeader (blockID : string) : Go Client BlockHeader :=
  base ← gets bc_base;
  resp ← wrapf ("beacon: block header " +:+ blockID)
    (get http env (base +:+ "/eth/v1/beacon/headers/" +:+ blockID) json_header);
  let '(slot, proposer, parent, state, body) := resp in
  mret (mkBlockHeader (ParseUint_value slot) (ParseUint_value proposer) parent state body).

Definition GetBlobSidecars (blockID : string) : Go Client (list BlobSidecar) :=
  base ← gets bc_base;
  wrapf ("beacon: blob sidecars " +:+ blockID)
    (get http env (base +:+ "/eth/v1/beacon/blob_sidecars/" +:+ blockID) json_sidecars).

Definition GetExecutionPayloadInfo (blockID : string) : Go Client ExecutionPayloadInfo :=
  base ← gets bc_base;
  ep ← wrapf ("beacon: block " +:+ blockID)
    (get http env (base +:+ "/eth/v2/beacon/blocks/" +:+ blockID) json_payload);
  if bool_decide (fst ep = "") then fail err_NoExecutionPayload
  else
    number ← wrapf ("beacon: parse execution block_number for " +:+ blockID) (lift (ParseUint (snd ep)));
    mret (mkExecutionPayloadInfo (fst ep) number).

(** [time.Unix(secs, 0)], with the zero time as origin. *)
Definition unix_epoch : Z := seconds 62135596800.

Definition GetGenesisTime : Go Client Z :=
  base ← gets bc_base;
  s ← wrapf "beacon: genesis" (get http env (base +:+ "/eth/v1/beacon/genesis") json_genesis);
  match Atoi s with
  | (secs, None) => mret (unix_epoch + seconds secs)
  | (_, Some e) => fail (errorf_w "beacon: parse genesis_time" e)
  end.

Definition GetNetworkName : Go Client string :=
  base ← gets bc_base;
  name ← wrapf "beacon: config spec" (get http env (base +:+ "/eth/v1/config/spec") json_config_name);
  if bool_decide (name = "") then fail (errors_New "beacon: config spec: CONFIG_NAME is empty")
  else mret (ToLower name).

(** *** FetchEpochInput *)

(** [el.GetBlobTxData], or nil. *)
Context (el : option (string → string → error + ELBlobData)).

Definition enrich (sc : BlobSidecar) (vh : string) (bi : BlobInput) : BlobInput :=
  match el with
  | None => bi
  | Some f =>
      match f (sc_BlockRoot sc) vh with
      | inr d => mkBlobInput (bi_Commitment bi) (bi_VersionedHash bi) (el_TxHash d) (el_BlockNumber d)
                  (el_BlockHash d) (bi_Slot bi) (bi_Epoch bi) (bi_Index bi) (bi_Data bi) (bi_Size bi)
      | inl _ => bi
      end
  end.

Definition sidecar_blob (epoch slot : Z) (sc : BlobSidecar) : outcome BlobInput :=
  blobData ← wrap ("beacon: decode blob hex slot " +:+ FormatUint slot) (hexToBytes (sc_Blob sc));
  let idx := fst (Atoi (sc_Index sc)) in
  vh ← wrap ("beacon: versioned hash slot " +:+ FormatUint slot)
         (kzgCommitmentToVersionedHash (sc_KZGCommitment sc));
  Ok (enrich sc vh (mkBlobInput (sc_KZGCommitment sc) vh "" 0 (sc_BlockRoot sc) slot epoch idx blobData 0)).

(** The goroutine of one slot. *)
Definition fetch_slot (epoch slot : Z) : Go Client (list BlobInput) :=
  r ← attempt (GetBlobSidecars (FormatUint slot));
  match r with
  | inl e => if isNotFound e then mret []
             else fail (errorf_w ("beacon: fetch slot " +:+ FormatUint slot) e)
  | inr sidecars => lift (mapM_out (sidecar_blob epoch slot) sidecars)
  end.

(** The goroutines in the order [order] they complete in; each fills its own
    entry of [slotBlobs], the first error is what Wait returns. *)
Fixpoint fetch_slots (epoch firstSlot : Z) (order : list nat) (slotBlobs : list (list BlobInput))
    : Go Client (list (list BlobInput)) :=
  match order with
  | [] => mret slotBlobs
  | i :: order' =>
      blobs ← fetch_slot epoch (u64_add firstSlot (Z.of_nat i));
      fetch_slots epoch firstSlot order' (<[i := blobs]> slotBlobs)
  end.

Definition FetchEpochInput (order : list nat) (epoch : Z) : Go Client EpochInput :=
  n ← gets bc_slotsPerEpoch;
  let firstSlot := EpochToFirstSlot epoch n in
  slotBlobs ← fetch_slots epoch firstSlot order (replicate (Z.to_nat n) []);
  mret (mkEpochInput epoch firstSlot (concat slotBlobs)).
End Queries.

(** ** Facts *)

Lemma hexVal_nibble a : hexVal a = hex_nibble a.
Proof. done. Qed.

Lemma hex_pairs_decode n h pos b :
  String.length h = (2 * n)%nat → hex_pairs pos h = Ok b ↔ hex_DecodeString h = Ok b.
Proof.
  revert h pos b. induction n as [|n IH]; intros h pos b Hl.
  { by destruct h. }
  destruct h as [|p [|q h]]; simpl in Hl; [lia|lia|].
  cbn [hex_pairs hex_DecodeString]. cbv zeta. rewrite (hexVal_nibble p), (hexVal_nibble q).
  destruct (15 <? hex_nibble p); [by split|]. destruct (15 <? hex_nibble q); [by split|].
  cbn [orb].
  pose proof (λ b', IH h (pos + 2) b' ltac:(lia)) as Hb. clear IH.
  destruct (hex_pairs (pos + 2) h) as [b1| |], (hex_DecodeString h) as [b2| |]; simpl;
    try by split.
  - assert (b1 = b2) as ->; [|done]. pose proof (proj1 (Hb b1) eq_refl). congruence.
  - pose proof (proj1 (Hb b1) eq_refl). congruence.
  - pose proof (proj1 (Hb b1) eq_refl). congruence.
  - pose proof (proj2 (Hb b2) eq_refl). congruence.
  - pose proof (proj2 (Hb b2) eq_refl). congruence.
Qed.

(** hexToBytes agrees with encoding/hex: on a string of an even number of
    digits (0x-prefixed or not) it succeeds exactly when DecodeString does, with
    the same bytes; and it inverts the 0x-prefixed encoding of any bytes. *)
Theorem hexToBytes_correct h b :
  (Z.even (str_len (TrimPrefix h "0x")) = true →
    (hexToBytes h = Ok b ↔ hex_DecodeString (TrimPrefix h "0x") = Ok b)) ∧
  hexToBytes ("0x" +:+ hex_EncodeToString b) = Ok b.
Proof.
  assert (∀ s, Z.even (str_len s) = true → negb (str_len s mod 2 =? 0) = false ∧
    ∃ n, String.length s = (2 * n)%nat) as Hev.
  { intros s Hs. rewrite Z.even_spec in Hs. destruct Hs as [k Hk]. unfold str_len in *.
    rewrite Hk, (Z.mul_comm 2), Z.mod_mul by lia. split; [done|]. exists (Z.to_nat k). lia. }
  split.
  - intros [Hm [n Hn]]%Hev. unfold hexToBytes. rewrite Hm. by apply (hex_pairs_decode n).
  - unfold hexToBytes. rewrite TrimPrefix_app. destruct (Hev (hex_EncodeToString b)) as [Hm [n Hn]].
    { unfold str_len. rewrite hex_encode_length, Nat2Z.inj_mul. by rewrite Z.even_mul. }
    rewrite Hm. apply (hex_pairs_decode n); [done|]. apply hex_decode_encode.
Qed.

(** A versioned hash is 0x01 followed by the last 31 bytes of SHA-256 of
    the commitment: 66 characters starting with 0x01. It is computed for
    exactly the commitments that are hex. *)
Theorem versioned_hash_shape commitment :
  match hex_DecodeString (TrimPrefix commitment "0x") with
  | Ok raw => ∃ first tail, sha256_Sum256 raw = String first tail ∧
      kzgCommitmentToVersionedHash commitment = Ok ("0x01" +:+ hex_EncodeToString tail) ∧
      String.length ("0x01" +:+ hex_EncodeToString tail) = 66%nat
  | Err _ => ∃ e, kzgCommitmentToVersionedHash commitment = Err e
  | Panic _ => True
  end.
Proof.
  unfold kzgCommitmentToVersionedHash.
  destruct (hex_DecodeString _) as [raw|e|p]; cbn [mbind outcome_bind wrap]; [|eauto|done].
  pose proof (sha256_length raw) as Hl. destruct (sha256_Sum256 raw) as [|a tail]; [done|].
  exists a, tail. split_and!; [done|done|].
  change (4 + String.length (hex_EncodeToString tail) = 66)%nat. rewrite hex_encode_length.
  simpl in Hl. lia.
Qed.

(** The value the repository's own test expects. *)
Example versioned_hash_mainnet :
  kzgCommitmentToVersionedHash
    "0xb28e4d255047f6e50b3d7548d37155b6e2289e82520aa6248d9fbe50e73b81d9f705cb3f2192d55caf54e26fb29c419a"
  = Ok "0x0175f564b393e44640ecffddce4010a42c1c966413987d8a59a253ef64a0c5cf".
Proof. vm_compute. reflexivity. Qed.

(** Slot arithmetic: every slot an epoch is made of belongs to that epoch,
    as long as the epoch's slots fit in 64 bits. *)
Theorem SlotToEpoch_first_slot epoch n i :
  0 ≤ epoch → 0 ≤ i < n → epoch * n + i < two64 →
  SlotToEpoch (u64_add (EpochToFirstSlot epoch n) i) n = Ok epoch.
Proof.
  intros He Hi Hlt. unfold SlotToEpoch, EpochToFirstSlot, u64_mul, u64_add.
  rewrite (wrap64_id (epoch * n)), wrap64_id by (unfold is_u64; nia).
  rewrite (proj2 (Z.eqb_neq n 0)) by lia. f_equal.
  rewrite Z.add_comm, Z.div_add, Z.div_small by lia. lia.
Qed.

Lemma SlotToEpoch_first_slot_witness :
  SlotToEpoch (u64_add (EpochToFirstSlot 269568 32) 31) 32 = Ok 269568.
Proof. apply SlotToEpoch_first_slot; unfold two64; lia. Defined.

(** ** The backoff as a state machine *)

(** One request, with a clock that does not run backwards. *)
Inductive req_step : Client → Client → Prop :=
  | req_step_get {A} http env url (decode : string → outcome A) c o c' :
      bc_lastBackoffTime c ≤ rq_start env → get http env url decode c = (o, c') → req_step c c'.

(** The backoff is off, or between the initial backoff and a minute; and no
    wait was longer than a minute. *)
Record backoff_inv (base : Z) (c : Client) : Prop := {
  bi_base_eq : bc_backoffBase c = base;
  bi_duration : bc_backoffDuration c = 0 ∨ base ≤ bc_backoffDuration c ≤ seconds 60;
  bi_waits : Forall (λ w, 0 ≤ w ≤ seconds 60) (bc_waits c) }.

Lemma on_429_duration now c base :
  0 < base ≤ seconds 60 → backoff_inv base c →
  bc_backoffDuration (on_429 now c) =
    (if bc_backoffDuration c =? 0 then base else Z.min (seconds 60) (2 * bc_backoffDuration c)) ∧
  backoff_inv base (on_429 now c).
Proof.
  intros Hb [Hbase Hd Hw].
  assert (bc_backoffDuration (on_429 now c) =
    if bc_backoffDuration c =? 0 then base else Z.min (seconds 60) (2 * bc_backoffDuration c)) as He.
  { cbn. destruct (Z.eqb_spec (bc_backoffDuration c) 0); [done|].
    unfold i64_mul. rewrite to_i64_id by (unfold is_i64, two63, seconds, time_Second in *; lia). zcases. }
  split; [done|]. split; [done| |done]. rewrite He. right.
  destruct (Z.eqb_spec (bc_backoffDuration c) 0); lia.
Qed.

Lemma backoff_wait_bounds base now c :
  0 < base → backoff_inv base c → bc_lastBackoffTime c ≤ now →
  0 ≤ backoff_wait now c ≤ seconds 60.
Proof.
  intros Hb [_ Hd _] Hn. unfold backoff_wait.
  destruct (_ && _) eqn:Hc; [|unfold seconds, time_Second; lia].
  apply andb_true_iff in Hc as [H1%Z.ltb_lt H2%Z.ltb_lt]. lia.
Qed.

Lemma req_step_inv base c c' :
  0 < base ≤ seconds 60 → backoff_inv base c → req_step c c' → backoff_inv base c'.
Proof.
  intros Hb Hi Hs. destruct Hs as [A http env url decode c o c' Hn Hg].
  pose proof (backoff_wait_bounds base (rq_start env) c ltac:(lia) Hi Hn) as Hw.
  assert (backoff_inv base (log_wait (backoff_wait (rq_start env) c) c)) as Hl.
  { destruct Hi as [? ? ?]. split; [done|done|by constructor]. }
  unfold get in Hg. set (c1 := log_wait _ c) in *.
  assert (∀ c2, backoff_inv base c2 → backoff_inv base (count_request c2)) as Hcount.
  { intros c2 [? ? ?]. by split. }
  assert (∀ c2, backoff_inv base c2 → backoff_inv base (reset_backoff c2)) as Hreset.
  { intros c2 [? ? ?]. split; [done|by left|done]. }
  repeat case_match; simplify_eq; auto; by apply on_429_duration; auto.
Qed.


(** Consecutive 429 replies double the backoff: after the (k+1)-th in a
    row, from a client with no backoff, it is the initial backoff times 2^k,
    capped at 60 s, and any later reply other than 404 or 429 clears it. *)
Theorem backoff_doubles base c (nows : list Z) k :
  0 < base ≤ seconds 60 → backoff_inv base c → bc_backoffDuration c = 0 → length nows = S k →
  let c' := foldl (λ c now, on_429 now (count_request c)) c nows in
  bc_backoffDuration c' = Z.min (seconds 60) (base * 2 ^ Z.of_nat k) ∧
  (∀ A http env url (decode : string → outcome A) status body o c'',
     rq_ctx env = None → (bc_limited c' = true → rq_limit env = None) →
     http url = Response status body → status ≠ StatusNotFound → status ≠ StatusTooManyRequests →
     get http env url decode c' = (o, c'') → bc_backoffDuration c'' = 0).
Proof.
  intros Hb Hi H0 Hlen c'.
  assert (∀ ns c1, backoff_inv base c1 → bc_backoffDuration c1 = 0 → ∀ m, length ns = S m →
    let c2 := foldl (λ c now, on_429 now (count_request c)) c1 ns in
    backoff_inv base c2 ∧ bc_backoffDuration c2 = Z.min (seconds 60) (base * 2 ^ Z.of_nat m)) as Hk.
  { intros ns. induction ns as [|n ns IH] using rev_ind; intros c1 Hi1 H1 m Hm; [done|].
    rewrite length_app in Hm. simpl in Hm. rewrite foldl_snoc.
    assert (∀ c2, backoff_inv base c2 → backoff_inv base (count_request c2)) as Hcount.
    { intros c2 [? ? ?]. by split. }
    destruct m as [|m].
    - destruct ns; [|simpl in Hm; lia]. cbn [foldl].
      destruct (on_429_duration n (count_request c1) base Hb (Hcount _ Hi1)) as [Hd Hinv].
      split; [done|]. rewrite Hd. cbn [bc_backoffDuration count_request]. rewrite H1. simpl. lia.
    - destruct (IH c1 Hi1 H1 m) as [Hi2 H2]; [lia|]. set (c2 := foldl _ c1 ns) in *.
      destruct (on_429_duration n (count_request c2) base Hb (Hcount _ Hi2)) as [Hd Hinv].
      split; [done|]. rewrite Hd. cbn [bc_backoffDuration count_request]. rewrite H2.
      rewrite Nat2Z.inj_succ, Z.pow_succ_r by lia.
      assert (0 < 2 ^ Z.of_nat m) by (apply Z.pow_pos_nonneg; lia).
      destruct (Z.eqb_spec (Z.min (seconds 60) (base * 2 ^ Z.of_nat m)) 0); nia. }
  split; [by apply Hk|].
  intros A http env url decode status body o c'' Hctx Hlim Hh H4 H9 Hg.
  unfold get in Hg. rewrite Hctx in Hg. cbn [bc_limited log_wait] in Hg.
  assert ((if bc_limited c' then rq_limit env else None) = None) as Hl.
  { destruct (bc_limited c'); auto. }
  rewrite Hl, Hh, (proj2 (Z.eqb_neq _ _) H4), (proj2 (Z.eqb_neq _ _) H9) in Hg.
  repeat case_match; simplify_eq; done.
Qed.

(** ** Fetching an epoch *)

(** The configuration of a client, which no request changes. *)
Definition same_conf (c c' : Client) : Prop :=
  bc_base c = bc_base c' ∧ bc_limited c = bc_limited c' ∧ bc_slotsPerEpoch c = bc_slotsPerEpoch c'.

#[export] Instance same_conf_equiv : Equivalence same_conf.
Proof. split; unfold same_conf; repeat intro; intuition congruence. Qed.

Section FetchFacts.
Context {J : BeaconJson} (http : string → http_reply) (env : ReqEnv).
Context (el : option (string → string → error + ELBlobData)).

Lemma get_conf {A} url (decode : string → outcome A) c :
  same_conf c (snd (get http env url decode c)).
Proof. unfold get. repeat case_match; done. Qed.

Lemma get_outcome {A} url (decode : string → outcome A) c c' :
  same_conf c c' → fst (get http env url decode c) = fst (get http env url decode c').
Proof.
  intros (_ & Hl & _). unfold get. cbn [bc_limited log_wait]. rewrite Hl. repeat case_match; done.
Qed.

Lemma fetch_slot_conf epoch slot c : same_conf c (snd (fetch_slot http env el epoch slot c)).
Proof.
  unfold fetch_slot, GetBlobSidecars, mbind, go_bind, attempt, gets, wrapf.
  pose proof (get_conf (bc_base c +:+ "/eth/v1/beacon/blob_sidecars/" +:+ FormatUint slot) json_sidecars c) as Hc.
  destruct (get _ _ _ _ c) as [[a|e|p] c']; cbn in *; [done| |done].
  by case_match.
Qed.

Lemma fetch_slot_outcome epoch slot c c' :
  same_conf c c' → fst (fetch_slot http env el epoch slot c) = fst (fetch_slot http env el epoch slot c').
Proof.
  intros Hs. unfold fetch_slot, GetBlobSidecars, mbind, go_bind, attempt, gets, wrapf.
  destruct Hs as (Hb & Hrest). rewrite Hb.
  pose proof (get_outcome (bc_base c' +:+ "/eth/v1/beacon/blob_sidecars/" +:+ FormatUint slot)
    json_sidecars c c' (conj Hb Hrest)) as Ho.
  destruct (get _ _ _ _ c) as [o c1], (get _ _ _ _ c') as [o' c2]. cbn in Ho. subst o'.
  destruct o; cbn; [done| |done]. by case_match.
Qed.

(** What the goroutine of slot [i] computes, whenever it runs. *)
Definition slot_result (epoch firstSlot : Z) (c : Client) (i : nat) : outcome (list BlobInput) :=
  fst (fetch_slot http env el epoch (u64_add firstSlot (Z.of_nat i)) c).

Lemma fetch_slots_outcome epoch first c0 (f : nat → list BlobInput) order :
  ∀ c acc, same_conf c0 c →
  (∀ i, i ∈ order → slot_result epoch first c0 i = Ok (f i)) →
  fst (fetch_slots http env el epoch first order acc c) =
  Ok (foldl (λ acc i, <[i := f i]> acc) acc order).
Proof.
  induction order as [|i order IH]; intros c acc Hs Hok; [done|].
  cbn [fetch_slots]. unfold mbind, go_bind.
  pose proof (Hok i ltac:(left)) as Hi. unfold slot_result in Hi.
  rewrite (fetch_slot_outcome _ _ _ _ Hs) in Hi.
  pose proof (fetch_slot_conf epoch (u64_add first (Z.of_nat i)) c) as Hc.
  destruct (fetch_slot _ _ _ _ _ c) as [o c1]. cbn in Hi, Hc. subst o. cbn [foldl].
  apply IH; [by etransitivity|]. intros j Hj. apply Hok. by right.
Qed.

Lemma fetch_slots_fails epoch first c0 i order :
  ∀ c acc, same_conf c0 c → i ∈ order → ¬ is_Ok (slot_result epoch first c0 i) →
  ¬ is_Ok (fst (fetch_slots http env el epoch first order acc c)).
Proof.
  induction order as [|j order IH]; intros c acc Hs Hin Hn; [by apply not_elem_of_nil in Hin|].
  cbn [fetch_slots]. unfold mbind, go_bind.
  pose proof (fetch_slot_conf epoch (u64_add first (Z.of_nat j)) c) as Hc.
  destruct (fetch_slot _ _ _ epoch (u64_add first (Z.of_nat j)) c) as [o c1] eqn:Hf. cbn in Hc.
  destruct o as [l|e|p]; [|intros [? [=]]|intros [? [=]]].
  apply elem_of_cons in Hin as [->|Hin].
  - exfalso. apply Hn. unfold slot_result. rewrite (fetch_slot_outcome _ _ _ _ Hs), Hf. by exists l.
  - apply IH; [by etransitivity|done|done].
Qed.

Lemma foldl_insert_lookup {A} (f : nat → A) order l i :
  foldl (λ acc i, <[i := f i]> acc) l order !! i =
  if decide (i ∈ order ∧ (i < length l)%nat) then Some (f i) else l !! i.
Proof.
  revert l. induction order as [|j order IH]; intros l; cbn [foldl].
  { rewrite decide_False; [done|]. intros [[]%not_elem_of_nil _]. }
  rewrite IH, length_insert.
  destruct (decide (i ∈ order ∧ (i < length l)%nat)) as [[H1 H2]|H].
  { rewrite decide_True; [done|]. split; [by right|done]. }
  destruct (decide (i = j)) as [->|Hij].
  - destruct (decide (j < length l)%nat).
    + rewrite decide_True by (split; [left|done]). by apply list_lookup_insert_eq.
    + rewrite decide_False by (intros [_ ?]; done). by rewrite list_insert_ge by lia.
  - rewrite list_lookup_insert_ne by done. rewrite decide_False; [done|].
    intros [[->|Hin]%elem_of_cons Hl]; [done|]. by apply H.
Qed.

(** Filling every entry, in whatever order, gives them in slot order. *)
Lemma fill_all {A} (f : nat → A) order n d :
  order ≡ₚ seq 0 n → foldl (λ acc i, <[i := f i]> acc) (replicate n d) order = f <$> seq 0 n.
Proof.
  intros Hp. apply list_eq. intros i. rewrite foldl_insert_lookup, length_replicate.
  destruct (decide _) as [[Hi Hl]|Hn].
  - rewrite list_lookup_fmap, lookup_seq_lt by done. done.
  - assert (n ≤ i)%nat as Hge.
    { destruct (decide (n ≤ i)%nat); [done|]. exfalso. apply Hn. split; [|lia].
      rewrite Hp. apply elem_of_seq. lia. }
    rewrite !lookup_ge_None_2; [done|by rewrite length_fmap, length_seq|by rewrite length_replicate].
Qed.

Lemma mapM_out_Ok_inv {A B} (f : A → outcome B) l ys :
  mapM_out f l = Ok ys → Forall2 (λ x y, f x = Ok y) l ys.
Proof.
  revert ys. induction l as [|x l IH]; intros ys; simpl; [intros [= <-]; constructor|].
  destruct (f x) as [y| |] eqn:Hx; simpl; [|done|done].
  destruct (mapM_out f l) as [ys'| |]; simpl; [|done|done]. intros [= <-]. constructor; auto.
Qed.

Lemma mapM_out_not_Ok {A B} (f : A → outcome B) l :
  ¬ is_Ok (mapM_out f l) → ∃ x, x ∈ l ∧ ¬ is_Ok (f x).
Proof.
  induction l as [|x l IH]; simpl; [intros []; by eexists|].
  destruct (f x) as [y| |] eqn:Hx; simpl.
  - destruct (mapM_out f l) as [ys| |] eqn:Hl; simpl; intros Hn;
      [destruct Hn; by eexists|..]; destruct IH as (x' & Hin & Hx'); try (by intros [? [=]]);
      exists x'; (split; [by right|done]).
  - intros _. exists x. rewrite Hx. split; [left|by intros [? [=]]].
  - intros _. exists x. rewrite Hx. split; [left|by intros [? [=]]].
Qed.

End FetchFacts.

(** ** The properties at concrete inputs *)

Definition demo_client : Client := NewClient "http://node:5052/" (seconds 30) 8 false (seconds 1) 4 12.
Definition demo_env : ReqEnv := mkReqEnv 0 0 None None.

Definition demo_sidecar : BlobSidecar := mkBlobSidecar "0xroot" "0" "41" "" "" "0x0102" "0xaabb" "".

#[export] Instance demo_json : BeaconJson := {|
  json_finality _ := Ok ("7", "8");
  json_header _ := Ok ("1", "2", "", "", "");
  json_sidecars s := if bool_decide (s = "one") then Ok [demo_sidecar] else Ok [];
  json_payload _ := Ok ("0xh", "5");
  json_genesis _ := Ok "1606824023";
  json_config_name _ := Ok "MAINNET" |}.

(** Slot 41 has a block with one blob, slot 42 was missed, the others are empty. *)
Definition demo_http (url : string) : http_reply :=
  if bool_decide (url = "http://node:5052/eth/v1/beacon/blob_sidecars/41") then Response 200 "one"
  else if bool_decide (url = "http://node:5052/eth/v1/beacon/blob_sidecars/42") then Response 404 ""
  else Response 200 "none".

Lemma hexToBytes_correct_witness :
  hexToBytes "0x0102" = Ok (String (byte_of 1) (String (byte_of 2) "")).
Proof. exact (proj2 (hexToBytes_correct "" (String (byte_of 1) (String (byte_of 2) "")))). Defined.


Lemma backoff_doubles_witness :
  bc_backoffDuration (foldl (λ c now, on_429 now (count_request c)) demo_client [1; 2; 3]) = seconds 4.
Proof.
  apply (backoff_doubles (seconds 1) demo_client [1; 2; 3] 2);
    [unfold seconds, time_Second; lia|split; [done|by left|constructor]|done|done].
Defined.


Example demo_fetch_evaluated :
  bi_Slot <$> from_option ei_Blobs [] (match fst (FetchEpochInput demo_http demo_env None
    [2; 0; 3; 1]%nat 10 demo_client) with Ok i => Some i | _ => None end) = [41].
Proof. vm_compute. reflexivity. Qed.

(** isNotFound searches the error text, which includes the reply's body: a
    server error that mentions it makes a slot with blobs look missed. *)
Theorem not_found_body_skips_slot :
  fst (fetch_slot (λ _, Response 500 "upstream: not found (404)") demo_env None 10 41 demo_client) = Ok [].
Proof. vm_compute. reflexivity. Qed.
