(* ===== verification/ElClient.v ===== *)
(** * ElClient: beacon/elclient.go

    ExecutionClient resolves a blob to its execution-layer transaction through
    the beacon block's payload and eth_getBlockByHash, caching each block. *)

From S2P Require Import Prelude GoStd Types Db Beacon.

Record blockBlobIndex := mkBlockBlobIndex {
  bx_blockHash : string;
  bx_blockNumber : Z;
  bx_txByVHash : gmap string string }.

Record rpcTransaction := mkRpcTransaction {
  tx_Hash : string; tx_Type : string; tx_BlobVersionedHashes : list string }.

(** The client's own state: the beacon client it shares, and the cache. *)
Record ExecutionClient := mkExecutionClient {
  ec_beacon : Beacon.Client;
  ec_cache : gmap string blockBlobIndex }.

Definition NewExecutionClient (beacon : Beacon.Client) : ExecutionClient := mkExecutionClient beacon ∅.
Definition NewExecutionClient_timeout (timeout : Z) : Z := if timeout <=? 0 then seconds 30 else timeout.

(** The JSON-RPC envelope, and the transactions of a block. *)
Record jsonRPCResponse := mkJsonRPCResponse { rpc_Result : string; rpc_Error : option (Z * string) }.

Class ElJson := {
  json_rpc : string → outcome jsonRPCResponse;
  json_transactions : string → outcome (list rpcTransaction) }.

Section El.
Context {BJ : BeaconJson} {EJ : ElJson} (http : string → http_reply) (env : ReqEnv).
(** The reply to eth_getBlockByHash of a block hash. *)
Context (el_http : string → http_reply).

Definition call (blockHash : string) : outcome (list rpcTransaction) :=
  match el_http blockHash with
  | Transport e => Err e
  | Response status body =>
      if negb (status =? StatusOK) then
        Err (errors_New ("HTTP " +:+ FormatUint status +:+ ": " +:+ body))
      else
        resp ← json_rpc body;
        match rpc_Error resp with
        | Some (code, msg) => Err (errors_New ("rpc error " +:+ FormatUint code +:+ ": " +:+ msg))
        | None =>
            if bool_decide (rpc_Result resp = "") || bool_decide (rpc_Result resp = "null") then
              Err (errors_New "rpc result is null")
            else json_transactions (rpc_Result resp)
        end
  end.

Definition index_tx (m : gmap string string) (tx : rpcTransaction) : gmap string string :=
  if Nat.eqb (length (tx_BlobVersionedHashes tx)) 0 then m
  else foldl (λ m vh, <[ToLower vh := tx_Hash tx]> m) m (tx_BlobVersionedHashes tx).

Definition buildBlockIndex (payload : ExecutionPayloadInfo) : outcome blockBlobIndex :=
  txs ← wrap ("el: eth_getBlockByHash " +:+ pi_BlockHash payload) (call (pi_BlockHash payload));
  Ok (mkBlockBlobIndex (pi_BlockHash payload) (pi_BlockNumber payload) (foldl index_tx ∅ txs)).

Definition blockIndex (blockRoot : string) : Go ExecutionClient blockBlobIndex := λ e,
  match ec_cache e !! blockRoot with
  | Some idx => (Ok idx, e)
  | None =>
      let '(o, b) := wrapf ("el: resolve execution payload for " +:+ blockRoot)
                       (GetExecutionPayloadInfo http env blockRoot) (ec_beacon e) in
      let e := mkExecutionClient b (ec_cache e) in
      match o ≫= buildBlockIndex with
      | Ok idx => (Ok idx, mkExecutionClient b (<[blockRoot := idx]> (ec_cache e)))
      | Err er => (Err er, e)
      | Panic p => (Panic p, e)
      end
  end.

Definition GetBlobTxData (blockRoot versionedHash : string) : Go ExecutionClient ELBlobData :=
  idx ← blockIndex blockRoot;
  match bx_txByVHash idx !! ToLower versionedHash with
  | None => fail (errors_New ("el: versioned hash " +:+ versionedHash +:+ " not found in block " +:+ bx_blockHash idx))
  | Some txHash => mret (mkELBlobData txHash (bx_blockNumber idx) (bx_blockHash idx))
  end.
End El.

(** ** Facts *)

Section ElFacts.
Context {BJ : BeaconJson} {EJ : ElJson} (http : string → http_reply) (env : ReqEnv).
Context (el_http : string → http_reply).

(** The block index computed without the cache. *)
Definition fresh_index (b : Beacon.Client) (root : string) : outcome blockBlobIndex :=
  fst (blockIndex http env el_http root (mkExecutionClient b ∅)).

Lemma payload_conf root b :
  same_conf b (snd (GetExecutionPayloadInfo http env root b)).
Proof.
  unfold GetExecutionPayloadInfo, mbind, go_bind, gets, wrapf.
  pose proof (get_conf http env (bc_base b +:+ "/eth/v2/beacon/blocks/" +:+ root) json_payload b) as Hc.
  destruct (get _ _ _ _ b) as [[a|e|p] b']; cbn in *; [|done|done].
  destruct (bool_decide _); [done|]. cbn. unfold lift. by destruct (ParseUint _).
Qed.

Lemma payload_outcome root b b' :
  same_conf b b' →
  fst (GetExecutionPayloadInfo http env root b) = fst (GetExecutionPayloadInfo http env root b').
Proof.
  intros Hs. unfold GetExecutionPayloadInfo, mbind, go_bind, gets, wrapf.
  destruct Hs as (Hb & Hrest). rewrite Hb.
  pose proof (get_outcome http env (bc_base b' +:+ "/eth/v2/beacon/blocks/" +:+ root) json_payload b b'
    (conj Hb Hrest)) as Ho.
  destruct (get _ _ _ _ b) as [o c1], (get _ _ _ _ b') as [o' c2]. cbn in Ho. subst o'.
  destruct o; cbn; [|done|done]. destruct (bool_decide _); [done|]. cbn. unfold lift.
  by destruct (ParseUint _).
Qed.

Lemma fresh_index_conf b b' root : same_conf b b' → fresh_index b root = fresh_index b' root.
Proof.
  intros Hs. unfold fresh_index, blockIndex. cbn [ec_cache ec_beacon]. rewrite !lookup_empty.
  unfold wrapf. pose proof (payload_outcome root b b' Hs) as Ho.
  destruct (GetExecutionPayloadInfo _ _ _ b) as [o c1], (GetExecutionPayloadInfo _ _ _ b') as [o' c2].
  cbn in Ho. subst o'. by destruct (wrap _ o ≫= _).
Qed.

(** The cache only holds what a fresh lookup would give. *)
Definition cache_ok (b0 : Beacon.Client) (e : ExecutionClient) : Prop :=
  same_conf b0 (ec_beacon e) ∧ ∀ root idx, ec_cache e !! root = Some idx → fresh_index b0 root = Ok idx.

Lemma blockIndex_ok b0 root e :
  cache_ok b0 e →
  fst (blockIndex http env el_http root e) = fresh_index b0 root ∧
  cache_ok b0 (snd (blockIndex http env el_http root e)).
Proof.
  intros [Hc Hok]. unfold blockIndex at 1 2. destruct (ec_cache e !! root) as [idx|] eqn:He.
  { cbn. rewrite (Hok _ _ He). done. }
  rewrite (fresh_index_conf _ _ root Hc). unfold fresh_index, blockIndex. cbn [ec_cache ec_beacon].
  rewrite lookup_empty. unfold wrapf. pose proof (payload_conf root (ec_beacon e)) as Hp.
  destruct (GetExecutionPayloadInfo _ _ _ (ec_beacon e)) as [o c1] eqn:Hg. cbn in Hp.
  assert (same_conf b0 c1) as Hc1 by by etransitivity.
  destruct (wrap _ o ≫= _) as [idx|er|p] eqn:Hw; cbn; (split; [done|]); (split; [done|]); cbn; try done.
  intros r i. destruct (decide (root = r)) as [<-|Hne]; [|by rewrite lookup_insert_ne; [apply Hok|]].
  rewrite lookup_insert_eq. intros [= <-]. rewrite (fresh_index_conf _ _ root Hc).
  unfold fresh_index, blockIndex. cbn [ec_cache ec_beacon]. rewrite lookup_empty. unfold wrapf.
  by rewrite Hg, Hw.
Qed.

(** A sequence of earlier lookups, successful or not. *)
Fixpoint lookups (qs : list (string * string)) (e : ExecutionClient) : ExecutionClient :=
  match qs with
  | [] => e
  | (root, vh) :: qs' => lookups qs' (snd (GetBlobTxData http env el_http root vh e))
  end.

Lemma GetBlobTxData_snd root vh e :
  snd (GetBlobTxData http env el_http root vh e) = snd (blockIndex http env el_http root e).
Proof.
  unfold GetBlobTxData, mbind, go_bind. destruct (blockIndex _ _ _ root e) as [[idx| |] e']; [|done|done].
  by destruct (bx_txByVHash idx !! _).
Qed.

(** The block cache is transparent: after any earlier lookups,
    GetBlobTxData answers exactly as a new client would. *)
Theorem GetBlobTxData_cache_transparent b qs root vh :
  fst (GetBlobTxData http env el_http root vh (lookups qs (NewExecutionClient b))) =
  fst (GetBlobTxData http env el_http root vh (NewExecutionClient b)).
Proof.
  assert (cache_ok b (lookups qs (NewExecutionClient b))) as Hok.
  { assert (cache_ok b (NewExecutionClient b)) as H0 by (split; done).
    revert H0. generalize (NewExecutionClient b). induction qs as [|[r v] qs IH]; intros e He; [done|].
    cbn [lookups]. apply IH. rewrite GetBlobTxData_snd. by apply blockIndex_ok. }
  pose proof (proj1 (blockIndex_ok b root _ Hok)) as H1.
  pose proof (proj1 (blockIndex_ok b root (NewExecutionClient b) ltac:(split; done))) as H2.
  unfold GetBlobTxData, mbind, go_bind.
  destruct (blockIndex _ _ _ root (lookups _ _)) as [o1 e1],
    (blockIndex _ _ _ root (NewExecutionClient b)) as [o2 e2]. cbn in H1, H2. subst.
  destruct (fresh_index b root); [|done|done]. by destruct (bx_txByVHash _ !! _).
Qed.

Lemma index_hashes_lookup h vhs : ∀ (m : gmap string string) k t,
  foldl (λ m vh, <[ToLower vh := h]> m) m vhs !! k = Some t →
  (t = h ∧ ∃ vh, vh ∈ vhs ∧ ToLower vh = k) ∨ m !! k = Some t.
Proof.
  induction vhs as [|vh vhs IH]; intros m k t; cbn [foldl]; [by right|].
  intros [[-> (v & Hv & Hk)]|Hm]%IH; [left; split; [done|]; exists v; split; [by right|done]|].
  destruct (decide (ToLower vh = k)) as [<-|Hne].
  - rewrite lookup_insert_eq in Hm. injection Hm as <-. left. split; [done|]. exists vh. split; [left|done].
  - rewrite lookup_insert_ne in Hm by done. by right.
Qed.

Lemma index_tx_lookup txs : ∀ m k t,
  foldl index_tx m txs !! k = Some t →
  (∃ tx vh, tx ∈ txs ∧ vh ∈ tx_BlobVersionedHashes tx ∧ ToLower vh = k ∧ tx_Hash tx = t) ∨ m !! k = Some t.
Proof.
  induction txs as [|tx txs IH]; intros m k t; cbn [foldl]; [by right|].
  intros [(tx' & vh & ? & ?)|Hm]%IH; [left; exists tx', vh; split; [by right|done]|].
  unfold index_tx in Hm. destruct (Nat.eqb _ 0); [by right|].
  apply index_hashes_lookup in Hm as [[-> (vh & Hv & Hk)]|Hm]; [|by right].
  left. exists tx, vh. split; [left|done].
Qed.

(** An answer is right: the transaction returned for a versioned hash is
    one of the block's transactions and lists that hash (up to case), and the
    block hash and number are those of the beacon block's payload. *)
Theorem GetBlobTxData_sound b root vh d :
  fst (GetBlobTxData http env el_http root vh (NewExecutionClient b)) = Ok d →
  ∃ payload txs tx vh',
    fst (GetExecutionPayloadInfo http env root b) = Ok payload ∧
    call el_http (pi_BlockHash payload) = Ok txs ∧
    tx ∈ txs ∧ vh' ∈ tx_BlobVersionedHashes tx ∧ ToLower vh' = ToLower vh ∧
    d = mkELBlobData (tx_Hash tx) (pi_BlockNumber payload) (pi_BlockHash payload).
Proof.
  unfold GetBlobTxData, blockIndex, mbind, go_bind, wrapf. cbn [ec_cache ec_beacon NewExecutionClient].
  rewrite lookup_empty.
  destruct (GetExecutionPayloadInfo _ _ _ b) as [[p| |] b']; cbn; [|done|done].
  unfold buildBlockIndex. destruct (call _ (pi_BlockHash p)) as [txs| |] eqn:Hcall; cbn; [|done|done].
  destruct (foldl index_tx ∅ txs !! ToLower vh) as [t|] eqn:Ht; cbn; [|done]. intros [= <-].
  apply index_tx_lookup in Ht as [(tx & vh' & Hin & Hv & Hk & <-)|Hn]; [|by rewrite lookup_empty in Hn].
  by exists p, txs, tx, vh'.
Qed.
End ElFacts.

(** ** The property at a concrete input *)

Definition demo_el_json : ElJson := {|
  json_rpc s := Ok (mkJsonRPCResponse s None);
  json_transactions _ := Ok [mkRpcTransaction "0xt1" "0x2" []; mkRpcTransaction "0xt2" "0x3" ["0x01AB"]] |}.

Lemma GetBlobTxData_sound_witness : ∃ payload,
  fst (GetExecutionPayloadInfo (λ _, Response 200 "block") demo_env "0xroot" demo_client) = Ok payload ∧
  mkELBlobData "0xt2" 5 "0xh" = mkELBlobData "0xt2" (pi_BlockNumber payload) (pi_BlockHash payload).
Proof.
  destruct (GetBlobTxData_sound (EJ := demo_el_json) (λ _, Response 200 "block") demo_env
    (λ _, Response 200 "{}") demo_client "0xroot" "0x01ab" (mkELBlobData "0xt2" 5 "0xh"))
    as (p & txs & tx & vh' & Hp & _ & _ & _ & _ & Hd).
  { vm_compute. reflexivity. }
  exists p. split; [exact Hp|]. injection Hd as _ Hn Hh. by rewrite <- Hn, <- Hh.
Defined.
