(* ===== verification/Ipfs.v ===== *)
(** * Ipfs: ipfs/client.go and blobscan/notifier.go

    The Kubo RPC client and the blobscan notifier. The node behind the API is a
    parameter: a state [N] and its reply to each request ([Kubo]), with what
    the code relies on of block/put and block/get in [KuboLaws]. *)

From S2P Require Import Prelude GoStd Types Ipld Store IpldModel Blob Db Beacon.

(** ** Names and addresses *)

Definition normalizeAddr (addr : string) : string :=
  if HasPrefix addr "http://" || HasPrefix addr "https://" then TrimRight addr "/"
  else
    let parts := Split (TrimPrefix addr "/") "/" in
    match parts with
    | _ :: p1 :: _ :: p3 :: _ => "http://" +:+ p1 +:+ ":" +:+ p3
    | _ => "http://" +:+ addr
    end.

(** [fmt.Sprintf("%x", n)]. *)
Fixpoint format_hex_go (fuel : nat) (n : Z) (acc : string) : string :=
  match fuel with
  | O => acc
  | S fuel' =>
      let acc := String (hex_digit (n mod 16)) acc in
      if n / 16 =? 0 then acc else format_hex_go fuel' (n / 16) acc
  end.
Definition format_hex (n : Z) : string := format_hex_go 16 n "".

Definition codecName (codec : Z) : string :=
  if codec =? 0x55 then "raw"
  else if codec =? 0x71 then "dag-cbor"
  else if codec =? 0x70 then "dag-pb"
  else "0x" +:+ format_hex codec.

Definition mhName (mhType : Z) : string :=
  if mhType =? 0x12 then "sha2-256"
  else if mhType =? 0x14 then "sha3-512"
  else if mhType =? 0x1b then "keccak-256"
  else "0x" +:+ format_hex mhType.

(** ** The node *)

(** The requests, by endpoint; the base URL is the node itself. *)
Inductive kubo_req :=
  | ReqBlockStat (id : string)                                       (* block/stat, offline *)
  | ReqBlockPut (codec mhtype : string) (mhlen : Z) (pin : bool) (data : string)
  | ReqBlockGet (id : string)
  | ReqPinAdd (id : string)                                          (* recursive *)
  | ReqPinLs                                                         (* type=recursive *)
  | ReqRefs (id : string)                                            (* recursive, offline *)
  | ReqDagStat (id : string)
  | ReqNamePublish (path key ttl lifetime : string)
  | ReqNameResolve (name : string)
  | ReqKeyList
  | ReqRepoStat (sizeOnly : bool)
  | ReqId.

Class Kubo (N : Type) := kubo_rpc : kubo_req → N → http_reply * N.

(** Field projections of the replies, by encoding/json. *)
Record RepoStat := mkRepoStat { rs_RepoSize : Z; rs_StorageMax : Z; rs_NumObjects : Z }.
Record NodeInfo := mkNodeInfo {
  ni_ID : string; ni_AgentVersion : string; ni_ProtocolVersion : string; ni_Addresses : list string }.
Record IPNSPublishResult := mkIPNSPublishResult { pr_Name : string; pr_Value : string }.

Class KuboJson := {
  json_pin_keys : string → outcome (list string);
  json_refs : string → list (outcome (string * string));  (* the stream of {Ref, Err} objects *)
  json_dag_size : string → outcome Z;
  json_publish : string → outcome IPNSPublishResult;
  json_path : string → outcome string;
  json_key_names : string → outcome (list string);
  json_repo_stat : string → outcome RepoStat;
  json_node_info : string → outcome NodeInfo }.

(** What the code relies on of Kubo: a block/put answered 200 leaves a block
    under the CID of that codec and hash (the one given, or one already there),
    no request drops or rewrites a block, and a block/get answered 200 returns
    the bytes held. *)
Class KuboLaws (N : Type) {K : Kubo N} {I : Ipld} := {
  kubo_blocks : N → cid → option string;
  kubo_put_ok lp n pin data body n' :
    kubo_rpc (ReqBlockPut (codecName (lp_Codec lp)) (mhName (lp_MhType lp)) (lp_MhLength lp) pin data) n
      = (Response StatusOK body, n') →
    lp_Version lp = 1 →
    ∃ held, kubo_blocks n' (data_cid lp data) = Some held ∧ data_cid lp held = data_cid lp data;
  kubo_keeps req n r n' c data :
    kubo_rpc req n = (r, n') → kubo_blocks n c = Some data → kubo_blocks n' c = Some data;
  kubo_get_ok n c body n' :
    kubo_rpc (ReqBlockGet (cid_String c)) n = (Response StatusOK body, n') →
    kubo_blocks n' c = Some body }.

(** ** The client *)

Record Client := mkClient { ic_base : string; ic_timeout : Z; ic_pinOnAdd : bool; ic_uploadWorkers : Z }.

Definition NewClient (apiAddr : string) (timeout : Z) (pinOnAdd : bool) (uploadWorkers : Z) : Client :=
  mkClient (normalizeAddr apiAddr) timeout pinOnAdd (if uploadWorkers <=? 0 then 1 else uploadWorkers).

Section Client.
Context {N : Type} {K : Kubo N} {KJ : KuboJson} {I : Ipld} {R : GoRuntime} (c : Client).

Definition rpc (what : string) (req : kubo_req) : Go N string := λ n,
  match kubo_rpc req n with
  | (Transport e, n') => (Err (errorf_w ("ipfs: " +:+ what +:+ " request") e), n')
  | (Response status body, n') =>
      if negb (status =? StatusOK) then
        (Err (errors_New ("ipfs: " +:+ what +:+ " HTTP " +:+ FormatUint status +:+ ": " +:+ body)), n')
      else (Ok body, n')
  end.

Definition HasBlock (id : cid) : Go N bool := λ n,
  match kubo_rpc (ReqBlockStat (cid_String id)) n with
  | (Transport e, n') => (Err (errorf_w "ipfs: block/stat request" e), n')
  | (Response status _, n') => (Ok (status =? StatusOK), n')
  end.

(** The canonical form of a pinned key, or the raw one when it does not parse. *)
Definition pin_key (raw : string) : string :=
  match cid_Decode raw with Ok id => cid_String id | _ => raw end.

Definition ListRecursivePins : Go N (gset string) :=
  body ← rpc "pin/ls" ReqPinLs;
  keys ← wrapf "ipfs: pin/ls decode" (lift (json_pin_keys body));
  mret (list_to_set (pin_key <$> keys)).

Definition PutBlock (blk : block) : Go N unit :=
  let p := blk_Cid blk in
  _ ← rpc "block/put" (ReqBlockPut (codecName (cid_Codec p)) (mhName (cid_MhType p)) (cid_MhLength p)
                         (ic_pinOnAdd c) (blk_RawData blk));
  mret tt.

(** The uploads in the order they complete; the first error is returned, and
    [inflight] of the uploads already started may still complete. *)
Fixpoint put_blocks (inflight : nat) (total : Z) (i : Z) (blks : list block) : Go N unit := λ n,
  match blks with
  | [] => (Ok tt, n)
  | blk :: rest =>
      match PutBlock blk n with
      | (Ok _, n') => put_blocks inflight total (i + 1) rest n'
      | (Err e, n') =>
          (Err (errorf_w ("ipfs: put block " +:+ FormatUint i +:+ "/" +:+ FormatUint total
                          +:+ " (" +:+ cid_String (blk_Cid blk) +:+ ")") e),
           foldl (λ n b, snd (PutBlock b n)) n' (take inflight rest))
      | (Panic p, n') => (Panic p, n')
      end
  end.

Definition PutBlockstore (inflight : nat) (bs : MemBlockstore.t) : Go N unit :=
  let blks := MemBlockstore.All bs in
  if Nat.eqb (length blks) 0 then mret tt
  else put_blocks inflight (Z.of_nat (length blks)) 1 blks.

Definition GetBlock (id : cid) : Go N block :=
  data ← rpc "block/get" (ReqBlockGet (cid_String id));
  lift (NewBlockWithCid data id).

Fixpoint GetBlocks (cids : list cid) : Go (N * MemBlockstore.t) unit :=
  match cids with
  | [] => mret tt
  | id :: rest =>
      blk ← wrapf ("ipfs: get block " +:+ cid_String id) (zoom fst (λ n w, (n, snd w)) (GetBlock id));
      _ ← wrapf ("ipfs: put block " +:+ cid_String id +:+ " into store")
            (zoom snd (λ bs w, (fst w, bs)) (MemBlockstore.Put blk));
      GetBlocks rest
  end.

Definition Pin (id : cid) : Go N unit := _ ← rpc "pin/add" (ReqPinAdd (cid_String id)); mret tt.

Fixpoint check_refs (root : cid) (refs : list (outcome (string * string))) : outcome unit :=
  match refs with
  | [] => Ok tt
  | r :: rest =>
      ref ← wrap "ipfs: refs decode" r;
      if negb (bool_decide (snd ref = "")) then
        Err (errors_New ("ipfs: block missing locally under " +:+ cid_String root +:+ ": " +:+ snd ref))
      else check_refs root rest
  end.

Definition VerifyLocal (root : cid) : Go N unit :=
  body ← rpc "refs" (ReqRefs (cid_String root));
  lift (check_refs root (json_refs body)).

Definition DagStat (root : cid) : Go N Z :=
  body ← rpc "dag/stat" (ReqDagStat (cid_String root));
  wrapf "ipfs: dag/stat decode" (lift (json_dag_size body)).

Definition PublishIPNS (keyName : string) (target : cid) (ttl lifetime : string)
    : Go N IPNSPublishResult :=
  body ← rpc "name/publish" (ReqNamePublish ("/ipfs/" +:+ cid_String target) keyName ttl lifetime);
  wrapf "ipfs: name/publish decode" (lift (json_publish body)).

Definition ResolveIPNS (ipnsName : string) : Go N string :=
  body ← rpc "name/resolve" (ReqNameResolve ipnsName);
  wrapf "ipfs: name/resolve decode" (lift (json_path body)).

Definition KeyList : Go N (list string) :=
  body ← rpc "key/list" ReqKeyList;
  wrapf "ipfs: key/list decode" (lift (json_key_names body)).

Definition GetRepoStat (sizeOnly : bool) : Go N RepoStat :=
  body ← rpc "repo/stat" (ReqRepoStat sizeOnly);
  wrapf "ipfs: repo/stat decode" (lift (json_repo_stat body)).

Definition GetNodeInfo : Go N NodeInfo :=
  body ← rpc "id" ReqId;
  wrapf "ipfs: id decode" (lift (json_node_info body)).
End Client.

(** ** The notifier *)

Record BlobReference := mkBlobReference { bref_VersionedHash : string; bref_DataCID : string; bref_MetaCID : string }.
Record Notifier := mkNotifier { nt_apiURL : string; nt_apiKey : string }.

Definition NewNotifier (apiURL apiKey : string) : option Notifier :=
  if bool_decide (apiURL = "") then None else Some (mkNotifier (TrimRight apiURL "/") apiKey).

(** A POST the notifier makes: URL, Authorization header, references. *)
Record notification := mkNotification {
  no_url : string; no_authorization : option string; no_references : list BlobReference }.

(** NotifyBlobs appends the request it sends to the log of requests; what the
    API answers is only logged. *)
Definition NotifyBlobs (n : option Notifier) (refs : list BlobReference) : Go (list notification) unit :=
  match n, refs with
  | None, _ | _, [] => mret tt
  | Some n, _ =>
      modify (λ sent, sent ++ [mkNotification (nt_apiURL n +:+ "/blobs/ipfs-references")
        (if bool_decide (nt_apiKey n = "") then None else Some ("Bearer " +:+ nt_apiKey n)) refs])
  end.

(** ** Facts *)

Section IpfsFacts.
Context {N : Type} {K : Kubo N} {KJ : KuboJson} {I : Ipld} {KL : KuboLaws N} {R : GoRuntime} (c : Client).

(** The node holds the block, or one whose digest collides with it. *)
Definition holds (n : N) (b : block) : Prop :=
  ∃ held, kubo_blocks n (blk_Cid b) = Some held ∧ (held = blk_RawData b ∨ digest_collision).

Definition grows (n n' : N) : Prop :=
  ∀ k d, kubo_blocks n k = Some d → kubo_blocks n' k = Some d.

#[export] Instance grows_preorder : PreOrder grows.
Proof. split; [by intros n k d|]. intros n1 n2 n3 H1 H2 k d Hd. auto. Qed.

Lemma holds_grows n n' b : grows n n' → holds n b → holds n' b.
Proof. intros Hg (h & Hh & Hd). exists h. auto. Qed.

Lemma rpc_grows what req n : grows n (snd (rpc what req n)).
Proof.
  intros k d Hk. unfold rpc. destruct (kubo_rpc req n) as [r n'] eqn:Hr.
  pose proof (kubo_keeps _ _ _ _ _ _ Hr Hk). destruct r as [e|st body]; [done|].
  by destruct (negb _).
Qed.

Lemma PutBlock_grows b n : grows n (snd (PutBlock c b n)).
Proof.
  unfold PutBlock, mbind, go_bind.
  pose proof (rpc_grows "block/put" (ReqBlockPut (codecName (cid_Codec (blk_Cid b)))
    (mhName (cid_MhType (blk_Cid b))) (cid_MhLength (blk_Cid b)) (ic_pinOnAdd c) (blk_RawData b)) n) as Hg.
  destruct (rpc _ _ n) as [[]]; done.
Qed.

Lemma PutBlock_holds b n u n' : certified b → PutBlock c b n = (Ok u, n') → holds n' b.
Proof.
  intros (lp & Hv & Hm & Hc). unfold PutBlock, mbind, go_bind, rpc. rewrite Hc at 1 2 3.
  cbn [cid_Codec cid_MhType cid_MhLength data_cid BuildLink].
  destruct (kubo_rpc _ n) as [r n1] eqn:Hr. destruct r as [e|st body]; [done|].
  destruct (Z.eqb_spec st StatusOK) as [->|]; cbn; [|done]. intros [= <- <-].
  destruct (kubo_put_ok lp n _ _ _ _ Hr Hv) as (held & Hh & Heq). exists held. rewrite Hc.
  split; [done|]. by apply data_cid_binding in Heq.
Qed.

Lemma foldl_PutBlock_grows blks n : grows n (foldl (λ n b, snd (PutBlock c b n)) n blks).
Proof.
  revert n. induction blks as [|b blks IH]; intros n; cbn [foldl]; [reflexivity|].
  etransitivity; [apply (PutBlock_grows b)|apply IH].
Qed.

Lemma put_blocks_spec inflight total blks : ∀ i n,
  Forall certified blks →
  let '(o, n') := put_blocks c inflight total i blks n in
  grows n n' ∧ match o with Ok _ => Forall (holds n') blks | _ => True end.
Proof.
  induction blks as [|b blks IH]; intros i n Hl; cbn [put_blocks]; [split; [reflexivity|done]|].
  apply Forall_cons in Hl as [Hb Hl]. pose proof (PutBlock_grows b n) as Hg.
  destruct (PutBlock c b n) as [[u|e|p] n1] eqn:Hp; cbn in Hg.
  - specialize (IH (i + 1) n1 Hl). destruct (put_blocks _ _ _ _ blks n1) as [o n2].
    destruct IH as [Hg2 Ho]. split; [by etransitivity|]. destruct o; [|done|done].
    constructor; [|done]. eapply holds_grows; [done|]. by eapply PutBlock_holds.
  - split; [|done]. etransitivity; [done|]. apply foldl_PutBlock_grows.
  - done.
Qed.

Lemma put_blocks_grows inflight total blks : ∀ i n, grows n (snd (put_blocks c inflight total i blks n)).
Proof.
  induction blks as [|b blks IH]; intros i n; cbn [put_blocks]; [reflexivity|].
  pose proof (PutBlock_grows b n) as Hg. destruct (PutBlock c b n) as [[u|e|p] n1]; cbn in Hg |- *.
  - etransitivity; [exact Hg|apply IH].
  - etransitivity; [exact Hg|apply foldl_PutBlock_grows].
  - exact Hg.
Qed.

(** No request of the client drops a block. *)
Lemma PutBlockstore_grows inflight bs n : grows n (snd (PutBlockstore c inflight bs n)).
Proof. unfold PutBlockstore. destruct (Nat.eqb _ _); [reflexivity|apply put_blocks_grows]. Qed.

Lemma VerifyLocal_grows root n : grows n (snd (VerifyLocal root n)).
Proof.
  unfold VerifyLocal, mbind, go_bind. pose proof (rpc_grows "refs" (ReqRefs (cid_String root)) n) as Hg.
  destruct (rpc _ _ n) as [[]]; exact Hg.
Qed.

Lemma Pin_grows id n : grows n (snd (Pin id n)).
Proof.
  unfold Pin, mbind, go_bind. pose proof (rpc_grows "pin/add" (ReqPinAdd (cid_String id)) n) as Hg.
  destruct (rpc _ _ n) as [[]]; exact Hg.
Qed.

Lemma PutBlockstore_spec inflight (bs : MemBlockstore.t) n :
  (∀ k b, MemBlockstore.blocks bs !! k = Some b → certified b) →
  let '(o, n') := PutBlockstore c inflight bs n in
  grows n n' ∧
  match o with
  | Ok _ => ∀ k b, MemBlockstore.blocks bs !! k = Some b → holds n' b
  | _ => True
  end.
Proof.
  intros Hl. unfold PutBlockstore.
  assert (∀ b, b ∈ MemBlockstore.All bs ↔ ∃ k, MemBlockstore.blocks bs !! k = Some b) as Hall.
  { intros b. unfold MemBlockstore.All. rewrite map_range_perm, list_elem_of_fmap. split.
    - intros ([k b'] & -> & Hk%elem_of_map_to_list). eauto.
    - intros [k Hk]. exists (k, b). by rewrite elem_of_map_to_list. }
  destruct (Nat.eqb_spec (length (MemBlockstore.All bs)) 0) as [H0|H0].
  { split; [reflexivity|]. intros k b Hb. apply length_zero_iff_nil in H0.
    assert (b ∈ MemBlockstore.All bs) as Hin by (apply Hall; eauto).
    rewrite H0 in Hin. by apply not_elem_of_nil in Hin. }
  pose proof (put_blocks_spec inflight (Z.of_nat (length (MemBlockstore.All bs))) (MemBlockstore.All bs) 1 n) as Hp.
  destruct (put_blocks _ _ _ _ _ n) as [o n']. destruct Hp as [Hg Ho].
  { apply Forall_forall. intros b [k Hk]%Hall. by eapply Hl. }
  split; [done|]. destruct o; [|done|done]. intros k b Hb. rewrite Forall_forall in Ho.
  apply Ho, Hall. eauto.
Qed.

(** An upload that reports success is complete: in whatever order the
    blocks of a store are uploaded, when PutBlockstore returns no error the
    node holds every one of them with its bytes (or SHA-256 collides); and,
    success or error, the node loses none of the blocks it had. *)
Theorem PutBlockstore_complete inflight (bs : MemBlockstore.t) n :
  (∀ k b, MemBlockstore.blocks bs !! k = Some b → certified b) →
  let '(o, n') := PutBlockstore c inflight bs n in
  grows n n' ∧
  match o with
  | Ok _ => ∀ k b, MemBlockstore.blocks bs !! k = Some b → holds n' b
  | _ => True
  end.
Proof. apply PutBlockstore_spec. Qed.
End IpfsFacts.

Lemma Contains_cons_slash a s :
  Contains (String a s) "/" = false → a ≠ "/"%char ∧ Contains s "/" = false.
Proof.
  change (Contains (String a s) "/") with (String.prefix "/" (String a s) || Contains s "/").
  rewrite orb_false_iff. intros [Hp Hs]. split; [|done]. intros ->. by destruct s.
Qed.

Lemma Split_cons a s : a ≠ "/"%char →
  Split (String a s) "/" =
  match Split s "/" with [] => [String a ""] | p :: ps => String a p :: ps end.
Proof. intros Ha. cbn [Split]. by rewrite bool_decide_eq_false_2. Qed.

Lemma Split_app p s : Contains p "/" = false → Split (p +:+ String "/" s) "/" = p :: Split s "/".
Proof.
  induction p as [|a p IH]; intros Hp; [done|]. apply Contains_cons_slash in Hp as [Ha Hp].
  change (String a p +:+ String "/" s) with (String a (p +:+ String "/" s)).
  by rewrite Split_cons, IH.
Qed.

Lemma Split_last p : Contains p "/" = false → Split p "/" = [p].
Proof.
  induction p as [|a p IH]; intros Hp; [done|]. apply Contains_cons_slash in Hp as [Ha Hp].
  by rewrite Split_cons, IH.
Qed.

(** A TCP multiaddr is turned into the HTTP URL of its host and port. *)
Theorem normalizeAddr_multiaddr proto host port :
  Contains proto "/" = false → Contains host "/" = false → Contains port "/" = false →
  normalizeAddr ("/" +:+ proto +:+ "/" +:+ host +:+ "/tcp/" +:+ port) = "http://" +:+ host +:+ ":" +:+ port.
Proof.
  intros H1 H2 H3. unfold normalizeAddr.
  change (HasPrefix ("/" +:+ ?s) _) with false. cbn [orb].
  assert (TrimPrefix ("/" +:+ proto +:+ "/" +:+ host +:+ "/tcp/" +:+ port) "/" =
    proto +:+ String "/" (host +:+ String "/" ("tcp" +:+ String "/" port))) as ->.
  { apply TrimPrefix_app. }
  rewrite (Split_app proto), (Split_app host), (Split_app "tcp"), Split_last by done. done.
Qed.

(** ** The properties at concrete inputs *)

(** A node that keeps blocks: block/put of a raw or dag-cbor block hashed with
    SHA-256 stores it unless its CID is taken. *)
Definition model_put (codec mhtype : string) (mhlen : Z) (data : string) (n : gmap cid string)
    : http_reply * gmap cid string :=
  let codes := (if bool_decide (codec = "raw") then Some 0x55
                else if bool_decide (codec = "dag-cbor") then Some 0x71 else None,
                if bool_decide (mhtype = "sha2-256") then true else false) in
  match codes with
  | (Some code, true) =>
      let k := data_cid (mkLinkPrototype 1 code mh_SHA2_256 mhlen) data in
      match n !! k with
      | Some held => if bool_decide (data_cid (mkLinkPrototype 1 code mh_SHA2_256 mhlen) held = k)
                     then (Response StatusOK (cid_String k), n) else (Response 500 "hash mismatch", n)
      | None => (Response StatusOK (cid_String k), <[k := data]> n)
      end
  | _ => (Response 500 "unrecognized codec", n)
  end.

Definition model_get (id : string) (n : gmap cid string) : http_reply :=
  match cid_Decode id with
  | Ok k => match n !! k with
            | Some d => Response StatusOK d
            | None => Response 500 "not found"
            end
  | _ => Response 500 "invalid cid"
  end.

#[export] Instance kubo_model : Kubo (gmap cid string) := λ req n,
  match req with
  | ReqBlockPut codec mhtype mhlen _ data => model_put codec mhtype mhlen data n
  | ReqBlockGet id => (model_get id n, n)
  | ReqPinAdd _ | ReqPinLs | ReqRefs _ | ReqBlockStat _ => (Response StatusOK "", n)
  | _ => (Response 500 "not supported", n)
  end.

Lemma codecName_code lp code :
  (if bool_decide (codecName (lp_Codec lp) = "raw") then Some 0x55
   else if bool_decide (codecName (lp_Codec lp) = "dag-cbor") then Some 0x71 else None) = Some code →
  lp_Codec lp = code.
Proof.
  unfold codecName. destruct (Z.eqb_spec (lp_Codec lp) 0x55) as [->|H1]; [by intros [= <-]|].
  destruct (Z.eqb_spec (lp_Codec lp) 0x71) as [->|H2]; [by intros [= <-]|].
  by destruct (lp_Codec lp =? 0x70).
Qed.

Lemma mhName_sha lp : mhName (lp_MhType lp) = "sha2-256" → lp_MhType lp = mh_SHA2_256.
Proof.
  unfold mhName. destruct (Z.eqb_spec (lp_MhType lp) 0x12) as [->|]; [done|].
  destruct (lp_MhType lp =? 0x14); [done|]. by destruct (lp_MhType lp =? 0x1b).
Qed.

#[export] Instance kubo_model_laws : KuboLaws (gmap cid string).
Proof.
  refine (@Build_KuboLaws (gmap cid string) kubo_model ipld_model (λ n k, n !! k) _ _ _).
  - intros [v co mt ml] n pin data body n' Hr Hv. cbn [lp_Version lp_Codec lp_MhType lp_MhLength] in *.
    unfold kubo_rpc, kubo_model, model_put in Hr.
    destruct (if bool_decide (codecName co = "raw") then _ else _) as [code|] eqn:Hc; [|done].
    apply (codecName_code (mkLinkPrototype v co mt ml)) in Hc. cbn in Hc.
    case_bool_decide as Hm; [|done]. apply (mhName_sha (mkLinkPrototype v co mt ml)) in Hm. cbn in Hm. subst.
    destruct (n !! data_cid _ data) as [held|] eqn:Hn.
    + case_bool_decide as Hh; [|done]. injection Hr as _ <-. by exists held.
    + injection Hr as _ <-. exists data. by rewrite lookup_insert_eq.
  - intros req n r n' k d Hr Hk. unfold kubo_rpc, kubo_model in Hr.
    destruct req; try (by injection Hr as _ <-). unfold model_put in Hr.
    repeat case_match; simplify_eq; try done;
      (rewrite lookup_insert_ne; [done|]); intros <-; congruence.
  - intros n k body n'. unfold kubo_rpc, kubo_model, model_get.
    destruct (decide (k = cid_Undef)) as [->|Hk]; [done|].
    rewrite cid_Decode_String by done. destruct (n !! k) eqn:Hn; [|done]. by intros [= <- <-].
Defined.

#[export] Instance kubo_json_model : KuboJson := {|
  json_pin_keys _ := Ok []; json_refs _ := []; json_dag_size _ := Ok 0;
  json_publish _ := Ok (mkIPNSPublishResult "" ""); json_path _ := Ok ""; json_key_names _ := Ok [];
  json_repo_stat _ := Ok (mkRepoStat 0 0 0); json_node_info _ := Ok (mkNodeInfo "" "" "" []) |}.

Definition demo_store : MemBlockstore.t :=
  snd (MemBlockstore.Put (raw_block "blob") MemBlockstore.NewMemBlockstore).
Definition demo_ipfs : Client := NewClient "/ip4/127.0.0.1/tcp/5001" (seconds 60) true 4.

Lemma PutBlockstore_complete_witness :
  let '(o, n') := PutBlockstore demo_ipfs 0 demo_store ∅ in
  match o with
  | Ok _ => ∀ k b, MemBlockstore.blocks demo_store !! k = Some b → holds n' b
  | _ => True
  end.
Proof.
  pose proof (PutBlockstore_complete demo_ipfs 0 demo_store (∅ : gmap cid string)) as Hp.
  destruct (PutBlockstore demo_ipfs 0 demo_store ∅) as [o n'].
  refine (proj2 (Hp _)). intros k b Hb. cbn in Hb.
  apply lookup_insert_Some in Hb as [[_ <-]|[_ Hb]]; [|by rewrite lookup_empty in Hb].
  by exists linkProtoRaw.
Defined.

Lemma normalizeAddr_multiaddr_witness :
  normalizeAddr "/ip4/127.0.0.1/tcp/5001" = "http://127.0.0.1:5001".
Proof. exact (normalizeAddr_multiaddr "ip4" "127.0.0.1" "5001" eq_refl eq_refl eq_refl). Defined.
