(* ===== verification/Api.v ===== *)
(** * Api: api/server.go

    The push API: routing, validation and the POST /blob handler, over the
    processor and finalizer it is given. *)

From S2P Require Import Prelude GoStd Types.

Record BlobPushRequest := mkBlobPushRequest {
  pq_Commitment : string;
  pq_VersionedHash : string;
  pq_Data : string;
  pq_TxHash : string;
  pq_BlockNumber : Z;
  pq_BlockHash : string;
  pq_Slot : Z;
  pq_Epoch : Z;
  pq_Index : Z;
  pq_Finalize : bool }.

Record BlobPushResponse := mkBlobPushResponse {
  ps_DataCID : string;
  ps_MetaCID : string;
  ps_Commitment : string;
  ps_Epoch : Z;
  ps_Finalized : bool;
  ps_EpochCID : string }.

(** The hexDecode of both packages: 0x-prefixed or plain hex. *)
Definition hexDecode (s : string) : outcome string := hex_DecodeString (TrimPrefix s "0x").

Definition blobBytes : Z := 131072.

Definition validateBlobRequest (req : BlobPushRequest) : outcome unit :=
  if bool_decide (pq_Commitment req = "") then Err (errors_New "commitment is required")
  else if bool_decide (pq_VersionedHash req = "") then Err (errors_New "versioned_hash is required")
  else if bool_decide (pq_Data req = "") then Err (errors_New "data is required")
  else
    raw ← wrap "data: invalid hex" (hexDecode (pq_Data req));
    if negb (str_len raw =? blobBytes) then
      Err (errors_New ("data: expected 131072 bytes, got " +:+ FormatUint (str_len raw)))
    else if (pq_Epoch req =? 0) && (pq_Slot req =? 0) then Err (errors_New "epoch or slot is required")
    else if pq_Index req <? 0 then Err (errors_New "index must be non-negative")
    else Ok tt.

(** What a handler writes. *)
Inductive body :=
  | BodyBlob (r : BlobPushResponse)
  | BodyError (msg : string)
  | BodyStatus (status : string) (err : option string)
  | BodyStatic (what : string).

Record response := mkResponse { rsp_status : Z; rsp_body : body }.

Definition StatusCreated : Z := 201.
Definition StatusBadRequest : Z := 400.
Definition StatusInternalServerError : Z := 500.
Definition StatusUnavailable : Z := 503.

Record Server (W : Type) := mkServer {
  srv_processor : BlobPushRequest → Go W BlobPushResponse;
  srv_finalizer : option (Z → Go W string);
  srv_ready : option (Go W unit);
  srv_metrics : bool;
  srv_observe : option (string → string → string → Go W unit) }.
Arguments srv_processor {W}.
Arguments srv_finalizer {W}.
Arguments srv_ready {W}.
Arguments srv_metrics {W}.
Arguments srv_observe {W}.

(** The lines of the page at /docs. *)
Definition swagger_lines : list string :=
  let q := String (byte_of 34) "" in
  ["<!DOCTYPE html>"; "<html>"; "<head>"; "  <title>blobscan-ipld API</title>"; "  <meta charset=" +:+ q +:+ "utf-8" +:+ q +:+ "/>";
   "  <meta name=" +:+ q +:+ "viewport" +:+ q +:+ " content=" +:+ q +:+ "width=device-width, initial-scale=1" +:+ q +:+ ">";
   "  <link rel=" +:+ q +:+ "stylesheet" +:+ q +:+ " type=" +:+ q +:+ "text/css" +:+ q +:+ " href=" +:+ q +:+
     "https://unpkg.com/swagger-ui-dist@5.32.8/swagger-ui.css" +:+ q +:+ ">";
   "</head>"; "<body>"; "<div id=" +:+ q +:+ "swagger-ui" +:+ q +:+ "></div>";
   "<script src=" +:+ q +:+ "https://unpkg.com/swagger-ui-dist@5.32.8/swagger-ui-bundle.js" +:+ q +:+ "></script>";
   "<script>"; "  SwaggerUIBundle({ url: " +:+ q +:+ "/openapi.json" +:+ q +:+ ", dom_id: " +:+ q +:+ "#swagger-ui" +:+ q +:+ " })";
   "</script>"; "</body>"; "</html>"].

Definition swaggerUIHTML : string := String.concat (String (byte_of 10) "") swagger_lines.

Section Handlers.
Context {W : Type} (s : Server W).

Definition writeError (code : Z) (msg : string) : Go W response := mret (mkResponse code (BodyError msg)).

Definition handleHealth : Go W response := mret (mkResponse 200 (BodyStatus "ok" None)).

Definition handleReady : Go W response :=
  match srv_ready s with
  | None => mret (mkResponse 200 (BodyStatus "ok" None))
  | Some ready =>
      r ← attempt ready;
      mret (match r with
            | inl e => mkResponse StatusUnavailable (BodyStatus "unhealthy" (Some (err_msg e)))
            | inr _ => mkResponse 200 (BodyStatus "ok" None)
            end)
  end.

(** [decoded] is what encoding/json made of the request body. *)
Definition handlePushBlob (decoded : error + BlobPushRequest) : Go W response :=
  match decoded with
  | inl e => writeError StatusBadRequest ("invalid JSON: " +:+ err_msg e)
  | inr req =>
      match validateBlobRequest req with
      | Err e => writeError StatusBadRequest (err_msg e)
      | Panic p => lift (Panic p)
      | Ok _ =>
          r ← attempt (srv_processor s req);
          match r with
          | inl e => writeError StatusInternalServerError ("processing failed: " +:+ err_msg e)
          | inr resp =>
              match pq_Finalize req, srv_finalizer s with
              | true, Some finalizer =>
                  f ← attempt (finalizer (pq_Epoch req));
                  match f with
                  | inl e => writeError StatusInternalServerError ("finalize epoch failed: " +:+ err_msg e)
                  | inr epochCID =>
                      mret (mkResponse StatusCreated (BodyBlob (mkBlobPushResponse (ps_DataCID resp)
                        (ps_MetaCID resp) (ps_Commitment resp) (ps_Epoch resp) true epochCID)))
                  end
              | _, _ => mret (mkResponse StatusCreated (BodyBlob resp))
              end
          end
      end
  end.

(** The embedded openapi.json and the page that shows it. *)
Definition handleOpenAPISpec : Go W response := mret (mkResponse 200 (BodyStatic "openapi.json")).
Definition handleSwaggerUI : Go W response := mret (mkResponse 200 (BodyStatic swaggerUIHTML)).

(** The mux: the handler of a method and path; a GET pattern also matches HEAD. *)
Definition route (method path : string) (decoded : error + BlobPushRequest) : Go W response :=
  let get := bool_decide (method = "GET") || bool_decide (method = "HEAD") in
  let only (ok : bool) (h : Go W response) : Go W response :=
    if ok then h else mret (mkResponse 405 (BodyStatic "Method Not Allowed")) in
  if bool_decide (path = "/blob") then only (bool_decide (method = "POST")) (handlePushBlob decoded)
  else if bool_decide (path = "/healthz") then only get handleHealth
  else if bool_decide (path = "/readyz") then only get handleReady
  else if bool_decide (path = "/openapi.json") then only get handleOpenAPISpec
  else if bool_decide (path = "/docs") then only get handleSwaggerUI
  else if bool_decide (path = "/metrics") && srv_metrics s then only get (mret (mkResponse 200 (BodyStatic "metrics")))
  else mret (mkResponse 404 (BodyStatic "404 page not found")).
End Handlers.

(** ** Metric labels *)

Definition knownRoutes : list string := ["/blob"; "/healthz"; "/readyz"; "/openapi.json"; "/docs"; "/metrics"].
Definition knownMethods : list string := ["GET"; "POST"].

Definition routeLabel (path : string) : string := if bool_decide (path ∈ knownRoutes) then path else "other".
Definition methodLabel (method : string) : string := if bool_decide (method ∈ knownMethods) then method else "other".

(** What logRequests hands the observer, whatever the client sent. *)
Definition observed (method path : string) (status : Z) : string * string * string :=
  (methodLabel method, routeLabel path, FormatUint status).

(** ** The server *)

Section Serving.
Context {W : Type}.

Definition api_New (processor : BlobPushRequest → Go W BlobPushResponse) (finalizer : option (Z → Go W string))
    (ready : option (Go W unit)) (metricsHandler : bool) (observe : option (string → string → string → Go W unit)) : Server W :=
  mkServer W processor finalizer ready metricsHandler observe.

(** The request goes through the handler, then to the observer with the status
    the recorder saw; a handler that panics skips the rest. *)
Definition logRequests (s : Server W) (method path : string) (next : Go W response) : Go W response :=
  rec ← next;
  _ ← match srv_observe s with
      | Some observe => let '(m, p, status) := observed method path (rsp_status rec) in observe m p status
      | None => mret tt
      end;
  mret rec.

(** The handler of the http.Server: the mux inside logRequests. *)
Definition ServeHTTP (s : Server W) (method path : string) (decoded : error + BlobPushRequest) : Go W response :=
  logRequests s method path (route s method path decoded).

(** net/http's recovery: a handler that panics drops its connection. *)
Definition recovered (m : Go W response) : Go W (option response) := λ w,
  match m w with
  | (Ok r, w') => (Ok (Some r), w')
  | (Err e, w') => (Err e, w')
  | (Panic _, w') => (Ok None, w')
  end.
End Serving.

(** What http.Server.ListenAndServe returns: ErrServerClosed after Shutdown, or
    another error. *)
Inductive listen_end := ErrServerClosed | ListenFailed (e : error).

Definition ListenAndServe (r : listen_end) : option error :=
  match r with
  | ErrServerClosed => None
  | ListenFailed e => Some (errorf_w "api: listen" e)
  end.

(** ** Properties *)

Lemma hex_DecodeString_no_panic s p : hex_DecodeString s ≠ Panic p.
Proof.
  assert (∀ n s, (String.length s ≤ n)%nat → hex_DecodeString s ≠ Panic p) as H; [|by eapply H].
  clear s. induction n as [|n IH]; intros [|a [|b s]] Hl; simpl in Hl; try lia; try done; cbn [hex_DecodeString].
  - by destruct (15 <? hex_nibble a).
  - destruct (15 <? hex_nibble a); [done|]. destruct (15 <? hex_nibble b); [done|].
    assert (hex_DecodeString s ≠ Panic p) as Hs by (apply IH; lia).
    destruct (hex_DecodeString s); simpl; congruence.
Qed.

(** Validation accepts exactly the requests that name a commitment and a
    versioned hash, carry 131072 bytes of hex data, an epoch or a slot, and a
    non-negative index. *)
Theorem validateBlobRequest_exact req :
  validateBlobRequest req = Ok tt ↔
  pq_Commitment req ≠ "" ∧ pq_VersionedHash req ≠ "" ∧
  (∃ raw, hexDecode (pq_Data req) = Ok raw ∧ str_len raw = 131072) ∧
  (pq_Epoch req ≠ 0 ∨ pq_Slot req ≠ 0) ∧ 0 ≤ pq_Index req.
Proof.
  unfold validateBlobRequest.
  case_bool_decide as Hc; [split; [done|]; intros [? _]; done|].
  case_bool_decide as Hv; [split; [done|]; intros (_ & ? & _); done|].
  case_bool_decide as Hd.
  { split; [done|]. rewrite Hd. intros (_ & _ & (raw & Hr & Hl) & _). vm_compute in Hr.
    injection Hr as <-. discriminate. }
  destruct (hexDecode (pq_Data req)) as [raw|e|p] eqn:Hx; cbn [wrap mbind outcome_bind].
  - unfold blobBytes. destruct (Z.eqb_spec (str_len raw) 131072) as [Hl|Hl]; cbn [negb].
    + destruct (Z.eqb_spec (pq_Epoch req) 0), (Z.eqb_spec (pq_Slot req) 0); cbn [andb];
        destruct (Z.ltb_spec (pq_Index req) 0); split; try done; try lia;
        try (intros (_ & _ & _ & [?|?] & ?); (done || lia)); intros _; split_and!; try done; eauto; lia.
    + split; [done|]. intros (_ & _ & (raw' & [= <-] & ?) & _). done.
  - split; [done|]. intros (_ & _ & (raw' & [=] & _) & _).
  - split; [done|]. intros (_ & _ & (raw' & [=] & _) & _).
Qed.

Section ApiProperties.
Context {W : Type} (s : Server W).

(** POST /blob: a request that does not decode or validate gets 400 and
    touches nothing; otherwise the status is 201 exactly when the processor,
    and the finalizer if one was asked for, succeeded, and 500 on an error of
    either; a response says "finalized", with the epoch's CID, exactly when
    the finalizer ran. *)
Lemma handlePushBlob_correct decoded w :
  match decoded with
  | inl _ => ∃ msg, handlePushBlob s decoded w = (Ok (mkResponse StatusBadRequest (BodyError msg)), w)
  | inr req =>
      match validateBlobRequest req with
      | Ok _ =>
          match srv_processor s req w with
          | (Err e, w1) => ∃ msg,
              handlePushBlob s decoded w = (Ok (mkResponse StatusInternalServerError (BodyError msg)), w1)
          | (Panic p, w1) => handlePushBlob s decoded w = (Panic p, w1)
          | (Ok r, w1) =>
              match pq_Finalize req, srv_finalizer s with
              | true, Some fin =>
                  match fin (pq_Epoch req) w1 with
                  | (Ok c, w2) => handlePushBlob s decoded w = (Ok (mkResponse StatusCreated (BodyBlob
                      (mkBlobPushResponse (ps_DataCID r) (ps_MetaCID r) (ps_Commitment r) (ps_Epoch r) true c))), w2)
                  | (Err e, w2) => ∃ msg,
                      handlePushBlob s decoded w = (Ok (mkResponse StatusInternalServerError (BodyError msg)), w2)
                  | (Panic p, w2) => handlePushBlob s decoded w = (Panic p, w2)
                  end
              | _, _ => handlePushBlob s decoded w = (Ok (mkResponse StatusCreated (BodyBlob r)), w1)
              end
          end
      | _ => ∃ msg, handlePushBlob s decoded w = (Ok (mkResponse StatusBadRequest (BodyError msg)), w)
      end
  end.
Proof.
  destruct decoded as [e|req]; [by eexists|]. unfold handlePushBlob.
  destruct (validateBlobRequest req) as [u|e|p] eqn:Hv; [|by eexists|].
  - unfold mbind, go_bind, attempt. destruct (srv_processor s req w) as [[r|e|p] w1]; [|by eexists|done].
    destruct (pq_Finalize req); [|done]. destruct (srv_finalizer s) as [fin|]; [|done].
    destruct (fin (pq_Epoch req) w1) as [[c|e|p] w2]; [done|by eexists|done].
  - exfalso. unfold validateBlobRequest in Hv. repeat case_bool_decide; try done.
    unfold hexDecode in Hv. pose proof (hex_DecodeString_no_panic (TrimPrefix (pq_Data req) "0x")) as Hn.
    destruct (hex_DecodeString _) as [raw| |q]; cbn in Hv; [|done|by destruct (Hn q)].
    by repeat case_match.
Qed.
End ApiProperties.

(** Every (method, route) pair the request metric can be labelled with. *)
Definition label_pairs : list (string * string) :=
  list_prod ("other" :: knownMethods) ("other" :: knownRoutes).

(** The label sets of the request metric are bounded: whatever method and
    path a client sends, the labels come from at most 3 × 7 combinations. *)
Theorem labels_bounded method path status :
  (methodLabel method, routeLabel path) ∈ label_pairs ∧
  length label_pairs = 21%nat ∧
  snd (observed method path status) = FormatUint status.
Proof.
  split_and!; [|done|done].
  assert (methodLabel method ∈ "other" :: knownMethods) as Hm.
  { unfold methodLabel. case_bool_decide; [by right|by left]. }
  assert (routeLabel path ∈ "other" :: knownRoutes) as Hr.
  { unfold routeLabel. case_bool_decide; [by right|by left]. }
  apply list_elem_of_In, in_prod; by apply list_elem_of_In.
Qed.
