(* ===== verification/Metrics.v ===== *)
(** * Metrics: metrics/metrics.go

    The counters of the pipeline, the nil-safe record helpers and the
    scrape-time snapshot collector. A counter is its integer value, a histogram
    the number of observations made on it: durations are not modelled, and
    float64 values are the integers they come from (exact below 2^53). *)

From S2P Require Import Prelude.

Record Metrics := mkMetrics {
  mt_blobsProcessed : gmap (string * string) Z;             (* network, source *)
  mt_epochsProcessed : gmap (string * string * string) Z;   (* network, source, result *)
  mt_epochBuild : gmap string Z;                            (* network *)
  mt_ipfsUpload : Z;
  mt_blocksUploaded : Z;
  mt_ipfsPins : gmap string Z;                              (* result *)
  mt_networkRoot : Z;
  mt_httpDuration : gmap (string * string * string) Z }.    (* method, path, status *)

Definition Metrics_New : Metrics := mkMetrics ∅ ∅ ∅ 0 0 ∅ 0 ∅.

(** [WithLabelValues(k).Add(n)]. *)
Definition vec_add {K} `{Countable K} (k : K) (n : Z) (m : gmap K Z) : gmap K Z :=
  <[k := default 0 (m !! k) + n]> m.

(** A [*Metrics] is nil when metrics are not enabled: every helper then does
    nothing. *)
Definition on_metrics (f : Metrics → Metrics) : Go (option Metrics) unit := modify (option_map f).

Definition RecordBlob (network source : string) : Go (option Metrics) unit :=
  on_metrics (λ m, mkMetrics (vec_add (network, source) 1 (mt_blobsProcessed m)) (mt_epochsProcessed m)
    (mt_epochBuild m) (mt_ipfsUpload m) (mt_blocksUploaded m) (mt_ipfsPins m) (mt_networkRoot m) (mt_httpDuration m)).

Definition RecordBlobs (network source : string) (n : Z) : Go (option Metrics) unit :=
  if n <=? 0 then mret tt
  else on_metrics (λ m, mkMetrics (vec_add (network, source) n (mt_blobsProcessed m)) (mt_epochsProcessed m)
    (mt_epochBuild m) (mt_ipfsUpload m) (mt_blocksUploaded m) (mt_ipfsPins m) (mt_networkRoot m) (mt_httpDuration m)).

Definition RecordEpoch (network source result : string) : Go (option Metrics) unit :=
  on_metrics (λ m, mkMetrics (mt_blobsProcessed m) (vec_add (network, source, result) 1 (mt_epochsProcessed m))
    (mt_epochBuild m) (mt_ipfsUpload m) (mt_blocksUploaded m) (mt_ipfsPins m) (mt_networkRoot m) (mt_httpDuration m)).

Definition ObserveEpochBuild (network : string) : Go (option Metrics) unit :=
  on_metrics (λ m, mkMetrics (mt_blobsProcessed m) (mt_epochsProcessed m)
    (vec_add network 1 (mt_epochBuild m)) (mt_ipfsUpload m) (mt_blocksUploaded m) (mt_ipfsPins m)
    (mt_networkRoot m) (mt_httpDuration m)).

Definition ObserveIPFSUpload (blocks : Z) : Go (option Metrics) unit :=
  on_metrics (λ m, mkMetrics (mt_blobsProcessed m) (mt_epochsProcessed m) (mt_epochBuild m)
    (mt_ipfsUpload m + 1) (if 0 <? blocks then mt_blocksUploaded m + blocks else mt_blocksUploaded m)
    (mt_ipfsPins m) (mt_networkRoot m) (mt_httpDuration m)).

Definition RecordPin (result : string) : Go (option Metrics) unit :=
  on_metrics (λ m, mkMetrics (mt_blobsProcessed m) (mt_epochsProcessed m) (mt_epochBuild m)
    (mt_ipfsUpload m) (mt_blocksUploaded m) (vec_add result 1 (mt_ipfsPins m)) (mt_networkRoot m) (mt_httpDuration m)).

Definition ObserveNetworkRootRebuild : Go (option Metrics) unit :=
  on_metrics (λ m, mkMetrics (mt_blobsProcessed m) (mt_epochsProcessed m) (mt_epochBuild m)
    (mt_ipfsUpload m) (mt_blocksUploaded m) (mt_ipfsPins m) (mt_networkRoot m + 1) (mt_httpDuration m)).

Definition ObserveHTTPRequest (method path status : string) : Go (option Metrics) unit :=
  on_metrics (λ m, mkMetrics (mt_blobsProcessed m) (mt_epochsProcessed m) (mt_epochBuild m)
    (mt_ipfsUpload m) (mt_blocksUploaded m) (mt_ipfsPins m) (mt_networkRoot m)
    (vec_add (method, path, status) 1 (mt_httpDuration m))).

(** ** The scrape-time snapshot *)

Record DBSnapshot := mkDBSnapshot {
  ds_Network : string;
  ds_EpochsIndexed : Z;
  ds_EmptyEpochs : Z;
  ds_BlobsIndexed : Z;
  ds_SizeBytes : Z;
  ds_FirstEpoch : Z;
  ds_LastEpoch : Z;
  ds_GapCount : Z;
  ds_LiveCursor : Z;
  ds_BackfillCursor : Z }.

Record IPFSSnapshot := mkIPFSSnapshot { is_RepoSizeBytes : Z; is_StorageMaxBytes : Z }.

Record Snapshot := mkSnapshot {
  sn_DB : DBSnapshot;
  sn_HasDB : bool;
  sn_IPFS : IPFSSnapshot;
  sn_HasIPFS : bool;
  sn_BeaconRPCRequests : Z;
  sn_Beacon429s : Z;
  sn_HasBeacon : bool }.

Definition Snapshot_zero : Snapshot :=
  mkSnapshot (mkDBSnapshot "" 0 0 0 0 0 0 0 0 0) false (mkIPFSSnapshot 0 0) false 0 0 false.

Definition fqName (name : string) : string := "blobscanipld_" +:+ name.

(** A descriptor: the series' name and its variable labels. *)
Definition desc : Type := string * list string.

Definition net_desc (name : string) : desc := (fqName name, ["network"]).
Definition plain_desc (name : string) : desc := (fqName name, []).

(** The descriptors RegisterSnapshot makes, in the order Describe sends them. *)
Definition Describe : list desc :=
  [net_desc "epochs_indexed"; net_desc "empty_epochs"; net_desc "blobs_indexed_total";
   net_desc "indexed_size_bytes"; net_desc "first_epoch"; net_desc "last_epoch";
   net_desc "epoch_gap_count"; net_desc "live_cursor"; net_desc "backfill_cursor";
   plain_desc "ipfs_repo_size_bytes"; plain_desc "ipfs_storage_max_bytes";
   plain_desc "beacon_rpc_requests_total"; plain_desc "beacon_rpc_429_total";
   plain_desc "scrape_db_up"; plain_desc "scrape_ipfs_up"].

Inductive valueType := GaugeValue | CounterValue.

Record sample := mkSample {
  sm_desc : desc; sm_type : valueType; sm_value : Z; sm_labels : list string }.

Definition Collect (s : Snapshot) : list sample :=
  (if sn_HasDB s then
     let g name v := mkSample (net_desc name) GaugeValue v [ds_Network (sn_DB s)] in
     [g "epochs_indexed" (ds_EpochsIndexed (sn_DB s));
      g "empty_epochs" (ds_EmptyEpochs (sn_DB s));
      g "blobs_indexed_total" (ds_BlobsIndexed (sn_DB s));
      g "indexed_size_bytes" (ds_SizeBytes (sn_DB s));
      g "first_epoch" (ds_FirstEpoch (sn_DB s));
      g "last_epoch" (ds_LastEpoch (sn_DB s));
      g "epoch_gap_count" (ds_GapCount (sn_DB s));
      g "live_cursor" (ds_LiveCursor (sn_DB s));
      g "backfill_cursor" (ds_BackfillCursor (sn_DB s));
      mkSample (plain_desc "scrape_db_up") GaugeValue 1 []]
   else [mkSample (plain_desc "scrape_db_up") GaugeValue 0 []]) ++
  (if sn_HasIPFS s then
     [mkSample (plain_desc "ipfs_repo_size_bytes") GaugeValue (is_RepoSizeBytes (sn_IPFS s)) [];
      mkSample (plain_desc "ipfs_storage_max_bytes") GaugeValue (is_StorageMaxBytes (sn_IPFS s)) [];
      mkSample (plain_desc "scrape_ipfs_up") GaugeValue 1 []]
   else [mkSample (plain_desc "scrape_ipfs_up") GaugeValue 0 []]) ++
  (if sn_HasBeacon s then
     [mkSample (plain_desc "beacon_rpc_requests_total") CounterValue (sn_BeaconRPCRequests s) [];
      mkSample (plain_desc "beacon_rpc_429_total") CounterValue (sn_Beacon429s s) []]
   else []).

(** The value of a series in a scrape. *)
Definition scraped (name : string) (s : Snapshot) : list Z :=
  sm_value <$> filter (λ x, fst (sm_desc x) = fqName name) (Collect s).

(** A scrape is well formed whatever was reachable: every sample uses a
    described series with one value per label and no series is sent twice (the
    registry rejects the whole scrape otherwise); the two up series are always
    there, and a series of the database is there exactly when it was reached. *)
Theorem Collect_well_formed s :
  Forall (λ x, sm_desc x ∈ Describe ∧ length (sm_labels x) = length (snd (sm_desc x))) (Collect s) ∧
  NoDup (sm_desc <$> Collect s) ∧
  scraped "scrape_db_up" s = [if sn_HasDB s then 1 else 0] ∧
  scraped "scrape_ipfs_up" s = [if sn_HasIPFS s then 1 else 0] ∧
  scraped "live_cursor" s = (if sn_HasDB s then [ds_LiveCursor (sn_DB s)] else []).
Proof.
  unfold scraped, Collect. destruct (sn_HasDB s), (sn_HasIPFS s), (sn_HasBeacon s);
    (split_and!; [repeat constructor; apply (bool_decide_unpack _); vm_compute; exact Logic.I
                 |apply (bool_decide_unpack _); vm_compute; exact Logic.I|reflexivity..]).
Qed.
