(* ===== verification/Generator.v ===== *)
(** * Generator: generator/generator.go, one epoch

    The generator's world (the clients it drives, each with its own state) and
    the stages an epoch goes through: fetch or reload, process the blobs, build
    the epoch node, upload, save the rows, notify, rebuild the network root. *)

From S2P Require Import Prelude GoStd Types Ipld Store IpldModel Blob Epoch Network Db StateFile.
From S2P Require Import Beacon ElClient Ipfs Metrics.

(** ** The generator and its world *)

(** The configuration the generator reads. *)
Record Config := mkConfig {
  cf_Network : string;
  cf_StartEpoch : Z;
  cf_Workers : Z;
  cf_BackfillEpochWorkers : Z;
  cf_HAMTThreshold : Z;
  cf_NetworkRootPageSize : Z;
  cf_PinOnAdd : bool }.

(** The generator itself: which clients it has (nil otherwise) and its
    constants; the clients' states are in [World]. *)
Record Generator := mkGenerator {
  g_cfg : Config;
  g_beacon : bool;
  g_ipfs : option Ipfs.Client;
  g_db : bool;
  g_notifier : option Notifier;
  g_genesisTime : Z;
  g_slotsPerEpoch : Z;
  g_secondsPerSlot : Z }.

Record World (N : Type) := mkWorld {
  w_beacon : Beacon.Client;
  w_node : N;                       (* the Kubo node *)
  w_db : Db.Client;
  w_state : Manager * FS;           (* the file backend, used without a DB *)
  w_sent : list notification;
  w_metrics : option Metrics }.
Arguments mkWorld {N}.
Arguments w_beacon {N}.
Arguments w_node {N}.
Arguments w_db {N}.
Arguments w_state {N}.
Arguments w_sent {N}.
Arguments w_metrics {N}.

(** What one epoch meets: the beacon node's replies and the execution-layer
    lookup, the order in which its concurrent slot fetches and blob results
    complete, how many uploads are in flight when one fails, and [ctx.Err()]. *)
Record Env := mkEnv {
  en_http : string → http_reply;
  en_req : ReqEnv;
  en_el : option (string → string → error + ELBlobData);
  en_slots : nat → list nat;
  en_blobs : nat → list nat;
  en_inflight : nat;
  en_ctx : option error }.

Record env_ok (env : Env) : Prop := {
  eo_slots : ∀ n, en_slots env n ≡ₚ seq 0 n;
  eo_blobs : ∀ n, en_blobs env n ≡ₚ seq 0 n }.

(** The batchStart of the source only feeds log lines. *)
Record epochProgress := mkEpochProgress { ep_idx : Z; ep_total : Z; ep_src : string }.

Definition progressSource (p : option epochProgress) : string :=
  match p with
  | None => "live"
  | Some p => if bool_decide (ep_src p = "") then "live" else ep_src p
  end.

Definition pluralize (count : Z) : string := if count =? 1 then "" else "s".

Record builtEpoch := mkBuiltEpoch {
  be_epoch : Z;
  be_epochInp : EpochInput;
  be_blobResults : list BlobResult;
  be_epochResult : EpochResult;
  be_epochBS : option MemBlockstore.t;
  be_fromCache : bool;
  be_empty : bool;
  be_skip : bool }.

Definition EpochInput_zero : EpochInput := mkEpochInput 0 0 [].
Definition EpochResult_zero : EpochResult := mkEpochResult 0 cid_Undef "" 0.

(** [builtEpoch{epoch: epoch}] with one of the two flags set. *)
Definition empty_epoch (epoch : Z) : builtEpoch :=
  mkBuiltEpoch epoch EpochInput_zero [] EpochResult_zero None false true false.
Definition skip_epoch (epoch : Z) : builtEpoch :=
  mkBuiltEpoch epoch EpochInput_zero [] EpochResult_zero None false false true.

(** A build over a fresh MemBlockstore when its blocks will be uploaded, over
    the NullBlockstore otherwise. *)
Definition on_store {A} (upload : bool) (f : ∀ BS : Type, blockstoreBackend BS → Go BS A)
    : outcome (A * option MemBlockstore.t) :=
  if upload then
    let '(o, bs) := f _ mem_backend MemBlockstore.NewMemBlockstore in (λ a, (a, Some bs)) <$> o
  else
    let '(o, _) := f _ null_backend NullBlockstore.Null in (λ a, (a, None)) <$> o.

(** ** The blobs of an epoch *)

Section Blobs.
Context {I : Ipld} {BS : Type} {B : blockstoreBackend BS}.

(** The results in the order they arrive: each is put at its index, then
    logged with the first 16 bytes of its commitment. *)
Fixpoint collect_blobs (blobs : list BlobInput) (order : list nat) (acc : list BlobResult)
    : Go BS (list BlobResult) :=
  match order with
  | [] => mret acc
  | i :: order' =>
      b ← lift (index blobs i);
      res ← ProcessBlob b;
      if str_len (bi_Commitment b) <? 16 then lift (Panic "slice bounds out of range")
      else collect_blobs blobs order' (<[i := res]> acc)
  end.

(** With no worker the channel of results is closed at once. *)
Definition processEpochBlobs (workers : Z) (order : list nat) (inp : EpochInput)
    : Go BS (list BlobResult) :=
  let n := length (ei_Blobs inp) in
  let workers := if Z.of_nat n <? workers then Z.of_nat n else workers in
  let zeros := replicate n BlobResult_zero in
  if workers <=? 0 then mret zeros else collect_blobs (ei_Blobs inp) order zeros.
End Blobs.

(** ** Reloading an epoch from its rows *)

Section Reconstruct.
Context {I : Ipld}.

Definition record_input (epoch : Z) (r : BlobRecord) : BlobInput :=
  mkBlobInput (rb_Commitment r) (rb_VersionedHash r) (rb_TxHash r) (rb_BlockNumber r) (rb_BlockHash r)
    (rb_Slot r) epoch (rb_BlobIndex r) "" (rb_SizeBytes r).

Definition record_result (r : BlobRecord) : outcome BlobResult :=
  dataCID ← wrap ("decode data cid " +:+ rb_DataCID r) (cid_Decode (rb_DataCID r));
  metaCID ← wrap ("decode meta cid " +:+ rb_MetaCID r) (cid_Decode (rb_MetaCID r));
  Ok (mkBlobResult (rb_Commitment r) dataCID metaCID (rb_SizeBytes r)).

Definition ReconstructFromDB (epoch : Z) (records : list BlobRecord) (slotsPerEpoch : Z)
    : outcome (EpochInput * list BlobResult) :=
  results ← mapM_out record_result records;
  Ok (mkEpochInput epoch (EpochToFirstSlot epoch slotsPerEpoch) (record_input epoch <$> records), results).

Definition make_reference (b : BlobInput) (r : BlobResult) : BlobReference :=
  mkBlobReference (bi_VersionedHash b) (cid_String (br_DataCID r)) (cid_String (br_MetaCID r)).

(** [results[i]] for every blob: a missing result is a panic. *)
Fixpoint buildReferences (blobs : list BlobInput) (results : list BlobResult)
    : outcome (list BlobReference) :=
  match blobs, results with
  | [], _ => Ok []
  | b :: bs, r :: rs => refs ← buildReferences bs rs; Ok (make_reference b r :: refs)
  | _ :: _, [] => Panic "index out of range"
  end.

Definition epoch_of_record (r : EpochRecord) : outcome EpochResult :=
  c ← wrap ("decode epoch cid " +:+ rec_CID r) (cid_Decode (rec_CID r));
  Ok (mkEpochResult (rec_Epoch r) c "" (rec_SizeBytes r)).
End Reconstruct.

(** ** The stages *)

Section Stages.
Context {R : GoRuntime} {I : Ipld} {P : Postgres} {BJ : BeaconJson} {JS : JsonState}.
Context {N : Type} {K : Kubo N} {KJ : KuboJson} (g : Generator).

Abbreviation W := (World N).
Abbreviation network := (cf_Network (g_cfg g)).
Abbreviation upload := (match g_ipfs g with Some _ => true | None => false end).

(** A method call on a nil client dereferences it. *)
Definition in_beacon {A} (m : Go Beacon.Client A) : Go W A :=
  if g_beacon g then
    zoom w_beacon (λ b w, mkWorld b (w_node w) (w_db w) (w_state w) (w_sent w) (w_metrics w)) m
  else lift (Panic "nil pointer dereference").
Definition in_node {A} (m : Go N A) : Go W A :=
  zoom w_node (λ n w, mkWorld (w_beacon w) n (w_db w) (w_state w) (w_sent w) (w_metrics w)) m.
Definition in_db {A} (m : Go Db.Client A) : Go W A :=
  if g_db g then
    zoom w_db (λ d w, mkWorld (w_beacon w) (w_node w) d (w_state w) (w_sent w) (w_metrics w)) m
  else lift (Panic "nil pointer dereference").
Definition in_file {A} (m : Go (Manager * FS) A) : Go W A :=
  zoom w_state (λ s w, mkWorld (w_beacon w) (w_node w) (w_db w) s (w_sent w) (w_metrics w)) m.
Definition in_sent {A} (m : Go (list notification) A) : Go W A :=
  zoom w_sent (λ l w, mkWorld (w_beacon w) (w_node w) (w_db w) (w_state w) l (w_metrics w)) m.
Definition in_metrics {A} (m : Go (option Metrics) A) : Go W A :=
  zoom w_metrics (λ x w, mkWorld (w_beacon w) (w_node w) (w_db w) (w_state w) (w_sent w) x) m.

(** The state backend New chose: the database when there is one. *)
#[export] Instance g_state : StateBackend W := {|
  sb_GetLastProcessedEpoch :=
    if g_db g then in_db (GetLastProcessedEpoch network) else in_file Manager_GetLastProcessedEpoch;
  sb_SetLastProcessedEpoch e :=
    if g_db g then in_db (SetLastProcessedEpoch network e) else in_file (Manager_SetLastProcessedEpoch e);
  sb_GetBackfillCursor :=
    if g_db g then in_db (GetBackfillCursor network) else in_file Manager_GetBackfillCursor;
  sb_SetBackfillCursor e :=
    if g_db g then in_db (SetBackfillCursor network e) else in_file (Manager_SetBackfillCursor e) |}.

Definition build_node {BS} `{!blockstoreBackend BS} (inp : EpochInput) (results : list BlobResult)
    (what : string) : Go BS EpochResult :=
  wrapf what (BuildEpochNode inp results network (cf_HAMTThreshold (g_cfg g))).

(** The rows of an epoch that is already in the database, as its input. *)
Definition load_cached (epoch : Z) : Go W (option (EpochInput * list BlobResult)) :=
  if g_db g then
    cached ← wrapf ("check cached blobs epoch " +:+ FormatUint epoch) (in_db (GetBlobsByEpoch network epoch));
    match cached with
    | [] => mret None
    | _ =>
        x ← wrapf ("reconstruct epoch " +:+ FormatUint epoch +:+ " from DB")
              (lift (ReconstructFromDB epoch cached (g_slotsPerEpoch g)));
        mret (Some x)
    end
  else mret None.

Definition fetch_epoch (env : Env) (epoch : Z) (el : option (string → string → error + ELBlobData))
    : Go W EpochInput :=
  in_beacon (λ c, FetchEpochInput (en_http env) (en_req env) el
                    (en_slots env (Z.to_nat (bc_slotsPerEpoch c))) epoch c).

Definition process_blobs {BS} `{!blockstoreBackend BS} (env : Env) (inp : EpochInput)
    : Go BS (list BlobResult) :=
  processEpochBlobs (cf_Workers (g_cfg g)) (en_blobs env (length (ei_Blobs inp))) inp.

Definition buildEpoch (env : Env) (epoch : Z) (p : option epochProgress) : Go W builtEpoch :=
  let source := progressSource p in
  let node_msg := "build epoch node " +:+ FormatUint epoch in
  let finish (fromCache : bool) (inp : EpochInput)
      (x : list BlobResult * EpochResult * option MemBlockstore.t) : Go W builtEpoch :=
    let '(results, er, bs) := x in
    _ ← in_metrics (RecordEpoch network source "built");
    _ ← in_metrics (RecordBlobs network source (Z.of_nat (length results)));
    _ ← in_metrics (ObserveEpochBuild network);
    mret (mkBuiltEpoch epoch inp results er bs fromCache false false) in
  cached ← load_cached epoch;
  match cached with
  | Some (inp, results) =>
      x ← lift (on_store upload (λ BS B,
            er ← build_node inp results node_msg; mret (results, er)));
      finish true inp x
  | None =>
      inp ← wrapf ("fetch epoch " +:+ FormatUint epoch) (fetch_epoch env epoch (en_el env));
      if Nat.eqb (length (ei_Blobs inp)) 0 then
        _ ← in_metrics (RecordEpoch network source "empty");
        mret (empty_epoch epoch)
      else
        x ← lift (on_store upload (λ BS B,
              results ← wrapf ("process blobs epoch " +:+ FormatUint epoch) (process_blobs env inp);
              er ← build_node inp results node_msg;
              mret (results, er)));
        finish false inp x
  end.

Definition uploadAndPin (env : Env) (bs : MemBlockstore.t) (epochCID : cid) (epoch : Z) : Go W unit :=
  match g_ipfs g with
  | None => mret tt
  | Some c =>
      _ ← wrapf ("upload epoch " +:+ FormatUint epoch +:+ " to IPFS")
            (in_node (PutBlockstore c (en_inflight env) bs));
      _ ← in_metrics (ObserveIPFSUpload (MemBlockstore.Len bs));
      if cf_PinOnAdd (g_cfg g) then
        v ← attempt (in_node (VerifyLocal epochCID));
        match v with
        | inl _ => in_metrics (RecordPin "skipped")
        | inr _ =>
            r ← attempt (in_node (Pin epochCID));
            in_metrics (RecordPin (match r with inl _ => "failed" | inr _ => "ok" end))
        end
      else mret tt
  end.

Definition epoch_time (epoch : Z) : Z :=
  SlotTime (g_genesisTime g) (EpochToFirstSlot epoch (g_slotsPerEpoch g)) (g_secondsPerSlot g).

Definition persistEpoch (env : Env) (be : builtEpoch) : Go W unit :=
  let epoch := be_epoch be in
  if be_empty be then
    if negb (g_db g) then mret tt
    else
      let inp := mkEpochInput epoch (EpochToFirstSlot epoch (g_slotsPerEpoch g)) [] in
      x ← lift (on_store upload (λ BS B,
            build_node inp [] ("build empty epoch node " +:+ FormatUint epoch)));
      _ ← match snd x with
          | Some bs => uploadAndPin env bs (er_CID (fst x)) epoch
          | None => mret tt
          end;
      wrapf ("save empty epoch " +:+ FormatUint epoch +:+ " to db")
        (in_db (SaveEpoch network (fst x) 0 (epoch_time epoch)))
  else
    _ ← match be_epochBS be with
        | Some bs => uploadAndPin env bs (er_CID (be_epochResult be)) epoch
        | None => mret tt
        end;
    _ ← (if g_db g then
           _ ← wrapf ("save epoch " +:+ FormatUint epoch +:+ " to db")
                 (in_db (SaveEpoch network (be_epochResult be)
                           (Z.of_nat (length (be_blobResults be))) (epoch_time epoch)));
           if negb (be_fromCache be) then
             wrapf ("save blobs epoch " +:+ FormatUint epoch +:+ " to db")
               (in_db (SaveBlobs network epoch (ei_Blobs (be_epochInp be)) (be_blobResults be)
                         (g_genesisTime g) (g_secondsPerSlot g)))
           else mret tt
         else mret tt);
    if negb (be_fromCache be) then
      refs ← lift (buildReferences (ei_Blobs (be_epochInp be)) (be_blobResults be));
      in_sent (NotifyBlobs (g_notifier g) refs)
    else mret tt.

Definition processEpoch (env : Env) (epoch : Z) (p : option epochProgress) : Go W unit :=
  match g_ipfs g, g_db g with
  | None, false => mret tt
  | _, _ => be ← buildEpoch env epoch p; persistEpoch env be
  end.

Definition rebuildNetworkRoot (env : Env) : Go W unit :=
  if negb (g_db g) then mret tt
  else match g_ipfs g with
  | None => mret tt
  | Some c =>
      records ← wrapf "load epochs for network root" (in_db (GetAllEpochs network));
      epochResults ← lift (mapM_out epoch_of_record records);
      x ← lift (on_store true (λ BS B, wrapf "build network root"
            (BuildNetworkRoot network epochResults (cf_NetworkRootPageSize (g_cfg g)))));
      _ ← wrapf "upload network root to IPFS"
            (in_node (PutBlockstore c (en_inflight env)
               (default MemBlockstore.NewMemBlockstore (snd x))));
      in_metrics ObserveNetworkRootRebuild
  end.

(** An error is logged and dropped. *)
Definition nonfatal (m : Go W unit) : Go W unit := _ ← attempt m; mret tt.

Definition ProcessSingleEpoch (env : Env) (epoch : Z) : Go W unit :=
  _ ← processEpoch env epoch None;
  _ ← sb_SetLastProcessedEpoch epoch;
  nonfatal (rebuildNetworkRoot env).
End Stages.
