(* ===== verification/New.v ===== *)
(** * New: construction of the generator

    generator.New with what it is given by config.Load: which clients a
    configuration creates, the check of the beacon node's network, and what the
    two together guarantee to the rest of the generator. *)

From Stdlib Require Import SpecFloat.
From S2P Require Import Prelude GoStd GoTime Types Ipld Store IpldModel Blob Epoch Network Db StateFile.
From S2P Require Import Beacon ElClient Ipfs Metrics Generator.
From S2P Require Config.

(** [f > 0]. *)
Definition f64_positive (f : float64) : bool := SFltb (S754_zero false) f.

(** The part of the configuration the generator's methods read. *)
Definition generator_config (c : Config.Config) : Config :=
  let g := Config.c_Generator c in
  mkConfig (Config.nc_Name (Config.c_Network c)) (Config.gc_StartEpoch g) (Config.gc_Workers g)
    (Config.gc_BackfillEpochWorkers g) (Config.gc_HAMTThreshold g) (Config.gc_NetworkRootPageSize g)
    (Config.ic_PinOnAdd (Config.c_IPFS c)).

(** What New meets: the beacon node and the clock of its two requests, what
    connecting to PostgreSQL and reading the state file return. *)
Record NewEnv := mkNewEnv {
  ne_http : string → http_reply;
  ne_req : ReqEnv;
  ne_genesis : ReqEnv;
  ne_connect : option error;
  ne_read : option error }.

Section New.
Context {BJ : BeaconJson} {JS : JsonState} {N : Type} (cfg : Config.Config) (env : NewEnv).

Abbreviation net := (Config.c_Network cfg).
Abbreviation is_set s := (negb (bool_decide (s = ""))).

Definition new_beacon : Beacon.Client :=
  Beacon.NewClient (Config.nc_BeaconRPC net) (Config.nc_BeaconTimeout net)
    (Config.gc_BeaconWorkers (Config.c_Generator cfg)) (f64_positive (Config.nc_BeaconRateLimit net))
    (Config.nc_Beacon429Backoff net) (Config.nc_SlotsPerEpoch net) (Config.nc_SecondsPerSlot net).

Definition new_ipfs : option Ipfs.Client :=
  let i := Config.c_IPFS cfg in
  if Config.ic_SkipUpload i then None
  else Some (Ipfs.NewClient (Config.ic_APIAddr i) (Config.ic_Timeout i) (Config.ic_PinOnAdd i) (Config.ic_UploadWorkers i)).

Definition set_beacon (b : Beacon.Client) (w : World N) : World N :=
  mkWorld b (w_node w) (w_db w) (w_state w) (w_sent w) (w_metrics w).
Definition set_manager (m : Manager) (w : World N) : World N :=
  mkWorld (w_beacon w) (w_node w) (w_db w) (m, snd (w_state w)) (w_sent w) (w_metrics w).

(** The network the node is on must be the configured one, if it tells; then
    the genesis time, 0 if it cannot be fetched. *)
Definition verify_network (g : Generator) : Go (World N) Z :=
  name ← attempt (in_beacon g (GetNetworkName (ne_http env) (ne_req env)));
  match name with
  | inl _ => mret 0
  | inr remoteNetwork =>
      if bool_decide (remoteNetwork = Config.nc_Name net) then
        gt ← attempt (in_beacon g (GetGenesisTime (ne_http env) (ne_genesis env)));
        mret (match gt with inl _ => 0 | inr t => t end)
      else fail (errors_New ("generator: network mismatch: config says " +:+ quoted (Config.nc_Name net)
                   +:+ " but beacon node reports " +:+ quoted remoteNetwork))
  end.

Definition New : Go (World N) Generator :=
  let beacon := is_set (Config.nc_BeaconRPC net) in
  let db := is_set (Config.st_PostgresDSN (Config.c_Storage cfg)) in
  _ ← (if beacon then modify (set_beacon new_beacon) else mret tt);
  _ ← (if is_set (Config.nc_ExecutionRPC net) && negb beacon then
         fail (errors_New "generator: EXECUTION_RPC requires BEACON_RPC to resolve execution payloads")
       else mret tt);
  _ ← match db, ne_connect env with
      | true, Some e => fail (errorf_w "generator: connect to postgres" e)
      | _, _ => mret tt
      end;
  _ ← (if db then mret tt
       else
         m ← wrapf "generator: load state" (λ w,
               (NewManager (Config.st_DataDir (Config.c_Storage cfg)) (Config.nc_Name net) (ne_read env)
                  (fs_files (snd (w_state w))), w));
         modify (set_manager m));
  let g genesisTime := mkGenerator (generator_config cfg) beacon new_ipfs db
    (NewNotifier (Config.bc_APIURL (Config.c_Blobscan cfg)) (Config.bc_APIKey (Config.c_Blobscan cfg)))
    genesisTime (Config.nc_SlotsPerEpoch net) (Config.nc_SecondsPerSlot net) in
  t ← (if beacon then verify_network (g 0) else mret 0);
  mret (g t).
End New.

(** ** Properties *)

Section NewFacts.
Context {BJ : BeaconJson} {JS : JsonState} {N : Type}.

Definition is_set (s : string) : bool := negb (bool_decide (s = "")).

(** What New checks of the beacon node: its network is the configured one, or
    it did not tell and the genesis time is unknown. *)
Definition network_verified (cfg : Config.Config) (env : NewEnv) (g : Generator) : Prop :=
  match fst (GetNetworkName (ne_http env) (ne_req env) (new_beacon cfg)) with
  | Ok name => name = Config.nc_Name (Config.c_Network cfg)
  | _ => g_genesisTime g = 0
  end.

Lemma verify_network_spec cfg env g (w w' : World N) t :
  g_beacon g = true → w_beacon w = new_beacon cfg → verify_network cfg env g w = (Ok t, w') →
  match fst (GetNetworkName (ne_http env) (ne_req env) (new_beacon cfg)) with
  | Ok name => name = Config.nc_Name (Config.c_Network cfg)
  | _ => t = 0
  end ∧ w_node w' = w_node w ∧ w_db w' = w_db w ∧ w_state w' = w_state w.
Proof.
  intros Hg Hw. unfold verify_network, in_beacon. rewrite Hg. unfold mbind, go_bind, attempt, zoom. rewrite Hw.
  destruct (GetNetworkName (ne_http env) (ne_req env) (new_beacon cfg)) as [[name|e|m] b]; cbn.
  - case_bool_decide; [|done].
    match goal with |- context [GetGenesisTime ?h ?r ?c] => destruct (GetGenesisTime h r c) as [[t'|e|m] b'] end;
      cbn; intros Hx; [apply ret_Ok in Hx as [-> ->]..|]; done.
  - by intros [-> ->]%ret_Ok.
  - done.
Qed.

(** A generator that New returns has exactly the clients its configuration
    asks for; EXECUTION_RPC implies a beacon client; a beacon node that tells
    its network is on the configured one; without a database the state manager
    holds what the state file says, or a fresh state; the node and the
    database are untouched. *)
Theorem New_wires cfg env (w w' : World N) g : New cfg env w = (Ok g, w') →
  let net := Config.c_Network cfg in
  g_cfg g = generator_config cfg ∧
  g_beacon g = is_set (Config.nc_BeaconRPC net) ∧
  (is_set (Config.nc_ExecutionRPC net) = true → g_beacon g = true) ∧
  (g_ipfs g = None ↔ Config.ic_SkipUpload (Config.c_IPFS cfg) = true) ∧
  g_db g = is_set (Config.st_PostgresDSN (Config.c_Storage cfg)) ∧
  (g_beacon g = true → network_verified cfg env g) ∧
  (g_db g = false → NewManager (Config.st_DataDir (Config.c_Storage cfg)) (Config.nc_Name net) (ne_read env)
     (fs_files (snd (w_state w))) = Ok (fst (w_state w'))) ∧
  w_node w' = w_node w ∧ w_db w' = w_db w.
Proof.
  intros HN. unfold New in HN.
  change (negb (bool_decide (Config.nc_BeaconRPC (Config.c_Network cfg) = "")))
    with (is_set (Config.nc_BeaconRPC (Config.c_Network cfg))) in HN.
  change (negb (bool_decide (Config.st_PostgresDSN (Config.c_Storage cfg) = "")))
    with (is_set (Config.st_PostgresDSN (Config.c_Storage cfg))) in HN.
  cbv zeta. remember (is_set (Config.nc_BeaconRPC (Config.c_Network cfg))) as beacon eqn:Hbeacon.
  set (db := is_set (Config.st_PostgresDSN (Config.c_Storage cfg))) in *.
  apply bind_Ok in HN as ([] & w1 & H1 & HN).
  assert (w_node w1 = w_node w ∧ w_db w1 = w_db w ∧ w_state w1 = w_state w ∧
    (beacon = true → w_beacon w1 = new_beacon cfg)) as (Hn1 & Hd1 & Hs1 & Hb1)
    by (destruct beacon; injection H1 as <-; done).
  apply bind_Ok in HN as ([] & w2 & H2 & HN).
  assert (w2 = w1 ∧ (is_set (Config.nc_ExecutionRPC (Config.c_Network cfg)) = true → beacon = true)) as [-> Hel].
  { fold (is_set (Config.nc_ExecutionRPC (Config.c_Network cfg))) in H2.
    destruct (is_set (Config.nc_ExecutionRPC _)), beacon; try done; injection H2 as <-; done. }
  apply bind_Ok in HN as ([] & w3 & H3 & HN).
  assert (w3 = w1) as -> by (destruct db, (ne_connect env); try done; injection H3 as <-; done).
  apply bind_Ok in HN as ([] & w4 & H4 & HN).
  assert (w_node w4 = w_node w ∧ w_db w4 = w_db w ∧ w_beacon w4 = w_beacon w1 ∧
    (db = false → NewManager (Config.st_DataDir (Config.c_Storage cfg)) (Config.nc_Name (Config.c_Network cfg)) (ne_read env)
      (fs_files (snd (w_state w))) = Ok (fst (w_state w4)))) as (Hn4 & Hd4 & Hb4 & Hs4).
  { destruct db; [injection H4 as <-; done|]. apply bind_Ok in H4 as (m & w5 & Hm & H4).
    apply wrapf_Ok in Hm. injection Hm as Hm <-. injection H4 as <-. rewrite <- Hs1. done. }
  apply bind_Ok in HN as (t & w5 & H5 & HN). injection HN as <- <-. cbn.
  assert (g_ipfs (mkGenerator (generator_config cfg) beacon (new_ipfs cfg) db None 0 0 0) = None ↔
    Config.ic_SkipUpload (Config.c_IPFS cfg) = true) as Hi.
  { cbn. unfold new_ipfs. by destruct (Config.ic_SkipUpload _). }
  destruct beacon.
  - apply verify_network_spec in H5 as (Hv & Hn5 & Hd5 & Hs5); [|done|by rewrite Hb4, Hb1].
    rewrite Hn5, Hd5, Hs5. split_and!; try done; apply Hi.
  - injection H5 as <- <-. split_and!; try done; apply Hi.
Qed.

Lemma New_parts cfg env (w w' : World N) g : New cfg env w = (Ok g, w') →
  g_cfg g = generator_config cfg ∧ (g_ipfs g ≠ None → Config.ic_SkipUpload (Config.c_IPFS cfg) = false).
Proof.
  intros HN. unfold New in HN. do 5 (apply bind_Ok in HN as (? & ? & _ & HN)). injection HN as <- <-.
  split; [done|]. cbn. unfold new_ipfs. by destruct (Config.ic_SkipUpload _).
Qed.

(** From the environment to the hypotheses of the other theorems: a
    generator made by New from what Load returned has at least one blob worker
    unless GENERATOR_WORKERS is negative, a 64-bit start epoch, pages of at
    least 1000 epochs, and, when it uploads, an IPFS address. *)
Lemma New_ready {FT : Config.FloatText} (Getenv : string → string) cfg env (w w' : World N) g :
  Config.Load Getenv = Ok cfg → 0 ≤ Config.env_int Getenv "GENERATOR_WORKERS" 0 →
  New cfg env w = (Ok g, w') →
  0 < cf_Workers (g_cfg g) ∧ 0 ≤ cf_StartEpoch (g_cfg g) < two64 ∧ 1000 ≤ cf_NetworkRootPageSize (g_cfg g) ∧
  cf_Network (g_cfg g) ≠ "" ∧ (g_ipfs g ≠ None → Config.ic_APIAddr (Config.c_IPFS cfg) ≠ "").
Proof.
  intros HL Hw HN. pose proof (Config.Load_config_ok Getenv cfg HL) as Hok.
  apply New_parts in HN as (-> & Hi).
  pose proof (Config.ok_counts _ Hok) as [Hw0 _]%Forall_cons.
  assert (Config.gc_Workers (Config.c_Generator cfg) = Config.setting Getenv _ 16 "GENERATOR_WORKERS") as Hset
    by apply (Config.Load_workers Getenv cfg HL).
  cbn. split_and!; try apply Hok; [|intros Hne; destruct (Config.ok_ipfs _ Hok) as [Hs|]; [by rewrite (Hi Hne) in Hs|done]].
  rewrite Hset. unfold Config.setting, Config.or_default, Config.env_int in *. zcases.
Qed.

(** C37. A negative GENERATOR_WORKERS passes validation and is not replaced by
    the default; processEpochBlobs then starts no worker and returns a zero
    result (undefined CIDs) for every blob, without an error and without
    storing a block. *)
Theorem negative_workers_lose_blobs {FT : Config.FloatText} {I : Ipld} {BS} {B : blockstoreBackend BS}
    (Getenv : string → string) cfg order inp (bs : BS) :
  Config.Load Getenv = Ok cfg → Config.env_int Getenv "GENERATOR_WORKERS" 0 < 0 →
  processEpochBlobs (Config.gc_Workers (Config.c_Generator cfg)) order inp bs =
    (Ok (replicate (length (ei_Blobs inp)) BlobResult_zero), bs).
Proof.
  intros HL Hneg. rewrite (Config.Load_workers Getenv cfg HL).
  unfold Config.setting, Config.or_default, Config.env_int in *. unfold processEpochBlobs. zcases; done.
Qed.
End NewFacts.

(** ** The properties at concrete inputs *)

#[local] Instance demo_text : Config.FloatText := {| Config.ParseFloat _ := None |}.

Definition demo_vars (workers : string) : string → string :=
  Config.demo_vars [("NETWORK_NAME", "mainnet"); ("DATA_DIR", "/data"); ("IPFS_API_ADDR", "/ip4/127.0.0.1/tcp/5001");
    ("BEACON_RPC", "http://node:5052/"); ("POSTGRES_DSN", "postgres://localhost/ipld"); ("GENERATOR_WORKERS", workers)].
Definition demo_cfg (workers : string) : Config.Config :=
  Config.applyDefaults (demo_vars workers) (Config.applyEnv (demo_vars workers) Config.Config_zero).

Lemma demo_cfg_loaded workers : workers = "4" ∨ workers = "-1" → Config.Load (demo_vars workers) = Ok (demo_cfg workers).
Proof. intros [->| ->]; vm_compute; reflexivity. Qed.

(** A node that is on mainnet. *)
Definition demo_new : NewEnv := mkNewEnv (λ _, Response 200 "ok") demo_env demo_env None None.
Definition demo_mainnet : BeaconJson := {|
  json_finality _ := Ok ("11", "12");
  json_header _ := Ok ("1", "2", "", "", "");
  json_sidecars _ := Ok [];
  json_payload _ := Ok ("0xh", "5");
  json_genesis _ := Ok "1606824023";
  json_config_name _ := Ok "MAINNET" |}.
Definition demo_before : World (gmap cid string) :=
  mkWorld demo_client ∅ (healthy tables_empty) (mkManager "" (mkState "" 0 0), mkFS ∅ [] []) [] None.
Definition demo_made : outcome Generator * World (gmap cid string) :=
  New (BJ := demo_mainnet) (demo_cfg "4") demo_new demo_before.
Definition demo_generator : Generator :=
  match fst demo_made with Ok g => g | _ => mkGenerator (generator_config (demo_cfg "4")) false None false None 0 0 0 end.

Lemma demo_made_eq : New (BJ := demo_mainnet) (demo_cfg "4") demo_new demo_before = (Ok demo_generator, snd demo_made).
Proof. vm_compute. reflexivity. Qed.

Lemma New_wires_witness :
  g_beacon demo_generator = true ∧ g_db demo_generator = true ∧
  network_verified (BJ := demo_mainnet) (demo_cfg "4") demo_new demo_generator.
Proof.
  destruct (New_wires (BJ := demo_mainnet) (demo_cfg "4") demo_new demo_before _ demo_generator demo_made_eq)
    as (_ & Hb & _ & _ & Hd & Hv & _).
  split; [rewrite Hb; vm_compute; reflexivity|]. split; [rewrite Hd; vm_compute; reflexivity|].
  apply Hv. rewrite Hb. vm_compute. reflexivity.
Defined.

Lemma New_ready_demo :
  0 < cf_Workers (g_cfg demo_generator) ∧ 1000 ≤ cf_NetworkRootPageSize (g_cfg demo_generator).
Proof.
  destruct (New_ready (BJ := demo_mainnet) (demo_vars "4") (demo_cfg "4") demo_new demo_before _ demo_generator
    (demo_cfg_loaded "4" (or_introl eq_refl)) ltac:(vm_compute; discriminate) demo_made_eq) as (Hw & _ & Hp & _).
  split; [exact Hw|exact Hp].
Defined.

Lemma negative_workers_lose_blobs_witness :
  processEpochBlobs (B := mem_backend) (Config.gc_Workers (Config.c_Generator (demo_cfg "-1"))) [0%nat] demo_epoch
    MemBlockstore.NewMemBlockstore =
  (Ok (replicate (length (ei_Blobs demo_epoch)) BlobResult_zero), MemBlockstore.NewMemBlockstore).
Proof.
  apply (negative_workers_lose_blobs (demo_vars "-1") (demo_cfg "-1")
    [0%nat] demo_epoch MemBlockstore.NewMemBlockstore (demo_cfg_loaded "-1" (or_intror eq_refl))).
  vm_compute. reflexivity.
Defined.
