(* ===== verification/Car.v ===== *)
(** * Car: car/exporter.go, and the commands export-car and export-car-range

    ExportRangeCAR over the file system of the state manager, with a crash
    possible at any point; go-car's writer and reader are a parameter. The two
    commands of cmd/blobscan-ipld/main.go read the epochs' CIDs from the
    database, fetch their blocks from the node and export them. *)

From S2P Require Import Prelude GoStd GoTime Types Ipld Store IpldModel Blob Epoch Network Db StateFile Ipfs.
From S2P Require Config.

(** ** path/filepath *)

(** One component of a path onto the components before it, last first. *)
Definition clean_part (rooted : bool) (acc : list string) (part : string) : list string :=
  if bool_decide (part = "" ∨ part = ".") then acc
  else if bool_decide (part = "..") then
    match acc with
    | top :: acc' => if bool_decide (top = "..") then part :: acc else acc'
    | [] => if rooted then [] else [part]
    end
  else part :: acc.

Definition filepath_Clean (path : string) : string :=
  let rooted := HasPrefix path "/" in
  let out := Join (rev (foldl (clean_part rooted) [] (Split path "/"))) "/" in
  if rooted then "/" +:+ out else if bool_decide (out = "") then "." else out.

Definition filepath_Join (elems : list string) : string :=
  match filter (λ s, s ≠ "") elems with
  | [] => ""
  | l => filepath_Clean (Join l "/")
  end.

(** The path up to its last separator. *)
Definition filepath_Dir (path : string) : string :=
  let parts := Split path "/" in
  filepath_Clean (Join (take (length parts - 1) parts ++ [""]) "/").

(** ** go-car *)

(** A multihash, by which go-car's blockstore files its blocks. *)
Definition cid_Hash (c : cid) : Z * Z * string := (cid_MhType c, cid_MhLength c, cid_Digest c).

(** Each call on an open archive returns, besides its result, the contents its
    file goes through. *)
Class GoCar := {
  car_rw : Type;
  car_reader : Type;
  OpenReadWrite : option string → list cid → list string * outcome car_rw;
  rw_Put : block → car_rw → list string * outcome car_rw;
  rw_Finalize : car_rw → list string * outcome unit;
  NewReader : string → outcome car_reader;
  Roots : car_reader → outcome (list cid);
  archive_get : string → cid → option string }.

(** What the exporter relies on: on a new file the archive starts empty with
    the roots it is given; Put files a block under its multihash (other than an
    identity hash, 0) unless that is taken; a finalized file reads back as what was put. *)
Class GoCarLaws {G : GoCar} := {
  rw_roots : car_rw → list cid;
  rw_get : car_rw → cid → option string;
  open_fresh roots states w : OpenReadWrite None roots = (states, Ok w) →
    rw_roots w = roots ∧ ∀ c, rw_get w c = None;
  put_ok b w states w' : rw_Put b w = (states, Ok w') → cid_MhType (blk_Cid b) ≠ 0 →
    rw_roots w' = rw_roots w ∧
    ∀ c, rw_get w' c = if decide (cid_Hash c = cid_Hash (blk_Cid b))
                       then Some (default (blk_RawData b) (rw_get w c)) else rw_get w c;
  finalize_ok w states u : rw_Finalize w = (states, Ok u) →
    ∃ data r, last states = Some data ∧ NewReader data = Ok r ∧ Roots r = Ok (rw_roots w) ∧
      ∀ c, archive_get data c = rw_get w c }.
Arguments GoCarLaws : clear implicits.

(** ** The exporter *)

Section Exporter.
Context {I : Ipld} {R : GoRuntime} {G : GoCar}.

Definition os_MkdirAll (path : string) : Go FS unit := λ w,
  let '(f, w) := fs_next w in
  match f with
  | NoFault => (Ok tt, w)
  | Fails e | ShortWrite _ e => (Err e, w)
  end.

(** A call of go-car that writes the file at [path]; the disk may fail it
    after any number of its writes. *)
Definition car_call {A} (path : string) (call : option string → list string * outcome A) : Go FS A := λ w,
  let '(f, w) := fs_next w in
  let '(states, o) := call (fs_files w !! path) in
  let on_disk := (λ data, <[path := data]> (fs_files w)) <$> states in
  match f with
  | NoFault => (o, fs_through on_disk w)
  | Fails e => (Err e, w)
  | ShortWrite n e => (Err e, fs_through (take n on_disk) w)
  end.

(** [if err := m; err != nil { _ = os.Remove(tmp); return ... }] *)
Definition or_remove {A} (tmp ctx : string) (m : Go FS A) : Go FS A := λ w,
  match m w with
  | (Err e, w') => (Err (errorf_w ctx e), snd (os_Remove tmp w'))
  | r => r
  end.

(** The loop over the blocks; Discard closes the file without writing to it. *)
Fixpoint copy_blocks (tmp : string) (blks : list block) (rw : car_rw) : Go FS car_rw :=
  match blks with
  | [] => mret rw
  | blk :: rest =>
      rw ← or_remove tmp ("car: put block " +:+ cid_String (blk_Cid blk)) (car_call tmp (λ _, rw_Put blk rw));
      copy_blocks tmp rest rw
  end.

Definition ExportRangeCAR (bs : MemBlockstore.t) (rootCID : cid) (outPath : string) : Go FS unit :=
  _ ← wrapf ("car: mkdir " +:+ quoted (filepath_Dir outPath)) (os_MkdirAll (filepath_Dir outPath));
  let tmpPath := outPath +:+ ".tmp" in
  rw ← wrapf ("car: open write blockstore " +:+ quoted tmpPath)
         (car_call tmpPath (λ old, OpenReadWrite old [rootCID]));
  rw ← copy_blocks tmpPath (MemBlockstore.All bs) rw;
  _ ← or_remove tmpPath ("car: finalize " +:+ quoted tmpPath) (car_call tmpPath (λ _, rw_Finalize rw));
  or_remove tmpPath ("car: rename " +:+ quoted tmpPath +:+ " → " +:+ quoted outPath) (os_Rename tmpPath outPath).

Definition EpochCARPath (carDir network : string) (epoch : Z) : string :=
  filepath_Join [carDir; network; FormatUint epoch +:+ ".car"].

Definition RangeCARPath (carDir network : string) (firstEpoch lastEpoch : Z) : string :=
  filepath_Join [carDir; network; FormatUint firstEpoch +:+ "-" +:+ FormatUint lastEpoch +:+ ".car"].

Definition os_Open (path : string) : Go FS string := λ w,
  let '(f, w) := fs_next w in
  match f, fs_files w !! path with
  | NoFault, Some data => (Ok data, w)
  | NoFault, None => (Err (errors_New "open: no such file or directory"), w)
  | (Fails e | ShortWrite _ e), _ => (Err e, w)
  end.

Definition VerifyCARRoot (carPath : string) (rootCID : cid) : Go FS unit :=
  data ← wrapf ("car: open " +:+ quoted carPath) (os_Open carPath);
  cr ← wrapf ("car: read header " +:+ quoted carPath) (lift (NewReader data));
  roots ← wrapf ("car: get roots " +:+ quoted carPath) (lift (Roots cr));
  if bool_decide (rootCID ∈ roots) then mret tt
  else fail (errors_New ("car: root CID " +:+ cid_String rootCID +:+ " not found in " +:+ quoted carPath)).
End Exporter.

(** ** The commands *)

Record CarWorld (N : Type) := mkCarWorld { cw_db : Db.Client; cw_node : N; cw_fs : FS }.
Arguments mkCarWorld {N}.
Arguments cw_db {N}.
Arguments cw_node {N}.
Arguments cw_fs {N}.

Section Commands.
Context {I : Ipld} {R : GoRuntime} {G : GoCar} {P : Postgres} {N : Type} {K : Kubo N}.
Context (cfg : Config.Config) (connect : option error).

Abbreviation World := (CarWorld N).
Abbreviation network := (Config.nc_Name (Config.c_Network cfg)).

Definition in_db {A} : Go Db.Client A → Go World A :=
  zoom cw_db (λ d w, mkCarWorld d (cw_node w) (cw_fs w)).
Definition in_fs {A} : Go FS A → Go World A :=
  zoom cw_fs (λ f w, mkCarWorld (cw_db w) (cw_node w) f).

(** GetBlocks into the store [bs]. *)
Definition fetch (bs : MemBlockstore.t) (cids : list cid) : Go World MemBlockstore.t := λ w,
  let '(o, (n, bs)) := GetBlocks cids (cw_node w, bs) in
  (_ ← o; Ok bs, mkCarWorld (cw_db w) n (cw_fs w)).

(** [if bad { fmt.Fprintln(os.Stderr, msg); os.Exit(1) }] *)
Definition require (ok : bool) (msg : string) : Go World unit :=
  if ok then mret tt else fail (errors_New msg).

(** [db.New(ctx, cfg.Storage.PostgresDSN)], which fails as [connect] says. *)
Definition open_db : Go World unit :=
  match connect with None => mret tt | Some e => fail (errorf_w "failed to connect to postgres" e) end.

Definition has_dsn : bool := negb (bool_decide (Config.st_PostgresDSN (Config.c_Storage cfg) = "")).

(** [c, _ := cid.Decode(s)] *)
Definition decode_or_undef (s : string) : cid := match cid_Decode s with Ok c => c | _ => cid_Undef end.

Definition epoch_cids (epochCID : cid) (blobs : list BlobRecord) : list cid :=
  epochCID :: concat ((λ b, [decode_or_undef (rb_DataCID b); decode_or_undef (rb_MetaCID b)]) <$> blobs).

Definition epochCIDStr (records : list EpochRecord) (epochNum : Z) : string :=
  from_option (rec_CID ∘ snd) "" (list_find (λ r, rec_Epoch r = epochNum) records).

(** An error ends the command with exit code 1. *)
Definition run_command (m : Go World unit) : Go World Z :=
  r ← attempt m; mret (match r with inl _ => 1 | inr _ => 0 end).

Definition export_car (epochNum : Z) (outPath : string) : Go World unit :=
  _ ← require (negb (epochNum =? 0)) "export-car: -n <epoch> is required";
  _ ← require has_dsn "export-car: postgres_dsn is required (epoch CIDs are stored in the DB)";
  _ ← open_db;
  records ← in_db (GetAllEpochs network);
  let str := epochCIDStr records epochNum in
  _ ← require (negb (bool_decide (str = ""))) "epoch not found in database";
  epochCID ← lift (cid_Decode str);
  blobs ← in_db (GetBlobsByEpoch network epochNum);
  bs ← fetch MemBlockstore.NewMemBlockstore (epoch_cids epochCID blobs);
  let path := if bool_decide (outPath = "")
              then EpochCARPath (Config.st_CARDir (Config.c_Storage cfg)) network epochNum else outPath in
  in_fs (ExportRangeCAR bs epochCID path).

Definition cmdExportCAR (epochNum : Z) (outPath : string) : Go World Z :=
  run_command (export_car epochNum outPath).

(** The epochs of the range with their CIDs. *)
Definition range_entries_of (fromEpoch toEpoch : Z) (records : list EpochRecord) : outcome (list (EpochRecord * cid)) :=
  mapM_out (λ r, c ← cid_Decode (rec_CID r); Ok (r, c))
    (filter (λ r, fromEpoch ≤ rec_Epoch r ≤ toEpoch) records).

Fixpoint fetch_epochs (entries : list (EpochRecord * cid)) (bs : MemBlockstore.t) : Go World MemBlockstore.t :=
  match entries with
  | [] => mret bs
  | (r, c) :: rest =>
      blobs ← in_db (GetBlobsByEpoch network (rec_Epoch r));
      bs ← fetch bs (epoch_cids c blobs);
      fetch_epochs rest bs
  end.

Definition entry_result (e : EpochRecord * cid) : EpochResult :=
  mkEpochResult (rec_Epoch (fst e)) (snd e) "" (rec_SizeBytes (fst e)).

Definition export_car_range (fromEpoch toEpoch : Z) (outPath : string) : Go World unit :=
  _ ← require (negb ((fromEpoch =? 0) || (toEpoch =? 0))) "export-car-range: -from and -to are required";
  _ ← require (fromEpoch <=? toEpoch) "export-car-range: -to must be >= -from";
  _ ← require has_dsn "export-car-range: postgres_dsn is required (epoch CIDs are stored in the DB)";
  _ ← open_db;
  allRecords ← in_db (GetAllEpochs network);
  entries ← lift (range_entries_of fromEpoch toEpoch allRecords);
  _ ← require (negb (Nat.eqb (length entries) 0)) "no epochs found in database for range";
  bs ← fetch_epochs entries MemBlockstore.NewMemBlockstore;
  let '(o, bs) := BuildRangeNode network (entry_result <$> entries) bs in
  rangeResult ← lift o;
  let path := if bool_decide (outPath = "")
              then RangeCARPath (Config.st_CARDir (Config.c_Storage cfg)) network fromEpoch toEpoch else outPath in
  in_fs (ExportRangeCAR bs (er_CID rangeResult) path).

Definition cmdExportCARRange (fromEpoch toEpoch : Z) (outPath : string) : Go World Z :=
  run_command (export_car_range fromEpoch toEpoch outPath).
End Commands.

(** ** Facts about the exporter *)

Section ExporterFacts.
Context {I : Ipld} {R : GoRuntime} {G : GoCar} {GL : GoCarLaws G}.

(** Whatever the disk went through, only the file at [tmp] changed. *)
Definition private (tmp : string) (w w' : FS) : Prop :=
  (∀ p, p ≠ tmp → fs_files w' !! p = fs_files w !! p) ∧
  ∃ seen, fs_seen w' = fs_seen w ++ seen ∧
    Forall (λ m : gmap string string, ∀ p, p ≠ tmp → m !! p = fs_files w !! p) seen.

#[export] Instance private_preorder tmp : PreOrder (private tmp).
Proof.
  split.
  - intros w. split; [done|]. exists []. by rewrite app_nil_r.
  - intros w1 w2 w3 [Hf1 (s1 & Hs1 & Ha1)] [Hf2 (s2 & Hs2 & Ha2)]. split; [intros p Hp; by rewrite Hf2, Hf1|].
    exists (s1 ++ s2). rewrite Hs2, Hs1, app_assoc. split; [done|]. apply Forall_app. split; [done|].
    eapply Forall_impl; [exact Ha2|]. intros m Hm p Hp. by rewrite Hm, Hf1.
Qed.

Lemma private_faults tmp w fs : private tmp w (mkFS (fs_files w) (fs_seen w) fs).
Proof. split; [done|]. exists []. by rewrite app_nil_r. Qed.

Lemma private_next tmp w : private tmp w (snd (fs_next w)).
Proof. unfold fs_next. destruct (fs_faults w) eqn:Hf; [reflexivity|apply private_faults]. Qed.

Lemma private_through tmp w states :
  Forall (λ m : gmap string string, ∀ p, p ≠ tmp → m !! p = fs_files w !! p) states →
  private tmp w (fs_through states w).
Proof.
  intros Hs. split; [|by exists states]. intros p Hp. unfold fs_through. cbn.
  destruct (last states) as [m|] eqn:Hm; [|done]. cbn. rewrite Forall_forall in Hs. apply Hs; [|done].
  by apply last_Some_elem_of in Hm.
Qed.

Lemma on_disk_private tmp (w : FS) (states : list string) :
  Forall (λ m : gmap string string, ∀ p, p ≠ tmp → m !! p = fs_files w !! p)
    ((λ data, <[tmp := data]> (fs_files w)) <$> states).
Proof. apply Forall_fmap, Forall_true. intros d p Hp. by apply lookup_insert_ne. Qed.

Lemma always_MkdirAll tmp path : always (private tmp) (os_MkdirAll path).
Proof.
  intros w. unfold os_MkdirAll. pose proof (private_next tmp w) as Hn.
  destruct (fs_next w) as [[]?]; exact Hn.
Qed.

Lemma always_Remove tmp : always (private tmp) (os_Remove tmp).
Proof.
  intros w. unfold os_Remove. pose proof (private_next tmp w) as Hn.
  destruct (fs_next w) as [[] w']; [|exact Hn..]. etransitivity; [exact Hn|]. apply private_through.
  constructor; [|constructor]. intros p Hp. by apply lookup_delete_ne.
Qed.

Lemma always_car_call {A} tmp (call : option string → list string * outcome A) : always (private tmp) (car_call tmp call).
Proof.
  intros w. unfold car_call. pose proof (private_next tmp w) as Hn. destruct (fs_next w) as [f w'].
  cbn [snd] in Hn. destruct (call (fs_files w' !! tmp)) as [states o]. destruct f; cbn [snd]; [|exact Hn|];
    (etransitivity; [exact Hn|]); apply private_through; [|apply Forall_take]; apply on_disk_private.
Qed.

Lemma always_or_remove {A} tmp ctx (m : Go FS A) : always (private tmp) m → always (private tmp) (or_remove tmp ctx m).
Proof.
  intros Hm w. unfold or_remove. specialize (Hm w). destruct (m w) as [[a|e|p] w']; [exact Hm| |exact Hm].
  etransitivity; [exact Hm|apply always_Remove].
Qed.

Lemma always_copy_blocks tmp blks : ∀ rw, always (private tmp) (copy_blocks tmp blks rw).
Proof.
  induction blks as [|b blks IH]; intros rw; cbn [copy_blocks]; [apply always_ret, _|].
  apply always_bind; [apply _| |intros; apply IH]. apply always_or_remove, always_car_call.
Qed.

(** The archive after the blocks [blks]: the first block of a multihash stays. *)
Record copied (blks : list block) (rw rw' : car_rw) : Prop := {
  cp_roots : rw_roots rw' = rw_roots rw;
  cp_keeps : ∀ c d, rw_get rw c = Some d → rw_get rw' c = Some d;
  cp_has : ∀ b, b ∈ blks → is_Some (rw_get rw' (blk_Cid b));
  cp_from : ∀ c d, rw_get rw' c = Some d → rw_get rw c = Some d ∨
    ∃ b, b ∈ blks ∧ cid_Hash c = cid_Hash (blk_Cid b) ∧ d = blk_RawData b }.

Lemma car_call_Ok {A} path (call : option string → list string * outcome A) w a w' :
  car_call path call w = (Ok a, w') →
  ∃ states, call (fs_files w !! path) = (states, Ok a) ∧
    ∀ data, last states = Some data → fs_files w' !! path = Some data.
Proof.
  unfold car_call. assert (fs_files (snd (fs_next w)) = fs_files w) as Hf by (unfold fs_next; by destruct (fs_faults w)).
  destruct (fs_next w) as [f w1]. cbn in Hf. rewrite Hf.
  destruct (call (fs_files w !! path)) as [states o] eqn:Hc.
  destruct f; [|done|done]. intros [= -> <-]. exists states. split; [done|]. intros data Hl.
  unfold fs_through. cbn. rewrite fmap_last, Hl. cbn. apply lookup_insert_eq.
Qed.

Lemma or_remove_Ok {A} tmp ctx (m : Go FS A) w a w' : or_remove tmp ctx m w = (Ok a, w') → m w = (Ok a, w').
Proof. unfold or_remove. by destruct (m w) as [[]?]. Qed.

Lemma copy_blocks_Ok tmp blks : Forall (λ b, cid_MhType (blk_Cid b) ≠ 0) blks → ∀ rw w rw' w',
  copy_blocks tmp blks rw w = (Ok rw', w') → copied blks rw rw'.
Proof.
  induction 1 as [|b blks Hb _ IH]; intros rw w rw' w'; cbn [copy_blocks].
  { intros [= -> ->]. split; [done|done|set_solver|by left]. }
  unfold mbind, go_bind. destruct (or_remove _ _ _ w) as [[rw1|e|p] w1] eqn:Hp; [|done|done].
  apply or_remove_Ok, car_call_Ok in Hp as (states & Hp & _). intros Hc%IH.
  destruct (put_ok _ _ _ _ Hp Hb) as [Hr Hg]. destruct Hc as [Hroots Hkeeps Hhas Hfrom].
  assert (is_Some (rw_get rw1 (blk_Cid b))) as [d Hd] by (rewrite Hg, decide_True by done; eauto).
  split.
  - congruence.
  - intros c d' Hc. apply Hkeeps. rewrite Hg, Hc. by destruct (decide _).
  - intros b' [->|Hin]%elem_of_cons; eauto.
  - intros c d' [Hc|(b' & Hin & Hx)]%Hfrom; [|right; exists b'; rewrite elem_of_cons; tauto].
    rewrite Hg in Hc. destruct (decide _) as [He|]; [|by left].
    destruct (rw_get rw c) as [d''|]; [by left|].
    right. exists b. injection Hc as <-. rewrite elem_of_cons. tauto.
Qed.

(** [data] is a finished archive with the one root and the blocks of [bs]. *)
Definition archive_of (root : cid) (bs : MemBlockstore.t) (data : string) : Prop :=
  (∃ r, NewReader data = Ok r ∧ Roots r = Ok [root]) ∧
  (∀ b, b ∈ MemBlockstore.All bs → is_Some (archive_get data (blk_Cid b))) ∧
  ∀ c d, archive_get data c = Some d →
    ∃ b, b ∈ MemBlockstore.All bs ∧ cid_Hash c = cid_Hash (blk_Cid b) ∧ d = blk_RawData b.

Definition no_identity (bs : MemBlockstore.t) : Prop :=
  Forall (λ b, cid_MhType (blk_Cid b) ≠ 0) (MemBlockstore.All bs).

(** Everything up to the rename. *)
Definition write_tmp (bs : MemBlockstore.t) (rootCID : cid) (outPath : string) : Go FS unit :=
  _ ← wrapf ("car: mkdir " +:+ quoted (filepath_Dir outPath)) (os_MkdirAll (filepath_Dir outPath));
  let tmpPath := outPath +:+ ".tmp" in
  rw ← wrapf ("car: open write blockstore " +:+ quoted tmpPath)
         (car_call tmpPath (λ old, OpenReadWrite old [rootCID]));
  rw ← copy_blocks tmpPath (MemBlockstore.All bs) rw;
  or_remove tmpPath ("car: finalize " +:+ quoted tmpPath) (car_call tmpPath (λ _, rw_Finalize rw)).

Lemma ExportRangeCAR_split bs root out w :
  ExportRangeCAR bs root out w =
  (_ ← write_tmp bs root out;
   or_remove (out +:+ ".tmp") ("car: rename " +:+ quoted (out +:+ ".tmp") +:+ " → " +:+ quoted out)
     (os_Rename (out +:+ ".tmp") out)) w.
Proof.
  unfold ExportRangeCAR, write_tmp, mbind, go_bind.
  destruct (wrapf _ (os_MkdirAll _) w) as [[] w1]; [|done..].
  destruct (wrapf _ (car_call _ _) w1) as [[] w2]; [|done..].
  by destruct (copy_blocks _ _ _ w2) as [[] w3].
Qed.

Lemma write_tmp_private bs root out : always (private (out +:+ ".tmp")) (write_tmp bs root out).
Proof.
  unfold write_tmp. apply always_bind; [apply _|apply always_wrapf, always_MkdirAll|]. intros _.
  apply always_bind; [apply _|apply always_wrapf, always_car_call|]. intros rw.
  apply always_bind; [apply _|apply always_copy_blocks|]. intros rw'. apply always_or_remove, always_car_call.
Qed.

Lemma write_tmp_Ok bs root out w u w' :
  no_identity bs → fs_files w !! (out +:+ ".tmp") = None → write_tmp bs root out w = (Ok u, w') →
  ∃ data, fs_files w' !! (out +:+ ".tmp") = Some data ∧ archive_of root bs data.
Proof.
  intros Hid Htmp. unfold write_tmp, mbind, go_bind, wrapf.
  destruct (os_MkdirAll _ w) as [[] w1] eqn:Hm; cbn; [|done..].
  assert (fs_files w1 = fs_files w) as Hf1.
  { revert Hm. unfold os_MkdirAll, fs_next. destruct (fs_faults w) as [|[] ?]; intros; by simplify_eq. }
  destruct (car_call _ _ w1) as [[rw|e|p] w2] eqn:Ho; cbn; [|done..].
  apply car_call_Ok in Ho as (s1 & Ho & _). rewrite Hf1, Htmp in Ho. apply open_fresh in Ho as [Hr0 Hg0].
  destruct (copy_blocks _ _ rw w2) as [[rw'|e|p] w3] eqn:Hc; cbn; [|done..].
  apply copy_blocks_Ok in Hc as [Hroots _ Hhas Hfrom]; [|done].
  intros Hz%or_remove_Ok. apply car_call_Ok in Hz as (s2 & Hz & Hd).
  destruct (finalize_ok _ _ _ Hz) as (data & r & Hl & Hr & Hrs & Hget). exists data. split; [auto|].
  split_and!; [exists r; by rewrite Hrs, Hroots, Hr0|intros b Hb; rewrite Hget; auto|].
  intros c d. rewrite Hget. intros [Hc|Hc]%Hfrom; [by rewrite Hg0 in Hc|done].
Qed.

Lemma tmp_neq (out : string) : out +:+ ".tmp" ≠ out.
Proof.
  intros H%(f_equal String.length). revert H. induction out as [|a out IH]; [done|]. intros [= H]. auto.
Qed.

(** What a crash may leave on a disk that held [m0]. *)
Definition crash_ok (bs : MemBlockstore.t) (root : cid) (out : string) (m0 m : gmap string string) : Prop :=
  (m !! out = m0 !! out ∨ ∃ data, m !! out = Some data ∧ archive_of root bs data) ∧
  ∀ p, p ≠ out → p ≠ out +:+ ".tmp" → m !! p = m0 !! p.

Lemma private_crash_ok bs root out w w' : private (out +:+ ".tmp") w w' →
  (∃ seen, fs_seen w' = fs_seen w ++ seen ∧ Forall (crash_ok bs root out (fs_files w)) seen) ∧
  crash_ok bs root out (fs_files w) (fs_files w') ∧ fs_files w' !! out = fs_files w !! out.
Proof.
  intros [Hf (seen & Hs & Ha)]. pose proof (tmp_neq out) as Hne.
  split_and!; [exists seen; split; [done|]|split; [left|]; auto|auto].
  eapply Forall_impl; [exact Ha|]. intros m Hm. split; [left|]; auto.
Qed.

Lemma ExportRangeCAR_spec bs root out w :
  no_identity bs → fs_files w !! (out +:+ ".tmp") = None →
  let '(o, w') := ExportRangeCAR bs root out w in
  (∃ seen, fs_seen w' = fs_seen w ++ seen ∧ Forall (crash_ok bs root out (fs_files w)) seen) ∧
  crash_ok bs root out (fs_files w) (fs_files w') ∧
  match o with
  | Ok _ => ∃ data, fs_files w' !! out = Some data ∧ archive_of root bs data ∧ fs_files w' !! (out +:+ ".tmp") = None
  | _ => fs_files w' !! out = fs_files w !! out
  end.
Proof.
  intros Hid Htmp. rewrite ExportRangeCAR_split, bind_eq.
  pose proof (write_tmp_private bs root out w) as Hp. pose proof (tmp_neq out) as Hne.
  destruct (write_tmp bs root out w) as [[u|e|p] w1] eqn:Hw; cbn [snd] in Hp; [|by apply private_crash_ok..].
  destruct (write_tmp_Ok _ _ _ _ _ _ Hid Htmp Hw) as (data & Hd & Har).
  unfold or_remove, os_Rename. pose proof (private_next (out +:+ ".tmp") w1) as Hn.
  assert (fs_files (snd (fs_next w1)) = fs_files w1) as Hf2 by (unfold fs_next; by destruct (fs_faults w1)).
  destruct (fs_next w1) as [f w2]. cbn [snd] in *. rewrite Hf2, Hd.
  assert (private (out +:+ ".tmp") w w2) as Hp2 by (by etransitivity).
  destruct f; [|apply private_crash_ok; etransitivity; [exact Hp2|apply always_Remove]..].
  destruct Hp2 as [Hf (seen & Hs & Ha)].
  assert (crash_ok bs root out (fs_files w) (<[out:=data]> (delete (out +:+ ".tmp") (fs_files w1)))) as Hok.
  { split; [right; exists data; by rewrite lookup_insert_eq|]. intros p H1 H2.
    rewrite lookup_insert_ne, lookup_delete_ne, <- Hf2 by done. auto. }
  split_and!; [|exact Hok|].
  - exists (seen ++ [<[out:=data]> (delete (out +:+ ".tmp") (fs_files w1))]). cbn [fs_through fs_seen].
    rewrite Hs, app_assoc. split; [done|]. apply Forall_app. split; [|by constructor].
    eapply Forall_impl; [exact Ha|]. intros m Hm. split; [left|]; auto.
  - exists data. cbn. rewrite lookup_insert_eq, lookup_insert_ne, lookup_delete_eq by done. done.
Qed.

Lemma ExportRangeCAR_written bs root out w :
  no_identity bs → fs_files w !! (out +:+ ".tmp") = None →
  match ExportRangeCAR bs root out w with
  | (Ok _, w') => ∃ data, fs_files w' !! out = Some data ∧ archive_of root bs data
  | _ => True
  end.
Proof.
  intros Hid Htmp. pose proof (ExportRangeCAR_spec bs root out w Hid Htmp) as Hs.
  destruct (ExportRangeCAR bs root out w) as [[u|e|p] w']; [|done..]. destruct Hs as (_ & _ & data & ? & ? & _). eauto.
Qed.

End ExporterFacts.

(** ** A concrete go-car *)

(** An archive is its roots and its blocks by multihash; the file is written
    when it is finalized, and an existing one is not resumed. *)
Definition car_state : Type := list cid * gmap (Z * Z * string) string.

#[export] Instance car_model : GoCar := {|
  car_rw := car_state;
  car_reader := car_state;
  OpenReadWrite old roots :=
    match old with
    | None => ([""], Ok (roots, ∅))
    | Some _ => ([], Err (errors_New "car: cannot resume"))
    end;
  rw_Put b w :=
    let h := cid_Hash (blk_Cid b) in
    ([""], Ok (fst w, <[h := default (blk_RawData b) (snd w !! h)]> (snd w)));
  rw_Finalize w := ([pos_bits (encode w)], Ok tt);
  NewReader data := of_option (errors_New "car: invalid header") (decode (bits_pos data));
  Roots r := Ok (fst r);
  archive_get data c := r ← (decode (bits_pos data) : option car_state); snd r !! cid_Hash c |}.

#[export] Instance car_model_laws : GoCarLaws car_model.
Proof.
  refine (@Build_GoCarLaws car_model (λ w : car_state, fst w) (λ (w : car_state) c, snd w !! cid_Hash c) _ _ _).
  - intros roots states w [= _ <-]. split; [done|]. intros c. apply lookup_empty.
  - intros b w states w' [= _ <-] _. split; [done|]. intros c. cbn [snd]. case_decide as Hc.
    + rewrite Hc. apply lookup_insert_eq.
    + apply lookup_insert_ne. congruence.
  - intros w states u [= <-]. exists (pos_bits (encode (w : car_state))), w. cbn.
    rewrite bits_pos_bits, decode_encode. done.
Defined.

Definition demo_car_fs : FS := mkFS {[ "/data/old.car" := "old" ]} [] [].

