(* ===== verification/Reload.v ===== *)
(** * Reload: processing an epoch's blobs, and rebuilding the epoch from its rows

    Facts about processEpochBlobs and ReconstructFromDB of generator.go: the
    worker pool does not show in the results, and the database holds enough to
    rebuild an epoch's node to the same CID. *)

From S2P Require Import Prelude GoStd Types Ipld Store IpldModel Blob Epoch Network Db StateFile.
From S2P Require Import Beacon ElClient Ipfs Metrics Generator.

(** ** Facts: the blobs of an epoch *)

Section BlobFacts.
Context {I : Ipld} {L : IpldLaws I}.

(** What ProcessBlob returns for a blob, and the blocks it puts. *)
Definition blob_meta (b : BlobInput) : outcome block :=
  metadata_block b (data_cid linkProtoRaw (bi_Data b)).
Definition blob_result (b : BlobInput) : BlobResult :=
  match blob_meta b with
  | Ok mb => mkBlobResult (bi_Commitment b) (data_cid linkProtoRaw (bi_Data b)) (blk_Cid mb)
               (str_len (bi_Data b))
  | _ => BlobResult_zero
  end.
Definition blob_blocks (b : BlobInput) : list block :=
  raw_block (bi_Data b) :: match blob_meta b with Ok mb => [mb] | _ => [] end.

Lemma ProcessBlob_blob b BS (B : blockstoreBackend BS) (A : AcceptsWrites BS) :
  runs_as (ProcessBlob (BS := BS) b) (blob_result b) (blob_blocks b).
Proof.
  destruct (ProcessBlob_runs b) as (mb & Hmb & Hrun). unfold blob_result, blob_blocks, blob_meta.
  rewrite Hmb. apply Hrun, A.
Qed.

Lemma blob_blocks_certified b : Forall certified (blob_blocks b).
Proof.
  destruct (ProcessBlob_runs b) as (mb & Hmb & _). unfold blob_blocks, blob_meta. rewrite Hmb.
  repeat constructor; [apply raw_block_certified|by eapply cbor_block_certified].
Qed.

Lemma blob_result_defined b :
  br_DataCID (blob_result b) ≠ cid_Undef ∧ br_MetaCID (blob_result b) ≠ cid_Undef.
Proof.
  destruct (ProcessBlob_runs b) as (mb & Hmb & _). unfold blob_result, blob_meta. rewrite Hmb. cbn.
  split; [by apply data_cid_defined|by eapply cbor_block_defined].
Qed.

Lemma collect_blobs_runs blobs order BS (B : blockstoreBackend BS) (A : AcceptsWrites BS) : ∀ acc,
  Forall (λ b, 16 ≤ str_len (bi_Commitment b)) blobs →
  Forall (λ i, i < length blobs)%nat order →
  runs_as (collect_blobs (BS := BS) blobs order acc)
    (foldl (λ acc i, <[i := from_option blob_result BlobResult_zero (blobs !! i)]> acc) acc order)
    (concat ((λ i, from_option blob_blocks [] (blobs !! i)) <$> order)).
Proof.
  induction order as [|i order IH]; intros acc Hc Ho; cbn [collect_blobs foldl fmap list_fmap concat];
    [apply runs_as_ret|].
  apply Forall_cons in Ho as [Hi Ho]. destruct (lookup_lt_is_Some_2 blobs i Hi) as [b Hb]. rewrite Hb.
  assert ((str_len (bi_Commitment b) <? 16) = false) as Hlen.
  { rewrite Forall_forall in Hc. apply Z.ltb_ge, Hc. by eapply list_elem_of_lookup_2. }
  apply (runs_as_bind _ _ b _ []); [apply runs_as_lift; unfold index; by rewrite Hb|].
  apply (runs_as_bind _ _ (blob_result b) _ (blob_blocks b)); [by apply ProcessBlob_blob|].
  rewrite Hlen. by apply IH.
Qed.

(** In whatever order the results arrive, they come back in blob order. *)
Lemma processEpochBlobs_runs workers order inp BS (B : blockstoreBackend BS) (A : AcceptsWrites BS) :
  0 < workers → order ≡ₚ seq 0 (length (ei_Blobs inp)) →
  Forall (λ b, 16 ≤ str_len (bi_Commitment b)) (ei_Blobs inp) →
  ∃ blks, blks ≡ₚ concat (blob_blocks <$> ei_Blobs inp) ∧
    runs_as (processEpochBlobs (BS := BS) workers order inp) (blob_result <$> ei_Blobs inp) blks.
Proof.
  intros Hw Ho Hc. set (blobs := ei_Blobs inp) in *. set (n := length blobs) in *.
  unfold processEpochBlobs. fold blobs n.
  assert ((λ i, blobs !! i) <$> seq 0 n = Some <$> blobs) as Hseq.
  { apply list_eq. intros i. rewrite !list_lookup_fmap. destruct (decide (i < n)%nat) as [Hi|Hi].
    - rewrite lookup_seq_lt by done. cbn. by destruct (lookup_lt_is_Some_2 blobs i Hi) as [b ->].
    - rewrite lookup_ge_None_2 by (rewrite length_seq; lia).
      by rewrite (lookup_ge_None_2 blobs) by lia. }
  assert (∀ {C} (f : BlobInput → C) d, (λ i, from_option f d (blobs !! i)) <$> seq 0 n = f <$> blobs) as Hf.
  { intros C f d. change (λ i, from_option f d (blobs !! i)) with (from_option f d ∘ (λ i, blobs !! i)).
    by rewrite list_fmap_compose, Hseq, <- list_fmap_compose. }
  destruct (if Z.of_nat n <? workers then Z.of_nat n else workers) as [|w|w] eqn:Hn; cbn [Z.leb Z.compare].
  - assert (n = 0%nat) as Hz by (destruct (Z.ltb_spec (Z.of_nat n) workers); lia).
    exists []. unfold n in Hz. destruct blobs; [|done]. split; [done|apply runs_as_ret].
  - eexists. split; [|rewrite <- (Hf _ blob_result BlobResult_zero),
      <- (fill_all _ order n BlobResult_zero Ho); apply collect_blobs_runs; [done|done|]].
    + by rewrite <- (Hf _ blob_blocks []), Ho.
    + rewrite Ho. apply Forall_seq. unfold n. lia.
  - destruct (Z.ltb_spec (Z.of_nat n) workers); lia.
Qed.
End BlobFacts.

(** ** Facts: reloading an epoch *)

(** The values an int8 or int4 column holds unchanged. *)
Definition blob_fits (b : BlobInput) : Prop :=
  0 ≤ bi_Slot b < two63 ∧ 0 ≤ bi_BlockNumber b < two63 ∧ - 2 ^ 31 ≤ bi_Index b < 2 ^ 31.

Section Reload.
Context {R : GoRuntime} {I : Ipld} {L : IpldLaws I} {P : Postgres}.
Context (network : string) (e gt sps spe : Z).

(** The row of a blob as GetBlobsByEpoch returns it, and the input made of it. *)
Definition saved_record (p : BlobInput * BlobResult) : BlobRecord :=
  let '(b, r) := p in
  mkBlobRecord (bi_Commitment b) (cid_String (br_DataCID r)) (cid_String (br_MetaCID r)) (bi_Index b)
    (bi_Slot b) (blob_slot_time gt sps (bi_Slot b)) (bi_VersionedHash b) (bi_TxHash b) (bi_BlockNumber b)
    (bi_BlockHash b) (br_SizeBytes r).

Definition reloaded (p : BlobInput * BlobResult) : BlobInput :=
  let '(b, r) := p in
  mkBlobInput (bi_Commitment b) (bi_VersionedHash b) (bi_TxHash b) (bi_BlockNumber b) (bi_BlockHash b)
    (bi_Slot b) e (bi_Index b) "" (br_SizeBytes r).

Lemma to_i64_nonneg z : 0 ≤ z < two63 → to_i64 z = z.
Proof. intros. apply to_i64_id. unfold is_i64, two63 in *. lia. Qed.

Lemma zip_with_pairs {A B C} (f : A → B → C) l k : zip_with f l k = uncurry f <$> zip l k.
Proof. revert k. induction l; intros [|]; cbn; [done..|]. by f_equal. Qed.

Lemma fmap_perm_inv {A B} (f : A → B) (l : list A) (k : list B) :
  k ≡ₚ f <$> l → ∃ l', l' ≡ₚ l ∧ k = f <$> l'.
Proof. intros (l' & -> & Hp)%Permutation_map_inv. by exists l'. Qed.

Lemma GetBlobsByEpoch_saved blobs results t :
  0 ≤ e < two63 → length blobs = length results → fresh e (bi_Commitment <$> blobs) t →
  NoDup (bi_Commitment <$> blobs) → Forall blob_fits blobs →
  ∃ ps, ps ≡ₚ zip blobs results ∧
    GetBlobsByEpoch network e (healthy (saved_blobs network e blobs results gt sps t)) =
    (Ok (saved_record <$> ps), healthy (saved_blobs network e blobs results gt sps t)).
Proof.
  intros He Hl Hf Hnd Hfit. set (t' := saved_blobs _ _ _ _ _ _ _).
  destruct (fmap_perm_inv (uncurry (stage_row network e gt sps)) (zip blobs results)
    (sort_Slice (by_key (bl_blob_index ∘ snd) Z.ltb) (joined_blobs e network t'))) as (ps & Hp & Hs).
  { by rewrite sort_Slice_perm, <- zip_with_pairs, <- (joined_saved_perm network e blobs results gt sps t). }
  exists ps. split; [done|]. unfold GetBlobsByEpoch, wrapf, mbind, go_bind, lift.
  rewrite int8_ok by (unfold is_i64, two63 in *; lia). rewrite db_query_healthy. unfold epoch_records. rewrite Hs.
  cbn [wrap]. f_equal. set (F := λ b : string * blob_row, _).
  assert (∀ l, l ⊆ zip blobs results → mapM_out F (uncurry (stage_row network e gt sps) <$> l) =
    Ok (saved_record <$> l)) as Hm.
  { induction l as [|[b r] l IH]; intros Hsub; [done|]. cbn [fmap list_fmap mapM_out uncurry].
    assert (blob_fits b) as (Hslot & Hbn & _).
    { rewrite Forall_forall in Hfit. apply Hfit. eapply elem_of_zip_l, Hsub. left. }
    assert (F (stage_row network e gt sps b r) = Ok (saved_record (b, r))) as ->.
    { unfold F. cbn [fst snd stage_row bl_slot bl_block_number].
      rewrite !to_i64_nonneg, !scan_uint64_ok by lia. done. }
    cbn. rewrite IH; [done|]. set_solver. }
  rewrite Hm; [done|]. intros x. by rewrite Hp.
Qed.

Lemma Reconstruct_saved ps :
  Forall (λ p, br_Commitment (snd p) = bi_Commitment (fst p) ∧
               br_DataCID (snd p) ≠ cid_Undef ∧ br_MetaCID (snd p) ≠ cid_Undef) ps →
  ReconstructFromDB e (saved_record <$> ps) spe =
  Ok (mkEpochInput e (EpochToFirstSlot e spe) (reloaded <$> ps), ps.*2).
Proof.
  intros Hps. unfold ReconstructFromDB. rewrite <- list_fmap_compose.
  assert (mapM_out record_result (saved_record <$> ps) = Ok ps.*2) as ->.
  { induction Hps as [|[b r] ps (Hc & Hd & Hm) _ IH]; [done|]. cbn [fmap list_fmap mapM_out].
    assert (record_result (saved_record (b, r)) = Ok r) as ->.
    { unfold record_result. cbn [saved_record rb_DataCID rb_MetaCID rb_Commitment rb_SizeBytes].
      rewrite !cid_Decode_String by done. cbn in *. rewrite <- Hc. by destruct r. }
    cbn. by rewrite IH. }
  cbn. do 3 f_equal. apply list_fmap_ext. by intros ? [b r] _.
Qed.
End Reload.

(** ** Properties *)

Section GeneratorProperties.
Context {R : GoRuntime} {I : Ipld} {L : IpldLaws I} {P : Postgres}.

Lemma blob_results_of blobs results :
  Forall2 (λ b r, fst (ProcessBlob b NullBlockstore.Null) = Ok r) blobs results →
  results = blob_result <$> blobs.
Proof.
  induction 1 as [|b r blobs results Hb _ ->]; [done|]. cbn. f_equal.
  rewrite (ProcessBlob_blob b _ _ null_accepts NullBlockstore.Null) in Hb. by injection Hb as <-.
Qed.

Lemma zip_results_Forall (Q : BlobInput * BlobResult → Prop) blobs :
  Forall (λ b, Q (b, blob_result b)) blobs → Forall Q (zip blobs (blob_result <$> blobs)).
Proof. induction 1; constructor; auto. Qed.

(** The metadata of a reloaded blob is the one first stored. *)
Lemma reloaded_meta e b {BS} `{!blockstoreBackend BS} `{!AcceptsWrites BS} (bs : BS) :
  bi_Epoch b = e → blob_size b = str_len (bi_Data b) →
  fst (StoreBlobMetadata (reloaded e (b, blob_result b)) (br_DataCID (blob_result b)) bs) =
  Ok (br_MetaCID (blob_result b)).
Proof.
  intros He Hs. destruct (ProcessBlob_runs b) as (mb & Hmb & _).
  unfold blob_result, blob_meta. rewrite Hmb. cbn [br_DataCID br_MetaCID].
  rewrite (store_metadata _ _ mb); [done|]. rewrite <- Hmb. unfold metadata_block, metadata_entries.
  rewrite Hs. cbn. subst e. unfold blob_size. cbn. destruct (Z.eqb_spec (str_len (bi_Data b)) 0) as [->|]; done.
Qed.

Lemma reload_rebuilds network e gt sps spe thr blobs t :
  let results := blob_result <$> blobs in
  0 ≤ e < two63 → NoDup (bi_Commitment <$> blobs) → Forall blob_fits blobs →
  Forall (λ b, bi_Epoch b = e ∧ blob_size b = str_len (bi_Data b)) blobs →
  occs_distinct (zip_with occ_of blobs results) →
  fresh e (bi_Commitment <$> blobs) t →
  ∃ rows inp results',
    GetBlobsByEpoch network e (healthy (saved_blobs network e blobs results gt sps t)) =
      (Ok rows, healthy (saved_blobs network e blobs results gt sps t)) ∧
    ReconstructFromDB e rows spe = Ok (inp, results') ∧
    (∀ BS (B : blockstoreBackend BS),
      BuildEpochNode (BS := BS) inp results' network thr =
      BuildEpochNode (mkEpochInput e (EpochToFirstSlot e spe) blobs) results network thr) ∧
    Forall2 (λ b r, ∀ BS (B : blockstoreBackend BS) (W : AcceptsWrites BS) (bs : BS),
      fst (StoreBlobMetadata b (br_DataCID r) bs) = Ok (br_MetaCID r)) (ei_Blobs inp) results' ∧
    Forall2 (λ rec r, rb_MetaCID rec = cid_String (br_MetaCID r)) rows results' ∧ length rows = length blobs.
Proof.
  intros results He Hnd Hfit Hb Hd Hf.
  assert (length blobs = length results) as Hl by (unfold results; by rewrite length_fmap).
  destruct (GetBlobsByEpoch_saved network e gt sps blobs results t He Hl Hf Hnd Hfit) as (ps & Hp & Hg).
  assert (Forall (λ p, snd p = blob_result (fst p) ∧ bi_Epoch (fst p) = e ∧
    blob_size (fst p) = str_len (bi_Data (fst p))) ps) as Hps.
  { rewrite Hp. apply zip_results_Forall. eapply Forall_impl; [exact Hb|]. naive_solver. }
  eexists (saved_record gt sps <$> ps), _, _. split_and!.
  - exact Hg.
  - apply Reconstruct_saved. eapply Forall_impl; [exact Hps|]. intros [b r] [Hr _]. cbn in Hr |- *. subst r.
    destruct (blob_result_defined b). split; [|done].
    destruct (ProcessBlob_runs b) as (mb & Hmb & _). unfold blob_result, blob_meta. by rewrite Hmb.
  - intros BS B.
    set (qs := (λ p, (reloaded e p, snd p)) <$> ps).
    assert (uncurry occ_of <$> qs ≡ₚ uncurry occ_of <$> zip blobs results) as Ho.
    { unfold qs. rewrite <- Hp, <- list_fmap_compose. apply reflexive_eq, list_fmap_ext. by intros ? [b r] _. }
    pose proof (BuildEpochNode_occs R R (BS := BS) e (EpochToFirstSlot e spe) qs (zip blobs results)
      network thr Ho) as Hx.
    assert (qs.*1 = reloaded e <$> ps) as Hq1 by (unfold qs; by rewrite <- list_fmap_compose).
    assert (qs.*2 = ps.*2) as Hq2 by (unfold qs; by rewrite <- list_fmap_compose).
    rewrite Hq1, Hq2, fst_zip, snd_zip in Hx by lia. apply Hx.
    + rewrite Hp, snd_zip by lia. done.
    + intros x y H1 H2. rewrite Ho, <- zip_with_pairs in H1, H2. by apply Hd.
  - cbn [ei_Blobs]. clear -Hps L. induction Hps as [|[b r] ps (Hr & Hbe & Hbs) _ IH]; [constructor|].
    cbn in Hr. subst r. constructor; [|done]. intros. by apply reloaded_meta.
  - apply Forall2_fmap, Forall_Forall2_diag, Forall_true. by intros [b r].
  - rewrite length_fmap, Hp, length_zip. lia.
Qed.


Lemma blob_stored {BS} `{!blockstoreBackend BS} `{!BlockstoreSpec BS} b blks (bs : BS) :
  collision_free blks → (∀ x, x ∈ blob_blocks b → x ∈ blks) →
  read_node (br_DataCID (blob_result b)) (put_all blks bs) = Ok (NBytes (bi_Data b)) ∧
  read_node (br_MetaCID (blob_result b)) (put_all blks bs)
    = Ok (canon (NMap (metadata_entries b (br_DataCID (blob_result b))))).
Proof.
  intros Hcf Hin. destruct (ProcessBlob_runs b) as (mb & Hmb & _).
  unfold blob_blocks, blob_result, blob_meta in *. rewrite Hmb in *. cbn [br_DataCID br_MetaCID].
  split.
  - apply (read_node_put _ bs (raw_block (bi_Data b)) rawDecode); [done|apply Hin; left|done|done].
  - apply read_cbor; [done|apply Hin; by right; left|apply metadata_wf|done].
Qed.

(** The worker pool does not show: in whatever order the results of an
    epoch's blobs arrive, processEpochBlobs returns for each blob, in blob
    order, what ProcessBlob alone returns, and leaves every blob's data and
    metadata in the store; unless SHA-256 has a collision. *)
Theorem processEpochBlobs_any_order {BS} `{!blockstoreBackend BS} `{!BlockstoreSpec BS}
    `{!AcceptsWrites BS} workers order inp (bs : BS) :
  0 < workers → order ≡ₚ seq 0 (length (ei_Blobs inp)) →
  Forall (λ b, 16 ≤ str_len (bi_Commitment b)) (ei_Blobs inp) →
  ∃ results bs', processEpochBlobs workers order inp bs = (Ok results, bs') ∧
    Forall2 (λ b r, fst (ProcessBlob b NullBlockstore.Null) = Ok r) (ei_Blobs inp) results ∧
    (Forall2 (λ b r, read_node (br_DataCID r) bs' = Ok (NBytes (bi_Data b)) ∧
                     read_node (br_MetaCID r) bs' = Ok (canon (NMap (metadata_entries b (br_DataCID r)))))
       (ei_Blobs inp) results ∨ digest_collision).
Proof.
  intros Hw Ho Hc. destruct (processEpochBlobs_runs workers order inp BS _ _ Hw Ho Hc) as (blks & Hp & Hrun).
  eexists _, _. split; [apply Hrun|]. split.
  { apply Forall2_fmap_r, Forall_Forall2_diag, Forall_true. intros b.
    by rewrite (ProcessBlob_blob b _ _ null_accepts NullBlockstore.Null). }
  assert (Forall certified blks) as Hcert.
  { rewrite Hp. apply Forall_concat, Forall_fmap, Forall_true. apply blob_blocks_certified. }
  destruct (certified_collision_free _ Hcert) as [Hcf|]; [left|by right].
  apply Forall2_fmap_r, Forall_Forall2_diag, Forall_forall. intros b Hb. apply blob_stored; [done|].
  intros x Hx. rewrite Hp. apply elem_of_concat. exists (blob_blocks b). split; [|done].
  apply list_elem_of_fmap. eauto.
Qed.

(** A commitment of fewer than 16 bytes stops the process: whatever the
    order of the results, processEpochBlobs panics on the slice of its log
    line, after the blob was stored. *)
Theorem processEpochBlobs_short_commitment {BS} `{!blockstoreBackend BS} `{!AcceptsWrites BS}
    workers order inp (bs : BS) :
  0 < workers → order ≡ₚ seq 0 (length (ei_Blobs inp)) →
  Exists (λ b, str_len (bi_Commitment b) < 16) (ei_Blobs inp) →
  ∃ p bs', processEpochBlobs workers order inp bs = (Panic p, bs').
Proof.
  intros Hw Ho (b & Hb & Hshort)%Exists_exists. apply list_elem_of_lookup in Hb as [i Hi].
  unfold processEpochBlobs. pose proof (lookup_lt_Some _ _ _ Hi) as Hlt.
  destruct (Z.leb_spec (if Z.of_nat (length (ei_Blobs inp)) <? workers
    then Z.of_nat (length (ei_Blobs inp)) else workers) 0) as [Hle|_].
  { destruct (Z.ltb_spec (Z.of_nat (length (ei_Blobs inp))) workers); lia. }
  assert (i ∈ order) as Hin by (rewrite Ho; apply elem_of_seq; lia).
  assert (Forall (λ i, i < length (ei_Blobs inp))%nat order) as Hall.
  { rewrite Ho. apply Forall_seq. lia. }
  clear Ho. generalize (replicate (length (ei_Blobs inp)) BlobResult_zero) as acc.
  revert bs. induction order as [|j order IH]; intros bs acc; [by apply not_elem_of_nil in Hin|].
  apply Forall_cons in Hall as [Hj Hall]. destruct (lookup_lt_is_Some_2 _ _ Hj) as [bj Hbj].
  cbn [collect_blobs]. unfold mbind, go_bind, lift, index. rewrite Hbj.
  rewrite (ProcessBlob_blob bj _ _ _ bs).
  destruct (Z.ltb_spec (str_len (bi_Commitment bj)) 16); [eauto|].
  apply elem_of_cons in Hin as [->|Hin]; [|by apply IH]. rewrite Hi in Hbj. injection Hbj as ->. lia.
Qed.
End GeneratorProperties.

(** ** The properties at concrete inputs *)

Definition demo_fetched (c : string) (slot index : Z) (data : string) : BlobInput :=
  mkBlobInput c ("0x01" +:+ c) "0x7e" 19000000 "0xb1" slot 10 index data 0.

Definition demo_inputs : list BlobInput :=
  [demo_fetched "0xc000000000000000" 320 0 "a"; demo_fetched "0xc100000000000000" 321 0 "b"].

Lemma processEpochBlobs_any_order_witness : ∃ results bs',
  processEpochBlobs 4 [1; 0]%nat (mkEpochInput 10 320 demo_inputs) MemBlockstore.NewMemBlockstore
    = (Ok results, bs') ∧
  Forall2 (λ b r, fst (ProcessBlob b NullBlockstore.Null) = Ok r) demo_inputs results.
Proof.
  destruct (processEpochBlobs_any_order 4 [1; 0]%nat (mkEpochInput 10 320 demo_inputs)
    MemBlockstore.NewMemBlockstore) as (rs & bs' & Hr & Hf & _).
  - lia.
  - cbn. apply Permutation_swap.
  - repeat constructor; done.
  - exists rs, bs'. split; [exact Hr|exact Hf].
Defined.

Lemma processEpochBlobs_short_commitment_witness : ∃ p bs',
  processEpochBlobs 1 [0]%nat (mkEpochInput 10 320 [demo_fetched "0xc0" 320 0 "a"]) NullBlockstore.Null
    = (Panic p, bs').
Proof.
  apply (processEpochBlobs_short_commitment 1 [0]%nat (mkEpochInput 10 320 [demo_fetched "0xc0" 320 0 "a"])).
  - lia.
  - done.
  - by repeat constructor.
Defined.

