(* ===== verification/Health.v ===== *)
(** * Health: the health-check command of cmd/blobscan-ipld/main.go

    The report and its worst status, tier 0 (the invariants of the tables, by
    the queries of db.go) and tier 1 (the metadata and epoch CIDs recomputed
    from the rows alone), the remediation block and the exit code. What the
    command prints is the list of its lines. *)

From S2P Require Import Prelude GoStd CliUtil Types Ipld Store IpldModel Blob Epoch Network Db StateFile.
From S2P Require Import Beacon ElClient Ipfs Metrics Generator Reload.

(** ** The report *)

Inductive checkStatus := statusPass | statusWarn | statusFail | statusSkip.

#[export] Instance checkStatus_eq_dec : EqDecision checkStatus.
Proof. solve_decision. Defined.

(** The values of the constants. *)
Definition status_rank (s : checkStatus) : Z :=
  match s with statusPass => 0 | statusWarn => 1 | statusFail => 2 | statusSkip => 3 end.

Definition status_String (s : checkStatus) : string :=
  match s with statusPass => "PASS" | statusWarn => "WARN" | statusFail => "FAIL" | statusSkip => "SKIP" end.

Record checkResult := mkCheckResult {
  ck_name : string; ck_tier : Z; ck_status : checkStatus; ck_detail : string; ck_samples : list Z }.

Record healthReport := mkHealthReport {
  hr_results : list checkResult;
  hr_repairEpochs : list Z;
  hr_backfillEpochs : list Z }.

Definition report_zero : healthReport := mkHealthReport [] [] [].

Definition add (name : string) (tier : Z) (status : checkStatus) (detail : string) (samples : list Z)
    (r : healthReport) : healthReport :=
  mkHealthReport (hr_results r ++ [mkCheckResult name tier status detail (sortUint64 samples)])
    (hr_repairEpochs r) (hr_backfillEpochs r).

Definition add_repair (epochs : list Z) (r : healthReport) : healthReport :=
  mkHealthReport (hr_results r) (hr_repairEpochs r ++ epochs) (hr_backfillEpochs r).
Definition add_backfill (epochs : list Z) (r : healthReport) : healthReport :=
  mkHealthReport (hr_results r) (hr_repairEpochs r) (hr_backfillEpochs r ++ epochs).

Definition worst_of (worst : checkStatus) (c : checkResult) : checkStatus :=
  if (status_rank worst <? status_rank (ck_status c)) && negb (bool_decide (ck_status c = statusSkip))
  then ck_status c else worst.
Definition worst (r : healthReport) : checkStatus := foldl worst_of statusPass (hr_results r).

Definition query_error (e : error) : string := "query error: " +:+ err_msg e.
Definition count_of {A} (l : list A) : Z := Z.of_nat (length l).
Definition epochs_text (n : Z) : string := pretty n +:+ " epoch" +:+ pluralS n.

(** ** Tier 0 *)

Section Tier0.
Context {R : GoRuntime} {P : Postgres} (network : string) (samples : Z).

(** A check whose query failed, found nothing, or found epochs. *)
Definition mismatch_check (name : string) (query : Go Db.Client (list EpochCountMismatch)) (status : checkStatus)
    (what : string) (repair : bool) (rep : healthReport) : Go Db.Client healthReport :=
  q ← attempt query;
  match q with
  | inl e => mret (add name 0 statusFail (query_error e) [] rep)
  | inr [] => mret (add name 0 statusPass "" [] rep)
  | inr mm =>
      let ex := cm_Epoch <$> mm in
      shown ← lift (capSamples ex samples);
      mret (add name 0 status (epochs_text (count_of mm) +:+ what) shown (if repair then add_repair ex rep else rep))
  end.

Definition addAnomalyCheck (name : string) (query : Go Db.Client (list EpochAnomaly)) (failStatus : checkStatus)
    (what : string) (rep : healthReport) : Go Db.Client healthReport :=
  q ← attempt query;
  match q with
  | inl e => mret (add name 0 statusFail (query_error e) [] rep)
  | inr [] => mret (add name 0 statusPass "" [] rep)
  | inr an =>
      total ← lift (formatCount (foldl (λ acc a, i64_add acc (an_Count a)) 0 an));
      shown ← lift (capSamples (an_Epoch <$> an) samples);
      mret (add name 0 failStatus (total +:+ " " +:+ what +:+ " in " +:+ epochs_text (count_of an)) shown rep)
  end.

(** Rows that share an index fail; an index that is skipped warns. *)
Definition index_check (rep : healthReport) : Go Db.Client healthReport :=
  q ← attempt (GetBlobIndexAnomalies network);
  match q with
  | inl e => mret (add "blob_index" 0 statusFail (query_error e) [] rep)
  | inr an =>
      let dups := ia_Epoch <$> filter (λ a, ia_Rows a ≠ ia_DistinctIdx a) an in
      let gaps := ia_Epoch <$> filter (λ a, ia_Rows a = ia_DistinctIdx a) an in
      match dups, gaps with
      | _ :: _, _ =>
          shown ← lift (capSamples dups samples);
          mret (add "blob_index" 0 statusFail (epochs_text (count_of dups) +:+ " with duplicate index") shown rep)
      | [], _ :: _ =>
          shown ← lift (capSamples gaps samples);
          mret (add "blob_index" 0 statusWarn (epochs_text (count_of gaps) +:+ " with index gaps") shown rep)
      | [], [] => mret (add "blob_index" 0 statusPass "" [] rep)
      end
  end.

Definition gaps_check (stats : SummaryStats) (rep : healthReport) : Go Db.Client healthReport :=
  if ss_GapCount stats =? 0 then mret (add "epoch gaps" 0 statusPass "" [] rep)
  else
    gaps ← attempt (GetEpochGapRanges network);
    count ← lift (formatCount (ss_GapCount stats));
    let missing := count +:+ " epoch" +:+ pluralS (ss_GapCount stats) +:+ " missing" in
    let detail := match gaps with
      | inl _ => missing
      | inr gs => pretty (count_of gs) +:+ " range" +:+ pluralS (count_of gs) +:+ " · " +:+ missing
      end in
    mret (add "epoch gaps" 0 statusWarn detail [] rep).

Definition cursor_issues (stats : SummaryStats) : list string :=
  (if ss_LastEpoch stats <? ss_LiveCursor stats then
     ["live(" +:+ pretty (ss_LiveCursor stats) +:+ ") > max(" +:+ pretty (ss_LastEpoch stats) +:+ ")"] else []) ++
  (if (ss_LiveCursor stats <? ss_BackfillCursor stats) && (ss_LastEpoch stats <? ss_BackfillCursor stats) then
     ["backfill(" +:+ pretty (ss_BackfillCursor stats) +:+ ") > live(" +:+ pretty (ss_LiveCursor stats) +:+ ")"] else []).

Definition cursor_check (stats : SummaryStats) (rep : healthReport) : healthReport :=
  match cursor_issues stats with
  | [] => add "cursors" 0 statusPass "" [] rep
  | l => add "cursors" 0 statusWarn (Join l ", ") [] rep
  end.

Definition runTier0 (rep : healthReport) : Go Db.Client healthReport :=
  rep ← mismatch_check "blob_count match" (GetBlobCountMismatches network) statusFail " (stored≠actual)" true rep;
  rep ← mismatch_check "size_bytes match" (GetSizeMismatches network) statusWarn " (approximate)" false rep;
  rep ← addAnomalyCheck "network match" (GetNetworkMismatches network) statusFail "blobs on wrong network" rep;
  rep ← addAnomalyCheck "orphan blobs" (GetOrphanBlobs network) statusFail "blobs without an epoch row" rep;
  rep ← index_check rep;
  stats ← attempt (GetSummaryStats network);
  match stats with
  | inl e =>
      mret (add "cursors" 0 statusFail (query_error e) [] (add "epoch gaps" 0 statusFail (query_error e) [] rep))
  | inr stats => rep ← gaps_check stats rep; mret (cursor_check stats rep)
  end.
End Tier0.

(** ** Tier 1 *)

Record epochResult := mkEpochCheck { er1_epoch : Z; er1_metaBad : bool; er1_rootBad : bool; er1_blobsBad : Z }.
Definition epochResult_zero : epochResult := mkEpochCheck 0 false false 0.

Section Tier1.
Context {R : GoRuntime} {I : Ipld} {P : Postgres} (network : string) (samples slotsPerEpoch hamtThreshold : Z).

(** One blob against its row: whether its metadata CID could not be computed or
    differs, and whether it counts as a wrong blob. *)
Definition check_blob (b : BlobInput) (r : BlobResult) (rec : BlobRecord) : outcome (bool * Z) :=
  match fst (StoreBlobMetadata b (br_DataCID r) MemBlockstore.NewMemBlockstore) with
  | Ok metaCID => Ok (if bool_decide (cid_String metaCID = rb_MetaCID rec) then (false, 0) else (true, 1))
  | Err _ => Ok (true, 0)
  | Panic m => Panic m
  end.

(** [for k, rec := range records] over [epochInp.Blobs[k]], [blobResults[k]]. *)
Fixpoint check_blobs (bs : list BlobInput) (rs : list BlobResult) (recs : list BlobRecord) : outcome (bool * Z) :=
  match recs, bs, rs with
  | [], _, _ => Ok (false, 0)
  | rec :: recs, b :: bs, r :: rs =>
      x ← check_blob b r rec;
      y ← check_blobs bs rs recs;
      Ok (fst x || fst y, snd x + snd y)
  | _, _, _ => Panic "index out of range"
  end.

Definition check_records (e : EpochRecord) (records : list BlobRecord) : outcome epochResult :=
  match ReconstructFromDB (rec_Epoch e) records slotsPerEpoch with
  | Err _ => Ok (mkEpochCheck (rec_Epoch e) true false 0)
  | Panic m => Panic m
  | Ok (inp, results) =>
      meta ← check_blobs (ei_Blobs inp) results records;
      match fst (BuildEpochNode inp results network hamtThreshold MemBlockstore.NewMemBlockstore) with
      | Ok res =>
          Ok (mkEpochCheck (rec_Epoch e) (fst meta) (negb (bool_decide (cid_String (er_CID res) = rec_CID e))) (snd meta))
      | Err _ => Ok (mkEpochCheck (rec_Epoch e) (fst meta) true (snd meta))
      | Panic m => Panic m
      end
  end.

(** An epoch whose blobs cannot be queried, or that has none, counts as good. *)
Definition check_epoch (e : EpochRecord) : Go Db.Client epochResult :=
  q ← attempt (GetBlobsByEpoch network (rec_Epoch e));
  match q with
  | inl _ | inr [] => mret (mkEpochCheck (rec_Epoch e) false false 0)
  | inr records => lift (check_records e records)
  end.

Fixpoint check_epochs (epochs : list EpochRecord) (order : list nat) (results : list epochResult)
    : Go Db.Client (list epochResult) :=
  match order with
  | [] => mret results
  | i :: order =>
      e ← lift (index epochs i);
      r ← check_epoch e;
      check_epochs epochs order (<[i := r]> results)
  end.

Definition meta_bad (results : list epochResult) : list Z := er1_epoch <$> filter (λ r, er1_metaBad r = true) results.
Definition root_bad (results : list epochResult) : list Z := er1_epoch <$> filter (λ r, er1_rootBad r = true) results.
Definition any_bad (results : list epochResult) : list Z :=
  er1_epoch <$> filter (λ r, er1_metaBad r = true ∨ er1_rootBad r = true) results.
Definition wrong_blobs (results : list epochResult) : Z :=
  foldl (λ acc r, if er1_metaBad r then i64_add acc (er1_blobsBad r) else acc) 0 results.

(** The two rows of the report, and the epochs to re-fetch. *)
Definition tier1_report (results : list epochResult) (rep : healthReport) : outcome healthReport :=
  let metaBad := meta_bad results in
  let rootBad := root_bad results in
  let blobBad := wrong_blobs results in
  let rep := add_backfill (any_bad results) rep in
  rep ← match metaBad with
        | [] => Ok (add "meta_cid recompute" 1 statusPass "" [] rep)
        | _ =>
            shown ← capSamples metaBad samples;
            Ok (add "meta_cid recompute" 1 statusFail (pretty blobBad +:+ " blob" +:+ pluralS blobBad +:+ " wrong in "
              +:+ epochs_text (count_of metaBad)) shown rep)
        end;
  let pureRoot := filter (λ e, e ∉ metaBad) rootBad in
  match rootBad, pureRoot with
  | [], _ => Ok (add "epoch root recompute" 1 statusPass "" [] rep)
  | _, _ :: _ =>
      shown ← capSamples pureRoot samples;
      Ok (add "epoch root recompute" 1 statusFail (epochs_text (count_of rootBad) +:+ " ("
        +:+ pretty (count_of pureRoot) +:+ " not explained by meta_cid)") shown rep)
  | _, [] =>
      shown ← capSamples rootBad samples;
      Ok (add "epoch root recompute" 1 statusFail (epochs_text (count_of rootBad)
        +:+ " (all correlate with meta_cid)") shown rep)
  end.

(** [order]: for a number of epochs, the indices of the jobs fed before the
    context ended, in the order in which the workers run their queries. *)
Definition runTier1 (order : nat → list nat) (rep : healthReport) : Go Db.Client healthReport :=
  q ← attempt (GetAllEpochs network);
  match q with
  | inl e => mret (add "epoch root recompute" 1 statusFail (query_error e) []
               (add "meta_cid recompute" 1 statusFail (query_error e) [] rep))
  | inr epochs =>
      results ← check_epochs epochs (order (length epochs)) (replicate (length epochs) epochResult_zero);
      lift (tier1_report results rep)
  end.
End Tier1.

(** ** The command *)

Fixpoint repeat_str (n : nat) (s : string) : string :=
  match n with O => "" | S n => s +:+ repeat_str n s end.
Definition newline : string := String (byte_of 10) "".

(** [%-<n>s] of an ASCII string. *)
Definition pad_right (n : nat) (s : string) : string := s +:+ repeat_str (n - String.length s) " ".

(** A title padded with a rule; lengths are in bytes, as [len] has them. *)
Definition rule (width : Z) (title : string) : string :=
  title +:+ repeat_str (Z.to_nat (Z.max 2 (width - str_len title))) "─".

Definition printSummaryHeader (network : string) (width : Z) : string :=
  rule width ("── blobscan-ipld summary ── " +:+ network +:+ " ").
Definition printSectionHeader (title detail : string) (width : Z) : string :=
  newline +:+ rule width ("── " +:+ title +:+ " " +:+ if bool_decide (detail = "") then "" else "(" +:+ detail +:+ ") ").
Definition printRow (label value : string) : string := "  " +:+ pad_right 16 label +:+ " " +:+ value.

Definition render_row (samples : Z) (c : checkResult) : outcome string :=
  let line := pad_right 6 (status_String (ck_status c)) +:+ " " +:+ ck_detail c in
  eg ← match ck_samples c with
       | [] => Ok ""
       | l => s ← formatEpochSamples l samples; Ok ("  e.g. " +:+ s)
       end;
  Ok (printRow (ck_name c) (TrimRight (line +:+ eg) " ")).

Definition render_tier (rep : healthReport) (maxTier samples width tier : Z) : outcome (list string) :=
  let title := "Tier " +:+ pretty tier +:+ if tier =? 0 then "  SQL invariants" else "  offline CID recompute" in
  if maxTier <? tier then Ok [printSectionHeader title "skipped — raise -tier" width]
  else
    rows ← mapM_out (render_row samples) (filter (λ c, ck_tier c = tier) (hr_results rep));
    Ok (printSectionHeader title "" width :: rows).

Definition renderReport (rep : healthReport) (maxTier samples width : Z) : outcome (list string) :=
  t0 ← render_tier rep maxTier samples width 0;
  t1 ← render_tier rep maxTier samples width 1;
  Ok (t0 ++ t1).

Definition render_range (r : Z * Z) : string :=
  let n := u64_add (u64_sub (snd r) (fst r)) 1 in
  "  blobscan-ipld backfill-ipfs -from " +:+ FormatUint (fst r) +:+ " -to " +:+ FormatUint (snd r) +:+
  if fst r =? snd r then "   # re-fetch & self-heal CIDs"
  else "   # re-fetch & self-heal " +:+ FormatUint n +:+ " epochs".

Definition renderRemediation (rep : healthReport) (width : Z) : list string :=
  let repair := dedupUint64 (hr_repairEpochs rep) in
  let backfill := dedupUint64 (hr_backfillEpochs rep) in
  match repair, backfill with
  | [], [] => []
  | _, _ =>
      printSectionHeader "Suggested remediation" "" width ::
      (match repair with
       | [] => []
       | _ => ["  blobscan-ipld repair-epochs        # fix " +:+ pretty (count_of repair) +:+ " blob_count mismatch"
                 +:+ if count_of repair =? 1 then "" else "es"]
       end) ++ (render_range <$> collapseRanges backfill)
  end.

Section Command.
Context {R : GoRuntime} {I : Ipld} {P : Postgres} (network : string) (slotsPerEpoch hamtThreshold : Z).

(** The report of both tiers. *)
Definition health_report (maxTier samples : Z) (order : nat → list nat) : Go Db.Client healthReport :=
  rep ← runTier0 network samples report_zero;
  if 1 <=? Z.max 0 maxTier then runTier1 network samples slotsPerEpoch hamtThreshold order rep else mret rep.

(** The command, given [-tier] and [-samples], once it has a database: what it
    prints and its exit code. *)
Definition cmdHealthCheck (maxTier samples : Z) (order : nat → list nat) : Go Db.Client (list string * Z) :=
  rep ← health_report maxTier samples order;
  table ← lift (renderReport rep (Z.max 0 maxTier) samples 72);
  mret (printSummaryHeader (network +:+ " health-check") 72 :: table ++ renderRemediation rep 72,
        if bool_decide (worst rep = statusFail) then 2 else 0).
End Command.
