(* ===== verification/Persist.v ===== *)
(** * Persist: what buildEpoch and persistEpoch leave behind

    Facts about the stages of generator.go: what each may change (frames), what
    a build stages for upload, and that an epoch's row is written only after
    the node holds its block. *)

From S2P Require Import Prelude GoStd Types Ipld Store IpldModel Blob Epoch Network Db StateFile.
From S2P Require Import Beacon ElClient Ipfs Metrics Generator Reload.

(** ** Facts: what the stages change *)

Abbreviation db_tables w := (c_tables (w_db w)).

Section Frames.
Context {R : GoRuntime} {I : Ipld} {P : Postgres} {BJ : BeaconJson} {JS : JsonState}.
Context {N : Type} {K : Kubo N} {KL : KuboLaws N} {KJ : KuboJson} (g : Generator).

(** No block of the node is dropped and no table written. *)
Record reads (w w' : World N) : Prop := {
  rd_node : grows (w_node w) (w_node w');
  rd_tables : db_tables w' = db_tables w }.

#[export] Instance reads_preorder : PreOrder reads.
Proof.
  split; [intros w; by split|]. intros w1 w2 w3 [H1 H2] [G1 G2]. split; [by etransitivity|congruence].
Qed.

(** Working on epoch [e] drops no block of the node, changes no row of
    another epoch and no cursor. *)
Record epoch_frame (e : Z) (w w' : World N) : Prop := {
  ef_node : grows (w_node w) (w_node w');
  ef_epochs e' : e' ≠ e → ipld_epochs (db_tables w') !! e' = ipld_epochs (db_tables w) !! e';
  ef_state : ipld_state (db_tables w') = ipld_state (db_tables w) }.

#[export] Instance epoch_frame_preorder e : PreOrder (epoch_frame e).
Proof.
  split; [intros w; by split|]. intros w1 w2 w3 [H1 H2 H3] [G1 G2 G3].
  split; [by etransitivity|intros e' He; by rewrite G2, H2|by rewrite G3].
Qed.

Lemma reads_frame {A} e (m : Go (World N) A) : always reads m → always (epoch_frame e) m.
Proof. apply always_impl. intros w w' [Hn Ht]. split; [done|by rewrite Ht|by rewrite Ht]. Qed.

Lemma reads_node {A} (m : Go N A) : (∀ n, grows n (snd (m n))) → always reads (in_node m).
Proof. intros Hm. apply always_zoom. intros w. split; [apply Hm|done]. Qed.

Lemma reads_beacon {A} (m : Go Beacon.Client A) : always reads (in_beacon g m).
Proof.
  unfold in_beacon. destruct (g_beacon g); [|apply always_lift, _].
  apply always_zoom. intros w. by split.
Qed.

Lemma reads_metrics {A} (m : Go (option Metrics) A) : always reads (in_metrics m).
Proof. apply always_zoom. intros w. by split. Qed.

Lemma reads_sent {A} (m : Go (list notification) A) : always reads (in_sent m).
Proof. apply always_zoom. intros w. by split. Qed.

Lemma reads_db {A} (m : Go Db.Client A) : atomically m id → always reads (in_db g m).
Proof.
  intros Hm. unfold in_db. destruct (g_db g); [|apply always_lift, _].
  apply always_zoom. intros w. specialize (Hm (w_db w)).
  by destruct (m (w_db w)) as [[a|er|p] d]; cbn.
Qed.

Lemma GetBlobsByEpoch_Ok network e c rows c' :
  GetBlobsByEpoch network e c = (Ok rows, c') →
  epoch_records network e (c_tables c) = Ok rows ∧ c_tables c' = c_tables c.
Proof.
  unfold GetBlobsByEpoch. intros Hg. apply wrapf_Ok, bind_Ok in Hg as (z & c1 & [_ ->]%lift_Ok & Hq).
  apply (db_query_Ok _ ""). unfold wrapf. by rewrite Hq.
Qed.

Lemma GetBlobsByEpoch_reads network e : atomically (GetBlobsByEpoch network e) id.
Proof.
  apply atomically_wrapf, atomically_check; [apply int8_no_panic|]. intros _. apply atomically_query.
  intros t p. apply mapM_out_no_panic. intros [k b] q. unfold mbind, outcome_bind. cbn.
  destruct (scan_uint64 (bl_slot b)) as [| |?] eqn:H1; [|done|by apply scan_no_panic in H1].
  destruct (scan_uint64 (bl_block_number b)) as [| |?] eqn:H2; [done|done|by apply scan_no_panic in H2].
Qed.

Lemma reads_upload env bs c e : always reads (uploadAndPin g env bs c e).
Proof.
  unfold uploadAndPin. destruct (g_ipfs g) as [cl|]; [|apply always_ret, _].
  apply always_bind; [apply _|apply always_wrapf, reads_node, PutBlockstore_grows|intros _].
  apply always_bind; [apply _|apply reads_metrics|intros _].
  destruct (cf_PinOnAdd _); [|apply always_ret, _].
  apply always_bind; [apply _|apply always_attempt, reads_node, VerifyLocal_grows|intros [|]].
  - apply reads_metrics.
  - apply always_bind; [apply _|apply always_attempt, reads_node, Pin_grows|intros ?]. apply reads_metrics.
Qed.

(** The build stage writes no table. *)
Lemma reads_buildEpoch env e p : always reads (buildEpoch g env e p).
Proof.
  unfold buildEpoch, load_cached, fetch_epoch.
  apply always_bind; [apply _| |intros cached].
  { destruct (g_db g); [|apply always_ret, _].
    apply always_bind; [apply _|apply always_wrapf, reads_db, GetBlobsByEpoch_reads|intros [|]];
      [apply always_ret, _|].
    apply always_bind; [apply _|apply always_wrapf, always_lift, _|intros ?]. apply always_ret, _. }
  assert (∀ fc inp x, always reads (let '(results, er, bs) := x : list BlobResult * EpochResult * option MemBlockstore.t in
    _ ← in_metrics (RecordEpoch (cf_Network (g_cfg g)) (progressSource p) "built");
    _ ← in_metrics (RecordBlobs (cf_Network (g_cfg g)) (progressSource p) (Z.of_nat (length results)));
    _ ← in_metrics (ObserveEpochBuild (cf_Network (g_cfg g)));
    (mret (mkBuiltEpoch e inp results er bs fc false false) : Go (World N) builtEpoch))) as Hfin.
  { intros fc inp [[rs er] bs]. repeat (apply always_bind; [apply _|apply reads_metrics|intros _]).
    apply always_ret, _. }
  destruct cached as [[inp rs]|].
  - apply always_bind; [apply _|apply always_lift, _|intros x]. apply Hfin.
  - apply always_bind; [apply _|apply always_wrapf, reads_beacon|intros inp].
    destruct (Nat.eqb _ _).
    + apply always_bind; [apply _|apply reads_metrics|intros _]. apply always_ret, _.
    + apply always_bind; [apply _|apply always_lift, _|intros x]. apply Hfin.
Qed.

Lemma frame_db {A} e (m : Go Db.Client A) f :
  atomically m f →
  (∀ t e', e' ≠ e → ipld_epochs (f t) !! e' = ipld_epochs t !! e') →
  (∀ t, ipld_state (f t) = ipld_state t) → always (epoch_frame e) (in_db g m).
Proof.
  intros Hm He Hs. unfold in_db. destruct (g_db g); [|apply always_lift, _].
  apply always_zoom. intros w. specialize (Hm (w_db w)).
  destruct (m (w_db w)) as [[a|er|p] d]; cbn; [|by split; cbn; rewrite ?Hm|done].
  split; cbn; rewrite ?Hm; [done|by apply He|apply Hs].
Qed.

Lemma frame_SaveEpoch network er n time e : er_Epoch er = e →
  always (epoch_frame e) (in_db g (SaveEpoch network er n time)).
Proof.
  intros <-. eapply frame_db; [apply SaveEpoch_atomically| |done].
  intros t e' He'. cbn. by rewrite upsert_epoch_lookup, decide_False.
Qed.

Lemma frame_SaveBlobs network blobs results gt sps e : 0 ≤ e < two63 →
  always (epoch_frame e) (in_db g (SaveBlobs network e blobs results gt sps)).
Proof.
  intros He. eapply frame_db; [apply SaveBlobs_atomically| |]; intros t; case_decide; try done.
  intros e' He'. cbn. rewrite to_i64_nonneg by done. unfold ensure_epoch.
  destruct (ipld_epochs t !! e); [done|]. by rewrite lookup_insert_ne.
Qed.
End Frames.

(** ** Facts: what a build stages *)

Section MemFacts.
Lemma mem_put_all_elem (Q : block → Prop) blks : ∀ m : MemBlockstore.t,
  (∀ k b, MemBlockstore.blocks m !! k = Some b → Q b ∧ blk_Cid b = k) → Forall Q blks →
  ∀ k b, MemBlockstore.blocks (put_all blks m) !! k = Some b → Q b ∧ blk_Cid b = k.
Proof.
  induction blks as [|b0 blks IH]; intros m Hm Hq; [done|]. apply Forall_cons in Hq as [Hb Hq].
  cbn. apply IH; [|done]. intros k b. cbn. destruct (decide (blk_Cid b0 = k)) as [<-|Hne].
  - rewrite lookup_insert_eq. intros [= <-]. done.
  - rewrite lookup_insert_ne by done. apply Hm.
Qed.

Lemma mem_put_all_key blks k : ∀ m : MemBlockstore.t,
  k ∈ blk_Cid <$> blks → is_Some (MemBlockstore.blocks (put_all blks m) !! k).
Proof.
  assert (∀ l (m : MemBlockstore.t), is_Some (MemBlockstore.blocks m !! k) → is_Some (MemBlockstore.blocks (put_all l m) !! k)) as Hkeep.
  { induction l as [|b l IH]; intros m Hm; [done|]. cbn. apply IH. cbn.
    destruct (decide (blk_Cid b = k)) as [<-|]; [by rewrite lookup_insert_eq|by rewrite lookup_insert_ne]. }
  induction blks as [|b blks IH]; intros m; [by intros ?%elem_of_nil|]. rewrite fmap_cons, elem_of_cons. cbn.
  intros [->|Hk]; [|by apply IH]. apply Hkeep. cbn. by rewrite lookup_insert_eq.
Qed.

Lemma mem_put_all_last blks b (m : MemBlockstore.t) :
  MemBlockstore.blocks (put_all (blks ++ [b]) m) !! blk_Cid b = Some b.
Proof. rewrite put_all_app. cbn. apply lookup_insert_eq. Qed.
End MemFacts.

Section Staged.
Context {R : GoRuntime} {I : Ipld} {L : IpldLaws I} {P : Postgres} {BJ : BeaconJson} {JS : JsonState}.
Context {N : Type} {K : Kubo N} {KJ : KuboJson} (g : Generator).

Abbreviation upload := (match g_ipfs g with Some _ => true | None => false end).

(** What is staged for an upload: blocks under their own CIDs, the root [c]
    among them; nothing when there is no node to upload to. *)
Definition staged (bs : option MemBlockstore.t) (c : cid) : Prop :=
  match g_ipfs g, bs with
  | None, None => True
  | Some _, Some bs =>
      (∀ k b, MemBlockstore.blocks bs !! k = Some b → certified b) ∧
      ∃ b, MemBlockstore.blocks bs !! c = Some b ∧ blk_Cid b = c
  | _, _ => False
  end.

Lemma staged_put_all blks b :
  Forall certified (blks ++ [b]) →
  staged (if upload then Some (put_all (blks ++ [b]) MemBlockstore.NewMemBlockstore) else None) (blk_Cid b).
Proof.
  intros Hc. unfold staged. destruct (g_ipfs g); [|done]. split.
  - intros k b' Hb. by apply (mem_put_all_elem certified (blks ++ [b]) MemBlockstore.NewMemBlockstore) in Hb as [? _].
  - exists b. split; [apply mem_put_all_last|done].
Qed.

Lemma build_node_runs inp results msg :
  (length (ei_Blobs inp) ≤ length results)%nat → Forall (λ r, br_MetaCID r ≠ cid_Undef) results →
  ∃ blks eb, Forall certified (blks ++ [eb]) ∧
    ∀ BS (B : blockstoreBackend BS) (A : AcceptsWrites BS),
      runs_as (build_node (BS := BS) g inp results msg)
        (mkEpochResult (ei_Epoch inp) (blk_Cid eb) "" (total_size results)) (blks ++ [eb]).
Proof.
  intros Hl Hd. destruct (BuildEpochNode_runs inp results (cf_Network (g_cfg g))
    (cf_HAMTThreshold (g_cfg g)) Hl Hd) as (n & blks & eb & _ & _ & Hc & _ & Hr).
  exists blks, eb. split; [done|]. intros BS B A. apply runs_as_wrapf, Hr, A.
Qed.

Lemma collect_blobs_Ok {BS} {B : blockstoreBackend BS} {A : AcceptsWrites BS} blobs order : ∀ acc (bs : BS) rs bs',
  collect_blobs blobs order acc bs = (Ok rs, bs') →
  Forall (λ i, ∃ b, blobs !! i = Some b ∧ 16 ≤ str_len (bi_Commitment b)) order.
Proof.
  induction order as [|i order IH]; intros acc bs rs bs' Hr; [constructor|]. cbn in Hr.
  apply bind_Ok in Hr as (b & bs1 & [Hb ->]%lift_Ok & (res & bs2 & _ & Hr)%bind_Ok).
  unfold index in Hb. destruct (blobs !! i) as [b'|] eqn:Hi; [|done]. injection Hb as ->.
  destruct (Z.ltb_spec (str_len (bi_Commitment b)) 16); [by apply lift_Ok in Hr as [? _]|].
  constructor; eauto.
Qed.

Lemma process_blobs_Ok {BS} {B : blockstoreBackend BS} {A : AcceptsWrites BS} env inp (bs : BS) rs bs' :
  env_ok env → 0 < cf_Workers (g_cfg g) → process_blobs g env inp bs = (Ok rs, bs') →
  rs = blob_result <$> ei_Blobs inp ∧
  ∃ blks, Forall certified blks ∧ blks ≡ₚ concat (blob_blocks <$> ei_Blobs inp) ∧ bs' = put_all blks bs.
Proof.
  intros [_ Ho] Hw Hr. unfold process_blobs in Hr. specialize (Ho (length (ei_Blobs inp))).
  assert (Forall (λ b, 16 ≤ str_len (bi_Commitment b)) (ei_Blobs inp)) as Hc.
  { unfold processEpochBlobs in Hr.
    destruct (ei_Blobs inp) as [|b0 bl] eqn:Hb; [constructor|]. rewrite <- Hb in *.
    destruct (Z.leb_spec (if Z.of_nat (length (ei_Blobs inp)) <? cf_Workers (g_cfg g)
      then Z.of_nat (length (ei_Blobs inp)) else cf_Workers (g_cfg g)) 0) as [Hle|_].
    { rewrite Hb in Hle. cbn [length] in Hle. destruct (Z.ltb_spec (Z.of_nat (S (length bl))) (cf_Workers (g_cfg g))); lia. }
    apply collect_blobs_Ok in Hr. rewrite Ho in Hr.
    rewrite Forall_forall in Hr. apply Forall_forall.
    intros b Hin. apply list_elem_of_lookup in Hin as [i Hi].
    destruct (Hr i) as (b' & Hb' & ?); [apply elem_of_seq; apply lookup_lt_Some in Hi; lia|congruence]. }
  destruct (processEpochBlobs_runs (cf_Workers (g_cfg g)) _ inp BS B A Hw Ho Hc) as (blks & Hp & Hrun).
  rewrite Hrun in Hr. injection Hr as <- <-. split; [done|]. exists blks. split; [|done].
  rewrite Hp. apply Forall_concat, Forall_fmap, Forall_true. apply blob_blocks_certified.
Qed.

Lemma blob_results_defined blobs : Forall (λ r, br_MetaCID r ≠ cid_Undef) (blob_result <$> blobs).
Proof. apply Forall_fmap, Forall_true. apply blob_result_defined. Qed.

(** A run on a fresh staging store that ends by putting the root. *)
Definition stages {X} (f : ∀ BS : Type, blockstoreBackend BS → Go BS X) (Q : X → cid → Prop) : Prop :=
  ∀ BS (B : blockstoreBackend BS) (A : AcceptsWrites BS) (bs : BS) x bs', f BS B bs = (Ok x, bs') →
    ∃ blks eb, Forall certified (blks ++ [eb]) ∧ bs' = put_all (blks ++ [eb]) bs ∧ Q x (blk_Cid eb).

Lemma on_store_Ok {X} (f : ∀ BS : Type, blockstoreBackend BS → Go BS X) Q x bs :
  stages f Q → on_store upload f = Ok (x, bs) → ∃ c, Q x c ∧ staged bs c.
Proof.
  intros Hf. unfold on_store. destruct (g_ipfs g) as [cl|] eqn:Hg.
  - destruct (f _ _ MemBlockstore.NewMemBlockstore) as [o bs'] eqn:Hr. destruct o as [x'|e|p]; [|done|done].
    intros [= <- <-]. destruct (Hf _ _ mem_accepts _ _ _ Hr) as (blks & eb & Hc & -> & Hq).
    exists (blk_Cid eb). split; [done|]. pose proof (staged_put_all blks eb Hc) as Hs. by rewrite Hg in Hs.
  - destruct (f _ _ NullBlockstore.Null) as [o bs'] eqn:Hr. destruct o as [x'|e|p]; [|done|done].
    intros [= <- <-]. destruct (Hf _ _ null_accepts _ _ _ Hr) as (blks & eb & _ & _ & Hq).
    exists (blk_Cid eb). split; [done|]. unfold staged. by rewrite Hg.
Qed.

(** What else a run on a fresh store stages. *)
Definition stages_also {X} (f : ∀ BS : Type, blockstoreBackend BS → Go BS X) (Q : X → cid → Prop) : Prop :=
  ∀ BS (B : blockstoreBackend BS) (A : AcceptsWrites BS) (bs : BS) x bs', f BS B bs = (Ok x, bs') →
    ∃ blks, Forall certified blks ∧ bs' = put_all blks bs ∧ ∀ c, Q x c → c ∈ blk_Cid <$> blks.

Lemma on_store_also {X} (f : ∀ BS : Type, blockstoreBackend BS → Go BS X) Q x bs c :
  stages_also f Q → on_store upload f = Ok (x, bs) → Q x c → staged bs c.
Proof.
  intros Hf. unfold on_store, staged. destruct (g_ipfs g) as [cl|].
  - destruct (f _ _ MemBlockstore.NewMemBlockstore) as [o bs'] eqn:Hr. destruct o as [x'|e|p]; [|done|done].
    intros [= <- <-] Hq. destruct (Hf _ _ mem_accepts _ _ _ Hr) as (blks & Hc & -> & Hin).
    pose proof (mem_put_all_elem certified blks MemBlockstore.NewMemBlockstore ltac:(done) Hc) as He.
    split; [intros k b Hb; by apply He in Hb as [? _]|].
    destruct (mem_put_all_key blks c MemBlockstore.NewMemBlockstore (Hin c Hq)) as [b Hb]. exists b. by destruct (He _ _ Hb).
  - destruct (f _ _ NullBlockstore.Null) as [o bs'] eqn:Hr. by destruct o as [x'|e|p]; [intros [= <- <-]|..].
Qed.
End Staged.

Section Built.
Context {R : GoRuntime} {I : Ipld} {L : IpldLaws I} {P : Postgres} {BJ : BeaconJson} {JS : JsonState}.
Context {N : Type} {K : Kubo N} {KJ : KuboJson} (g : Generator).

(** What buildEpoch hands to persistEpoch: the epoch's node is staged and,
    unless the blobs come from the database, so are their blocks. *)
Definition built_ok (e : Z) (be : builtEpoch) : Prop :=
  be_epoch be = e ∧
  (be_empty be = true ∨
   be_empty be = false ∧ er_Epoch (be_epochResult be) = e ∧
   staged g (be_epochBS be) (er_CID (be_epochResult be)) ∧
   (be_fromCache be = false → ∀ r, r ∈ be_blobResults be →
      staged g (be_epochBS be) (br_DataCID r) ∧ staged g (be_epochBS be) (br_MetaCID r))).

Lemma stages_node inp results msg :
  (length (ei_Blobs inp) ≤ length results)%nat → Forall (λ r, br_MetaCID r ≠ cid_Undef) results →
  stages (λ BS B, build_node g inp results msg) (λ er c, er_Epoch er = ei_Epoch inp ∧ er_CID er = c).
Proof.
  intros Hl Hd BS B A bs x bs' Hr.
  destruct (build_node_runs g inp results msg Hl Hd) as (blks & eb & Hc & Hrun).
  rewrite (Hrun BS B A) in Hr. injection Hr as <- <-. by exists blks, eb.
Qed.

Lemma stages_map {X Y} (f : ∀ BS : Type, blockstoreBackend BS → Go BS X) (h : X → Y) (Q : X → cid → Prop)
    (Q' : Y → cid → Prop) :
  stages f Q → (∀ x c, Q x c → Q' (h x) c) → stages (λ BS B, x ← f BS B; mret (h x)) Q'.
Proof.
  intros Hf HQ BS B A bs y bs' Hr. go_inv. destruct (Hf _ _ _ _ _ _ Hr0) as (blks & eb & ? & ? & ?).
  exists blks, eb. auto.
Qed.

Lemma stages_fresh env inp msg1 msg2 :
  env_ok env → 0 < cf_Workers (g_cfg g) →
  stages (λ BS B, results ← wrapf msg1 (process_blobs g env inp);
                  er ← build_node g inp results msg2; mret (results, er))
    (λ x c, er_Epoch (snd x) = ei_Epoch inp ∧ er_CID (snd x) = c ∧ fst x = blob_result <$> ei_Blobs inp).
Proof.
  intros He Hw BS B A bs x bs' Hr. apply bind_Ok in Hr as (rs & bs1 & Hp%wrapf_Ok & Hr).
  destruct (process_blobs_Ok g env inp bs rs bs1 He Hw Hp) as (-> & blks1 & Hc1 & _ & ->).
  apply bind_Ok in Hr as (er & bs2 & Hr & [-> ->]%ret_Ok).
  destruct (stages_node inp (blob_result <$> ei_Blobs inp) msg2) with (3 := A) (4 := Hr)
    as (blks & eb & Hc & -> & He1 & He2); [by rewrite length_fmap|apply blob_results_defined|].
  exists (blks1 ++ blks), eb. split_and!; [|by rewrite <- app_assoc, (put_all_app blks1)|done..].
  rewrite <- app_assoc. by apply Forall_app.
Qed.

Lemma blob_blocks_cids b :
  br_DataCID (blob_result b) ∈ blk_Cid <$> blob_blocks b ∧ br_MetaCID (blob_result b) ∈ blk_Cid <$> blob_blocks b.
Proof.
  destruct (ProcessBlob_runs b) as (mb & Hmb & _). unfold blob_result, blob_blocks, blob_meta. rewrite Hmb. cbn.
  split; [by left|right; by left].
Qed.

Lemma fresh_stages_blobs env inp msg1 msg2 :
  env_ok env → 0 < cf_Workers (g_cfg g) →
  stages_also (λ BS B, results ← wrapf msg1 (process_blobs g env inp);
                       er ← build_node g inp results msg2; mret (results, er))
    (λ x c, ∃ r, r ∈ fst x ∧ (c = br_DataCID r ∨ c = br_MetaCID r)).
Proof.
  intros He Hw BS B A bs x bs' Hr. apply bind_Ok in Hr as (rs & bs1 & Hp%wrapf_Ok & Hr).
  destruct (process_blobs_Ok g env inp bs rs bs1 He Hw Hp) as (-> & blks1 & Hc1 & Hperm & ->).
  apply bind_Ok in Hr as (er & bs2 & Hr & [-> ->]%ret_Ok).
  destruct (stages_node inp (blob_result <$> ei_Blobs inp) msg2) with (3 := A) (4 := Hr)
    as (blks & eb & Hc & -> & _); [by rewrite length_fmap|apply blob_results_defined|].
  exists (blks1 ++ (blks ++ [eb])). split_and!; [by apply Forall_app|by rewrite (put_all_app blks1)|].
  intros c (r & (b & -> & Hb)%list_elem_of_fmap & Hor). rewrite fmap_app, elem_of_app. left. rewrite Hperm.
  assert (c ∈ blk_Cid <$> blob_blocks b) as (blk & -> & Hblk)%list_elem_of_fmap
    by (destruct (blob_blocks_cids b); by destruct Hor as [->| ->]).
  apply list_elem_of_fmap_2, elem_of_concat. exists (blob_blocks b). split; [by apply list_elem_of_fmap_2|done].
Qed.

Lemma Reconstruct_Ok e rows spe inp rs :
  ReconstructFromDB e rows spe = Ok (inp, rs) →
  ei_Epoch inp = e ∧ length (ei_Blobs inp) = length rs ∧ Forall (λ r, br_MetaCID r ≠ cid_Undef) rs.
Proof.
  unfold ReconstructFromDB. destruct (mapM_out record_result rows) as [rs'| |] eqn:Hm; cbn; [|done|done].
  intros [= <- <-]. apply mapM_out_Ok_inv in Hm. cbn. rewrite length_fmap, (Forall2_length _ _ _ Hm).
  split_and!; [done|done|]. clear -Hm L. induction Hm as [|r x rows rs Hx _ IH]; constructor; [|done].
  unfold record_result in Hx. destruct (cid_Decode (rb_DataCID r)) as [d| |]; [|done|done]. cbn in Hx.
  destruct (cid_Decode (rb_MetaCID r)) as [m| |] eqn:Hd; [|done|done]. injection Hx as <-.
  by eapply cid_Decode_defined.
Qed.

Lemma fetch_epoch_Ok env e el (w : World N) inp w' : fetch_epoch g env e el w = (Ok inp, w') → ei_Epoch inp = e.
Proof.
  unfold fetch_epoch, in_beacon. destruct (g_beacon g); [|done].
  intros (c & Hf & _)%zoom_inv. unfold FetchEpochInput in Hf. by go_inv.
Qed.

Lemma load_cached_Ok e (w : World N) inp rs w' :
  load_cached g e w = (Ok (Some (inp, rs)), w') →
  ei_Epoch inp = e ∧ length (ei_Blobs inp) = length rs ∧ Forall (λ r, br_MetaCID r ≠ cid_Undef) rs.
Proof.
  unfold load_cached. destruct (g_db g); [|done]. intros Hr. apply bind_Ok in Hr as (rows & w1 & _ & Hr).
  destruct rows as [|r rows]; [done|]. apply bind_Ok in Hr as ([inp' rs'] & w2 & [H _]%wrapf_Ok%lift_Ok & Hr).
  apply ret_Ok in Hr as [[= -> ->] _]. by apply Reconstruct_Ok in H.
Qed.

Lemma buildEpoch_Ok env e p (w : World N) be w' :
  env_ok env → 0 < cf_Workers (g_cfg g) → buildEpoch g env e p w = (Ok be, w') → built_ok e be.
Proof.
  intros He Hw Hr. unfold buildEpoch in Hr. apply bind_Ok in Hr as (cached & w1 & Hload & Hr).
  destruct cached as [[inp rs]|].
  - apply load_cached_Ok in Hload as (Hep & Hl & Hd).
    apply bind_Ok in Hr as ([[rs' er] bs] & w2 & [Hs _]%lift_Ok & Hr). go_inv.
    destruct (on_store_Ok g _ _ _ _ (stages_map _ (λ er, (rs, er)) _
      (λ x c, er_Epoch (snd x) = ei_Epoch inp ∧ er_CID (snd x) = c)
      (stages_node inp rs _ ltac:(lia) Hd) ltac:(done)) Hs) as (c & [Her Hc] & Hst).
    cbn in Her, Hc. subst c. split; [done|]. right. cbn. by rewrite Her.
  - apply bind_Ok in Hr as (inp & w2 & Hf%wrapf_Ok%fetch_epoch_Ok & Hr).
    destruct (Nat.eqb _ _); [go_inv; split; [done|by left]|].
    apply bind_Ok in Hr as ([[rs' er] bs] & w3 & [Hs _]%lift_Ok & Hr). go_inv.
    destruct (on_store_Ok g _ _ _ _ (stages_fresh env inp _ _ He Hw) Hs) as (c & (Her & Hc & _) & Hst).
    cbn in Her, Hc. subst c. split; [done|]. right. cbn. rewrite Her. split_and!; [done..|].
    intros _ r Hin. split; (eapply on_store_also; [by eapply fresh_stages_blobs|exact Hs|]); exists r; auto.
Qed.

(** buildEpoch never asks to skip. *)
Lemma buildEpoch_skip env e p (w : World N) be w' :
  buildEpoch g env e p w = (Ok be, w') → be_skip be = false.
Proof.
  intros Hr. unfold buildEpoch in Hr. apply bind_Ok in Hr as ([[inp rs]|] & w1 & _ & Hr).
  - apply bind_Ok in Hr as ([[rs' er] bs] & w2 & _ & Hr). go_inv. done.
  - apply bind_Ok in Hr as (inp & w2 & _ & Hr). destruct (Nat.eqb _ _); [go_inv; done|].
    apply bind_Ok in Hr as ([[rs' er] bs] & w3 & _ & Hr). go_inv. done.
Qed.
End Built.

(** ** Facts: what a persisted epoch leaves *)

Section Persisted.
Context {R : GoRuntime} {I : Ipld} {L : IpldLaws I} {P : Postgres} {BJ : BeaconJson} {JS : JsonState}.
Context {N : Type} {K : Kubo N} {KL : KuboLaws N} {KJ : KuboJson} (g : Generator).

(** The row of epoch [e] names a CID, and the node, if there is one, holds
    the block of that CID. *)
Definition recorded (w : World N) (e : Z) : Prop :=
  ∃ row c, ipld_epochs (db_tables w) !! e = Some row ∧ ep_cid row = cid_String c ∧
    (g_ipfs g = None ∨ is_Some (kubo_blocks (w_node w) c)).

Lemma recorded_frame e e' w w' : e' ≠ e → epoch_frame e w w' → recorded w e' → recorded w' e'.
Proof.
  intros Hne [Hn He _] (row & c & Hr & Hc & Hk). exists row, c. rewrite He by done.
  split_and!; [done|done|]. destruct Hk as [|[d Hd]]; [by left|]. right. eauto.
Qed.

Lemma in_node_inv {A} (m : Go N A) (w : World N) o w' :
  in_node m w = (o, w') → m (w_node w) = (o, w_node w').
Proof. by intros (n & Hm & ->)%zoom_inv. Qed.

Lemma in_db_inv {A} (m : Go Db.Client A) (w : World N) o w' :
  g_db g = true → in_db g m w = (o, w') → m (w_db w) = (o, w_db w') ∧ w_node w' = w_node w.
Proof. unfold in_db. intros ->. by intros (d & Hm & ->)%zoom_inv. Qed.

Lemma upload_holds env bs c root e (w : World N) u w' :
  staged g (Some bs) c → uploadAndPin g env bs root e w = (Ok u, w') → is_Some (kubo_blocks (w_node w') c).
Proof.
  unfold staged, uploadAndPin. destruct (g_ipfs g) as [cl|]; [|done]. intros (Hc & b & Hb & <-) Hr.
  apply bind_Ok in Hr as (u1 & w1 & Hput%wrapf_Ok%in_node_inv & Hr).
  pose proof (PutBlockstore_spec cl (en_inflight env) bs (w_node w) Hc) as Hp. rewrite Hput in Hp.
  destruct Hp as [_ Hp]. destruct (Hp _ _ Hb) as (held & Hh & _).
  assert (∀ m : Go (World N) unit, always reads m → m w1 = (Ok u, w') →
    is_Some (kubo_blocks (w_node w') (blk_Cid b))) as Hrest.
  { intros m Hm Hw. specialize (Hm w1). rewrite Hw in Hm. destruct Hm as [Hg _]. eauto. }
  eapply Hrest, Hr. apply always_bind; [apply _|apply reads_metrics|intros _].
  destruct (cf_PinOnAdd _); [|apply always_ret, _].
  apply always_bind; [apply _|apply always_attempt, reads_node, VerifyLocal_grows|intros [|]];
    [apply reads_metrics|].
  apply always_bind; [apply _|apply always_attempt, reads_node, Pin_grows|intros ?]. apply reads_metrics.
Qed.

Lemma SaveEpoch_row network er n time c u c' :
  SaveEpoch network er n time c = (Ok u, c') →
  ∃ row, ipld_epochs (c_tables c') !! er_Epoch er = Some row ∧ ep_cid row = cid_String (er_CID er).
Proof.
  intros Hs. pose proof (SaveEpoch_atomically network er n time c) as Ha. rewrite Hs in Ha. rewrite Ha. cbn.
  rewrite upsert_epoch_lookup, decide_True by done. eauto.
Qed.

Lemma SaveBlobs_epochs network e blobs results gt sps c u c' e' row :
  SaveBlobs network e blobs results gt sps c = (Ok u, c') →
  ipld_epochs (c_tables c) !! e' = Some row → ipld_epochs (c_tables c') !! e' = Some row.
Proof.
  intros Hs Hr. pose proof (SaveBlobs_atomically network e blobs results gt sps c) as Ha.
  rewrite Hs in Ha. rewrite Ha. case_decide; [done|]. cbn. unfold ensure_epoch.
  destruct (ipld_epochs (c_tables c) !! to_i64 e) eqn:He; [done|]. rewrite lookup_insert_ne by congruence. done.
Qed.

Lemma save_recorded er n time c (w : World N) u w' :
  g_db g = true → er_CID er = c → (g_ipfs g = None ∨ is_Some (kubo_blocks (w_node w) c)) →
  in_db g (SaveEpoch (cf_Network (g_cfg g)) er n time) w = (Ok u, w') → recorded w' (er_Epoch er).
Proof.
  intros Hdb Hc Hk Hs. apply in_db_inv in Hs as [(row & Hrow & Hcid)%SaveEpoch_row Hn]; [|done].
  exists row, c. rewrite Hn. split_and!; [done|by rewrite Hcid, Hc|done].
Qed.

(** The upload, when something is staged. *)
Lemma staged_upload env bs c root e (w : World N) u w' :
  staged g bs c →
  match bs with Some bs => uploadAndPin g env bs root e | None => mret tt end w = (Ok u, w') →
  g_ipfs g = None ∨ is_Some (kubo_blocks (w_node w') c).
Proof.
  destruct bs as [bs|]; intros Hs Hr; [right; by eapply upload_holds|].
  unfold staged in Hs. destruct (g_ipfs g); [done|by left].
Qed.

Lemma empty_epoch_staged e msg x bs :
  on_store (match g_ipfs g with Some _ => true | None => false end) (λ BS B, build_node g
    (mkEpochInput e (EpochToFirstSlot e (g_slotsPerEpoch g)) []) [] msg) = Ok (x, bs) →
  er_Epoch x = e ∧ staged g bs (er_CID x).
Proof.
  intros Hs. destruct (on_store_Ok g _ _ _ _ (stages_node g (mkEpochInput e (EpochToFirstSlot e (g_slotsPerEpoch g)) [])
    [] msg ltac:(done) ltac:(constructor)) Hs) as (c & [He <-] & Hst). done.
Qed.

Lemma persistEpoch_recorded env e be (w : World N) u w' :
  g_db g = true → built_ok g e be → persistEpoch g env be w = (Ok u, w') → recorded w' e.
Proof.
  intros Hdb [Hbe Hb] Hr. unfold persistEpoch in Hr. rewrite Hbe, Hdb in Hr. cbn [negb] in Hr.
  destruct Hb as [Hem|(Hem & Her & Hst & _)]; rewrite Hem in Hr.
  - apply bind_Ok in Hr as ([x bs] & w1 & [Hs ->]%lift_Ok & Hr).
    apply empty_epoch_staged in Hs as [He Hst].
    apply bind_Ok in Hr as (u1 & w2 & Hup & Hr%wrapf_Ok).
    rewrite <- He. eapply save_recorded; [done|done|by eapply staged_upload|exact Hr].
  - apply bind_Ok in Hr as (u1 & w1 & Hup & Hr). apply bind_Ok in Hr as (u2 & w2 & Hsave & Hnotify).
    apply bind_Ok in Hsave as (u3 & w3 & Hs%wrapf_Ok & Hblobs).
    assert (recorded w3 e) as Hrec.
    { rewrite <- Her. eapply save_recorded; [done|done|by eapply staged_upload|exact Hs]. }
    assert (recorded w2 e) as Hrec2.
    { destruct (negb _); [|by apply ret_Ok in Hblobs as [_ ->]].
      apply wrapf_Ok, in_db_inv in Hblobs as [Hsb Hn]; [|done].
      destruct Hrec as (row & c & Hrow & Hc & Hk). exists row, c. rewrite Hn.
      split_and!; [by eapply SaveBlobs_epochs|done|done]. }
    destruct (negb _); [|by apply ret_Ok in Hnotify as [_ ->]].
    apply bind_Ok in Hnotify as (refs & w4 & [_ ->]%lift_Ok & (l & _ & ->)%zoom_inv). exact Hrec2.
Qed.

(** What reading, SaveEpoch and SaveBlobs may do is what persistEpoch may do. *)
Lemma persistEpoch_always (Rel : relation (World N)) `{!PreOrder Rel} env e be :
  (∀ w w', reads w w' → Rel w w') →
  (∀ er n time, er_Epoch er = e → always Rel (in_db g (SaveEpoch (cf_Network (g_cfg g)) er n time))) →
  (∀ blobs results gt sps, always Rel (in_db g (SaveBlobs (cf_Network (g_cfg g)) e blobs results gt sps))) →
  built_ok g e be → always Rel (persistEpoch g env be).
Proof.
  intros Hreads Hepoch Hblobs [Hbe Hb].
  assert (∀ A (m : Go (World N) A), always reads m → always Rel m) as Hr by (intros A m; by apply always_impl).
  unfold persistEpoch. rewrite Hbe. destruct Hb as [Hem|(Hem & Her & _)]; rewrite Hem.
  - destruct (g_db g); cbn [negb]; [|apply always_ret, _].
    apply always_bind_Ok; [apply _|apply always_lift, _|]. intros [x bs] s s' [Hs _]%lift_Ok.
    apply empty_epoch_staged in Hs as [Hx _].
    apply always_bind; [apply _|destruct bs; [apply Hr, reads_upload|apply always_ret, _]|intros _].
    by apply always_wrapf, Hepoch.
  - apply always_bind; [apply _|destruct (be_epochBS be); [apply Hr, reads_upload|apply always_ret, _]|intros _].
    apply always_bind; [apply _| |intros _].
    + destruct (g_db g); [|apply always_ret, _].
      apply always_bind; [apply _|by apply always_wrapf, Hepoch|intros _].
      destruct (negb _); [by apply always_wrapf, Hblobs|apply always_ret, _].
    + destruct (negb _); [|apply always_ret, _].
      apply always_bind; [apply _|apply always_lift, _|intros refs]. apply Hr, reads_sent.
Qed.

Lemma persistEpoch_frame env e be :
  0 ≤ e < two63 → built_ok g e be → always (epoch_frame e) (persistEpoch g env be).
Proof.
  intros He. apply persistEpoch_always; [apply _| | |].
  - intros w w' [Hn Ht]. split; [done|by rewrite Ht|by rewrite Ht].
  - intros er n time Her. by apply frame_SaveEpoch.
  - intros. by apply frame_SaveBlobs.
Qed.

(** A string names a CID whose block the node holds. *)
Definition names_held (w : World N) (s : string) : Prop :=
  ∃ c, s = cid_String c ∧ is_Some (kubo_blocks (w_node w) c).

(** No row names a CID whose block the node does not hold: neither an epoch
    (the placeholder rows SaveBlobs makes have no CID) nor a blob, for its data
    and its metadata. *)
Record rows_held (w : World N) : Prop := {
  rh_epochs e row : ipld_epochs (db_tables w) !! e = Some row → ep_cid row = "" ∨ names_held w (ep_cid row);
  rh_blobs k row : ipld_blobs (db_tables w) !! k = Some row →
    names_held w (bl_data_cid row) ∧ names_held w (bl_meta_cid row) }.

Lemma names_held_grows w w' s : grows (w_node w) (w_node w') → names_held w s → names_held w' s.
Proof. intros Hn (c & Hc & d & Hd). exists c. split; [done|]. exists d. by apply Hn. Qed.

(** Only rows of the same content, or a grown node. *)
Lemma rows_held_same w w' :
  grows (w_node w) (w_node w') → ipld_epochs (db_tables w') = ipld_epochs (db_tables w) →
  ipld_blobs (db_tables w') = ipld_blobs (db_tables w) → rows_held w → rows_held w'.
Proof.
  intros Hn He Hb [H1 H2]. pose proof (names_held_grows w w') as Hg.
  split; [intros e row; rewrite He; intros Hr; destruct (H1 e row Hr); eauto|].
  intros k row. rewrite Hb. intros Hr. destruct (H2 k row Hr). eauto.
Qed.

Lemma rows_held_reads w w' : reads w w' → rows_held w → rows_held w'.
Proof. intros [Hn Ht]. apply rows_held_same; [done|by rewrite Ht..]. Qed.

Lemma rows_held_SaveEpoch network er n time w :
  is_Some (kubo_blocks (w_node w) (er_CID er)) → rows_held w →
  rows_held (snd (in_db g (SaveEpoch network er n time) w)).
Proof.
  intros Hk Hw. unfold in_db. destruct (g_db g); [|done]. unfold zoom.
  pose proof (SaveEpoch_atomically network er n time (w_db w)) as Ha.
  destruct (SaveEpoch _ _ _ _ (w_db w)) as [[u|er'|p] d]; cbn in *; [| |done];
    [|by apply (rows_held_same w); cbn; rewrite ?Ha].
  destruct Hw as [H1 H2]. split; [|intros k row Hr; cbn in Hr; rewrite Ha in Hr; by apply (H2 k row)].
  intros e row Hr. cbn in Hr. rewrite Ha in Hr. cbn in Hr. rewrite upsert_epoch_lookup in Hr.
  case_decide; [|by apply (H1 e row)]. injection Hr as <-. right. by exists (er_CID er).
Qed.

(** The results whose rows are saved are on the node. *)
Definition results_held (w : World N) (results : list BlobResult) : Prop :=
  ∀ r, r ∈ results → is_Some (kubo_blocks (w_node w) (br_DataCID r)) ∧ is_Some (kubo_blocks (w_node w) (br_MetaCID r)).

Lemma rows_held_SaveBlobs network e blobs results gt sps w :
  results_held w results → rows_held w → rows_held (snd (in_db g (SaveBlobs network e blobs results gt sps) w)).
Proof.
  intros Hres Hw. unfold in_db. destruct (g_db g); [|done]. unfold zoom.
  pose proof (SaveBlobs_atomically network e blobs results gt sps (w_db w)) as Ha.
  destruct (SaveBlobs _ _ _ _ _ _ (w_db w)) as [[u|er'|p] d]; cbn in *; [| |done];
    [|by apply (rows_held_same w); cbn; rewrite ?Ha].
  case_decide; [by apply (rows_held_same w); cbn; rewrite ?Ha|]. destruct Hw as [H1 H2]. split.
  - intros e' row Hr. cbn in Hr. rewrite Ha in Hr. cbn in Hr. unfold ensure_epoch in Hr.
    destruct (ipld_epochs (c_tables (w_db w)) !! to_i64 e); [by apply (H1 e' row)|].
    apply lookup_insert_Some in Hr as [[<- <-]|[_ Hr]]; [by left|by apply (H1 e' row)].
  - intros k row Hr. cbn in Hr. rewrite Ha in Hr. cbn in Hr. rewrite upsert_blobs_lookup in Hr.
    pose proof (distinct_stage_lookup (zip_with (stage_row network e gt sps) blobs results) k) as Hd.
    destruct (distinct_stage _ !! k) as [new|]; [|by apply (H2 k row)].
    apply elem_of_lookup_zip_with in Hd as (i & inp & res & [= -> ->] & _ & Hi).
    destruct (Hres res) as [Hdata Hmeta]; [by eapply list_elem_of_lookup_2|].
    destruct (ipld_blobs _ !! _); injection Hr as <-; (split; [by exists (br_DataCID res)|by exists (br_MetaCID res)]).
Qed.

Lemma staged_upload_held env bs c root e w u w' :
  g_ipfs g ≠ None → staged g bs c →
  match bs with Some bs => uploadAndPin g env bs root e | None => mret tt end w = (Ok u, w') →
  is_Some (kubo_blocks (w_node w') c).
Proof. intros Hi Hs Hr. by destruct (staged_upload env bs c root e w u w' Hs Hr). Qed.

Lemma upload_rows_held env bs c e w :
  rows_held w →
  rows_held (snd (match bs with Some bs => uploadAndPin g env bs c e | None => mret tt end w)).
Proof. intros Hw. destruct bs; [|done]. eapply rows_held_reads; [apply reads_upload|done]. Qed.

Lemma persistEpoch_rows_held env e be w :
  g_ipfs g ≠ None → built_ok g e be → rows_held w → rows_held (snd (persistEpoch g env be w)).
Proof.
  intros Hi [Hbe Hb] Hw. unfold persistEpoch. rewrite Hbe.
  destruct Hb as [Hem|(Hem & Her & Hst & Hblobs)]; rewrite Hem.
  - destruct (g_db g); [|done]. cbn [negb].
    apply keeps_bind; [done|]. intros [x bs] w1 [Hs ->]%lift_Ok _. apply empty_epoch_staged in Hs as [_ Hst].
    apply keeps_bind; [by apply upload_rows_held|]. intros u w2 Hup Hw2.
    apply keeps_wrapf, rows_held_SaveEpoch; [|done].
    exact (staged_upload_held env bs _ _ e w u w2 Hi Hst Hup).
  - apply keeps_bind; [by apply upload_rows_held|]. intros u w1 Hup Hw1.
    apply keeps_bind.
    + destruct (g_db g); [|done]. apply keeps_bind.
      * apply keeps_wrapf, rows_held_SaveEpoch; [|done].
        exact (staged_upload_held env _ _ _ e w u w1 Hi Hst Hup).
      * intros u2 w2 Hs Hw2. destruct (be_fromCache be); [done|]. cbn [negb]. apply keeps_wrapf, rows_held_SaveBlobs; [|done].
        assert (w_node w2 = w_node w1) as Hn by (apply wrapf_Ok in Hs; unfold in_db in Hs; destruct (g_db g); [by apply zoom_inv in Hs as (d & _ & ->)|done]).
        intros r [H1 H2]%(Hblobs eq_refl). rewrite Hn.
        split; [exact (staged_upload_held env _ _ _ e w u w1 Hi H1 Hup)|exact (staged_upload_held env _ _ _ e w u w1 Hi H2 Hup)].
    + intros u2 w2 _ Hw2. destruct (negb _); [|done].
      apply keeps_bind; [done|]. intros refs w3 [_ ->]%lift_Ok _.
      eapply rows_held_reads; [apply reads_sent|done].
Qed.

Context (Hworkers : 0 < cf_Workers (g_cfg g)).

Lemma processEpoch_frame env e p :
  env_ok env → 0 ≤ e < two63 → always (epoch_frame e) (processEpoch g env e p).
Proof.
  intros Henv He. unfold processEpoch.
  assert (always (epoch_frame e) (be ← buildEpoch (N := N) g env e p; persistEpoch g env be)).
  { apply always_bind_Ok; [apply _|apply reads_frame, reads_buildEpoch|]. intros be s s' Hb.
    apply persistEpoch_frame; [done|by eapply buildEpoch_Ok]. }
  destruct (g_ipfs g), (g_db g); done || apply always_ret, _.
Qed.

Lemma processEpoch_recorded env e p (w : World N) u w' :
  env_ok env → g_db g = true → processEpoch g env e p w = (Ok u, w') → recorded w' e.
Proof.
  intros Henv Hdb. unfold processEpoch. rewrite Hdb.
  assert ((be ← buildEpoch g env e p; persistEpoch g env be) w = (Ok u, w') → recorded w' e) as Hx.
  { intros (be & w1 & Hb & Hp)%bind_Ok. eapply persistEpoch_recorded; [done| |exact Hp]. by eapply buildEpoch_Ok. }
  by destruct (g_ipfs g).
Qed.

Lemma processEpoch_rows_held env e p w :
  env_ok env → g_ipfs g ≠ None → rows_held w → rows_held (snd (processEpoch g env e p w)).
Proof.
  intros Henv Hi Hw. unfold processEpoch.
  assert (rows_held (snd ((be ← buildEpoch g env e p; persistEpoch g env be) w))) as Hx.
  { apply keeps_bind; [eapply rows_held_reads; [apply reads_buildEpoch|done]|].
    intros be w1 Hb Hw1. eapply persistEpoch_rows_held; [done| |done]. by eapply buildEpoch_Ok. }
  by destruct (g_ipfs g), (g_db g).
Qed.
End Persisted.

(** ** Properties *)

Section PersistProperties.
Context {R : GoRuntime} {I : Ipld} {L : IpldLaws I} {P : Postgres} {BJ : BeaconJson} {JS : JsonState}.
Context {N : Type} {K : Kubo N} {KL : KuboLaws N} {KJ : KuboJson} (g : Generator).

(** C3. Upload before row: however processEpoch ends (a failed fetch, upload
    or statement, a panic), every CID that a row names, of an epoch's node or of
    a blob's data or metadata, is one whose block the node holds, no other
    epoch's row and no cursor has changed, and the node has dropped nothing;
    when it succeeds the epoch's own row is there with such a CID. *)
Theorem processEpoch_uploads_first env e p (w : World N) :
  0 < cf_Workers (g_cfg g) → g_db g = true → g_ipfs g ≠ None → env_ok env → 0 ≤ e < two63 →
  rows_held w →
  let '(o, w') := processEpoch g env e p w in
  rows_held w' ∧ epoch_frame e w w' ∧ (o = Ok tt → recorded g w' e).
Proof.
  intros Hw Hdb Hi Henv He Hrows.
  pose proof (processEpoch_rows_held g Hw env e p w Henv Hi Hrows) as Hr.
  pose proof (processEpoch_frame (KL := KL) g Hw env e p Henv He w) as Hf.
  destruct (processEpoch g env e p w) as [o w'] eqn:Hp. split_and!; [done|done|].
  intros ->. by eapply processEpoch_recorded.
Qed.
End PersistProperties.

(** ** The property at a concrete input *)

(** A beacon node whose slot 41 has one blob. *)
Definition demo_reply : BeaconJson := {|
  json_finality _ := Ok ("11", "12");
  json_header _ := Ok ("1", "2", "", "", "");
  json_sidecars s := if bool_decide (s = "one") then
    Ok [mkBlobSidecar "0xroot" "0" "41" "" "" "0x0102" "0xaabbccddeeff00112233" ""] else Ok [];
  json_payload _ := Ok ("0xh", "5");
  json_genesis _ := Ok "1606824023";
  json_config_name _ := Ok "MAINNET" |}.

Definition demo_config : Config := mkConfig "mainnet" 10 4 2 1000 1000 true.
Definition demo_gen : Generator := mkGenerator demo_config true (Some demo_ipfs) true None 0 4 12.
Definition demo_run : Env := mkEnv demo_http demo_env None (seq 0) (λ n, reverse (seq 0 n)) 1 None.

Lemma demo_run_ok : env_ok demo_run.
Proof. split; intros n; cbn; [done|apply reverse_Permutation]. Qed.

Definition demo_world (t : tables) : World (gmap cid string) :=
  mkWorld demo_client ∅ (healthy t) (mkManager "" (mkState "" 0 0), mkFS ∅ [] []) [] None.

Lemma processEpoch_uploads_first_witness :
  let '(o, w') := processEpoch (BJ := demo_reply) demo_gen demo_run 10 None (demo_world tables_empty) in
  rows_held w' ∧ (o = Ok tt → recorded demo_gen w' 10).
Proof.
  pose proof (processEpoch_uploads_first (BJ := demo_reply) demo_gen demo_run 10 None (demo_world tables_empty)
    ltac:(done) ltac:(done) ltac:(done) demo_run_ok ltac:(unfold two63; lia) ltac:(done)) as H.
  destruct (processEpoch _ _ _ _ _) as [o w']. split; [exact (proj1 H)|exact (proj2 (proj2 H))].
Defined.

(** Evaluated: the epoch is fetched, built, uploaded and saved. *)
Example demo_process_evaluated :
  let '(o, w') := processEpoch (BJ := demo_reply) demo_gen demo_run 10 None (demo_world tables_empty) in
  o = Ok tt ∧ ep_blob_count <$> ipld_epochs (db_tables w') !! 10 = Some 1 ∧
  size (ipld_blobs (db_tables w')) = 1%nat ∧ size (w_node w') = 3%nat.
Proof. vm_compute. done. Qed.
