(* ===== verification/HealthFacts.v ===== *)
(** * HealthFacts: what the health check finds

    The worst status, tier 1 as a check of each epoch on its own, the epochs it
    flags, and the check of an epoch the generator has just saved. *)

From S2P Require Import Prelude GoStd CliUtil Types Ipld Store IpldModel Blob Epoch Network Db StateFile.
From S2P Require Import Beacon ElClient Ipfs Metrics Generator Reload Health Persist.

(** ** The worst status *)

Definition failing (r : healthReport) : Prop := Exists (λ c, ck_status c = statusFail) (hr_results r).

Lemma worst_from l : ∀ s, s ≠ statusSkip →
  foldl worst_of s l = statusFail ↔ s = statusFail ∨ Exists (λ c, ck_status c = statusFail) l.
Proof.
  induction l as [|c l IH]; intros s Hs; cbn [foldl]; [rewrite Exists_nil; tauto|].
  assert (worst_of s c ≠ statusSkip ∧ (worst_of s c = statusFail ↔ s = statusFail ∨ ck_status c = statusFail)) as [Hw Hf].
  { unfold worst_of. destruct s, (ck_status c); cbn; naive_solver. }
  rewrite IH, Hf, Exists_cons by done. tauto.
Qed.

Lemma worst_fail r : worst r = statusFail ↔ failing r.
Proof. unfold worst, failing. rewrite worst_from by done. naive_solver. Qed.

Lemma failing_add name tier status detail samples r :
  failing (add name tier status detail samples r) ↔ failing r ∨ status = statusFail.
Proof. unfold failing, add. cbn. rewrite Exists_app, Exists_cons, Exists_nil. cbn. tauto. Qed.

Lemma failing_backfill epochs r : failing (add_backfill epochs r) ↔ failing r.
Proof. done. Qed.

Lemma failing_repair epochs r : failing (add_repair epochs r) ↔ failing r.
Proof. done. Qed.

(** ** Tier 1 *)

Section Tier1Facts.
Context {R : GoRuntime} {I : Ipld} {L : IpldLaws I} {P : Postgres} (network : string).
Context (samples slotsPerEpoch hamtThreshold : Z).

Abbreviation check_epoch := (check_epoch network slotsPerEpoch hamtThreshold).
Abbreviation check_records := (check_records network slotsPerEpoch hamtThreshold).
Abbreviation check_epochs := (check_epochs network slotsPerEpoch hamtThreshold).

Lemma Reconstruct_no_panic epoch records spe p : ReconstructFromDB epoch records spe ≠ Panic p.
Proof.
  unfold ReconstructFromDB. assert (mapM_out record_result records ≠ Panic p) as Hm.
  { apply mapM_out_no_panic. intros r q. unfold record_result, wrap, mbind, outcome_bind.
    destruct (cid_Decode (rb_DataCID r)) as [| |m] eqn:H1; cbn; [|done|by apply cid_Decode_no_panic in H1].
    by destruct (cid_Decode (rb_MetaCID r)) as [| |m] eqn:H2; cbn; [| |apply cid_Decode_no_panic in H2]. }
  destruct (mapM_out record_result records); cbn; congruence.
Qed.

(** The results of a reconstruction: one per row, with CIDs that are defined. *)
Lemma Reconstruct_defined epoch records spe inp results :
  ReconstructFromDB epoch records spe = Ok (inp, results) →
  length (ei_Blobs inp) = length records ∧ length results = length records ∧
  Forall (λ r, br_DataCID r ≠ cid_Undef ∧ br_MetaCID r ≠ cid_Undef) results.
Proof.
  unfold ReconstructFromDB. destruct (mapM_out record_result records) as [rs| |] eqn:Hm; cbn; [|done|done].
  intros [= <- <-]. apply mapM_out_Ok_inv in Hm. split_and!.
  - cbn. by rewrite length_fmap.
  - symmetry. by eapply Forall2_length.
  - apply Forall_forall. intros r [i Hi]%list_elem_of_lookup.
    destruct (Forall2_lookup_r _ _ _ _ _ Hm Hi) as (rec & _ & Hr). unfold record_result, wrap in Hr.
    destruct (cid_Decode (rb_DataCID rec)) as [c1| |] eqn:H1; cbn in Hr; [|done|done].
    destruct (cid_Decode (rb_MetaCID rec)) as [c2| |] eqn:H2; cbn in Hr; [|done|done].
    injection Hr as <-. cbn. eauto using cid_Decode_defined.
Qed.

Lemma check_blob_ok b r rec : br_DataCID r ≠ cid_Undef → ∃ x, check_blob b r rec = Ok x.
Proof.
  intros Hd. destruct (cbor_block_ok (NMap (metadata_entries b (br_DataCID r)))) as [mb Hmb];
    [apply metadata_wf|by apply metadata_links|].
  unfold check_blob. rewrite (store_metadata _ _ mb Hmb). eauto.
Qed.

Lemma check_blobs_ok recs : ∀ bs rs, length bs = length recs → length rs = length recs →
  Forall (λ r, br_DataCID r ≠ cid_Undef ∧ br_MetaCID r ≠ cid_Undef) rs → ∃ x, check_blobs bs rs recs = Ok x.
Proof.
  induction recs as [|rec recs IH]; intros [|b bs] [|r rs] Hb Hr Hd; try done; [by eexists|].
  apply Forall_cons in Hd as [[Hd _] Hds]. cbn. destruct (check_blob_ok b r rec Hd) as [x ->].
  destruct (IH bs rs) as [y ->]; [by injection Hb|by injection Hr|done|]. cbn. eauto.
Qed.

(** The check of an epoch's rows always gives a verdict. *)
Lemma check_records_total e records : ∃ r, check_records e records = Ok r ∧ er1_epoch r = rec_Epoch e.
Proof.
  unfold Health.check_records. destruct (ReconstructFromDB _ _ _) as [[inp rs]| |p] eqn:Hr;
    [|by eexists|by apply Reconstruct_no_panic in Hr].
  apply Reconstruct_defined in Hr as (Hb & Hl & Hd).
  destruct (check_blobs_ok records (ei_Blobs inp) rs Hb Hl Hd) as [m ->]. cbn.
  destruct (BuildEpochNode_runs inp rs network hamtThreshold) as (n & blks & eb & _ & _ & _ & _ & Hrun); [lia| |].
  { eapply Forall_impl; [exact Hd|]. naive_solver. }
  rewrite (Hrun _ _ _ MemBlockstore.NewMemBlockstore). by eexists.
Qed.

(** The verdict on an epoch of a database that answers. *)
Definition verdict (t : tables) (e : EpochRecord) : epochResult :=
  match fst (check_epoch e (healthy t)) with Ok r => r | _ => epochResult_zero end.

Lemma attempt_healthy {A} (m : Go Db.Client A) t : atomically m id → (∀ c, c_faults c = [] → c_faults (snd (m c)) = []) →
  ∃ x, attempt m (healthy t) = (Ok x, healthy t).
Proof.
  intros Ha Hf. specialize (Ha (healthy t)). specialize (Hf (healthy t) eq_refl). unfold attempt.
  destruct (m (healthy t)) as [[a|e|p] [t' f']]; cbn in *; subst; [by eexists..|done].
Qed.

Lemma GetBlobsByEpoch_healthy e t : ∃ x, attempt (GetBlobsByEpoch network e) (healthy t) = (Ok x, healthy t).
Proof.
  apply attempt_healthy; [apply GetBlobsByEpoch_reads|]. intros [t' f] Hf. cbn in Hf. subst f.
  unfold GetBlobsByEpoch, wrapf, mbind, go_bind, lift. by destruct (int8 e).
Qed.

Lemma check_epoch_healthy e t :
  check_epoch e (healthy t) = (Ok (verdict t e), healthy t) ∧ er1_epoch (verdict t e) = rec_Epoch e.
Proof.
  assert (∃ r, check_epoch e (healthy t) = (Ok r, healthy t) ∧ er1_epoch r = rec_Epoch e) as (r & Hr & He).
  { unfold Health.check_epoch. rewrite bind_eq. destruct (GetBlobsByEpoch_healthy (rec_Epoch e) t) as [x ->].
    destruct x as [er|[|rec recs]]; [by eexists|by eexists|]. unfold lift.
    destruct (check_records_total e (rec :: recs)) as (r & -> & He). by exists r. }
  unfold verdict. by rewrite Hr.
Qed.

(** The workers' results land at their indices, whatever their order. *)
Lemma check_epochs_healthy epochs t order : ∀ results,
  Forall (λ i, i < length epochs)%nat order → length results = length epochs →
  ∃ results', check_epochs epochs order results (healthy t) = (Ok results', healthy t) ∧
    length results' = length epochs ∧
    ∀ i, results' !! i = if decide (i ∈ order) then verdict t <$> epochs !! i else results !! i.
Proof.
  induction order as [|i order IH]; intros results Ho Hl; cbn [Health.check_epochs].
  { exists results. split_and!; [done|done|]. intros i. rewrite decide_False; [done|]. by apply not_elem_of_nil. }
  apply Forall_cons in Ho as [Hi Ho]. destruct (lookup_lt_is_Some_2 _ _ Hi) as [e He].
  rewrite bind_eq. unfold lift, index. rewrite He, bind_eq. rewrite (proj1 (check_epoch_healthy e t)).
  destruct (IH (<[i := verdict t e]> results) Ho) as (rs & -> & Hlen & Hrs); [by rewrite length_insert|].
  exists rs. split_and!; [done|done|]. intros j. rewrite Hrs. destruct (decide (j ∈ order)).
  - by rewrite decide_True by (by right).
  - destruct (decide (i = j)) as [->|Hne].
    + rewrite list_lookup_insert_eq by lia. rewrite decide_True by (by left). by rewrite He.
    + rewrite list_lookup_insert_ne by done. rewrite decide_False; [done|]. intros [?|?]%elem_of_cons; [congruence|done].
Qed.

Lemma check_epochs_all epochs t order :
  order ≡ₚ seq 0 (length epochs) →
  check_epochs epochs order (replicate (length epochs) epochResult_zero) (healthy t) =
    (Ok (verdict t <$> epochs), healthy t).
Proof.
  intros Ho. destruct (check_epochs_healthy epochs t order (replicate (length epochs) epochResult_zero))
    as (rs & -> & Hl & Hrs).
  { rewrite Ho. apply Forall_forall. intros i Hi%elem_of_seq. lia. }
  { by rewrite length_replicate. }
  do 2 f_equal. apply list_eq. intros i. rewrite Hrs, list_lookup_fmap.
  destruct (decide (i ∈ order)) as [|Hi]; [done|]. rewrite Ho, elem_of_seq in Hi.
  rewrite !lookup_ge_None_2; [done|lia|]. rewrite length_replicate. lia.
Qed.

(** The rows of the report fail exactly for the flagged epochs. *)
Lemma tier1_report_failing results rep : 0 ≤ samples → ∃ rep',
  tier1_report samples results rep = Ok rep' ∧
  (failing rep' ↔ failing rep ∨ Exists (λ r, er1_metaBad r = true ∨ er1_rootBad r = true) results) ∧
  hr_backfillEpochs rep' = hr_backfillEpochs rep ++ any_bad results.
Proof.
  intros Hs. assert (∀ l, ∃ s, capSamples l samples = Ok s) as Hcap.
  { intros l. unfold capSamples. destruct (_ <=? _); [eauto|]. rewrite (proj2 (Z.ltb_ge samples 0)) by done. eauto. }
  assert (∀ (Q : epochResult → Prop) `{!∀ r, Decision (Q r)},
    (er1_epoch <$> filter Q results ≠ [] ↔ Exists Q results)) as Hnil.
  { intros Q ?. rewrite Exists_exists. split.
    - intros Hx. destruct (filter Q results) as [|r l] eqn:Hf; [done|].
      assert (r ∈ filter Q results) as [HQ Hr]%list_elem_of_filter by (rewrite Hf; by left). eauto.
    - intros (r & Hr & HQ) Hx%fmap_nil_inv.
      assert (r ∈ filter Q results) as Hin by (by apply list_elem_of_filter).
      rewrite Hx in Hin. by apply not_elem_of_nil in Hin. }
  assert (Hm := Hnil (λ r, er1_metaBad r = true) _). assert (Hr := Hnil (λ r, er1_rootBad r = true) _). clear Hnil.
  fold (meta_bad results) in Hm. fold (root_bad results) in Hr.
  assert (Exists (λ r, er1_metaBad r = true ∨ er1_rootBad r = true) results ↔
    meta_bad results ≠ [] ∨ root_bad results ≠ []) as Hor.
  { rewrite Hm, Hr, !Exists_exists. clear. naive_solver. }
  setoid_rewrite Hor. clear Hm Hr Hor.
  unfold tier1_report. set (rep0 := add_backfill (any_bad results) rep).
  assert (∃ rep1, match meta_bad results with
    | [] => Ok (add "meta_cid recompute" 1 statusPass "" [] rep0)
    | _ :: _ =>
        shown ← capSamples (meta_bad results) samples;
        Ok (add "meta_cid recompute" 1 statusFail (pretty (wrong_blobs results) +:+ " blob" +:+
          pluralS (wrong_blobs results) +:+ " wrong in " +:+ epochs_text (count_of (meta_bad results))) shown rep0)
    end = Ok rep1 ∧ (failing rep1 ↔ failing rep ∨ meta_bad results ≠ []) ∧
    hr_backfillEpochs rep1 = hr_backfillEpochs rep ++ any_bad results) as (rep1 & -> & Hf1 & Hb1).
  { destruct (meta_bad results) as [|x l].
    - eexists. split; [done|]. rewrite failing_add. split; [clear; naive_solver|done].
    - destruct (Hcap (x :: l)) as [s ->]. eexists. split; [done|]. rewrite failing_add. split; [clear; naive_solver|done]. }
  cbn [mbind outcome_bind]. destruct (root_bad results) as [|x l].
  - eexists. split; [done|]. rewrite failing_add, Hf1. split; [clear; naive_solver|done].
  - destruct (filter _ (x :: l)) as [|y k].
    + destruct (Hcap (x :: l)) as [s ->]. eexists. split; [done|]. rewrite failing_add, Hf1. split; [clear; naive_solver|done].
    + destruct (Hcap (y :: k)) as [s ->]. eexists. split; [done|]. rewrite failing_add, Hf1. split; [clear; naive_solver|done].
Qed.

(** ** What a verdict says *)

(** The rows of an epoch rebuild it: every blob's metadata hashes to the stored
    meta CID, and the epoch node to the stored root CID. *)
Definition rebuilds (e : EpochRecord) (records : list BlobRecord) : Prop :=
  ∃ inp results, ReconstructFromDB (rec_Epoch e) records slotsPerEpoch = Ok (inp, results) ∧
    Forall2 (λ br rec, ∃ c, fst (StoreBlobMetadata (fst br) (br_DataCID (snd br)) MemBlockstore.NewMemBlockstore) = Ok c ∧
      cid_String c = rb_MetaCID rec) (zip (ei_Blobs inp) results) records ∧
    ∃ res, fst (BuildEpochNode inp results network hamtThreshold MemBlockstore.NewMemBlockstore) = Ok res ∧
      cid_String (er_CID res) = rec_CID e.

Definition intact (t : tables) (e : EpochRecord) : Prop :=
  match fst (GetBlobsByEpoch network (rec_Epoch e) (healthy t)) with
  | Ok (rec :: recs) => rebuilds e (rec :: recs)
  | _ => True
  end.

Definition flagged (r : epochResult) : Prop := er1_metaBad r = true ∨ er1_rootBad r = true.

Lemma check_blobs_false recs : ∀ bs rs x, length bs = length recs → length rs = length recs →
  check_blobs bs rs recs = Ok x →
  (fst x = false ↔ Forall2 (λ br rec,
    ∃ c, fst (StoreBlobMetadata (fst br) (br_DataCID (snd br)) MemBlockstore.NewMemBlockstore) = Ok c ∧
      cid_String c = rb_MetaCID rec) (zip bs rs) recs).
Proof.
  induction recs as [|rec recs IH]; intros [|b bs] [|r rs] x Hb Hr; try done; cbn.
  { intros [= <-]. split; [constructor|done]. }
  destruct (check_blob b r rec) as [y| |] eqn:Hy; [|done|done]. cbn.
  destruct (check_blobs bs rs recs) as [z| |] eqn:Hz; [|done|done]. cbn. intros [= <-]. cbn.
  injection Hb as Hb. injection Hr as Hr. rewrite Forall2_cons, <- (IH bs rs z Hb Hr Hz). cbn.
  rewrite orb_false_iff. apply and_iff_compat_r. unfold check_blob in Hy.
  destruct (fst (StoreBlobMetadata b _ _)) as [c| |] eqn:Hs; [|injection Hy as <-; naive_solver|done].
  case_bool_decide; injection Hy as <-; naive_solver.
Qed.

Lemma check_records_flagged e records r :
  check_records e records = Ok r → (flagged r ↔ ¬ rebuilds e records).
Proof.
  unfold Health.check_records, rebuilds. destruct (ReconstructFromDB _ _ _) as [[inp rs]| |p] eqn:Hr; [| |done].
  2:{ intros [= <-]. split; [|by left]. intros _ (? & ? & [=] & _). }
  destruct (check_blobs (ei_Blobs inp) rs records) as [m| |] eqn:Hm; cbn; [|done|done].
  apply Reconstruct_defined in Hr as (Hb & Hl & _). apply check_blobs_false in Hm; [|done..].
  set (M := Forall2 _ _ _) in Hm. unfold flagged.
  destruct (fst (BuildEpochNode inp rs network hamtThreshold MemBlockstore.NewMemBlockstore)) as [res| |] eqn:Hn; [| |done].
  - intros [= <-]. cbn. case_bool_decide as Hc; cbn.
    + destruct (fst m); split.
      * intros _ (? & ? & [= <- <-] & HM & _). apply Hm in HM. done.
      * by left.
      * by intros [|].
      * intros Hno. destruct Hno. exists inp, rs. split_and!; [done|by apply Hm|by exists res].
    + split; [|by right]. intros _ (? & ? & [= <- <-] & _ & res' & Hres & Hx). congruence.
  - intros [= <-]. cbn. split; [|by right]. intros _ (? & ? & [= <- <-] & _ & res & Hres & _). congruence.
Qed.

Lemma verdict_flagged t e : flagged (verdict t e) ↔ ¬ intact t e.
Proof.
  unfold verdict, Health.check_epoch, intact. rewrite bind_eq. unfold attempt.
  pose proof (GetBlobsByEpoch_reads network (rec_Epoch e) (healthy t)) as Ha.
  assert (∀ n, ¬ flagged (mkEpochCheck n false false 0)) as Hno by (by intros n [|]).
  destruct (GetBlobsByEpoch network (rec_Epoch e) (healthy t)) as [[[|rec recs]|er|p] c]; [| | |done];
    cbn -[Health.check_records]; [naive_solver| |naive_solver].
  destruct (check_records_total e (rec :: recs)) as (r & Hr & _). rewrite Hr. cbn. by apply check_records_flagged.
Qed.

Lemma any_bad_elem results e : e ∈ any_bad results ↔ ∃ r, r ∈ results ∧ er1_epoch r = e ∧ flagged r.
Proof. unfold any_bad, flagged. rewrite list_elem_of_fmap. setoid_rewrite list_elem_of_filter. naive_solver. Qed.

(** C38. Tier 1 of the health check is exact: in whatever order its workers
    take the epochs, the report fails if it failed before or some epoch's rows
    do not rebuild the CIDs that are stored for it, and not otherwise; the
    epochs to re-fetch are exactly those. *)
Theorem runTier1_exact t epochs order rep :
  0 ≤ samples → (∀ n, order n ≡ₚ seq 0 n) →
  GetAllEpochs network (healthy t) = (Ok epochs, healthy t) →
  ∃ rep', runTier1 network samples slotsPerEpoch hamtThreshold order rep (healthy t) = (Ok rep', healthy t) ∧
    (worst rep' = statusFail ↔ worst rep = statusFail ∨ ∃ e, e ∈ epochs ∧ ¬ intact t e) ∧
    ∀ n, n ∈ hr_backfillEpochs rep' ↔ n ∈ hr_backfillEpochs rep ∨ ∃ e, e ∈ epochs ∧ rec_Epoch e = n ∧ ¬ intact t e.
Proof.
  intros Hs Ho Hg. unfold runTier1. rewrite bind_eq. unfold attempt. rewrite Hg, bind_eq.
  rewrite check_epochs_all by apply Ho. unfold lift.
  destruct (tier1_report_failing (verdict t <$> epochs) rep Hs) as (rep' & -> & Hf & Hb).
  exists rep'. split; [done|]. setoid_rewrite <- verdict_flagged. split.
  - rewrite !worst_fail, Hf, Exists_exists. setoid_rewrite list_elem_of_fmap. unfold flagged. naive_solver.
  - intros n. rewrite Hb, elem_of_app, any_bad_elem. setoid_rewrite list_elem_of_fmap.
    assert (∀ e, er1_epoch (verdict t e) = rec_Epoch e) as He by (intros e; apply check_epoch_healthy). naive_solver.
Qed.

Lemma saved_epoch_rebuilds e gt sps blobs t res size bs' :
  let results := blob_result <$> blobs in
  0 ≤ e < two63 → NoDup (bi_Commitment <$> blobs) → Forall blob_fits blobs →
  Forall (λ b, bi_Epoch b = e ∧ blob_size b = str_len (bi_Data b)) blobs →
  occs_distinct (zip_with occ_of blobs results) → fresh e (bi_Commitment <$> blobs) t →
  BuildEpochNode (mkEpochInput e (EpochToFirstSlot e slotsPerEpoch) blobs) results network hamtThreshold
    MemBlockstore.NewMemBlockstore = (Ok res, bs') →
  intact (saved_blobs network e blobs results gt sps t) (mkEpochRecord e (cid_String (er_CID res)) size).
Proof.
  cbv zeta. intros He Hnd Hfit Hb Hd Hf Hn. unfold intact. cbn [rec_Epoch].
  destruct (reload_rebuilds network e gt sps slotsPerEpoch hamtThreshold blobs t He Hnd Hfit Hb Hd Hf)
    as (rows & inp & rs & Hg & Hr & Hnode & Hm & Hc & _).
  rewrite Hg. cbn [fst]. destruct rows as [|rec recs]; [done|]. exists inp, rs. split_and!; [done| |].
  - clear -Hm Hc. revert Hm Hc. generalize (ei_Blobs inp) as bs, (rec :: recs) as rows. intros bs rows Hm.
    revert rows. induction Hm as [|b r bs rs Hb _ IH]; intros rows Hc; [by apply Forall2_nil_inv_r in Hc as ->|].
    apply Forall2_cons_inv_r in Hc as (row & rows' & Hx & Hc & ->). cbn. constructor; [|auto].
    cbn. exists (br_MetaCID r). by rewrite (Hb _ _ mem_accepts).
  - exists res. rewrite Hnode. by rewrite Hn.
Qed.

(** The health check raises no false alarm on what the generator saved: an
    epoch whose blobs were processed and saved, and whose row names the CID
    BuildEpochNode gave, is intact, whatever else the database holds. *)
Theorem saved_epoch_intact e gt sps blobs t res size bs' :
  let results := blob_result <$> blobs in
  0 ≤ e < two63 → NoDup (bi_Commitment <$> blobs) → Forall blob_fits blobs →
  Forall (λ b, bi_Epoch b = e ∧ blob_size b = str_len (bi_Data b)) blobs →
  occs_distinct (zip_with occ_of blobs results) → fresh e (bi_Commitment <$> blobs) t →
  BuildEpochNode (mkEpochInput e (EpochToFirstSlot e slotsPerEpoch) blobs) results network hamtThreshold
    MemBlockstore.NewMemBlockstore = (Ok res, bs') →
  intact (saved_blobs network e blobs results gt sps t) (mkEpochRecord e (cid_String (er_CID res)) size).
Proof. apply saved_epoch_rebuilds. Qed.
End Tier1Facts.


(** ** The properties at concrete inputs *)

(** Epoch 10 with two blobs, saved with its CID. *)
Definition demo_results10 : list BlobResult := blob_result <$> demo_inputs.
Definition demo_saved : tables := saved_blobs "mainnet" 10 demo_inputs demo_results10 0 12 tables_empty.
Definition demo_root : outcome EpochResult * MemBlockstore.t :=
  BuildEpochNode (mkEpochInput 10 320 demo_inputs) demo_results10 "mainnet" 1000 MemBlockstore.NewMemBlockstore.
Definition demo_root_res : EpochResult := match fst demo_root with Ok r => r | _ => EpochResult_zero end.

(** The row of epoch 10 names [cid]. *)
Definition with_root (cid : string) : tables :=
  mkTables {[ 10 := mkEpochRow "mainnet" 320 None cid "" 2 2 ]} (ipld_blobs demo_saved) ∅.

(** The hypotheses of a saved epoch hold of the demo. *)
Lemma demo_saved_ok :
  NoDup (bi_Commitment <$> demo_inputs) ∧ Forall blob_fits demo_inputs ∧
  Forall (λ b, bi_Epoch b = 10 ∧ blob_size b = str_len (bi_Data b)) demo_inputs ∧
  occs_distinct (zip_with occ_of demo_inputs (blob_result <$> demo_inputs)) ∧
  fresh 10 (bi_Commitment <$> demo_inputs) tables_empty.
Proof.
  split_and!.
  - apply (bool_decide_unpack _). vm_compute. done.
  - repeat constructor; cbn; unfold two63; lia.
  - repeat constructor; done.
  - intros x y Hx%list_elem_of_In Hy%list_elem_of_In. cbn [demo_inputs fmap list_fmap zip_with In] in Hx, Hy.
    destruct Hx as [<-|[<-|[]]], Hy as [<-|[<-|[]]]; cbn; congruence.
  - done.
Qed.

Lemma saved_epoch_intact_witness :
  intact "mainnet" 32 1000 demo_saved (mkEpochRecord 10 (cid_String (er_CID demo_root_res)) 2).
Proof.
  destruct demo_saved_ok as (H1 & H2 & H3 & H4 & H5).
  apply (saved_epoch_intact "mainnet" 32 1000 10 0 12 demo_inputs tables_empty demo_root_res 2 (snd demo_root));
    [unfold two63; lia|exact H1|exact H2|exact H3|exact H4|exact H5|vm_compute; reflexivity].
Defined.

Lemma runTier1_exact_witness : ∃ epochs rep',
  GetAllEpochs "mainnet" (healthy (with_root "corrupt")) = (Ok epochs, healthy (with_root "corrupt")) ∧
  runTier1 "mainnet" 10 32 1000 (seq 0) report_zero (healthy (with_root "corrupt")) =
    (Ok rep', healthy (with_root "corrupt")) ∧
  (worst rep' = statusFail ↔ worst report_zero = statusFail ∨
    ∃ e, e ∈ epochs ∧ ¬ intact "mainnet" 32 1000 (with_root "corrupt") e).
Proof.
  exists [mkEpochRecord 10 "corrupt" 2].
  assert (GetAllEpochs "mainnet" (healthy (with_root "corrupt")) =
    (Ok [mkEpochRecord 10 "corrupt" 2], healthy (with_root "corrupt"))) as Hg by (vm_compute; reflexivity).
  destruct (runTier1_exact "mainnet" 10 32 1000 (with_root "corrupt") [mkEpochRecord 10 "corrupt" 2] (seq 0) report_zero
    ltac:(lia) ltac:(done) Hg) as (rep' & Hr & Hw & _).
  exists rep'. split; [exact Hg|]. split; [exact Hr|exact Hw].
Defined.

(** One blob, so that the check of tier 0 on blob indices has nothing to say. *)
Definition one_blob : tables :=
  let blobs := take 1 demo_inputs in
  mkTables {[ 10 := mkEpochRow "mainnet" 320 None "corrupt" "" 1 1 ]}
    (ipld_blobs (saved_blobs "mainnet" 10 blobs (blob_result <$> blobs) 0 12 tables_empty)) ∅.

