(* ===== verification/CarFacts.v ===== *)
(** * CarFacts: what the export commands write

    A command that exits with 0 has written an archive of exactly the blocks
    the database names, as the node holds them; when an exported archive is
    self-contained, and when it is not. *)

From S2P Require Import Prelude GoStd Types Ipld Store IpldModel Blob Epoch Network Db StateFile Beacon Ipfs Car Persist.
From S2P Require Config.

(** ** Queries *)

Section Queries.
Context {R : GoRuntime} {P : Postgres} (network : string).

Lemma GetAllEpochs_Ok c records c' : GetAllEpochs network c = (Ok records, c') →
  c_tables c' = c_tables c ∧ NoDup (rec_Epoch <$> records) ∧
  (∀ r, r ∈ records → 0 ≤ rec_Epoch r) ∧
  ∀ e s z, mkEpochRecord e s z ∈ records ↔
    ∃ row, network_rows network (c_tables c) !! e = Some row ∧ ep_cid row = s ∧ ep_size_bytes row = z.
Proof.
  intros [Hq Hc]%db_query_Ok. apply mapM_out_Ok_inv in Hq.
  pose proof (epochs_ordered_perm network (c_tables c)) as Hp.
  assert (Forall2 (λ (e : Z * epoch_row) y,
    y = mkEpochRecord (fst e) (ep_cid (snd e)) (ep_size_bytes (snd e)) ∧ 0 ≤ fst e) (epochs_ordered network (c_tables c)) records) as Hf.
  { eapply Forall2_impl; [exact Hq|]. intros x y. unfold scan_uint64. cbn.
    destruct (Z.leb_spec 0 (fst x)); [|done]. by intros [= <-]. }
  assert (records = (λ e : Z * epoch_row, mkEpochRecord (fst e) (ep_cid (snd e)) (ep_size_bytes (snd e))) <$>
            epochs_ordered network (c_tables c)) as ->.
  { clear -Hf. induction Hf as [|x y l l' [-> _] _ IH]; [done|]. cbn. by rewrite IH. }
  split_and!; [done| | |].
  - rewrite <- list_fmap_compose. change (rec_Epoch ∘ _) with (@fst Z epoch_row). rewrite Hp.
    apply NoDup_fst_map_to_list.
  - intros r (x & -> & Hx)%list_elem_of_fmap. cbn. apply list_elem_of_lookup in Hx as [i Hx].
    destruct (Forall2_lookup_l _ _ _ _ _ Hf Hx) as (y & _ & _ & H0). done.
  - intros e s z. rewrite list_elem_of_fmap. split.
    + intros ([e' row] & [= -> -> ->] & Hx). rewrite Hp, elem_of_map_to_list in Hx. eauto.
    + intros (row & Hr & <- & <-). exists (e, row). split; [done|]. by rewrite Hp, elem_of_map_to_list.
Qed.

End Queries.

(** ** Fetching *)

Section Fetch.
Context {I : Ipld} {L : IpldLaws I} {R : GoRuntime} {N : Type} {K : Kubo N} {KL : KuboLaws N}.

(** The store holds blocks the node has. *)
Definition fetched (n : N) (bs : MemBlockstore.t) : Prop :=
  ∀ k b, MemBlockstore.blocks bs !! k = Some b → blk_Cid b = k ∧ kubo_blocks n k = Some (blk_RawData b).

Definition keys_of (bs : MemBlockstore.t) : gset cid := dom (MemBlockstore.blocks bs).

Lemma fetched_empty n : fetched n MemBlockstore.NewMemBlockstore.
Proof. intros k b H. cbn in H. by rewrite lookup_empty in H. Qed.

Lemma keys_of_empty : keys_of MemBlockstore.NewMemBlockstore = ∅.
Proof. apply dom_empty_L. Qed.

Lemma elem_of_keys bs c : c ∈ keys_of bs ↔ is_Some (MemBlockstore.blocks bs !! c).
Proof. apply elem_of_dom. Qed.

Lemma GetBlocks_Ok cids : ∀ n bs u n' bs', GetBlocks cids (n, bs) = (Ok u, (n', bs')) → fetched n bs →
  grows n n' ∧ fetched n' bs' ∧ keys_of bs' = list_to_set cids ∪ keys_of bs.
Proof.
  induction cids as [|c cids IH]; intros n bs u n' bs' Hg Hf; cbn [GetBlocks] in Hg.
  { injection Hg as _ <- <-. split_and!; [reflexivity|done|set_solver]. }
  apply bind_Ok in Hg as (blk & [n1 bs1] & H1%wrapf_Ok & Hg).
  unfold zoom in H1. cbn [fst snd] in H1. destruct (GetBlock c n) as [o n1'] eqn:Hb. injection H1 as -> <- <-.
  unfold GetBlock in Hb. apply bind_Ok in Hb as (data & n2 & Hr & [Hb ->]%lift_Ok).
  rewrite NewBlockWithCid_ok in Hb. injection Hb as <-.
  assert (grows n n2 ∧ kubo_blocks n2 c = Some data) as [Hgr Hk].
  { pose proof (rpc_grows "block/get" (ReqBlockGet (cid_String c)) n) as Hgr. rewrite Hr in Hgr. split; [exact Hgr|].
    unfold rpc in Hr. destruct (kubo_rpc _ n) as [[e|st body] m] eqn:Hq; [done|].
    destruct (Z.eqb_spec st StatusOK) as [->|]; [|done]. injection Hr as <- <-. by eapply kubo_get_ok. }
  apply bind_Ok in Hg as (u1 & [n3 bs3] & H2%wrapf_Ok & Hg). injection H2 as _ <- <-.
  destruct (IH _ _ _ _ _ Hg) as (Hg2 & Hf2 & Hk2).
  { intros k b. cbn [MemBlockstore.blocks blk_Cid]. destruct (decide (k = c)) as [->|Hne].
    - rewrite lookup_insert_eq. by intros [= <-].
    - rewrite lookup_insert_ne by done. intros [H1 H2]%Hf. auto. }
  split_and!; [by etransitivity|done|]. rewrite Hk2. unfold keys_of. cbn. rewrite dom_insert_L. set_solver.
Qed.
End Fetch.

(** ** Archives of content-addressed stores *)

Section Archives.
Context {I : Ipld} {L : IpldLaws I} {R : GoRuntime} {G : GoCar} {GL : GoCarLaws G}.

(** Every block is filed under the CID of its bytes. *)
Definition store_ok (bs : MemBlockstore.t) : Prop :=
  ∀ k b, MemBlockstore.blocks bs !! k = Some b → blk_Cid b = k ∧ certified b.

Lemma elem_of_All (bs : MemBlockstore.t) b : b ∈ MemBlockstore.All bs ↔ ∃ k, MemBlockstore.blocks bs !! k = Some b.
Proof.
  unfold MemBlockstore.All. rewrite map_range_perm, list_elem_of_fmap. split.
  - intros ([k b'] & -> & Hk%elem_of_map_to_list). eauto.
  - intros [k Hk]. exists (k, b). by rewrite elem_of_map_to_list.
Qed.

Lemma store_ok_no_identity bs : store_ok bs → no_identity bs.
Proof.
  intros Hok. apply Forall_forall. intros b [k Hk]%elem_of_All. destruct (Hok _ _ Hk) as [_ (lp & _ & Hm & ->)].
  cbn. by rewrite Hm.
Qed.

Lemma certified_hash b1 b2 : certified b1 → certified b2 → cid_Hash (blk_Cid b1) = cid_Hash (blk_Cid b2) →
  blk_RawData b1 = blk_RawData b2 ∨ digest_collision.
Proof.
  intros (lp1 & _ & Hm1 & ->) (lp2 & _ & Hm2 & ->). unfold cid_Hash. cbn. rewrite Hm1, Hm2. intros [= _ Hd].
  destruct (decide (blk_RawData b1 = blk_RawData b2)) as [|Hne]; [by left|]. right. by exists (blk_RawData b1), (blk_RawData b2).
Qed.

(** Every block of the store reads back from its archive. *)
Lemma archive_exact root bs data k b : store_ok bs → archive_of root bs data →
  MemBlockstore.blocks bs !! k = Some b →
  ∃ d, archive_get data k = Some d ∧ (d = blk_RawData b ∨ digest_collision).
Proof.
  intros Hok (_ & Hhas & Hfrom) Hk. destruct (Hok _ _ Hk) as [<- Hb].
  destruct (Hhas b) as [d Hd]; [apply elem_of_All; eauto|]. exists d. split; [done|].
  destruct (Hfrom _ _ Hd) as (b' & [k' Hk']%elem_of_All & Hh & ->). destruct (Hok _ _ Hk') as [_ Hb'].
  destruct (certified_hash b b') as [->|]; auto.
Qed.
End Archives.

(** ** export-car *)

Section ExportCar.
Context {I : Ipld} {L : IpldLaws I} {R : GoRuntime} {G : GoCar} {GL : GoCarLaws G} {P : Postgres}.
Context {N : Type} {K : Kubo N} {KL : KuboLaws N} (cfg : Config.Config) (connect : option error).

Abbreviation network := (Config.nc_Name (Config.c_Network cfg)).
Abbreviation tables_of w := (c_tables (cw_db w)).
Abbreviation files w := (fs_files (cw_fs w)).

(** The node keeps every block under the CID of its bytes. *)
Definition addressed (n : N) : Prop := ∀ c d, kubo_blocks n c = Some d → certified (mkBlock c d).

Lemma fetched_store_ok n bs : fetched n bs → addressed n → store_ok bs.
Proof. intros Hf Ha k b Hk. destruct (Hf _ _ Hk) as [Hc Hn]. split; [done|]. subst k. destruct b. by apply Ha. Qed.

Definition export_path (outPath deflt : string) : string := if bool_decide (outPath = "") then deflt else outPath.

(** The CIDs a row records, as the command decodes them. *)
Definition data_of (row : BlobRecord) : cid := decode_or_undef (rb_DataCID row).
Definition meta_of (row : BlobRecord) : cid := decode_or_undef (rb_MetaCID row).

(** The blocks of an epoch: its node, and the data and metadata of its blobs. *)
Definition epoch_blocks (root : cid) (rows : list BlobRecord) (c : cid) : Prop :=
  c = root ∨ ∃ row, row ∈ rows ∧ (c = data_of row ∨ c = meta_of row).

Lemma elem_of_epoch_cids root rows c : c ∈ epoch_cids root rows ↔ epoch_blocks root rows c.
Proof.
  unfold epoch_cids, epoch_blocks. rewrite elem_of_cons, elem_of_concat. apply or_iff_compat_l. split.
  - intros (l & (row & -> & Hrow)%list_elem_of_fmap & Hc). exists row. set_solver.
  - intros (row & Hrow & Hc). exists [data_of row; meta_of row]. split; [|set_solver].
    apply list_elem_of_fmap. eauto.
Qed.

(** The archive has exactly the blocks [S], as the node [n] holds them. *)
Definition archive_from (n : N) (root : cid) (S : cid → Prop) (data : string) : Prop :=
  (∃ r, NewReader data = Ok r ∧ Roots r = Ok [root]) ∧
  (∀ c, S c → ∃ d, archive_get data c = Some d ∧ (kubo_blocks n c = Some d ∨ digest_collision)) ∧
  ∀ c d, archive_get data c = Some d → ∃ c', S c' ∧ cid_Hash c = cid_Hash c'.

Lemma fetched_archive n bs root (S : cid → Prop) data : fetched n bs → addressed n → (∀ c, c ∈ keys_of bs ↔ S c) →
  archive_of root bs data → archive_from n root S data.
Proof.
  intros Hf Ha Hk Har. pose proof (fetched_store_ok _ _ Hf Ha) as Hok. split_and!; [apply Har|..].
  - intros c Hc. assert (c ∈ keys_of bs) as [b Hb]%elem_of_keys by (by apply Hk).
    destruct (archive_exact _ _ _ _ _ Hok Har Hb) as (d & Hd & Heq). exists d. split; [done|].
    destruct Heq as [->|]; [left|by right]. by apply Hf.
  - intros c d Hd. destruct Har as (_ & _ & Hfrom). destruct (Hfrom _ _ Hd) as (b & [k Hb]%elem_of_All & Hh & _).
    destruct (Hf _ _ Hb) as [<- _]. exists (blk_Cid b). split; [|done].
    apply Hk, elem_of_keys. eauto.
Qed.

Lemma epochCIDStr_found records e : epochCIDStr records e ≠ "" →
  ∃ z, mkEpochRecord e (epochCIDStr records e) z ∈ records.
Proof.
  unfold epochCIDStr. destruct (list_find _ records) as [[i r]|] eqn:Hf; [|done]. cbn. intros _.
  apply list_find_Some in Hf as (Hi & He & _). apply list_elem_of_lookup_2 in Hi. subst e. exists (rec_SizeBytes r).
  by destruct r.
Qed.

Lemma in_db_Ok {A} (m : Go Db.Client A) (w w' : CarWorld N) a : in_db m w = (Ok a, w') →
  m (cw_db w) = (Ok a, cw_db w') ∧ cw_node w' = cw_node w ∧ cw_fs w' = cw_fs w.
Proof. unfold in_db, zoom. destruct (m (cw_db w)) as [o d]. by intros [= -> <-]. Qed.

Lemma fetch_Ok bs cids (w w' : CarWorld N) bs' : fetch bs cids w = (Ok bs', w') → fetched (cw_node w) bs →
  cw_db w' = cw_db w ∧ cw_fs w' = cw_fs w ∧ grows (cw_node w) (cw_node w') ∧ fetched (cw_node w') bs' ∧
  keys_of bs' = list_to_set cids ∪ keys_of bs.
Proof.
  unfold fetch. destruct (GetBlocks cids (cw_node w, bs)) as [[u|e|p] [n b]] eqn:Hg; [|done|done].
  intros [= <- <-] Hf. destruct (GetBlocks_Ok _ _ _ _ _ _ Hg Hf) as (? & ? & ?). done.
Qed.

Lemma run_command_0 (m : Go (CarWorld N) unit) w w' : run_command m w = (Ok 0, w') → m w = (Ok tt, w').
Proof.
  unfold run_command, attempt, mbind, go_bind. destruct (m w) as [[[]|e|p] w1]; [|done|done]. by intros [= <-].
Qed.

Lemma require_Ok b msg (w w' : CarWorld N) u : require b msg w = (Ok u, w') → b = true ∧ w' = w.
Proof. unfold require. by destruct b; intros [= <-]. Qed.

Lemma open_db_Ok (w w' : CarWorld N) u : open_db connect w = (Ok u, w') → w' = w.
Proof. unfold open_db. by destruct connect; intros [= <-]. Qed.

Lemma in_fs_node {A} (m : Go FS A) (w : CarWorld N) o w' : in_fs m w = (o, w') → cw_node w' = cw_node w.
Proof. unfold in_fs, zoom. destruct (m (cw_fs w)). by intros [= _ <-]. Qed.

Lemma in_fs_export bs root path (w w' : CarWorld N) u :
  in_fs (ExportRangeCAR bs root path) w = (Ok u, w') → store_ok bs → files w !! (path +:+ ".tmp") = None →
  cw_db w' = cw_db w ∧ ∃ data, files w' !! path = Some data ∧ archive_of root bs data.
Proof.
  unfold in_fs, zoom. intros Hrun Hok Htmp.
  pose proof (ExportRangeCAR_written bs root path (cw_fs w) (store_ok_no_identity _ Hok) Htmp) as Hx.
  destruct (ExportRangeCAR bs root path (cw_fs w)) as [o f]. injection Hrun as -> <-. split; [done|exact Hx].
Qed.

Lemma cmdExportCAR_spec e outPath w w' :
  let path := export_path outPath (EpochCARPath (Config.st_CARDir (Config.c_Storage cfg)) network e) in
  files w !! (path +:+ ".tmp") = None → addressed (cw_node w') →
  cmdExportCAR cfg connect e outPath w = (Ok 0, w') →
  tables_of w' = tables_of w ∧
  ∃ row root rows data,
    network_rows network (tables_of w) !! e = Some row ∧ cid_Decode (ep_cid row) = Ok root ∧
    epoch_records network e (tables_of w) = Ok rows ∧
    files w' !! path = Some data ∧ archive_from (cw_node w') root (epoch_blocks root rows) data.
Proof.
  intros path Htmp Ha Hrun%run_command_0. unfold export_car in Hrun.
  apply bind_Ok in Hrun as (? & ? & [_ ->]%require_Ok & Hrun).
  apply bind_Ok in Hrun as (? & ? & [_ ->]%require_Ok & Hrun).
  apply bind_Ok in Hrun as (? & ? & ->%open_db_Ok & Hrun).
  apply bind_Ok in Hrun as (records & w1 & (Hq & Hn1 & Hf1)%in_db_Ok & Hrun).
  apply GetAllEpochs_Ok in Hq as (Ht1 & _ & _ & Hrec).
  apply bind_Ok in Hrun as (? & ? & [Hs ->]%require_Ok & Hrun).
  apply negb_true_iff, bool_decide_eq_false in Hs.
  destruct (epochCIDStr_found _ _ Hs) as (z & (row & Hrow & Hc & _)%Hrec).
  apply bind_Ok in Hrun as (root & ? & [Hroot ->]%lift_Ok & Hrun). rewrite <- Hc in Hroot.
  apply bind_Ok in Hrun as (rows & w2 & (Hq & Hn2 & Hf2)%in_db_Ok & Hrun).
  apply GetBlobsByEpoch_Ok in Hq as [Hrows Ht2].
  apply bind_Ok in Hrun as (bs & w3 & Hfetch & Hrun).
  apply fetch_Ok in Hfetch as (Hd3 & Hf3 & _ & Hfe & Hk); [|apply fetched_empty].
  change (if bool_decide (outPath = "") then _ else outPath) with path in Hrun.
  pose proof (in_fs_node _ _ _ _ Hrun) as Hn. rewrite Hn in Ha.
  apply in_fs_export in Hrun as (Hd & data & Hfile & Har); [|by eapply fetched_store_ok|by rewrite Hf3, Hf2, Hf1].
  split; [congruence|]. exists row, root, rows, data. split_and!; [done|done|congruence|done|].
  rewrite Hn. apply (fetched_archive _ bs); [done|done| |done].
  intros c. rewrite <- elem_of_epoch_cids, Hk, keys_of_empty, elem_of_union, elem_of_list_to_set. set_solver.
Qed.

(** C28. What export-car writes when it exits with 0: an archive whose root is
    the CID the database records for the epoch and whose blocks are exactly the
    epoch's node and the data and metadata of every blob the database records
    for it, each with the bytes the node holds (or SHA-256 collides); the
    database is left alone. *)
Theorem cmdExportCAR_complete e outPath w w' :
  let path := export_path outPath (EpochCARPath (Config.st_CARDir (Config.c_Storage cfg)) network e) in
  files w !! (path +:+ ".tmp") = None → addressed (cw_node w') →
  cmdExportCAR cfg connect e outPath w = (Ok 0, w') →
  tables_of w' = tables_of w ∧
  ∃ row root rows data,
    network_rows network (tables_of w) !! e = Some row ∧ cid_Decode (ep_cid row) = Ok root ∧
    epoch_records network e (tables_of w) = Ok rows ∧
    files w' !! path = Some data ∧ archive_from (cw_node w') root (epoch_blocks root rows) data.
Proof. apply cmdExportCAR_spec. Qed.

(** ** export-car-range *)

(** The store has the blocks of each epoch. *)
Definition has_epochs (t : tables) (bs : MemBlockstore.t) (entries : list (EpochRecord * cid)) : Prop :=
  Forall (λ rc : EpochRecord * cid, ∃ rows, epoch_records network (rec_Epoch (fst rc)) t = Ok rows ∧
    ∀ k, epoch_blocks (snd rc) rows k → k ∈ keys_of bs) entries.

Lemma fetch_epochs_Ok entries : ∀ bs (w : CarWorld N) bs' w',
  fetch_epochs cfg entries bs w = (Ok bs', w') → fetched (cw_node w) bs →
  tables_of w' = tables_of w ∧ cw_fs w' = cw_fs w ∧ fetched (cw_node w') bs' ∧ keys_of bs ⊆ keys_of bs' ∧
  has_epochs (tables_of w) bs' entries.
Proof.
  induction entries as [|[r c] entries IH]; intros bs w bs' w' Hrun Hf; cbn [fetch_epochs] in Hrun.
  { injection Hrun as <- <-. split_and!; [done..|constructor]. }
  apply bind_Ok in Hrun as (rows & w1 & (Hq & Hn1 & Hf1)%in_db_Ok & Hrun).
  apply GetBlobsByEpoch_Ok in Hq as [Hrows Ht1].
  apply bind_Ok in Hrun as (bs1 & w2 & Hfetch & Hrun).
  apply fetch_Ok in Hfetch as (Hd2 & Hf2 & _ & Hfe & Hk); [|by rewrite Hn1].
  apply IH in Hrun as (Ht3 & Hf3 & Hfe3 & Hk3 & Hh); [|done].
  assert (tables_of w2 = tables_of w) as Ht2 by congruence. rewrite Ht2 in Hh, Ht3.
  split_and!; [done|congruence|done|set_solver|]. constructor; [|done].
  exists rows. split; [done|]. cbn [snd]. intros k Hin%elem_of_epoch_cids. apply Hk3. rewrite Hk.
  apply elem_of_union_l, elem_of_list_to_set, Hin.
Qed.

(** The entries are the rows of the range, each once, with defined CIDs. *)
Lemma range_entries_Ok c records c' from to entries :
  GetAllEpochs network c = (Ok records, c') → is_u64 to → range_entries_of from to records = Ok entries →
  epochs_ok (entry_result <$> entries) ∧
  ∀ e row, network_rows network (c_tables c) !! e = Some row → from ≤ e ≤ to →
    ∃ r id, (r, id) ∈ entries ∧ rec_Epoch r = e ∧ cid_Decode (ep_cid row) = Ok id.
Proof.
  intros (_ & Hnd & H0 & Hrec)%GetAllEpochs_Ok Hto Hr%mapM_out_Ok_inv.
  assert (Forall2 (λ r (y : EpochRecord * cid), fst y = r ∧ cid_Decode (rec_CID r) = Ok (snd y))
    (filter (λ r, from ≤ rec_Epoch r ≤ to) records) entries) as Hf.
  { eapply Forall2_impl; [exact Hr|]. intros r y Hy. cbn beta in Hy.
    destruct (cid_Decode (rec_CID r)) as [id| |]; cbn in Hy; by simplify_eq. }
  assert (fst <$> entries = filter (λ r, from ≤ rec_Epoch r ≤ to) records) as Hfst.
  { clear -Hf. induction Hf as [|x y l l' [<- _] _ IH]; [done|]. cbn. by rewrite IH. }
  assert (∀ y, y ∈ entries → fst y ∈ records ∧ from ≤ rec_Epoch (fst y) ≤ to ∧ cid_Decode (rec_CID (fst y)) = Ok (snd y)) as Hin.
  { intros y Hy. apply list_elem_of_lookup in Hy as [i Hi].
    destruct (Forall2_lookup_r _ _ _ _ _ Hf Hi) as (r & Hri & -> & Hd).
    apply list_elem_of_lookup_2, list_elem_of_filter in Hri as [??]. done. }
  split; [split|].
  - apply Forall_fmap, Forall_forall. intros y (Hy & Hb & _)%Hin. specialize (H0 _ Hy). unfold is_u64 in *. cbn. lia.
  - rewrite <- list_fmap_compose. change (er_Epoch ∘ entry_result) with (rec_Epoch ∘ (@fst EpochRecord cid)).
    rewrite list_fmap_compose, Hfst. by apply NoDup_fmap_filter.
  - apply Forall_fmap, Forall_forall. intros y (_ & _ & Hd)%Hin. by apply cid_Decode_defined in Hd.
  - intros e row Hrow He. assert (mkEpochRecord e (ep_cid row) (ep_size_bytes row) ∈ fst <$> entries) as Hx.
    { rewrite Hfst. apply list_elem_of_filter. split; [done|]. apply Hrec. eauto. }
    apply list_elem_of_fmap in Hx as ([r id] & Hr' & Hy). cbn in Hr'. subst r. eexists _, id. split_and!; [done..|].
    by destruct (Hin _ Hy) as (_ & _ & ?).
Qed.

(** The store after the range node is put. *)
Lemma range_store_ok n bs nd b : fetched n bs → addressed n → cbor_block nd = Ok b → store_ok (put_all [b] bs).
Proof.
  intros Hf Ha Hb k b'. cbn. destruct (decide (k = blk_Cid b)) as [->|Hne].
  - rewrite lookup_insert_eq. intros [= <-]. split; [done|by eapply cbor_block_certified].
  - rewrite lookup_insert_ne by done. by apply (fetched_store_ok n).
Qed.

(** What a range archive has of an epoch: the root leads to its CID, and its
    blocks are there as the node [n] holds them. *)
Definition epoch_exported (n : N) (t : tables) (data : string) (root : node) (e : Z) (row : epoch_row) : Prop :=
  ∃ id rows, cid_Decode (ep_cid row) = Ok id ∧ epoch_records network e t = Ok rows ∧
    node_get "epochs" root ≫= node_get (FormatUint e) = Some (NLink id) ∧
    ∀ k, epoch_blocks id rows k → ∃ d, archive_get data k = Some d ∧ (kubo_blocks n k = Some d ∨ digest_collision).

Lemma range_archive n bs nd b data k : fetched n bs → addressed n → cbor_block nd = Ok b →
  archive_of (blk_Cid b) (put_all [b] bs) data → k ∈ keys_of bs →
  ∃ d, archive_get data k = Some d ∧ (kubo_blocks n k = Some d ∨ digest_collision).
Proof.
  intros Hf Ha Hb Har [bk Hk]%elem_of_keys. pose proof (range_store_ok _ _ _ _ Hf Ha Hb) as Hok.
  destruct (Hf _ _ Hk) as [Hkc Hn].
  assert (∃ b', MemBlockstore.blocks (put_all [b] bs) !! k = Some b') as [b' Hb'].
  { cbn. destruct (decide (k = blk_Cid b)) as [Heq|Hne].
    - exists b. rewrite Heq. apply lookup_insert_eq.
    - exists bk. by rewrite lookup_insert_ne. }
  destruct (archive_exact _ _ _ _ _ Hok Har Hb') as (d & Hd & Heq). exists d. split; [done|].
  destruct Heq as [->|]; [|by right]. destruct (Hok _ _ Hb') as [Hc' Hcert].
  destruct (certified_hash b' (mkBlock k (blk_RawData bk))) as [Heq|]; [done|by apply Ha|by rewrite Hc'| |by right].
  left. by rewrite Heq.
Qed.

End ExportCar.
