(* ===== verification/CarReach.v ===== *)
(** * CarReach: when an exported archive is self-contained

    Following the links of an archive from its root: the archive export-car
    writes of an intact epoch with a plain blob index has every block that can
    be reached; that of an epoch with a sharded index misses the shards. *)

From S2P Require Import Prelude GoStd CliUtil Types Ipld Store IpldModel Blob Epoch Network Db StateFile.
From S2P Require Import Beacon ElClient Ipfs Metrics Generator Reload Health Persist HealthFacts Car CarFacts.
From S2P Require Config New.

(** ** Links *)

Fixpoint node_links (n : node) : list cid :=
  match n with
  | NLink c => [c]
  | NList l => concat (map node_links l)
  | NMap es => concat (map (λ e, node_links (snd e)) es)
  | _ => []
  end.

Lemma elem_of_map_links es c : c ∈ node_links (NMap es) ↔ ∃ k v, (k, v) ∈ es ∧ c ∈ node_links v.
Proof.
  cbn. rewrite elem_of_concat. split.
  - intros (l & ([k v] & -> & Hin)%list_elem_of_fmap & Hc). eauto.
  - intros (k & v & Hin & Hc). exists (node_links v). split; [|done]. apply list_elem_of_fmap. by exists (k, v).
Qed.

Lemma elem_of_list_links l c : c ∈ node_links (NList l) ↔ ∃ v, v ∈ l ∧ c ∈ node_links v.
Proof. cbn. rewrite elem_of_concat. setoid_rewrite list_elem_of_fmap. naive_solver. Qed.

(** Canonical order keeps the links. *)
Lemma canon_node_links n c : c ∈ node_links (canon n) → c ∈ node_links n.
Proof.
  induction n as [| | | |l IH|es IH] using node_ind'; try done.
  - cbn [canon]. rewrite !elem_of_list_links. intros (v & (v' & -> & Hv)%list_elem_of_fmap & Hc).
    rewrite Forall_forall in IH. eauto.
  - rewrite canon_NMap, !elem_of_map_links. intros (k & v & Hin & Hc).
    rewrite canon_entries_perm in Hin. apply list_elem_of_fmap in Hin as ([k' v'] & [= -> ->] & Hin).
    rewrite Forall_forall in IH. specialize (IH _ Hin Hc). eauto.
Qed.

Section Reach.
Context {I : Ipld} {G : GoCar}.

(** The node of a block, decoded by the codec of its CID. *)
Definition block_node (c : cid) (d : string) : outcome node := dec ← ls_decoder c; dec d.

Inductive reaches (data : string) : cid → cid → Prop :=
  | reach_here c : reaches data c c
  | reach_link c d n l c' :
      archive_get data c = Some d → block_node c d = Ok n → l ∈ node_links n → reaches data l c' →
      reaches data c c'.

(** Every block a reader is led to is there. *)
Definition self_contained (data : string) (root : cid) : Prop :=
  ∀ c, reaches data root c → is_Some (archive_get data c) ∨ digest_collision.

(** A set of CIDs that has the root, all in the archive, and closed under links. *)
Lemma self_contained_by data root (S : cid → Prop) :
  S root → (∀ c, S c → is_Some (archive_get data c)) →
  (∀ c d n l, S c → archive_get data c = Some d → block_node c d = Ok n → l ∈ node_links n → S l ∨ digest_collision) →
  self_contained data root.
Proof.
  intros Hroot Hin Hcl c Hr. induction Hr as [c|c d n l c' Hd Hn Hl Hr IH]; [by left; apply Hin|].
  destruct (Hcl _ _ _ _ Hroot Hd Hn Hl) as [Hs|]; [auto|by right].
Qed.
End Reach.

(** ** The archive of an intact epoch *)

Section Intact.
Context {I : Ipld} {L : IpldLaws I} {R : GoRuntime} {G : GoCar} {GL : GoCarLaws G} {P : Postgres}.
Context {N : Type} {K : Kubo N} {KL : KuboLaws N} (slotsPerEpoch hamtThreshold : Z).

(** A block of the archive that the node holds and that is [b]'s CID decodes as [b]'s node. *)
Lemma archived_node (n : N) data b nd d m : addressed n → node_wf nd = true → cbor_block nd = Ok b →
  archive_get data (blk_Cid b) = Some d → (kubo_blocks n (blk_Cid b) = Some d ∨ digest_collision) →
  block_node (blk_Cid b) d = Ok m → m = canon nd ∨ digest_collision.
Proof.
  intros Ha Hw Hb Hd [Hk|]; [|by right]. intros Hm.
  destruct (certified_hash (mkBlock (blk_Cid b) d) b) as [Heq|]; [by apply Ha|by eapply cbor_block_certified|done| |by right].
  cbn in Heq. subst d. left. unfold block_node, ls_decoder in Hm. rewrite (cbor_block_codec _ _ Hb) in Hm. cbn in Hm.
  rewrite (cbor_block_decode _ _ Hw Hb) in Hm. congruence.
Qed.

Lemma map_index_links inp results network groups c :
  groups_spec (zip_with occ_of (ei_Blobs inp) results) groups →
  c ∈ node_links (epoch_node inp results network (NMap (map_index_entries groups))) →
  ∃ r, r ∈ results ∧ c = br_MetaCID r.
Proof.
  intros Hg. set (entries := NMap (appendGroupEntry <$> groups)).
  assert (node_links (epoch_node inp results network (NMap (map_index_entries groups))) = node_links entries) as ->.
  { unfold epoch_node, epoch_entries, map_index_entries. fold entries. cbn -[entries node_links]. cbn [node_links map snd concat].
    by rewrite !app_nil_r. }
  intros Hc. unfold entries in Hc.
  apply elem_of_map_links in Hc as (vh & v & (g & [= -> ->] & Hgr)%list_elem_of_fmap & Hc).
  apply elem_of_list_links in Hc as (v & (m & -> & Hm)%list_elem_of_fmap & ->%list_elem_of_singleton).
  assert (m ∈ concat (bg_metaCIDs <$> groups)) as Hx.
  { apply elem_of_concat. exists (bg_metaCIDs g). split; [|done]. apply list_elem_of_fmap. eauto. }
  rewrite (groups_complete _ _ Hg) in Hx. apply list_elem_of_fmap in Hx as (o & -> & Ho).
  apply elem_of_lookup_zip_with in Ho as (i & b & r & -> & _ & Hr). exists r. split; [|done].
  by eapply list_elem_of_lookup_2.
Qed.

(** The results a reconstruction gives, against the rows. *)
Lemma Reconstruct_rows epoch rows inp results :
  ReconstructFromDB epoch rows slotsPerEpoch = Ok (inp, results) →
  Forall2 (λ row r, br_DataCID r = data_of row ∧ br_MetaCID r = meta_of row) rows results.
Proof.
  unfold ReconstructFromDB. destruct (mapM_out record_result rows) as [rs| |] eqn:Hm; cbn; [|done|done].
  intros [= _ <-]. apply mapM_out_Ok_inv in Hm. eapply Forall2_impl; [exact Hm|]. intros row r.
  unfold record_result, data_of, meta_of, decode_or_undef, wrap.
  destruct (cid_Decode (rb_DataCID row)); cbn; [|done|done]. destruct (cid_Decode (rb_MetaCID row)); cbn; [|done|done].
  by intros [= <-].
Qed.

(** A metadata block links to its blob's data and nothing else. *)
Lemma metadata_node_links inp c l : l ∈ node_links (NMap (metadata_entries inp c)) → l = c.
Proof. cbn. set_solver. Qed.

Lemma rebuilt_root network er rows inp results root :
  ReconstructFromDB (rec_Epoch er) rows slotsPerEpoch = Ok (inp, results) →
  (∃ res, fst (BuildEpochNode inp results network hamtThreshold MemBlockstore.NewMemBlockstore) = Ok res ∧
    cid_String (er_CID res) = rec_CID er) →
  cid_Decode (rec_CID er) = Ok root → Z.of_nat (length rows) < hamtThreshold →
  ∃ b groups, blk_Cid b = root ∧ groups_spec (zip_with occ_of (ei_Blobs inp) results) groups ∧
    node_wf (epoch_node inp results network (NMap (map_index_entries groups))) = true ∧
    cbor_block (epoch_node inp results network (NMap (map_index_entries groups))) = Ok b.
Proof.
  intros Hr (res & Hres & Hs) Hroot Hlen. apply Reconstruct_defined in Hr as (Hb & Hl & Hd).
  destruct (BuildEpochNode_runs inp results network hamtThreshold) as (ix & blks & eb & Hix & Hw & _ & Heb & Hrun);
    [lia|eapply Forall_impl; [exact Hd|]; naive_solver|].
  rewrite (Hrun _ _ _ MemBlockstore.NewMemBlockstore) in Hres. injection Hres as <-. cbn [er_CID] in Hs.
  assert ((hamtThreshold <=? Z.of_nat (length results)) = false) as Hf by (apply Z.leb_gt; lia). rewrite Hf in Hix.
  inversion Hix; subst ix. exists eb, (groups_of (zip_with occ_of (ei_Blobs inp) results)). split_and!.
  - rewrite <- Hs, cid_Decode_String in Hroot by by eapply cbor_block_defined. congruence.
  - apply groups_of_spec.
  - by rewrite epoch_node_wf.
  - done.
Qed.

(** The metadata block of a row that rebuilds. *)
Lemma rebuilt_meta b r row c : br_DataCID r ≠ cid_Undef →
  fst (StoreBlobMetadata b (br_DataCID r) MemBlockstore.NewMemBlockstore) = Ok c → cid_String c = rb_MetaCID row →
  ∃ mb, cbor_block (NMap (metadata_entries b (br_DataCID r))) = Ok mb ∧ meta_of row = blk_Cid mb.
Proof.
  intros Hd Hc Hs. destruct (cbor_block_ok (NMap (metadata_entries b (br_DataCID r)))) as [mb Hmb];
    [apply metadata_wf|by apply metadata_links|]. exists mb. split; [done|].
  rewrite (store_metadata _ _ mb Hmb) in Hc. injection Hc as <-.
  unfold meta_of, decode_or_undef. by rewrite <- Hs, cid_Decode_String by by eapply cbor_block_defined.
Qed.

Lemma intact_archive_closed network er rows root (n : N) data :
  rebuilds network slotsPerEpoch hamtThreshold er rows → cid_Decode (rec_CID er) = Ok root →
  Z.of_nat (length rows) < hamtThreshold → Forall (λ row, cid_Codec (data_of row) = mc_Raw) rows →
  addressed n → archive_from n root (epoch_blocks root rows) data → self_contained data root.
Proof.
  intros (inp & results & Hrec & Hmeta & Hres) Hroot Hlen Hraw Ha (_ & Hhas & _).
  destruct (rebuilt_root _ _ _ _ _ _ Hrec Hres Hroot Hlen) as (eb & groups & Heb & Hg & Hw & Hb).
  pose proof (Reconstruct_rows _ _ _ _ Hrec) as Hrows. apply Reconstruct_defined in Hrec as (Hlb & Hlr & Hdef).
  apply (self_contained_by data root (epoch_blocks root rows)).
  { by left. }
  { intros c (d & Hd & _)%Hhas. eauto. }
  intros c d nd l Hc Hd Hn Hl. destruct (Hhas _ Hc) as (d' & Hd' & Hk).
  assert (d' = d) as -> by congruence. destruct Hc as [->|(row & Hrow & [->| ->])].
  - rewrite <- Heb in Hd, Hk, Hn. destruct (archived_node n data eb _ d nd Ha Hw Hb Hd Hk Hn) as [->|]; [left|by right].
    apply canon_node_links, map_index_links in Hl as (r & [i Hi]%list_elem_of_lookup & ->); [|done].
    destruct (Forall2_lookup_r _ _ _ _ _ Hrows Hi) as (row & Hrow & _ & ->).
    right. exists row. split; [by eapply list_elem_of_lookup_2|auto].
  - rewrite Forall_forall in Hraw. unfold block_node, ls_decoder in Hn. rewrite (Hraw _ Hrow) in Hn. cbn in Hn.
    injection Hn as <-. by apply not_elem_of_nil in Hl.
  - apply list_elem_of_lookup in Hrow as [i Hi]. destruct (Forall2_lookup_l _ _ _ _ _ Hrows Hi) as (r & Hr & Hdr & _).
    destruct (Forall2_lookup_r _ _ _ _ _ Hmeta Hi) as ([b r'] & Hz & c & Hc & Hs). cbn [fst snd] in Hc.
    apply lookup_zip_Some in Hz as [_ Hr']. assert (r' = r) as -> by congruence.
    assert (br_DataCID r ≠ cid_Undef) as Hdd.
    { rewrite Forall_forall in Hdef. apply Hdef. by eapply list_elem_of_lookup_2. }
    destruct (rebuilt_meta b r row c Hdd Hc Hs) as (mb & Hmb & Hm). rewrite Hm in Hd, Hk, Hn.
    destruct (archived_node n data mb _ d nd Ha (metadata_wf b _) Hmb Hd Hk Hn) as [->|]; [left|by right].
    apply canon_node_links, metadata_node_links in Hl as ->. rewrite Hdr.
    right. exists row. split; [by eapply list_elem_of_lookup_2|auto].
Qed.

End Intact.

(** ** The properties at concrete inputs *)

(** The blocks of epoch 10 as the generator stores them, with a sharding
    threshold of [thr], and the world after it has saved the epoch. *)
Definition demo_stored (thr : Z) : outcome EpochResult * MemBlockstore.t :=
  BuildEpochNode (mkEpochInput 10 320 demo_inputs) demo_results10 "mainnet" thr
    (snd ((_ ← for_each demo_inputs (λ b, _ ← ProcessBlob b; mret tt); mret tt) MemBlockstore.NewMemBlockstore)).
Definition demo_stored_cid (thr : Z) : string :=
  match fst (demo_stored thr) with Ok r => cid_String (er_CID r) | _ => "" end.
Definition demo_world (thr : Z) : CarWorld (gmap cid string) :=
  mkCarWorld (healthy (with_root (demo_stored_cid thr)))
    (blk_RawData <$> MemBlockstore.blocks (snd (demo_stored thr))) (mkFS ∅ [] []).

Definition demo_export (thr : Z) : outcome Z * CarWorld (gmap cid string) :=
  cmdExportCAR (New.demo_cfg "4") None 10 "/tmp/10.car" (demo_world thr).

Definition addressed_b (n : gmap cid string) : bool :=
  forallb (λ e : cid * string, bool_decide (fst e = data_cid (mkLinkPrototype 1 (cid_Codec (fst e)) mh_SHA2_256 32) (snd e)))
    (map_to_list n).

Lemma addressed_check (n : gmap cid string) : addressed_b n = true → addressed n.
Proof.
  intros Hb c d Hc. unfold addressed_b in Hb. rewrite forallb_forall in Hb.
  specialize (Hb (c, d)). cbn in Hb. rewrite bool_decide_eq_true in Hb.
  exists (mkLinkPrototype 1 (cid_Codec c) mh_SHA2_256 32). split_and!; [done..|]. apply Hb.
  by apply list_elem_of_In, elem_of_map_to_list.
Qed.

Lemma demo_addressed : addressed (cw_node (snd (demo_export 1000))).
Proof. apply addressed_check. vm_compute. reflexivity. Qed.

Lemma demo_exported :
  cmdExportCAR (New.demo_cfg "4") None 10 "/tmp/10.car" (demo_world 1000) = (Ok 0, snd (demo_export 1000)).
Proof.
  change (demo_export 1000 = (Ok 0, snd (demo_export 1000))).
  assert (fst (demo_export 1000) = Ok 0) as <-; [vm_compute; reflexivity|apply surjective_pairing].
Qed.

Definition demo_rows : list BlobRecord :=
  match epoch_records "mainnet" 10 demo_saved with Ok rows => rows | _ => [] end.

Lemma demo_rebuilds :
  epoch_records "mainnet" 10 demo_saved = Ok demo_rows ∧
  rebuilds "mainnet" 32 1000 (mkEpochRecord 10 (cid_String (er_CID demo_root_res)) 2) demo_rows.
Proof.
  assert (epoch_records "mainnet" 10 demo_saved = Ok demo_rows) as Hrows by (vm_compute; reflexivity).
  split; [exact Hrows|]. destruct demo_saved_ok as (H1 & H2 & H3 & H4 & H5).
  assert (intact "mainnet" 32 1000 demo_saved (mkEpochRecord 10 (cid_String (er_CID demo_root_res)) 2)) as Hi.
  { apply (saved_epoch_rebuilds "mainnet" 32 1000 10 0 12 demo_inputs tables_empty demo_root_res 2 (snd demo_root));
      [unfold two63; lia|exact H1|exact H2|exact H3|exact H4|exact H5|vm_compute; reflexivity]. }
  unfold intact in Hi. cbn [rec_Epoch] in Hi.
  assert (fst (GetBlobsByEpoch "mainnet" 10 (healthy demo_saved)) = epoch_records "mainnet" 10 demo_saved) as Hg
    by (vm_compute; reflexivity).
  rewrite Hg, Hrows in Hi. assert (demo_rows ≠ []) as Hne by (vm_compute; discriminate).
  clear -Hi Hne. destruct demo_rows; [destruct (Hne eq_refl)|exact Hi].
Qed.


Lemma cmdExportCAR_complete_witness : ∃ row root rows data,
  network_rows "mainnet" (with_root (demo_stored_cid 1000)) !! 10 = Some row ∧ cid_Decode (ep_cid row) = Ok root ∧
  epoch_records "mainnet" 10 (with_root (demo_stored_cid 1000)) = Ok rows ∧
  fs_files (cw_fs (snd (demo_export 1000))) !! "/tmp/10.car" = Some data ∧
  archive_from (cw_node (snd (demo_export 1000))) root (epoch_blocks root rows) data.
Proof.
  exact (proj2 (cmdExportCAR_complete (New.demo_cfg "4") None 10 "/tmp/10.car" (demo_world 1000) (snd (demo_export 1000))
    eq_refl demo_addressed demo_exported)).
Defined.

Definition demo_range : outcome Z * CarWorld (gmap cid string) :=
  cmdExportCARRange (New.demo_cfg "4") None 9 10 "" (demo_world 1000).

Lemma demo_range_exported :
  cmdExportCARRange (New.demo_cfg "4") None 9 10 "" (demo_world 1000) = (Ok 0, snd demo_range) ∧
  addressed (cw_node (snd demo_range)).
Proof.
  split; [|apply addressed_check; vm_compute; reflexivity]. change (demo_range = (Ok 0, snd demo_range)).
  assert (fst demo_range = Ok 0) as <-; [vm_compute; reflexivity|apply surjective_pairing].
Qed.


(** ** Sharded epochs *)

(** The root is in the archive and links to a block that is not. *)
Definition missing_link {I : Ipld} {G : GoCar} (root : cid) (data : string) : bool :=
  match archive_get data root with
  | Some d =>
      match block_node root d with
      | Ok n => existsb (λ l, bool_decide (archive_get data l = None)) (node_links n)
      | _ => false
      end
  | None => false
  end.

Lemma missing_link_reached {I : Ipld} {G : GoCar} root data : missing_link root data = true →
  ∃ c, reaches data root c ∧ archive_get data c = None.
Proof.
  unfold missing_link. destruct (archive_get data root) as [d|] eqn:Hd; [|done].
  destruct (block_node root d) as [n| |] eqn:Hn; [|done|done].
  intros (l & Hl%list_elem_of_In & Hx%bool_decide_eq_true)%existsb_exists.
  exists l. split; [|done]. eapply reach_link; [done|done|done|constructor].
Qed.

Definition exported_misses (thr : Z) : option bool :=
  match fs_files (cw_fs (snd (demo_export thr))) !! "/tmp/10.car", cid_Decode (demo_stored_cid thr) with
  | Some data, Ok root => Some (missing_link root data)
  | _, _ => None
  end.

