(* ===== verification/Pin.v ===== *)
(** * Pin: the pin-existing command and the IPFS check of cmd/blobscan-ipld/main.go

    pinWithRetry, the pool of pin workers as jobs that advance one request at a
    time in any interleaving, the command around it, and checkEpochsInIPFS with
    its two ways of asking the node. *)

From S2P Require Import Prelude GoStd CliUtil Types Ipld Store IpldModel Blob Network Db StateFile Beacon Ipfs Car Persist CarFacts.
From S2P Require Config New.

(** ** One pin *)

Definition errIncompleteDAG : string := "DAG incomplete locally; re-upload the epoch".

(** [fmt.Errorf("%w: %v", errIncompleteDAG, verr)] *)
Definition incomplete_dag (verr : error) : error :=
  mkError (errIncompleteDAG +:+ ": " +:+ err_msg verr) [ErrIncompleteDAG].

Definition missing_locally (verr : error) : bool := Contains (err_msg verr) "block missing locally".

Section Pinning.
Context {I : Ipld} {N : Type} {K : Kubo N} {KJ : KuboJson}.

(** The loop from attempt [i] on, [n] attempts to go; [ctxErr i] is what
    [ctx.Err()] returns before attempt [i], a deadline that passes during an
    attempt is the error of its request. *)
Fixpoint pin_attempts (ctxErr : nat → option error) (c : cid) (i n : nat) (err : option error) : Go N unit :=
  match n with
  | O => match err with None => mret tt | Some e => fail e end
  | S n =>
      match ctxErr i with
      | Some e => fail e
      | None =>
          r ← attempt (Pin c);
          match r with
          | inr _ => mret tt
          | inl e => pin_attempts ctxErr c (S i) n (Some e)
          end
      end
  end.

Definition pinWithRetry (ctxErr : nat → option error) (c : cid) (retries : Z) : Go N unit :=
  v ← attempt (VerifyLocal c);
  match v with
  | inl verr =>
      if missing_locally verr then fail (incomplete_dag verr)
      else pin_attempts ctxErr c 0 (Z.to_nat (retries + 1)) None
  | inr _ => pin_attempts ctxErr c 0 (Z.to_nat (retries + 1)) None
  end.

(** ** The pool *)

Record pinJob := mkPinJob { pj_epoch : Z; pj_cid : cid }.

(** Where a job's pinWithRetry is: before the preflight, before attempt [i]
    with the last error, or returned. *)
Inductive pin_state :=
  | PVerify
  | PTry (i : nat) (err : option error)
  | PDone (err : option error).

(** One request of a job. *)
Definition pin_step (ctxErr : nat → option error) (retries : Z) (c : cid) (st : pin_state) : Go N pin_state :=
  match st with
  | PVerify =>
      v ← attempt (VerifyLocal c);
      mret (match v with
            | inl verr => if missing_locally verr then PDone (Some (incomplete_dag verr)) else PTry 0 None
            | inr _ => PTry 0 None
            end)
  | PTry i err =>
      if (Z.to_nat (retries + 1) <=? i)%nat then mret (PDone err)
      else match ctxErr i with
           | Some e => mret (PDone (Some e))
           | None =>
               r ← attempt (Pin c);
               mret (match r with inr _ => PDone None | inl e => PTry (S i) (Some e) end)
           end
  | PDone _ => mret st
  end.

(** The jobs advance in the order of the schedule; the number of workers only
    limits which schedules there are. *)
Context (ctxErr : nat → nat → option error) (retries : Z) (todo : list pinJob).

Fixpoint pool_run (schedule : list nat) (states : list pin_state) : Go N (list pin_state) :=
  match schedule with
  | [] => mret states
  | j :: rest =>
      match todo !! j, states !! j with
      | Some job, Some st =>
          st' ← pin_step (ctxErr j) retries (pj_cid job) st;
          pool_run rest (<[j := st']> states)
      | _, _ => pool_run rest states
      end
  end.

(** [wg.Wait()]: whatever is left of the jobs runs to its end. *)
Definition drain : list nat := concat ((λ j, replicate (Z.to_nat (retries + 1) + 3) j) <$> seq 0 (length todo)).

Definition run_jobs (schedule : list nat) : Go N (list pin_state) :=
  pool_run (schedule ++ drain) (replicate (length todo) PVerify).
End Pinning.

(** ** What the command reports *)

Record pin_report := mkPinReport { pr_pinned : Z; pr_failed : list Z; pr_incomplete : list Z }.

(** The job has returned, with a result of the kind [p]. *)
Definition done_with (p : option error → bool) (st : pin_state) : bool :=
  match st with PDone e => p e | _ => false end.

Definition epochs_of (p : option error → bool) (todo : list pinJob) (states : list pin_state) : list Z :=
  pj_epoch ∘ fst <$> filter (λ js, done_with p (snd js) = true) (zip todo states).

Definition is_pinned (e : option error) : bool := match e with None => true | _ => false end.
Definition is_incomplete (e : option error) : bool := match e with Some e => errors_Is e ErrIncompleteDAG | _ => false end.
Definition is_failed (e : option error) : bool := match e with Some e => negb (errors_Is e ErrIncompleteDAG) | _ => false end.

Definition pin_summary (todo : list pinJob) (states : list pin_state) : pin_report :=
  mkPinReport (Z.of_nat (length (epochs_of is_pinned todo states)))
    (sortUint64 (epochs_of is_failed todo states)) (sortUint64 (epochs_of is_incomplete todo states)).

Record pin_flags := mkPinFlags { pf_dryRun : bool; pf_workers : Z; pf_retries : Z; pf_limit : Z }.

Section Command.
Context {I : Ipld} {R : GoRuntime} {N : Type} {K : Kubo N} {KJ : KuboJson}.
Context (cfg : Config.Config) (connect : option error) (flags : pin_flags).

Abbreviation World := (Db.Client * N)%type.
Abbreviation network := (Config.nc_Name (Config.c_Network cfg)).

Definition db_part {A} : Go Db.Client A → Go World A := zoom fst (λ d w, (d, snd w)).
Definition node_part {A} : Go N A → Go World A := zoom snd (λ n w, (fst w, n)).

(** The epochs that are not pinned yet; a CID that does not parse is only counted. *)
Definition pin_todo (pins : gset string) (records : list EpochRecord) : list pinJob :=
  omap (λ rec,
    match cid_Decode (rec_CID rec) with
    | Ok c => if bool_decide (cid_String c ∈ pins) then None else Some (mkPinJob (rec_Epoch rec) c)
    | _ => None
    end) records.

Definition limited (todo : list pinJob) : list pinJob :=
  if (0 <? pf_limit flags) && (pf_limit flags <? Z.of_nat (length todo)) then take (Z.to_nat (pf_limit flags)) todo else todo.

(** The command: its exit code and, when it pinned, its report. *)
Definition cmdPinExisting (ctxErr : nat → nat → option error) (schedule : list nat) : Go World (Z * option pin_report) :=
  if bool_decide (Config.st_PostgresDSN (Config.c_Storage cfg) = "") then mret (1, None)
  else if Config.ic_SkipUpload (Config.c_IPFS cfg) || bool_decide (Config.ic_APIAddr (Config.c_IPFS cfg) = "")
  then mret (1, None)
  else match connect with
  | Some _ => mret (1, None)
  | None =>
      q ← attempt (db_part (GetAllEpochs network));
      match q with
      | inl _ => mret (1, None)
      | inr [] => mret (0, None)
      | inr records =>
          p ← attempt (node_part ListRecursivePins);
          let pins := match p with inr pins => pins | inl _ => ∅ end in
          let todo := limited (pin_todo pins records) in
          if pf_dryRun flags then mret (0, None)
          else if Nat.eqb (length todo) 0 then mret (0, None)
          else
            states ← node_part (run_jobs ctxErr (Z.max 0 (pf_retries flags)) todo schedule);
            let rep := pin_summary todo states in
            mret (if bool_decide (pr_failed rep = [] ∧ pr_incomplete rep = []) then 0 else 1, Some rep)
      end
  end.

(** ** Checking the epochs on the node *)

Definition present_epoch (pins : gset string) (rec : EpochRecord) : bool :=
  match cid_Decode (rec_CID rec) with Ok c => bool_decide (cid_String c ∈ pins) | _ => false end.

Definition checkEpochsAgainstPins (records : list EpochRecord) (pins : gset string) : Z * list Z :=
  (Z.of_nat (length (filter (λ r, present_epoch pins r = true) records)),
   sortUint64 (rec_Epoch <$> filter (λ r, present_epoch pins r = false) records)).

(** One block/stat; an error counts as absent. *)
Definition stat_epoch (rec : EpochRecord) : Go N bool :=
  match cid_Decode (rec_CID rec) with
  | Ok c => r ← attempt (HasBlock c); mret (match r with inr ok => ok | inl _ => false end)
  | _ => mret false
  end.

(** The results in the order in which they arrive. *)
Fixpoint stat_epochs (records : list EpochRecord) (order : list nat) : Go N (list (Z * bool)) :=
  match order with
  | [] => mret []
  | i :: rest =>
      match records !! i with
      | Some rec => ok ← stat_epoch rec; l ← stat_epochs records rest; mret ((rec_Epoch rec, ok) :: l)
      | None => stat_epochs records rest
      end
  end.

Definition checkEpochsByBlockStat (records : list EpochRecord) (order : list nat) (workers : Z) : Go N (Z * list Z) :=
  results ← stat_epochs records (if workers <=? 0 then [] else order);
  mret (Z.of_nat (length (filter (λ r, snd r = true) results)),
        sortUint64 (fst <$> filter (λ r, snd r = false) results)).

Definition checkEpochsInIPFS (order : nat → list nat) (workers : Z) : Go World (Z * list Z) :=
  q ← attempt (db_part (GetAllEpochs network));
  match q with
  | inl _ | inr [] => mret (0, [])
  | inr records =>
      p ← attempt (node_part ListRecursivePins);
      match p with
      | inr pins => mret (checkEpochsAgainstPins records pins)
      | inl _ => node_part (checkEpochsByBlockStat records (order (length records)) workers)
      end
  end.
End Command.
