(* ===== verification/PinFacts.v ===== *)
(** * PinFacts: what pin-existing and the IPFS check guarantee

    Every job of the pool ends after a bounded number of requests, under any
    interleaving; an epoch that is not reported is pinned; and a check of the
    node afterwards finds it. *)

From S2P Require Import Prelude GoStd CliUtil Types Ipld Store IpldModel Blob Network Db StateFile Beacon Ipfs Car Persist CarFacts Pin.
From S2P Require Config New.

(** What the command relies on of Kubo: a pin/add answered 200 has pinned the
    CID, no request of this client unpins, and pin/ls lists the pinned CIDs. *)
Class KuboPins (N : Type) {K : Kubo N} {KJ : KuboJson} {I : Ipld} := {
  kubo_pinned : N → cid → Prop;
  pin_add_ok c n body n' :
    kubo_rpc (ReqPinAdd (cid_String c)) n = (Response StatusOK body, n') → kubo_pinned n' c;
  pin_kept req n r n' c : kubo_rpc req n = (r, n') → kubo_pinned n c → kubo_pinned n' c;
  pin_ls_ok n body n' keys :
    kubo_rpc ReqPinLs n = (Response StatusOK body, n') → json_pin_keys body = Ok keys →
    ∀ c, c ≠ cid_Undef → kubo_pinned n' c ↔ ∃ k, k ∈ keys ∧ cid_Decode k = Ok c }.

Section Requests.
Context {I : Ipld} {N : Type} {K : Kubo N} {KJ : KuboJson} {KP : KuboPins N}.

Definition keeps_pins (n n' : N) : Prop := ∀ c, kubo_pinned n c → kubo_pinned n' c.

#[export] Instance keeps_pins_preorder : PreOrder keeps_pins.
Proof. split; [by intros n c|]. intros n1 n2 n3 H1 H2 c Hc. auto. Qed.

Lemma always_rpc what req : always keeps_pins (rpc what req).
Proof.
  intros n c Hc. unfold rpc. destruct (kubo_rpc req n) as [[e|st body] n'] eqn:Hr; cbn.
  - by eapply pin_kept.
  - destruct (negb _); by eapply pin_kept.
Qed.

Lemma always_VerifyLocal c : always keeps_pins (VerifyLocal c).
Proof. apply always_bind; [apply _|apply always_rpc|]. intros body. apply always_lift, _. Qed.

Lemma always_Pin c : always keeps_pins (Pin c).
Proof. apply always_bind; [apply _|apply always_rpc|]. intros body. apply always_ret, _. Qed.

Lemma Pin_Ok c n u n' : Pin c n = (Ok u, n') → kubo_pinned n' c.
Proof.
  unfold Pin. intros H. apply bind_Ok in H as (body & n1 & Hr & [_ ->]%ret_Ok). unfold rpc in Hr.
  destruct (kubo_rpc _ n) as [[e|st b] n2] eqn:Hq; [done|].
  destruct (Z.eqb_spec st StatusOK) as [->|]; [|done]. injection Hr as _ <-. by eapply pin_add_ok.
Qed.

Lemma always_pin_step ctxErr retries c st : always keeps_pins (pin_step ctxErr retries c st).
Proof.
  destruct st as [|i err|err]; cbn.
  - apply always_bind; [apply _|apply always_attempt, always_VerifyLocal|]. intros v. apply always_ret, _.
  - destruct (_ <=? _)%nat; [apply always_ret, _|]. destruct (ctxErr i); [apply always_ret, _|].
    apply always_bind; [apply _|apply always_attempt, always_Pin|]. intros r. apply always_ret, _.
  - apply always_ret, _.
Qed.

Lemma always_pool_run ctxErr retries todo schedule : ∀ states, always keeps_pins (pool_run ctxErr retries todo schedule states).
Proof.
  induction schedule as [|j rest IH]; intros states; cbn [pool_run]; [apply always_ret, _|].
  destruct (todo !! j) as [job|]; [|apply IH]. destruct (states !! j) as [st|]; [|apply IH].
  apply always_bind; [apply _|apply always_pin_step|intros; apply IH].
Qed.

(** What a job's state says about the node: a job that returned without an
    error has pinned its CID. *)
Definition state_ok (n : N) (c : cid) (st : pin_state) : Prop :=
  match st with
  | PVerify => True
  | PTry i err => i = 0%nat ∨ is_Some err
  | PDone None => kubo_pinned n c
  | PDone (Some _) => True
  end.

Lemma state_ok_keeps n n' c st : keeps_pins n n' → state_ok n c st → state_ok n' c st.
Proof. intros Hk. destruct st as [|i err|[e|]]; cbn; auto. Qed.

(** Steps a job may still take. *)
Definition rank (retries : Z) (st : pin_state) : nat :=
  match st with
  | PVerify => Z.to_nat (retries + 1) + 2
  | PTry i _ => S (Z.to_nat (retries + 1) - i)
  | PDone _ => 0
  end.

Lemma pin_step_ok ctxErr retries c st n st' n' : 0 ≤ retries →
  pin_step ctxErr retries c st n = (Ok st', n') → state_ok n c st →
  state_ok n' c st' ∧ (rank retries st' ≤ rank retries st - 1)%nat.
Proof.
  intros Hr. destruct st as [|i err|err]; cbn [pin_step].
  - intros H. apply bind_Ok in H as (v & n1 & _ & [-> ->]%ret_Ok). intros _.
    assert (∀ e, (state_ok n1 c (PDone (Some e)) ∧ rank retries (PDone (Some e)) ≤ rank retries PVerify - 1)%nat) as H1.
    { intros e. split; [done|cbn; lia]. }
    assert (state_ok n1 c (PTry 0 None) ∧ rank retries (PTry 0 None) ≤ rank retries PVerify - 1)%nat as H2.
    { split; [by left|cbn; lia]. }
    destruct v as [e|]; [|done]. by destruct (missing_locally e).
  - destruct (Nat.leb_spec (Z.to_nat (retries + 1)) i) as [Hi|Hi].
    { intros [= <- <-] Hs. split; [|cbn; lia]. destruct err; [done|]. destruct Hs as [->|[? [=]]]. lia. }
    destruct (ctxErr i) as [e|]; [intros [= <- <-] _; split; [done|cbn; lia]|].
    intros H. apply bind_Ok in H as (r & n1 & Ha%attempt_Ok & [-> ->]%ret_Ok). intros _.
    destruct r as [e|u]; [split; [right; eauto|cbn; lia]|]. split; [by eapply Pin_Ok|cbn; lia].
  - intros [= <- <-] Hs. split; [done|cbn; lia].
Qed.

(** ** The pool *)

Definition turns (j : nat) (schedule : list nat) : nat := length (filter (λ x, x = j) schedule).

Lemma turns_app j s1 s2 : turns j (s1 ++ s2) = (turns j s1 + turns j s2)%nat.
Proof. unfold turns. by rewrite filter_app, length_app. Qed.

Definition states_ok (n : N) : list pinJob → list pin_state → Prop := Forall2 (λ job st, state_ok n (pj_cid job) st).

Lemma states_ok_keeps n n' todo states : keeps_pins n n' → states_ok n todo states → states_ok n' todo states.
Proof. intros Hk Hs. eapply Forall2_impl; [exact Hs|]. intros job st. by apply state_ok_keeps. Qed.

Lemma pool_run_ok ctxErr retries todo schedule : 0 ≤ retries → ∀ states n states' n',
  pool_run ctxErr retries todo schedule states n = (Ok states', n') → states_ok n todo states →
  states_ok n' todo states' ∧
  ∀ j st', states' !! j = Some st' →
    ∃ st, states !! j = Some st ∧ (rank retries st' ≤ rank retries st - turns j schedule)%nat.
Proof.
  intros Hr. induction schedule as [|j rest IH]; intros states n states' n' Hrun Hs; cbn [pool_run] in Hrun.
  { injection Hrun as <- <-. split; [done|]. intros j st' Hj. exists st'. split; [done|]. cbn. lia. }
  destruct (todo !! j) as [job|] eqn:Hjob; [|].
  2:{ destruct (IH _ _ _ _ Hrun Hs) as [H1 H2]. split; [done|]. intros k st' Hk.
      destruct (H2 k st' Hk) as (st & Hst & Hle). exists st. split; [done|]. unfold turns in *. rewrite filter_cons.
      case_decide as Hjk; [|done]. subst k. exfalso. pose proof (Forall2_length _ _ _ Hs) as Hl.
      apply lookup_lt_Some in Hst. apply lookup_ge_None in Hjob. lia. }
  destruct (Forall2_lookup_l _ _ _ _ _ Hs Hjob) as (st & Hst & Hok). rewrite Hst in Hrun.
  apply bind_Ok in Hrun as (st1 & n1 & Hstep & Hrun).
  pose proof (always_pin_step (ctxErr j) retries (pj_cid job) st n) as Hk. rewrite Hstep in Hk. cbn [snd] in Hk.
  destruct (pin_step_ok _ _ _ _ _ _ _ Hr Hstep Hok) as [Hok1 Hrank].
  destruct (IH _ _ _ _ Hrun) as [H1 H2].
  { rewrite <- (list_insert_id todo j job Hjob). apply Forall2_insert; [|done]. by eapply states_ok_keeps. }
  split; [done|]. intros k st' Hst'. destruct (H2 k st' Hst') as (st0 & Hst0 & Hle).
  unfold turns in *. rewrite filter_cons. destruct (decide (j = k)) as [<-|Hne].
  - rewrite list_lookup_insert_eq in Hst0 by by eapply lookup_lt_Some. injection Hst0 as <-.
    exists st. split; [done|]. cbn [length]. lia.
  - rewrite list_lookup_insert_ne in Hst0 by done. exists st0. split; [done|]. done.
Qed.

Lemma turns_drain retries todo j : (j < length todo)%nat → (Z.to_nat (retries + 1) + 3 ≤ turns j (drain retries todo))%nat.
Proof.
  intros Hj. unfold drain. assert (j ∈ seq 0 (length todo)) as Hin by (apply elem_of_seq; lia).
  apply list_elem_of_split in Hin as (l1 & l2 & ->). rewrite fmap_app, concat_app, fmap_cons. cbn [concat].
  rewrite !turns_app. unfold turns at 2. rewrite list_filter_all.
  - rewrite length_replicate. lia.
  - intros x Hx. by apply elem_of_replicate in Hx as [-> _].
Qed.

(** Under every schedule every job of the pool ends, and one that ends without
    an error has pinned its CID. *)
Lemma run_jobs_ok ctxErr retries todo schedule n states n' : 0 ≤ retries →
  run_jobs ctxErr retries todo schedule n = (Ok states, n') →
  Forall2 (λ job st, ∃ e, st = PDone e ∧ (e = None → kubo_pinned n' (pj_cid job))) todo states.
Proof.
  intros Hr Hrun. unfold run_jobs in Hrun.
  destruct (pool_run_ok _ _ _ _ Hr _ _ _ _ Hrun) as [Hok Hrank].
  { clear. induction todo as [|job todo IH]; cbn; constructor; done. }
  apply Forall2_same_length_lookup. split; [by eapply Forall2_length|]. intros j job st Hj Hst.
  destruct (Hrank _ _ Hst) as (st0 & Hst0 & Hle). apply lookup_replicate in Hst0 as [-> Hlt].
  rewrite turns_app in Hle. pose proof (turns_drain retries todo j Hlt) as Ht.
  pose proof (Forall2_lookup_lr _ _ _ _ _ _ Hok Hj Hst) as Hs.
  destruct st as [|i err|err]; cbn [rank] in Hle; [lia|lia|]. exists err. split; [done|]. by intros ->.
Qed.

(** ** A job on its own is pinWithRetry *)

Fixpoint pin_steps (ctxErr : nat → option error) (retries : Z) (c : cid) (k : nat) (st : pin_state) : Go N pin_state :=
  match k with
  | O => mret st
  | S k => st' ← pin_step ctxErr retries c st; pin_steps ctxErr retries c k st'
  end.

(** The state a returned call is in. *)
Definition returned (m : Go N unit) : Go N pin_state := λ n,
  match m n with
  | (Ok _, n') => (Ok (PDone None), n')
  | (Err e, n') => (Ok (PDone (Some e)), n')
  | (Panic p, n') => (Panic p, n')
  end.

Lemma pin_steps_done ctxErr retries c k err n : pin_steps ctxErr retries c k (PDone err) n = (Ok (PDone err), n).
Proof. induction k as [|k IH]; [done|]. exact IH. Qed.

Lemma pin_steps_try ctxErr retries c m : ∀ i err n, (i + m = Z.to_nat (retries + 1))%nat →
  pin_steps ctxErr retries c (S m) (PTry i err) n = returned (pin_attempts ctxErr c i m err) n.
Proof.
  induction m as [|m IH]; intros i err n Hm; cbn [pin_steps]; rewrite bind_eq; cbn [pin_step pin_attempts].
  - rewrite (proj2 (Nat.leb_le _ _)) by lia. by destruct err.
  - rewrite (proj2 (Nat.leb_gt _ _)) by lia. destruct (ctxErr i) as [e|].
    + exact (pin_steps_done ctxErr retries c (S m) (Some e) n).
    + unfold returned. rewrite !bind_eq. unfold attempt. destruct (Pin c n) as [[u|e|p] n1]; [| |done].
      * exact (pin_steps_done ctxErr retries c (S m) None n1).
      * apply (IH (S i) (Some e) n1). lia.
Qed.

Lemma pinWithRetry_steps ctxErr retries c n : 0 ≤ retries →
  pin_steps ctxErr retries c (Z.to_nat (retries + 1) + 2) PVerify n = returned (pinWithRetry ctxErr c retries) n.
Proof.
  intros Hr. rewrite Nat.add_comm. cbn [pin_steps Nat.add]. rewrite bind_eq. unfold returned, pinWithRetry. cbn [pin_step].
  rewrite !bind_eq. unfold attempt. destruct (VerifyLocal c n) as [[u|e|p] n1]; [| |done].
  - by apply (pin_steps_try ctxErr retries c _ 0).
  - destruct (missing_locally e); [|by apply (pin_steps_try ctxErr retries c _ 0)].
    exact (pin_steps_done ctxErr retries c (S (Z.to_nat (retries + 1))) (Some (incomplete_dag e)) n1).
Qed.
End Requests.

(** ** The command *)

Section Command.
Context {I : Ipld} {L : IpldLaws I} {R : GoRuntime} {N : Type} {K : Kubo N} {KJ : KuboJson} {KP : KuboPins N}.
Context (cfg : Config.Config) (connect : option error) (flags : pin_flags).

Abbreviation network := (Config.nc_Name (Config.c_Network cfg)).

Lemma GetAllEpochs_tables c : c_tables (snd (GetAllEpochs network c)) = c_tables c.
Proof.
  unfold GetAllEpochs, wrapf, db_query, db_call, gets_out, mbind, go_bind.
  by destruct (c_faults c) as [|[e|] fs].
Qed.

Lemma always_ListRecursivePins : always keeps_pins ListRecursivePins.
Proof.
  apply always_bind; [apply _|apply always_rpc|]. intros body.
  apply always_bind; [apply _|apply always_wrapf, always_lift, _|]. intros keys. apply always_ret, _.
Qed.

Lemma ListRecursivePins_Ok n pins n' : ListRecursivePins n = (Ok pins, n') →
  ∀ c, c ≠ cid_Undef → cid_String c ∈ pins ↔ kubo_pinned n' c.
Proof.
  unfold ListRecursivePins. intros H c Hc. apply bind_Ok in H as (body & n1 & Hr & H). go_inv.
  assert (kubo_pinned n1 c ↔ ∃ k, k ∈ x ∧ cid_Decode k = Ok c) as Hls.
  { unfold rpc in Hr. destruct (kubo_rpc ReqPinLs n) as [[e|st b] n2] eqn:Hq; [done|].
    destruct (Z.eqb_spec st StatusOK) as [->|]; [|done]. injection Hr as <- <-. by eapply pin_ls_ok. }
  rewrite Hls, elem_of_list_to_set, list_elem_of_fmap. split.
  - intros (k & Hk & Hin). exists k. split; [done|]. unfold pin_key in Hk. destruct (cid_Decode k) as [id|e|p] eqn:Hd.
    + f_equal. assert (id ≠ cid_Undef) as Hid by by eapply cid_Decode_defined.
      pose proof (cid_Decode_String id Hid) as H1. rewrite <- Hk, cid_Decode_String in H1 by done. congruence.
    + rewrite <- Hk, cid_Decode_String in Hd by done. done.
    + rewrite <- Hk, cid_Decode_String in Hd by done. done.
  - intros (k & Hin & Hd). exists k. split; [|done]. unfold pin_key. by rewrite Hd.
Qed.

Lemma elem_of_pin_todo pins records e c :
  mkPinJob e c ∈ pin_todo pins records ↔
  ∃ rec, rec ∈ records ∧ rec_Epoch rec = e ∧ cid_Decode (rec_CID rec) = Ok c ∧ cid_String c ∉ pins.
Proof.
  unfold pin_todo. rewrite list_elem_of_omap. split.
  - intros (rec & Hin & Hj). exists rec. destruct (cid_Decode (rec_CID rec)) as [id| |]; [|done|done].
    case_bool_decide; [done|]. by injection Hj as <- <-.
  - intros (rec & Hin & <- & Hd & Hp). exists rec. split; [done|]. rewrite Hd. by rewrite bool_decide_false.
Qed.

Lemma elem_of_sortUint64 l x : x ∈ sortUint64 l ↔ x ∈ l.
Proof. by rewrite (proj1 (sortUint64_spec l)). Qed.

(** A job that has returned is pinned, or the report names its epoch. *)
Lemma job_reported (Q : pinJob → Prop) todo states job :
  Forall2 (λ job st, ∃ e, st = PDone e ∧ (e = None → Q job)) todo states → job ∈ todo →
  Q job ∨ pj_epoch job ∈ pr_failed (pin_summary todo states) ++ pr_incomplete (pin_summary todo states).
Proof.
  intros Hd [j Hj]%list_elem_of_lookup. destruct (Forall2_lookup_l _ _ _ _ _ Hd Hj) as (st & Hst & err & -> & Hq).
  destruct err as [e|]; [right|by left; apply Hq].
  assert ((job, PDone (Some e)) ∈ zip todo states) as Hz by (eapply list_elem_of_lookup_2, lookup_zip_with_Some; eauto).
  assert (∀ p, p (Some e) = true → pj_epoch job ∈ epochs_of p todo states) as He.
  { intros p Hp. apply list_elem_of_fmap. exists (job, PDone (Some e)). split; [done|]. by apply list_elem_of_filter. }
  cbn [pin_summary pr_failed pr_incomplete]. rewrite elem_of_app, !elem_of_sortUint64.
  destruct (errors_Is e ErrIncompleteDAG) eqn:Hi; [right|left]; apply He; cbn; by rewrite Hi.
Qed.

(** The three results partition the jobs. *)
Lemma epochs_of_partition todo : ∀ states, Forall2 (λ (_ : pinJob) st, ∃ e, st = PDone e) todo states →
  epochs_of is_pinned todo states ++ epochs_of is_failed todo states ++ epochs_of is_incomplete todo states
    ≡ₚ pj_epoch <$> todo.
Proof.
  intros states Hd. induction Hd as [|job st todo states [e ->] _ IH]; [done|].
  assert (∀ p, epochs_of p (job :: todo) (PDone e :: states) =
    (if p e then [pj_epoch job] else []) ++ epochs_of p todo states) as Hc.
  { intros p. unfold epochs_of. cbn [zip zip_with]. rewrite filter_cons. cbn [snd done_with]. by destruct (p e). }
  rewrite !Hc, fmap_cons, <- IH. destruct e as [e|]; cbn [is_pinned is_failed is_incomplete]; [|done].
  destruct (errors_Is e ErrIncompleteDAG); cbn [negb app]; rewrite <- Permutation_middle; [|done].
  by rewrite <- Permutation_middle.
Qed.

(** The command reads the database and only adds pins. *)
Definition pins_only (w w' : Db.Client * N) : Prop :=
  c_tables (fst w') = c_tables (fst w) ∧ keeps_pins (snd w) (snd w').

#[export] Instance pins_only_preorder : PreOrder pins_only.
Proof.
  split; [by intros w; split|]. intros w1 w2 w3 [H1 K1] [H2 K2]. split; [congruence|by etransitivity].
Qed.

Lemma always_db_part : always pins_only (db_part (GetAllEpochs network)).
Proof. apply always_zoom. intros w. split; [apply GetAllEpochs_tables|done]. Qed.

Lemma always_node_part {A} (m : Go N A) : always keeps_pins m → always pins_only (node_part m).
Proof. intros Hm. apply always_zoom. intros w. split; [done|apply Hm]. Qed.

Lemma always_cmdPinExisting ctxErr schedule : always pins_only (cmdPinExisting cfg connect flags ctxErr schedule).
Proof.
  unfold cmdPinExisting. destruct (bool_decide _); [apply always_ret, _|].
  destruct (_ || _); [apply always_ret, _|]. destruct connect; [apply always_ret, _|].
  apply always_bind; [apply _|apply always_attempt, always_db_part|]. intros [e|[|r l]]; [apply always_ret, _..|].
  apply always_bind; [apply _|apply always_attempt, always_node_part, always_ListRecursivePins|]. intros p. cbn zeta.
  destruct (pf_dryRun flags); [apply always_ret, _|]. destruct (Nat.eqb _ _); [apply always_ret, _|].
  apply always_bind; [apply _|apply always_node_part, always_pool_run|]. intros states. apply always_ret, _.
Qed.

(** What a run that got past the configuration and the query did. *)
Lemma cmdPinExisting_inv ctxErr schedule w code rep w' :
  cmdPinExisting cfg connect flags ctxErr schedule w = (Ok (code, rep), w') →
  (code = 1 ∧ rep = None) ∨
  ∃ records d n1 pins,
    GetAllEpochs network (fst w) = (Ok records, d) ∧
    (∀ c, c ≠ cid_Undef → cid_String c ∈ pins → kubo_pinned n1 c) ∧
    let todo := limited flags (pin_todo pins records) in
    (code = 0 ∧ rep = None ∧ (pf_dryRun flags = true ∨ todo = []) ∧ keeps_pins n1 (snd w')) ∨
    ∃ states, run_jobs ctxErr (Z.max 0 (pf_retries flags)) todo schedule n1 = (Ok states, snd w') ∧
      rep = Some (pin_summary todo states) ∧ pf_dryRun flags = false ∧ code = (if bool_decide (pr_failed (pin_summary todo states) = [] ∧ pr_incomplete (pin_summary todo states) = []) then 0 else 1).
Proof.
  unfold cmdPinExisting. intros H.
  destruct (bool_decide _); [injection H as <- <- _; by left|].
  destruct (_ || _); [injection H as <- <- _; by left|].
  destruct connect; [injection H as <- <- _; by left|].
  apply bind_Ok in H as (q & w1 & Hq%attempt_Ok & H).
  destruct q as [e|records]; [injection H as <- <- _; by left|]. right.
  apply zoom_inv in Hq as (d & Hq & ->).
  destruct records as [|r0 l0].
  { injection H as <- <- <-. exists [], d, (snd w), ∅. split_and!; [done|set_solver|]. left. split_and!; [done|done| |done].
    right. unfold limited. by destruct (_ && _); [apply take_nil|]. }
  set (records := r0 :: l0) in *. apply bind_Ok in H as (p & w2 & Hp%attempt_Ok & H). cbn zeta in H.
  set (pins := match p with inr pins => pins | inl _ => ∅ end) in *.
  assert (fst w2 = d ∧ ∀ c, c ≠ cid_Undef → cid_String c ∈ pins → kubo_pinned (snd w2) c) as [_ Hpins].
  { destruct p as [e|ps]; apply zoom_inv in Hp as (n1 & Hp & ->); (split; [done|]); [set_solver|].
    intros c Hc Hin. by eapply ListRecursivePins_Ok. }
  exists records, d, (snd w2), pins. split_and!; [done|done|]. cbn zeta.
  destruct (pf_dryRun flags); [injection H as <- <- <-; left; split_and!; [done|done|by left|done]|].
  destruct (Nat.eqb_spec (length (limited flags (pin_todo pins records))) 0) as [Hl|Hl].
  { injection H as <- <- <-. left. split_and!; [done|done| |done]. right. by apply nil_length_inv. }
  right. apply bind_Ok in H as (states & w3 & Hs & [= <- <- <-]). apply zoom_inv in Hs as (n2 & Hs & ->).
  by exists states.
Qed.

(** The jobs are epochs on record, each once. *)
Lemma todo_sublist pins records : pj_epoch <$> limited flags (pin_todo pins records) `sublist_of` rec_Epoch <$> records.
Proof.
  transitivity (pj_epoch <$> pin_todo pins records).
  { apply fmap_sublist. unfold limited. destruct (_ && _); [apply sublist_take|done]. }
  unfold pin_todo. induction records as [|r l IH]; [done|]. cbn [omap list_omap].
  destruct (cid_Decode (rec_CID r)) as [id|e|p]; [|by apply sublist_cons..].
  case_bool_decide; [by apply sublist_cons|by apply sublist_skip].
Qed.

Lemma todo_recorded pins records job : job ∈ limited flags (pin_todo pins records) →
  ∃ rec, rec ∈ records ∧ rec_Epoch rec = pj_epoch job ∧ cid_Decode (rec_CID rec) = Ok (pj_cid job).
Proof.
  intros Hin. assert (job ∈ pin_todo pins records) as Hj.
  { unfold limited in Hin. destruct (_ && _); [by eapply elem_of_take in Hin as (? & ?%list_elem_of_lookup_2 & _)|done]. }
  destruct job as [e c]. apply elem_of_pin_todo in Hj as (rec & ? & ? & ? & _). by exists rec.
Qed.

Lemma epochs_of_pinned (Q : pinJob → Prop) todo states e :
  Forall2 (λ job st, ∃ e, st = PDone e ∧ (e = None → Q job)) todo states → e ∈ epochs_of is_pinned todo states →
  ∃ job, job ∈ todo ∧ pj_epoch job = e ∧ Q job.
Proof.
  intros Hd ([job st] & -> & [Hp [j Hz]%list_elem_of_lookup]%list_elem_of_filter)%list_elem_of_fmap.
  apply lookup_zip_with_Some in Hz as (job' & st' & [= <- <-] & Hj & Hst).
  destruct (Forall2_lookup_lr _ _ _ _ _ _ Hd Hj Hst) as (err & -> & Hq). exists job.
  split_and!; [by eapply list_elem_of_lookup_2|done|]. apply Hq. by destruct err.
Qed.

(** What a report says of a job list: every job is accounted for once. *)
Definition accounts (n : N) (todo : list pinJob) (r : pin_report) : Prop :=
  (∀ job, job ∈ todo → kubo_pinned n (pj_cid job) ∨ pj_epoch job ∈ pr_failed r ++ pr_incomplete r) ∧
  ∃ pinned, Z.of_nat (length pinned) = pr_pinned r ∧
    pinned ++ pr_failed r ++ pr_incomplete r ≡ₚ pj_epoch <$> todo ∧
    ∀ e, e ∈ pinned → ∃ job, job ∈ todo ∧ pj_epoch job = e ∧ kubo_pinned n (pj_cid job).

Lemma run_jobs_accounts ctxErr retries todo schedule n states n' : 0 ≤ retries →
  run_jobs ctxErr retries todo schedule n = (Ok states, n') → accounts n' todo (pin_summary todo states).
Proof.
  intros Hr Hs%run_jobs_ok; [|done]. split; [intros job; by apply (job_reported (λ job, kubo_pinned n' (pj_cid job)))|].
  exists (epochs_of is_pinned todo states). split_and!; [done| |].
  - cbn [pin_summary pr_failed pr_incomplete]. rewrite (proj1 (sortUint64_spec _)), (proj1 (sortUint64_spec _)).
    apply epochs_of_partition. eapply Forall2_impl; [exact Hs|]. by intros job st (e & -> & _); exists e.
  - intros e. by apply (epochs_of_pinned (λ job, kubo_pinned n' (pj_cid job))).
Qed.

(** The CIDs of a report's epochs are on record. *)
Definition recorded_cid (t : tables) (e : Z) (c : cid) : Prop :=
  ∃ row, network_rows network t !! e = Some row ∧ cid_Decode (ep_cid row) = Ok c.

Lemma cmdPinExisting_pins ctxErr schedule w code rep w' e c :
  cmdPinExisting cfg connect flags ctxErr schedule w = (Ok (code, rep), w') →
  pf_dryRun flags = false → pf_limit flags ≤ 0 → recorded_cid (c_tables (fst w)) e c →
  kubo_pinned (snd w') c ∨
  code = 1 ∧ match rep with None => True | Some r => e ∈ pr_failed r ++ pr_incomplete r end.
Proof.
  intros Hrun Hdry Hlim (row & Hrow & Hc).
  destruct (cmdPinExisting_inv _ _ _ _ _ _ Hrun) as [[-> ->]|(records & d & n1 & pins & Hq & Hpins & Hrest)]; [by right|].
  apply GetAllEpochs_Ok in Hq as (_ & _ & _ & Hrec). cbn zeta in Hrest.
  assert (limited flags (pin_todo pins records) = pin_todo pins records) as Hl.
  { unfold limited. by rewrite (proj2 (Z.ltb_ge _ _)). }
  rewrite Hl in Hrest.
  assert (mkEpochRecord e (ep_cid row) (ep_size_bytes row) ∈ records) as Hin by (apply Hrec; eauto).
  assert (kubo_pinned n1 c ∨ mkPinJob e c ∈ pin_todo pins records) as Hj.
  { destruct (decide (cid_String c ∈ pins)) as [Hp|Hp]; [left; apply Hpins; [by eapply cid_Decode_defined|done]|right].
    apply elem_of_pin_todo. eexists. by split_and!. }
  destruct Hrest as [(_ & _ & Hd & Hk)|(states & Hs & -> & _ & ->)].
  { left. destruct Hj as [Hj|Hj]; [by apply Hk|]. destruct Hd as [Hd|Hd]; [congruence|]. rewrite Hd in Hj. set_solver. }
  pose proof (always_pool_run ctxErr (Z.max 0 (pf_retries flags)) (pin_todo pins records)
    (schedule ++ drain (Z.max 0 (pf_retries flags)) (pin_todo pins records)) (replicate (length (pin_todo pins records)) PVerify) n1) as Hk.
  change (pool_run _ _ _ _ _ n1) with (run_jobs ctxErr (Z.max 0 (pf_retries flags)) (pin_todo pins records) schedule n1) in Hk.
  rewrite Hs in Hk. cbn [snd] in Hk. destruct Hj as [Hj|Hj]; [left; by apply Hk|].
  apply run_jobs_accounts in Hs as [Hall _]; [|lia]. destruct (Hall _ Hj) as [|Hin']; [by left|right].
  split; [|done]. rewrite bool_decide_eq_false_2; [done|]. intros [H1 H2]. rewrite H1, H2 in Hin'. set_solver.
Qed.

(** C32. What pin-existing guarantees, under any interleaving of its workers and
    any failures of the node: it leaves the database alone and unpins nothing;
    an epoch on record whose CID parses is pinned afterwards, or the report
    names it and the exit code is 1 (unless the run was dry, limited, or
    stopped by the configuration or the database, which has no report). The
    pinned, failed and incomplete epochs are together the epochs it set out to
    pin, each once. *)
Theorem cmdPinExisting_correct ctxErr schedule w code rep w' :
  cmdPinExisting cfg connect flags ctxErr schedule w = (Ok (code, rep), w') →
  c_tables (fst w') = c_tables (fst w) ∧ keeps_pins (snd w) (snd w') ∧
  (pf_dryRun flags = false → pf_limit flags ≤ 0 → ∀ e c, recorded_cid (c_tables (fst w)) e c →
     kubo_pinned (snd w') c ∨
     code = 1 ∧ match rep with None => True | Some r => e ∈ pr_failed r ++ pr_incomplete r end) ∧
  (∀ r, rep = Some r →
     (code = 0 ↔ pr_failed r = [] ∧ pr_incomplete r = []) ∧
     ∃ pinned, Z.of_nat (length pinned) = pr_pinned r ∧ NoDup (pinned ++ pr_failed r ++ pr_incomplete r) ∧
       ∀ e, e ∈ pinned → ∃ c, recorded_cid (c_tables (fst w)) e c ∧ kubo_pinned (snd w') c).
Proof.
  intros Hrun. pose proof (always_cmdPinExisting ctxErr schedule w) as Ha. rewrite Hrun in Ha. cbn [snd] in Ha. destruct Ha as [Ht Hk].
  split_and!; [done|done|intros; by eapply cmdPinExisting_pins|]. intros r ->.
  destruct (cmdPinExisting_inv _ _ _ _ _ _ Hrun) as [[_ [=]]|(records & d & n1 & pins & Hq & _ & Hrest)]. cbn zeta in Hrest.
  destruct Hrest as [(_ & [=] & _)|(states & Hs & [= ->] & _ & ->)].
  split; [by case_bool_decide|]. apply run_jobs_accounts in Hs as [_ (pinned & Hlen & Hp & Hin)]; [|lia].
  apply GetAllEpochs_Ok in Hq as (_ & Hnd & _ & Hrec).
  exists pinned. split_and!; [done| |].
  - rewrite Hp. eapply sublist_NoDup; [done|apply todo_sublist].
  - intros e (job & Hj & <- & Hpin)%Hin. apply todo_recorded in Hj as (rec & Hr & <- & Hd).
    destruct rec as [e s z]. apply Hrec in Hr as (row & Hrow & <- & _). exists (pj_cid job). split; [by exists row|done].
Qed.

(** ** The check of the node *)

Lemma present_missing (f : EpochRecord → bool) (records : list EpochRecord) :
  (length (filter (λ r, f r = true) records) + length (filter (λ r, f r = false) records) = length records)%nat.
Proof.
  induction records as [|r l IH]; [done|]. rewrite !filter_cons.
  destruct (f r); repeat case_decide; cbn [length] in *; (done || lia).
Qed.

(** C33. Pinning and checking fit together: after pin-existing has exited with 0
    (not dry, not limited), a check of the node whose database and pin list
    answer finds exactly the recorded epochs whose CID does not parse missing,
    in ascending order, and counts all others as present. *)
Theorem cmdPinExisting_checked ctxErr schedule order workers w rep w1 records d pins n1 :
  cmdPinExisting cfg connect flags ctxErr schedule w = (Ok (0, rep), w1) →
  pf_dryRun flags = false → pf_limit flags ≤ 0 →
  GetAllEpochs network (fst w1) = (Ok records, d) → ListRecursivePins (snd w1) = (Ok pins, n1) →
  ∃ present missing w2,
    checkEpochsInIPFS cfg order workers w1 = (Ok (present, missing), w2) ∧
    present + Z.of_nat (length missing) = Z.of_nat (length records) ∧ StronglySorted Z.le missing ∧ NoDup missing ∧
    ∀ e, e ∈ missing ↔
      ∃ row, network_rows network (c_tables (fst w)) !! e = Some row ∧ ∀ c, cid_Decode (ep_cid row) ≠ Ok c.
Proof.
  intros Hrun Hdry Hlim Hq Hls. pose proof (always_cmdPinExisting ctxErr schedule w) as Ha.
  rewrite Hrun in Ha. cbn [snd] in Ha. destruct Ha as [Ht _].
  assert (∀ r, r ∈ records → present_epoch pins r = false ↔ ∀ c, cid_Decode (rec_CID r) ≠ Ok c) as Hpres.
  { intros [e s z] Hr. pose proof Hq as (_ & _ & _ & Hrec)%GetAllEpochs_Ok. apply Hrec in Hr as (row & Hrow & <- & <-).
    unfold present_epoch. cbn [rec_CID]. destruct (cid_Decode (ep_cid row)) as [c|e'|p] eqn:Hd; [|done..].
    rewrite bool_decide_eq_false. split; [|intros H; by destruct (H c)]. intros Hnp. destruct Hnp.
    apply (ListRecursivePins_Ok _ _ _ Hls); [by eapply cid_Decode_defined|].
    pose proof (always_ListRecursivePins (snd w1) c) as Hk. rewrite Hls in Hk. apply Hk.
    destruct (cmdPinExisting_pins _ _ _ _ _ _ e c Hrun Hdry Hlim) as [|[[=] _]]; [|done]. exists row. by rewrite <- Ht. }
  pose proof Hq as (_ & Hnd & _ & Hrec)%GetAllEpochs_Ok. rewrite Ht in Hrec.
  set (gone := filter (λ r, present_epoch pins r = false) records).
  destruct (sortUint64_spec (rec_Epoch <$> gone)) as [Hp Hs].
  assert (∃ w2, checkEpochsInIPFS cfg order workers w1 = (Ok (checkEpochsAgainstPins records pins), w2)) as [w2 Hw2].
  { unfold checkEpochsInIPFS. rewrite bind_eq. unfold attempt at 1, db_part, zoom. rewrite Hq.
    destruct records as [|r l]; [by eexists|]. rewrite bind_eq. unfold attempt, node_part, zoom. cbn [snd]. rewrite Hls. by eexists. }
  exists (Z.of_nat (length (filter (λ r, present_epoch pins r = true) records))), (sortUint64 (rec_Epoch <$> gone)), w2.
  split_and!; [done| |done| |].
  - pose proof (present_missing (present_epoch pins) records) as Hpm. fold gone in Hpm. rewrite Hp, length_fmap. lia.
  - rewrite Hp. by apply NoDup_fmap_filter.
  - intros e. rewrite elem_of_sortUint64, list_elem_of_fmap. split.
    + intros ([e' s z] & -> & [Hf Hr]%list_elem_of_filter). pose proof Hr as (row & Hrow & <- & _)%Hrec.
      exists row. split; [done|]. by apply (Hpres _ Hr).
    + intros (row & Hrow & Hbad). assert (mkEpochRecord e (ep_cid row) (ep_size_bytes row) ∈ records) as Hr by (apply Hrec; eauto).
      eexists. split; [|apply list_elem_of_filter; split; [|exact Hr]]; [done|]. by apply Hpres.
Qed.

(** What one block/stat answers on a node that answering leaves as it is. *)
Definition has_epoch (n : N) (rec : EpochRecord) : bool :=
  match fst (stat_epoch rec n) with Ok ok => ok | _ => false end.

Lemma stat_epoch_eq n rec : (∀ id, snd (kubo_rpc (ReqBlockStat id) n) = n) → stat_epoch rec n = (Ok (has_epoch n rec), n).
Proof.
  intros Hn. unfold has_epoch, stat_epoch. destruct (cid_Decode (rec_CID rec)) as [c| |]; [|done..].
  rewrite bind_eq. unfold attempt, HasBlock. specialize (Hn (cid_String c)).
  destruct (kubo_rpc _ n) as [[e|st body] n']; cbn in Hn |- *; by subst.
Qed.

Lemma stat_epochs_eq n records order : (∀ id, snd (kubo_rpc (ReqBlockStat id) n) = n) →
  stat_epochs records order n = (Ok ((λ r, (rec_Epoch r, has_epoch n r)) <$> omap (records !!.) order), n).
Proof.
  intros Hn. induction order as [|i rest IH]; [done|]. cbn [stat_epochs omap list_omap].
  destruct (records !! i) as [rec|]; [|exact IH]. rewrite bind_eq, stat_epoch_eq by done. by rewrite bind_eq, IH.
Qed.

Lemma omap_lookup_seq {A} (l : list A) : omap (l !!.) (seq 0 (length l)) = l.
Proof.
  induction l as [|x l IH]; [done|]. cbn [length seq omap list_omap lookup list_lookup]. f_equal.
  rewrite <- fmap_S_seq. rewrite <- IH at 2. clear IH. generalize (seq 0 (length l)) as idx. induction idx as [|i idx IH]; [done|].
  cbn [fmap list_fmap omap list_omap lookup list_lookup]. destruct (l !! i); [f_equal|]; exact IH.
Qed.

Lemma sortUint64_perm l l' : l ≡ₚ l' → sortUint64 l = sortUint64 l'.
Proof.
  intros Hp. destruct (sortUint64_spec l) as [H1 S1], (sortUint64_spec l') as [H2 S2].
  apply (StronglySorted_unique Z.le); [done|done|]. by rewrite H1, Hp, H2.
Qed.

(** The parallel block/stat check computes what a sequential pass over the
    records would, in whatever order the workers take the epochs: the number of
    epochs whose root the node has, and the others in ascending order. Both
    ways of checking the node therefore report in the same form. *)
Theorem checkEpochsByBlockStat_order records order workers n :
  (∀ id, snd (kubo_rpc (ReqBlockStat id) n) = n) → 0 < workers → order ≡ₚ seq 0 (length records) →
  checkEpochsByBlockStat records order workers n =
    (Ok (Z.of_nat (length (filter (λ r, has_epoch n r = true) records)),
         sortUint64 (rec_Epoch <$> filter (λ r, has_epoch n r = false) records)), n).
Proof.
  intros Hn Hw Ho. unfold checkEpochsByBlockStat. rewrite (proj2 (Z.leb_gt _ _)) by done.
  rewrite bind_eq, stat_epochs_eq by done.
  assert (∀ b, filter (λ r : Z * bool, snd r = b) ((λ r, (rec_Epoch r, has_epoch n r)) <$> omap (records !!.) order)
    ≡ₚ (λ r, (rec_Epoch r, b)) <$> filter (λ r, has_epoch n r = b) records) as Hf.
  { intros b. rewrite Ho, omap_lookup_seq. clear. induction records as [|r l IH]; [done|].
    rewrite fmap_cons, !filter_cons. cbn [snd]. case_decide as Hb; [|exact IH]. rewrite fmap_cons, IH. by rewrite Hb. }
  rewrite (Permutation_length (Hf true)), length_fmap. unfold mret, go_ret. do 3 f_equal.
  apply sortUint64_perm. by rewrite Hf, <- list_fmap_compose.
Qed.
End Command.

(** ** The properties at concrete inputs *)

Module DemoPins.

(** A node with a set of pins; pinning the CIDs of [stuck] fails, and a walk of
    those of [lost] meets a missing block. *)
Definition pin_node := list cid.

Definition keys_body (n : pin_node) : string := pos_bits (encode (cid_String <$> n)).

Definition names (id : string) (l : list cid) : bool :=
  match cid_Decode id with Ok c => bool_decide (c ∈ l) | _ => false end.

Definition rpc_model (stuck lost : list cid) : Kubo pin_node := λ req n,
  match req with
  | ReqPinAdd id =>
      match cid_Decode id with
      | Ok c => if bool_decide (c ∈ stuck) then (Response 500 "pin: timeout", n) else (Response StatusOK "", c :: n)
      | _ => (Response 500 "invalid cid", n)
      end
  | ReqPinLs => (Response StatusOK (keys_body n), n)
  | ReqRefs id => (Response StatusOK (if names id lost then "lost" else ""), n)
  | ReqBlockStat id => (Response (if names id n then StatusOK else 500) "", n)
  | _ => (Response 500 "not supported", n)
  end.

#[export] Instance json_model : KuboJson := {|
  json_pin_keys s := of_option (errors_New "invalid JSON") (decode (bits_pos s));
  json_refs s := if bool_decide (s = "lost") then [Ok ("", "block was not found locally")] else [];
  json_dag_size _ := Ok 0; json_publish _ := Ok (mkIPNSPublishResult "" ""); json_path _ := Ok "";
  json_key_names _ := Ok []; json_repo_stat _ := Ok (mkRepoStat 0 0 0); json_node_info _ := Ok (mkNodeInfo "" "" "" []) |}.

Definition pins_model (stuck lost : list cid) : KuboPins (K := rpc_model stuck lost) pin_node.
Proof.
  refine (@Build_KuboPins pin_node (rpc_model stuck lost) json_model ipld_model (λ n c, c ∈ n) _ _ _).
  - intros c n body n'. unfold kubo_rpc, rpc_model. destruct (decide (c = cid_Undef)) as [->|Hc]; [done|].
    rewrite cid_Decode_String by done. case_bool_decide; [done|]. intros [= _ <-]. set_solver.
  - intros req n r n' c. unfold kubo_rpc, rpc_model. destruct req; try (by intros [= _ <-]).
    destruct (cid_Decode id) as [k| |]; [|by intros [= _ <-]..]. case_bool_decide; intros [= _ <-]; set_solver.
  - intros n body n' keys. unfold kubo_rpc, rpc_model. intros [= <- <-].
    cbn [json_pin_keys json_model]. unfold keys_body. rewrite bits_pos_bits, decode_encode. intros [= <-] c Hc. split.
    + intros Hin. exists (cid_String c). split; [by apply list_elem_of_fmap_2|by apply cid_Decode_String].
    + intros (k & (c' & -> & Hin)%list_elem_of_fmap & Hd). destruct (decide (c' = cid_Undef)) as [->|Hc']; [done|].
      change (model_String c') with (cid_String c') in Hd. rewrite cid_Decode_String in Hd by done. by injection Hd as ->.
Defined.

(** Four epochs on record: one already pinned, one to pin, one that is not all
    there, and one whose CID does not parse. *)
Definition a : cid := Cid 1 mc_Raw mh_SHA2_256 1 "a".
Definition b : cid := Cid 1 mc_Raw mh_SHA2_256 1 "b".
Definition x : cid := Cid 1 mc_Raw mh_SHA2_256 1 "x".

Definition pin_row (s : string) : epoch_row := mkEpochRow "mainnet" 0 None s "" 0 0.
Definition epochs (l : list (Z * string)) : tables := mkTables (list_to_map (prod_map id pin_row <$> l)) ∅ ∅.
Definition pin_recorded : tables := epochs [(7, cid_String a); (8, cid_String b); (9, cid_String x); (10, "")].

Definition flags : pin_flags := mkPinFlags false 4 2 0.
Definition no_deadline : nat → nat → option error := λ _ _, None.
Definition before : Db.Client * pin_node := (healthy pin_recorded, [a]).

(** The blocks of [x] are incomplete: the run reports it and exits with 1. *)
Definition run (lost : list cid) : outcome (Z * option pin_report) * (Db.Client * pin_node) :=
  cmdPinExisting (K := rpc_model [] lost) (New.demo_cfg "4") None flags no_deadline [1; 0; 1]%nat before.

Lemma run_incomplete : run [x] = (Ok (1, Some (mkPinReport 1 [] [9])), snd (run [x])).
Proof. vm_compute. reflexivity. Qed.

Lemma run_clean : run [] = (Ok (0, Some (mkPinReport 2 [] [])), snd (run [])).
Proof. vm_compute. reflexivity. Qed.
End DemoPins.

Lemma cmdPinExisting_correct_witness :
  (DemoPins.b ∈ snd (snd (DemoPins.run [DemoPins.x])) ∨ 1 = 1 ∧ 8 ∈ [9]) ∧
  ∃ pinned : list Z, length pinned = 1%nat ∧ NoDup (pinned ++ [] ++ [9]).
Proof.
  destruct (cmdPinExisting_correct (KP := DemoPins.pins_model [] [DemoPins.x]) (New.demo_cfg "4") None DemoPins.flags
    DemoPins.no_deadline [1; 0; 1]%nat DemoPins.before 1 (Some (mkPinReport 1 [] [9])) _ DemoPins.run_incomplete)
    as (_ & _ & Hp & Hr).
  split.
  - apply (Hp eq_refl ltac:(done) 8 DemoPins.b). exists (DemoPins.pin_row (cid_String DemoPins.b)). vm_compute. done.
  - destruct (Hr _ eq_refl) as (_ & pinned & Hl & Hnd & _). exists pinned. cbn [pr_pinned] in Hl. split; [lia|exact Hnd].
Defined.

Lemma cmdPinExisting_checked_witness : ∃ present missing w2,
  checkEpochsInIPFS (K := DemoPins.rpc_model [] []) (KJ := DemoPins.json_model) (New.demo_cfg "4") (seq 0) 4 (snd (DemoPins.run [])) =
    (Ok (present, missing), w2) ∧ present + Z.of_nat (length missing) = 4 ∧ 10 ∈ missing.
Proof.
  destruct (cmdPinExisting_checked (KP := DemoPins.pins_model [] []) (New.demo_cfg "4") None DemoPins.flags
    DemoPins.no_deadline [1; 0; 1]%nat (seq 0) 4 DemoPins.before _ _
    [mkEpochRecord 7 (cid_String DemoPins.a) 0; mkEpochRecord 8 (cid_String DemoPins.b) 0;
     mkEpochRecord 9 (cid_String DemoPins.x) 0; mkEpochRecord 10 "" 0]
    (fst (snd (DemoPins.run []))) (list_to_set (cid_String <$> [DemoPins.x; DemoPins.b; DemoPins.a])) (snd (snd (DemoPins.run [])))
    DemoPins.run_clean eq_refl ltac:(done))
    as (present & missing & w2 & Hc & Hn & _ & Hnd & Hin).
  - vm_compute. reflexivity.
  - vm_compute. reflexivity.
  - exists present, missing, w2. split; [exact Hc|]. split; [exact Hn|].
    apply Hin. exists (DemoPins.pin_row ""). split; [vm_compute; reflexivity|]. intros c. vm_compute. discriminate.
Defined.

Lemma checkEpochsByBlockStat_order_witness :
  checkEpochsByBlockStat (K := DemoPins.rpc_model [] [])
    [mkEpochRecord 9 (cid_String DemoPins.x) 0; mkEpochRecord 8 (cid_String DemoPins.b) 0; mkEpochRecord 7 (cid_String DemoPins.a) 0]
    [1; 2; 0]%nat 4 [DemoPins.a] = (Ok (1, [8; 9]), [DemoPins.a]).
Proof.
  rewrite (checkEpochsByBlockStat_order (K := DemoPins.rpc_model [] [])
    [mkEpochRecord 9 (cid_String DemoPins.x) 0; mkEpochRecord 8 (cid_String DemoPins.b) 0; mkEpochRecord 7 (cid_String DemoPins.a) 0]
    [1; 2; 0]%nat 4 [DemoPins.a]).
  - vm_compute. reflexivity.
  - intros id. reflexivity.
  - lia.
  - cbn. transitivity [1; 0; 2]%nat; [do 1 constructor; constructor|constructor].
Defined.
