(* ===== verification/Summary.v ===== *)
(** * Summary: the summary command of cmd/blobscan-ipld/main.go

    Numbers, sizes, dates and durations as the command prints them, the
    per-month statistics of db.go it shows, and the command itself. *)

From Stdlib Require Import SpecFloat.
From S2P Require Import Prelude GoStd GoTime CliUtil Types Ipld Store IpldModel Blob Db Beacon Ipfs Health Car Pin.
From S2P Require Config.

(** ** Printing float64 *)

Definition f64_add (a b : float64) : float64 := SFadd 53 1024 a b.

(** The quotient rounded to the nearest integer, ties to even. *)
Definition div_even (n d : Z) : Z :=
  let q := n / d in
  let r := n mod d in
  if 2 * r <? d then q else if d <? 2 * r then q + 1 else if Z.even q then q else q + 1.

(** The decimal digits of [n / 10^prec]. *)
Definition decimal (prec : nat) (n : Z) : string :=
  let unit := 10 ^ Z.of_nat prec in
  let frac := FormatUint (n mod unit) in
  FormatUint (n / unit) +:+ "." +:+ repeat_str (prec - String.length frac) "0" +:+ frac.

(** [fmt.Sprintf("%.<prec>f", f)] for a [prec] above 0. *)
Definition format_fixed (prec : nat) (f : float64) : string :=
  match f with
  | S754_nan => "NaN"
  | S754_infinity s => if s then "-Inf" else "+Inf"
  | S754_zero s => (if s then "-" else "") +:+ decimal prec 0
  | S754_finite s m e =>
      let n := Z.pos m * 10 ^ Z.of_nat prec in
      (if s then "-" else "") +:+ decimal prec (if 0 <=? e then n * 2 ^ e else div_even n (2 ^ (- e)))
  end.

(** [float64(n) / unit] for the constants of formatBytes. *)
Definition in_units (n unit : Z) : float64 := f64_div (f64_of_Z n) (f64_of_Z unit).

Definition formatBytes (n : Z) : string :=
  if 2 ^ 30 <=? n then format_fixed 2 (in_units n (2 ^ 30)) +:+ " GiB"
  else if 2 ^ 20 <=? n then format_fixed 1 (in_units n (2 ^ 20)) +:+ " MiB"
  else if 2 ^ 10 <=? n then format_fixed 1 (in_units n (2 ^ 10)) +:+ " KiB"
  else pretty n +:+ " B".

(** [float64(a) / float64(b) * 100]. *)
Definition percent (a b : Z) : float64 := f64_mul (f64_div (f64_of_Z a) (f64_of_Z b)) (f64_of_Z 100).

(** ** Dates and durations *)

(** The civil date of a day number, counted from 1970-01-01. *)
Definition civil (days : Z) : Z * Z * Z :=
  let z := days + 719468 in
  let era := z / 146097 in
  let doe := z mod 146097 in
  let yoe := (doe - doe / 1460 + doe / 36524 - doe / 146096) / 365 in
  let doy := doe - (365 * yoe + yoe / 4 - yoe / 100) in
  let mp := (5 * doy + 2) / 153 in
  let d := doy - (153 * mp + 2) / 5 + 1 in
  let m := if mp <? 10 then mp + 3 else mp - 9 in
  (yoe + era * 400 + (if m <=? 2 then 1 else 0), m, d).

(** A number with leading zeros, [%0<n>d]. *)
Definition zero_padded (n : nat) (x : Z) : string :=
  let s := FormatUint x in repeat_str (n - String.length s) "0" +:+ s.

(** [t.UTC().Format("2006-01")], and with "2006-01-02T15:04:05Z", of a time in
    seconds since 1970. *)
Definition format_month (t : Z) : string :=
  let '(y, m, _) := civil (t / 86400) in zero_padded 4 y +:+ "-" +:+ zero_padded 2 m.

Definition format_utc (t : Z) : string :=
  let '(y, m, d) := civil (t / 86400) in
  let s := t mod 86400 in
  zero_padded 4 y +:+ "-" +:+ zero_padded 2 m +:+ "-" +:+ zero_padded 2 d +:+ "T" +:+
  zero_padded 2 (s / 3600) +:+ ":" +:+ zero_padded 2 (s / 60 mod 60) +:+ ":" +:+ zero_padded 2 (s mod 60) +:+ "Z".

(** [b.Sub(a)] of times in whole seconds: saturating nanoseconds. *)
Definition time_Sub (b a : Z) : Z := Z.max (- two63) (Z.min (two63 - 1) ((b - a) * 1000000000)).

Definition dur_Hours (d : Z) : float64 :=
  f64_add (f64_of_Z (Z.quot d 3600000000000)) (f64_div (f64_of_Z (Z.rem d 3600000000000)) (f64_of_Z 3600000000000)).
Definition dur_Minutes (d : Z) : float64 :=
  f64_add (f64_of_Z (Z.quot d 60000000000)) (f64_div (f64_of_Z (Z.rem d 60000000000)) (f64_of_Z 60000000000)).

Definition formatElapsed (a b : Z) : string :=
  let d := time_Sub b a in
  let d := if d <? 0 then to_i64 (- d) else d in
  let days := f64_trunc (f64_div (dur_Hours d) (f64_of_Z 24)) in
  if 2 <=? days then pretty days +:+ " days"
  else if days =? 1 then "1 day"
  else
    let h := f64_trunc (dur_Hours d) in
    if 1 <=? h then pretty h +:+ "h" else pretty (f64_trunc (dur_Minutes d)) +:+ "m".

Example date_dencun : format_utc 1710338135 = "2024-03-13T13:55:35Z".
Proof. vm_compute. reflexivity. Qed.
Example elapsed_days : formatElapsed 1710338135 (1710338135 + 172799) = "1 day".
Proof. vm_compute. reflexivity. Qed.
Example elapsed_minutes : formatElapsed (1710338135 + 3599) 1710338135 = "59m".
Proof. vm_compute. reflexivity. Qed.
Example bytes_tie : formatBytes 1075838976 = "1.00 GiB" ∧ formatBytes 1331 = "1.3 KiB" ∧ formatBytes 1048575 = "1024.0 KiB".
Proof. vm_compute. done. Qed.

(** ** The statistics per month *)

Record MonthlyBlobStat := mkMonthlyBlobStat { ms_Month : Z; ms_EpochCount : Z; ms_BlobCount : Z; ms_SizeBytes : Z }.

(** What the command works on: the database, the node, and the lines printed. *)
Record SumWorld (N : Type) := mkSumWorld { sm_db : Db.Client; sm_node : N; sm_out : list string }.
Arguments mkSumWorld {N}.
Arguments sm_db {N}.
Arguments sm_node {N}.
Arguments sm_out {N}.

Section Monthly.
Context {R : GoRuntime} (date_trunc_month : Z → Z).

(** The rows with a time, grouped by the first moment of their month, which
    DATE_TRUNC takes in the time zone of the session. *)
Definition timed_rows (network : string) (t : tables) : list (Z * epoch_row) :=
  omap (λ e, (λ time, (date_trunc_month time, snd e)) <$> ep_epoch_time (snd e)) (epochs_ordered network t).

Definition month_groups (network : string) (t : tables) : list (Z * list epoch_row) :=
  prod_map id (fmap (M := list) snd) <$>
    sort_Slice (by_key fst Z.ltb) (map_range (group_by fst (timed_rows network t))).

Definition month_stat (g : Z * list epoch_row) : MonthlyBlobStat :=
  mkMonthlyBlobStat (fst g) (Z.of_nat (length (snd g))) (sum_Z (ep_blob_count <$> snd g)) (sum_Z (ep_size_bytes <$> snd g)).

Definition GetMonthlyStats (network : string) : Go Db.Client (list MonthlyBlobStat) :=
  wrapf "db: monthly stats" (db_query (λ t, Ok (month_stat <$> month_groups network t))).
End Monthly.

(** ** The command *)

Record summary_flags := mkSummaryFlags {
  sf_checkIPFS : bool; sf_showGaps : bool; sf_showEmpty : bool; sf_topN : Z; sf_monthly : bool }.

Section Command.
Context {I : Ipld} {R : GoRuntime} {P : Postgres} {N : Type} {K : Kubo N} {KJ : KuboJson}.
Context (date_trunc_month : Z → Z) (cfg : Config.Config) (connect : option error) (flags : summary_flags).
Context (order : nat → list nat).

Abbreviation W := (SumWorld N).
Abbreviation network := (Config.nc_Name (Config.c_Network cfg)).
Abbreviation sumWidth := 72.

Definition print (line : string) : Go W unit :=
  modify (λ w, mkSumWorld (sm_db w) (sm_node w) (sm_out w ++ [line])).
Definition query {A} : Go Db.Client A → Go W A := zoom sm_db (λ d w, mkSumWorld d (sm_node w) (sm_out w)).
Definition on_node {A} : Go N A → Go W A := zoom sm_node (λ n w, mkSumWorld (sm_db w) n (sm_out w)).
Definition on_both {A} : Go (Db.Client * N) A → Go W A :=
  zoom (λ w, (sm_db w, sm_node w)) (λ p w, mkSumWorld (fst p) (snd p) (sm_out w)).
Definition row (label value : string) : Go W unit := print (printRow label value).

(** A number with its noun, [1 epoch] or [2 epochs]. *)
Definition counted_noun (n : Z) (noun : string) : outcome string :=
  s ← formatCount n; Ok (s +:+ " " +:+ noun +:+ pluralS n).

Definition epochs_line (stats : SummaryStats) (gaps : list GapRange) : outcome string :=
  n ← formatCount (ss_EpochCount stats);
  rest ← match gaps with
         | [] => Ok "  (no gaps)"
         | _ =>
             let ngaps := Z.of_nat (length gaps) in
             missing ← counted_noun (ss_GapCount stats) "epoch";
             Ok ("  (" +:+ pretty ngaps +:+ " gap range" +:+ pluralS ngaps +:+ " · " +:+ missing +:+ " missing · " +:+
                 format_fixed 1 (percent (ss_EpochCount stats) (ss_ExpectedEpochCount stats)) +:+ "% coverage)")
         end;
  Ok (n +:+ "  [" +:+ FormatUint (ss_FirstEpoch stats) +:+ " → " +:+ FormatUint (ss_LastEpoch stats) +:+ "]" +:+ rest).

Definition blobs_line (stats : SummaryStats) : outcome string :=
  n ← formatCount (ss_TotalBlobs stats);
  peak ← formatCount (ss_MaxBlobsPerEpoch stats);
  empty ← (if 0 <? ss_EmptyEpochCount stats then
             e ← formatCount (ss_EmptyEpochCount stats);
             Ok ("  · " +:+ e +:+ " empty epoch" +:+ pluralS (ss_EmptyEpochCount stats))
           else Ok "");
  Ok (n +:+ "  (avg " +:+ format_fixed 1 (f64_div (f64_of_Z (ss_AvgBlobsPerEpoch_tenths stats)) (f64_of_Z 10)) +:+
      "/epoch · peak " +:+ peak +:+ " in epoch " +:+ FormatUint (ss_MaxBlobsEpoch stats) +:+ ")" +:+ empty).

(** The overview. *)
Definition overview (stats : SummaryStats) (gaps : list GapRange) : Go W unit :=
  e ← lift (epochs_line stats gaps); _ ← row "Epochs" e;
  b ← lift (blobs_line stats); _ ← row "Blobs" b;
  _ ← row "Data size" (formatBytes (ss_TotalSizeBytes stats) +:+ "  (avg " +:+
        formatBytes (Z.quot (ss_TotalSizeBytes stats) (ss_EpochCount stats)) +:+ "/epoch)");
  _ ← match ss_FirstEpochTime stats, ss_LastEpochTime stats with
      | Some a, Some z => row "Time" (format_utc a +:+ " → " +:+ format_utc z +:+ "  (" +:+ formatElapsed a z +:+ ")")
      | _, _ => mret tt
      end;
  row "Cursors" ("live=" +:+ FormatUint (ss_LiveCursor stats) +:+
    if 0 <? ss_BackfillCursor stats then "  backfill=" +:+ FormatUint (ss_BackfillCursor stats) else "").

(** The IPFS node, and the check of the epochs on it. *)
Definition missing_text (missing : list Z) : string :=
  match missing with
  | [] => ""
  | _ => newline +:+ "                  missing: " +:+ Join (FormatUint <$> take 10 missing) " · " +:+
         if (10 <? length missing)%nat then " … +" +:+ pretty (Z.of_nat (length missing) - 10) +:+ " more" else ""
  end.

Definition ipfs_epochs_line (present : Z) (missing : list Z) : outcome string :=
  let total := present + Z.of_nat (length missing) in
  p ← formatCount present;
  n ← formatCount total;
  let pct := if 0 <? total then percent present total else f64_of_Z 0 in
  Ok (p +:+ "/" +:+ n +:+ " epoch nodes present  (" +:+ format_fixed 1 pct +:+ "%)" +:+ missing_text missing).

Definition checkWorkers : Z := 64.

Definition ipfs_section : Go W unit :=
  if Config.ic_SkipUpload (Config.c_IPFS cfg) || bool_decide (Config.ic_APIAddr (Config.c_IPFS cfg) = "")
  then row "IPFS" "⚠ not configured (skip_upload=true or no api_addr)"
  else
    info ← attempt (on_node GetNodeInfo);
    _ ← row "IPFS node" (match info with
                         | inl e => "⚠ id: " +:+ err_msg e
                         | inr i => ni_ID i +:+ "  (" +:+ ni_AgentVersion i +:+ ")"
                         end);
    stat ← attempt (on_node (GetRepoStat true));
    _ ← row "IPFS storage" (match stat with
          | inl e => "⚠ repo/stat: " +:+ err_msg e
          | inr s =>
              let used := if 0 <? rs_StorageMax s then percent (rs_RepoSize s) (rs_StorageMax s) else f64_of_Z 0 in
              formatBytes (to_i64 (rs_RepoSize s)) +:+ " / " +:+ formatBytes (to_i64 (rs_StorageMax s)) +:+
              "  (" +:+ format_fixed 1 used +:+ "% used)"
          end);
    if sf_checkIPFS flags then
      r ← on_both (checkEpochsInIPFS cfg order checkWorkers);
      line ← lift (ipfs_epochs_line (fst r) (snd r));
      row "IPFS epochs" line
    else row "IPFS epochs" "use -check-ipfs to verify upload status".

(** A range of epochs as the two listings print it; its length is [n]. *)
Definition range_line (first last n : Z) : outcome string :=
  if first =? last then Ok ("  " +:+ FormatUint first)
  else
    c ← counted_noun n "epoch";
    Ok ("  " +:+ FormatUint first +:+ " → " +:+ FormatUint last +:+ "  (" +:+ c +:+ ")").

Definition gaps_section (gaps : list GapRange) : Go W unit :=
  match gaps with
  | [] => print (printSectionHeader "Epoch gaps" "none" sumWidth)
  | _ =>
      let totalMissing := foldl (λ n g, i64_add n (to_i64 (GapRange_Count g))) 0 gaps in
      let ngaps := Z.of_nat (length gaps) in
      missing ← lift (counted_noun totalMissing "epoch");
      _ ← print (printSectionHeader "Epoch gaps"
            (pretty ngaps +:+ " range" +:+ pluralS ngaps +:+ " · " +:+ missing +:+ " missing") sumWidth);
      for_each gaps (λ g,
        line ← lift (range_line (gap_Start g) (gap_End g) (to_i64 (GapRange_Count g))); print line)
  end.

(** The loop over the empty epochs, with the range it is in: what it flushes. *)
Fixpoint empty_ranges (start stop : Z) (l : list Z) : list (Z * Z) :=
  match l with
  | [] => [(start, stop)]
  | e :: rest => if e =? u64_add stop 1 then empty_ranges start e rest else (start, stop) :: empty_ranges e e rest
  end.

Definition empty_section : Go W unit :=
  emptyEpochs ← query (GetEmptyEpochs network);
  match emptyEpochs with
  | [] => print (printSectionHeader "Empty epochs" "none" sumWidth)
  | e :: rest =>
      n ← lift (counted_noun (Z.of_nat (length emptyEpochs)) "epoch");
      _ ← print (printSectionHeader "Empty epochs" (n +:+ " with no blobs on-chain") sumWidth);
      for_each (empty_ranges e e rest) (λ r,
        line ← lift (range_line (fst r) (snd r) (to_i64 (u64_add (u64_sub (snd r) (fst r)) 1))); print line)
  end.

(** [%<n>s] of a string, in runes. *)
Definition pad_left (n : nat) (s : string) : string := repeat_str (n - String.length s) " " +:+ s.

Definition top_section : Go W unit :=
  topRows ← query (GetTopEpochsByBlobCount network (Z.to_nat (sf_topN flags)));
  _ ← print (printSectionHeader ("Top " +:+ pretty (sf_topN flags) +:+ " epochs by blob count") "" sumWidth);
  _ ← print ("  " +:+ pad_right 10 "EPOCH" +:+ "  " +:+ pad_left 8 "BLOBS" +:+ "  " +:+ pad_left 10 "SIZE" +:+ "  TIME");
  for_each topRows (λ r,
    blobs ← lift (formatCount (top_BlobCount r));
    print ("  " +:+ pad_right 10 (FormatUint (top_Epoch r)) +:+ "  " +:+ pad_left 8 blobs +:+ "  " +:+
           pad_left 10 (formatBytes (top_SizeBytes r)) +:+ "  " +:+ from_option format_utc "—" (top_EpochTime r))).

Definition monthly_section : Go W unit :=
  months ← query (GetMonthlyStats date_trunc_month network);
  match months with
  | [] => print (printSectionHeader "Monthly breakdown" "no epoch_time data available" sumWidth)
  | _ =>
      _ ← print (printSectionHeader "Monthly breakdown" "" sumWidth);
      _ ← print ("  " +:+ pad_right 10 "MONTH" +:+ "  " +:+ pad_left 8 "EPOCHS" +:+ "  " +:+ pad_left 10 "BLOBS" +:+
                 "  " +:+ pad_left 10 "SIZE");
      for_each months (λ m,
        epochs ← lift (formatCount (ms_EpochCount m));
        blobs ← lift (formatCount (ms_BlobCount m));
        print ("  " +:+ pad_right 10 (format_month (ms_Month m)) +:+ "  " +:+ pad_left 8 epochs +:+ "  " +:+
               pad_left 10 blobs +:+ "  " +:+ pad_left 10 (formatBytes (ms_SizeBytes m))))
  end.

Definition when (b : bool) (m : Go W unit) : Go W unit := if b then m else mret tt.

(** The command once it has a database; an error is its exit with code 1. *)
Definition summary : Go W unit :=
  _ ← print (printSummaryHeader network sumWidth);
  stats ← query (GetSummaryStats network);
  if ss_EpochCount stats =? 0 then print "  (no epochs indexed yet)"
  else
    gaps ← (if 0 <? ss_GapCount stats then query (GetEpochGapRanges network) else mret []);
    _ ← overview stats gaps;
    _ ← ipfs_section;
    _ ← when (sf_showGaps flags) (gaps_section gaps);
    _ ← when (sf_showEmpty flags) empty_section;
    _ ← when (0 <? sf_topN flags) top_section;
    when (sf_monthly flags) monthly_section.

Definition cmdSummary : Go W Z :=
  if bool_decide (Config.st_PostgresDSN (Config.c_Storage cfg) = "") then mret 1
  else match connect with
  | Some _ => mret 1
  | None => r ← attempt summary; mret (match r with inl _ => 1 | inr _ => 0 end)
  end.
End Command.

(** ** The months add up *)

Lemma sum_Z_app l l' : sum_Z (l ++ l') = sum_Z l + sum_Z l'.
Proof. induction l as [|x l IH]; cbn; [done|]. unfold sum_Z in *. cbn. lia. Qed.

Lemma sum_Z_concat ls : sum_Z (sum_Z <$> ls) = sum_Z (concat ls).
Proof. induction ls as [|l ls IH]; [done|]. rewrite fmap_cons. cbn [concat]. rewrite sum_Z_app, <- IH. done. Qed.

#[export] Instance sum_Z_perm : Proper ((≡ₚ) ==> eq) sum_Z.
Proof. induction 1; unfold sum_Z in *; cbn in *; lia. Qed.

Section Groups.
Context {A K : Type} `{Countable K} (key : A → K).

(** The groups of a list are the list. *)
Lemma groups_perm l : concat (snd <$> map_to_list (group_by key l)) ≡ₚ l.
Proof.
  set (m := group_by key l).
  assert (snd <$> map_to_list m = (λ k, bucket key k l) <$> (fst <$> map_to_list m)) as ->.
  { rewrite <- list_fmap_compose. apply list_fmap_ext. intros i [k g] Hi. cbn.
    apply list_elem_of_lookup_2, elem_of_map_to_list, group_by_lookup in Hi as [-> _]. done. }
  rewrite concat_buckets_perm by apply NoDup_fst_map_to_list. rewrite list_filter_all; [done|].
  intros x Hx. apply list_elem_of_fmap. exists (key x, bucket key (key x) l). split; [done|].
  apply elem_of_map_to_list, group_by_lookup. split; [done|]. by apply list_elem_of_fmap_2.
Qed.
End Groups.

Section MonthlyFacts.
Context {R : GoRuntime} (date_trunc_month : Z → Z) (network : string).

Abbreviation groups t := (month_groups date_trunc_month network t).
Abbreviation timed t := (timed_rows date_trunc_month network t).

Lemma month_groups_perm t :
  groups t ≡ₚ prod_map id (fmap (M := list) snd) <$> map_to_list (group_by fst (timed t)).
Proof. unfold month_groups. by rewrite sort_Slice_perm, map_range_perm. Qed.

Lemma month_rows t : concat (snd <$> groups t) ≡ₚ snd <$> timed t.
Proof.
  rewrite month_groups_perm, <- list_fmap_compose. rewrite <- (groups_perm fst (timed t)) at 2.
  generalize (map_to_list (group_by fst (timed t))) as l. induction l as [|[k g] l IH]; [done|].
  cbn [fmap list_fmap concat]. rewrite fmap_app. cbn [compose prod_map snd fst]. by rewrite IH.
Qed.

Lemma month_sum (f : epoch_row → Z) t : sum_Z ((λ g, sum_Z (f <$> snd g)) <$> groups t) = sum_Z (f ∘ snd <$> timed t).
Proof.
  rewrite list_fmap_compose, <- month_rows. generalize (groups t) as l. induction l as [|g l IH]; [done|].
  cbn [fmap list_fmap concat]. rewrite fmap_app, sum_Z_app, <- IH. done.
Qed.

Lemma sum_Z_ones {A} (l : list A) : sum_Z ((λ _, 1) <$> l) = Z.of_nat (length l).
Proof. induction l as [|x l IH]; [done|]. unfold sum_Z in *. cbn in *. lia. Qed.

Lemma months_ascending t : StronglySorted Z.lt (fst <$> groups t).
Proof.
  assert (fst <$> groups t = fst <$> sort_Slice (by_key fst Z.ltb) (map_range (group_by fst (timed t)))) as ->.
  { unfold month_groups. by rewrite <- list_fmap_compose. }
  apply sorted_NoDup_lt; [apply sort_by_key_sorted; apply _|].
  rewrite (sort_Slice_perm _ _), (map_range_perm _). apply NoDup_fst_map_to_list.
Qed.

(** With a time in every row, the rows are those of the network. *)
Lemma all_timed t :
  (∀ e row, network_rows network t !! e = Some row → is_Some (ep_epoch_time row)) →
  snd <$> timed t = snd <$> epochs_ordered network t.
Proof.
  intros Ht. unfold timed_rows.
  assert (∀ x, x ∈ epochs_ordered network t → is_Some (ep_epoch_time (snd x))) as Hx.
  { intros [e row] Hin. rewrite epochs_ordered_perm, elem_of_map_to_list in Hin. by eapply Ht. }
  revert Hx. generalize (epochs_ordered network t) as l. induction l as [|x l IH]; intros Hx; [done|].
  destruct (Hx x) as [time Htime]; [by left|]. cbn [omap list_omap]. rewrite Htime. cbn.
  f_equal. apply IH. intros y Hy. apply Hx. by right.
Qed.

(** The totals of the overview. *)
Lemma stats_totals t stats : GetSummaryStats network (healthy t) = (Ok stats, healthy t) →
  let rows := snd <$> epochs_ordered network t in
  ss_EpochCount stats = Z.of_nat (length rows) ∧ ss_TotalBlobs stats = sum_Z (ep_blob_count <$> rows) ∧
  ss_TotalSizeBytes stats = sum_Z (ep_size_bytes <$> rows).
Proof.
  intros Hs. unfold GetSummaryStats in Hs. apply bind_Ok in Hs as (agg & c & Ha & Hs).
  apply wrapf_Ok in Ha. rewrite db_query_healthy in Ha. injection Ha as Ha <-. unfold mbind, outcome_bind in Ha.
  destruct (scan_uint64 _) as [first| |]; [|done..]. destruct (scan_uint64 _) as [last| |]; [|done..].
  destruct (scan_uint64 _) as [mx| |]; [|done..]. injection Ha as <-.
  apply bind_Ok in Hs as (cur & c & _ & [= <- _]). cbn. rewrite length_fmap, <- !list_fmap_compose. done.
Qed.

(** The monthly breakdown adds up, whatever the time zone of the session:
    the months ascend without repeating, each has an epoch, and together they
    count the epochs with a time, their blobs and their bytes once. When every
    epoch has a time these are the totals of the overview. *)
Theorem GetMonthlyStats_adds_up t stats :
  GetSummaryStats network (healthy t) = (Ok stats, healthy t) →
  ∃ months, GetMonthlyStats date_trunc_month network (healthy t) = (Ok months, healthy t) ∧
    StronglySorted Z.lt (ms_Month <$> months) ∧ Forall (λ m, 0 < ms_EpochCount m) months ∧
    sum_Z (ms_EpochCount <$> months) = Z.of_nat (length (timed t)) ∧
    ((∀ e row, network_rows network t !! e = Some row → is_Some (ep_epoch_time row)) →
     sum_Z (ms_EpochCount <$> months) = ss_EpochCount stats ∧
     sum_Z (ms_BlobCount <$> months) = ss_TotalBlobs stats ∧
     sum_Z (ms_SizeBytes <$> months) = ss_TotalSizeBytes stats).
Proof.
  intros Hs. exists (month_stat <$> groups t).
  assert (sum_Z (ms_EpochCount <$> (month_stat <$> groups t)) = Z.of_nat (length (timed t))) as Hcount.
  { rewrite <- list_fmap_compose, <- (sum_Z_ones (timed t)).
    change (λ _ : Z * epoch_row, 1) with ((λ _ : epoch_row, 1) ∘ @snd Z epoch_row).
    rewrite <- (month_sum (λ _, 1) t). f_equal. apply list_fmap_ext. intros i g _. cbn. by rewrite sum_Z_ones. }
  split_and!; [done|by rewrite <- list_fmap_compose; apply months_ascending| | |].
  - apply Forall_fmap, Forall_forall. intros g Hg. cbn. rewrite month_groups_perm in Hg.
    apply list_elem_of_fmap in Hg as ([k l] & -> & Hl%elem_of_map_to_list). cbn. rewrite length_fmap.
    apply group_by_lookup in Hl as [-> (x & -> & Hx)%list_elem_of_fmap].
    assert (x ∈ bucket fst (fst x) (timed t)) as Hb by by apply elem_of_bucket.
    destruct (bucket _ _ _); [by apply not_elem_of_nil in Hb|cbn; lia].
  - exact Hcount.
  - intros Ht. destruct (stats_totals t stats Hs) as (-> & -> & ->). rewrite <- (all_timed t Ht).
    rewrite length_fmap, <- !(list_fmap_compose snd), <- !month_sum, Hcount, <- !list_fmap_compose. by split_and!.
Qed.
End MonthlyFacts.

(** ** The command only reads *)

(** What the command may change: nothing in the tables, nothing that the node
    holds; it only prints. *)
Section ReadOnly.
Context {I : Ipld} {R : GoRuntime} {P : Postgres} {N : Type} {K : Kubo N} {KL : KuboLaws N} {KJ : KuboJson}.

Record only_prints (w w' : SumWorld N) : Prop := {
  op_tables : c_tables (sm_db w') = c_tables (sm_db w);
  op_node : grows (sm_node w) (sm_node w');
  op_out : sm_out w `prefix_of` sm_out w' }.

#[export] Instance only_prints_preorder : PreOrder only_prints.
Proof.
  split; [by intros w; split|]. intros w1 w2 w3 [A1 B1 C1] [A2 B2 C2].
  split; [congruence|by etransitivity|by etransitivity].
Qed.

Definition same_tables (c c' : Db.Client) : Prop := c_tables c' = c_tables c.

#[export] Instance same_tables_preorder : PreOrder same_tables.
Proof. split; [by intros c|]. unfold same_tables. intros c1 c2 c3. congruence. Qed.

Lemma always_db_query {A} (f : tables → outcome A) : always same_tables (db_query f).
Proof.
  intros c. unfold same_tables, db_query, db_call, gets_out, mbind, go_bind. by destruct (c_faults c) as [|[e|] fs].
Qed.

Lemma always_query {A} (m : Go Db.Client A) : always same_tables m → always only_prints (query (N := N) m).
Proof. intros Hm. apply always_zoom. intros w. split; [apply Hm|done|done]. Qed.

Lemma always_on_node {A} (m : Go N A) : always grows m → always only_prints (on_node m).
Proof. intros Hm. apply always_zoom. intros w. split; [done|apply Hm|done]. Qed.

Lemma always_print line : always only_prints (print (N := N) line).
Proof. intros w. split; [done|done|by apply prefix_app_r]. Qed.

Lemma always_listing {A} (l : list A) (body : A → Go (SumWorld N) unit) :
  (∀ x, always only_prints (body x)) → always only_prints (for_each l body).
Proof.
  intros Hb. induction l as [|x l IH]; [apply always_ret, _|].
  apply always_bind; [apply _|apply Hb|intros _; exact IH].
Qed.

Lemma always_rpc_grows what req : always grows (rpc (N := N) what req).
Proof. intros n. apply rpc_grows. Qed.

Lemma always_HasBlock c : always grows (HasBlock (N := N) c).
Proof.
  intros n k d Hk. unfold HasBlock. destruct (kubo_rpc _ n) as [rep n'] eqn:Hr.
  pose proof (kubo_keeps _ _ _ _ _ _ Hr Hk). by destruct rep.
Qed.

Lemma always_stat_epochs records order : always grows (stat_epochs (N := N) records order).
Proof.
  induction order as [|i order IH]; [apply always_ret, _|]. cbn [stat_epochs].
  destruct (records !! i) as [rec|]; [|exact IH]. apply always_bind; [apply _| |].
  - unfold stat_epoch. destruct (cid_Decode _) as [c| |]; [|apply always_ret, _..].
    apply always_bind; [apply _|apply always_attempt, always_HasBlock|intros; apply always_ret, _].
  - intros ok. apply always_bind; [apply _|exact IH|intros; apply always_ret, _].
Qed.

(** The check of the epochs, which works on the database and the node. *)
Definition pair_reads (p p' : Db.Client * N) : Prop := same_tables (fst p) (fst p') ∧ grows (snd p) (snd p').

#[export] Instance pair_reads_preorder : PreOrder pair_reads.
Proof. split; [by intros p; split|]. intros p1 p2 p3 [A1 B1] [A2 B2]. split; by etransitivity. Qed.

Lemma always_node_reads {A} (m : Go N A) : always grows m → always pair_reads (node_part m).
Proof. intros Hm. apply always_zoom. intros p. split; [done|apply Hm]. Qed.

Lemma always_check order cfg : always pair_reads (checkEpochsInIPFS (N := N) cfg order checkWorkers).
Proof.
  unfold checkEpochsInIPFS. apply always_bind; [apply _| |].
  { apply always_attempt, always_zoom. intros p. split; [|done].
    exact (always_wrapf same_tables _ _ (always_db_query _) (fst p)). }
  intros [e|[|r l]]; [apply always_ret, _..|].
  apply always_bind; [apply _|apply always_attempt, always_node_reads|].
  { apply always_bind; [apply _|apply always_rpc_grows|]. intros body.
    apply always_bind; [apply _|apply always_wrapf, always_lift, _|]. intros keys. apply always_ret, _. }
  intros [e|pins]; [|apply always_ret, _]. apply always_node_reads.
  apply always_bind; [apply _|apply always_stat_epochs|intros; apply always_ret, _].
Qed.

Lemma always_on_both {A} (m : Go (Db.Client * N) A) : always pair_reads m → always only_prints (on_both m).
Proof.
  intros Hm. apply always_zoom. intros w. destruct (Hm (sm_db w, sm_node w)) as [H1 H2]. by split.
Qed.

Ltac prints :=
  repeat first
    [ apply always_print
    | apply always_listing; intros ?
    | apply always_ret, _
    | apply always_lift, _
    | apply always_query, always_wrapf, always_db_query
    | apply always_on_both, always_check
    | apply always_attempt
    | apply always_bind; [apply _| |intros ?] ].

Lemma always_ipfs_section cfg flags order : always only_prints (ipfs_section (N := N) cfg flags order).
Proof.
  unfold ipfs_section. destruct (_ || _); [apply always_print|].
  apply always_bind; [apply _|apply always_attempt, always_on_node|intros info].
  { apply always_bind; [apply _|apply always_rpc_grows|]. intros body. apply always_wrapf, always_lift, _. }
  apply always_bind; [apply _|apply always_print|intros _].
  apply always_bind; [apply _|apply always_attempt, always_on_node|intros stat].
  { apply always_bind; [apply _|apply always_rpc_grows|]. intros body. apply always_wrapf, always_lift, _. }
  destruct (sf_checkIPFS flags); prints.
Qed.

Lemma always_summary dtm cfg flags order : always only_prints (summary (N := N) dtm cfg flags order).
Proof.
  assert (∀ network, always same_tables (GetSummaryStats network)) as Hstats.
  { intros network. unfold GetSummaryStats. apply always_bind; [apply _|apply always_wrapf, always_db_query|].
    intros [[[[[[[[[[[? ?] ?] ?] ?] ?] ?] ?] ?] ?] ?] ?].
    apply always_bind; [apply _|apply always_wrapf, always_db_query|]. intros ?. apply always_ret, _. }
  unfold summary. apply always_bind; [apply _|apply always_print|intros _].
  apply always_bind; [apply _|apply always_query, Hstats|intros stats].
  destruct (_ =? 0); [apply always_print|].
  apply always_bind; [apply _|destruct (0 <? _); prints|intros gaps].
  apply always_bind; [apply _|unfold overview, row; prints; repeat case_match; prints|intros _].
  apply always_bind; [apply _|apply always_ipfs_section|intros _].
  apply always_bind; [apply _|unfold when, gaps_section; repeat case_match; prints|intros _].
  apply always_bind; [apply _| |intros _].
  { unfold when, empty_section. destruct (sf_showEmpty flags); [|prints]. apply always_bind; [apply _|prints|].
    intros [|e l]; prints. }
  apply always_bind; [apply _|unfold when, top_section; destruct (0 <? _); prints|intros _].
  unfold when, monthly_section. destruct (sf_monthly flags); [|prints]. apply always_bind; [apply _|prints|].
  intros [|m l]; prints.
Qed.

Lemma always_cmdSummary dtm cfg connect flags order : always only_prints (cmdSummary (N := N) dtm cfg connect flags order).
Proof.
  unfold cmdSummary. destruct (bool_decide _); [apply always_ret, _|]. destruct connect; [apply always_ret, _|].
  apply always_bind; [apply _|apply always_attempt, always_summary|intros; apply always_ret, _].
Qed.
End ReadOnly.

(** ** The listing of empty epochs *)

(** The ranges the listing prints. *)
Definition shown_ranges (epochs : list Z) : list (Z * Z) :=
  match epochs with [] => [] | e :: rest => empty_ranges e e rest end.

Lemma empty_ranges_collapse l : ∀ start stop, empty_ranges start stop l = collapse_from start stop l.
Proof. induction l as [|x l IH]; intros start stop; cbn; [done|]. destruct (_ =? _); by rewrite IH. Qed.

Lemma sublist_StronglySorted {A} (Rel : relation A) l l' : StronglySorted Rel l' → l `sublist_of` l' → StronglySorted Rel l.
Proof.
  intros Hs Hl. induction Hl as [|x l l' Hl IH|x l l' Hl IH]; [constructor| |];
    apply StronglySorted_inv in Hs as [Hs Hx]; [|by apply IH]. constructor; [by apply IH|].
  rewrite Forall_forall in *. intros y Hy. apply Hx. by eapply elem_of_sublist.
Qed.

Section EmptyEpochs.
Context {R : GoRuntime} (network : string).

(** An epoch on record that has no blobs and no blob rows. *)
Definition empty_on_record (t : tables) (e : Z) : Prop :=
  ∃ r, network_rows network t !! e = Some r ∧ ep_blob_count r = 0 ∧ joined_blobs e network t = [].

(** The listing of empty epochs is exact: the ranges that summary prints
    cover exactly the epochs on record that count no blob and have no blob row,
    each once, in ascending order, and no two ranges could be joined. *)
Theorem shown_ranges_exact t :
  (∀ e r, network_rows network t !! e = Some r → 0 ≤ e < two63) →
  ∃ l, GetEmptyEpochs network (healthy t) = (Ok l, healthy t) ∧
    (∀ e, Exists (in_range e) (shown_ranges l) ↔ empty_on_record t e) ∧
    Forall (λ r, fst r ≤ snd r) (shown_ranges l) ∧ StronglySorted apart (shown_ranges l).
Proof.
  intros Hb. set (es := filter (λ e, ep_blob_count (snd e) = 0 ∧ joined_blobs (fst e) (ep_network (snd e)) t = [])
    (epochs_ordered network t)).
  assert (∀ e, e ∈ fst <$> es ↔ empty_on_record t e) as Hin.
  { intros e. rewrite list_elem_of_fmap. split.
    - intros ([e' r] & -> & [[H1 H2] H3]%list_elem_of_filter). pose proof H3 as [_ Hnet]%elem_of_epochs_ordered.
      cbn in *. rewrite Hnet in H2. exists r. split_and!; [|done|done]. by rewrite epochs_ordered_perm, elem_of_map_to_list in H3.
    - intros (r & Hr & H1 & H2). exists (e, r). split; [done|]. apply list_elem_of_filter. cbn.
      assert ((e, r) ∈ epochs_ordered network t) as H3 by by rewrite epochs_ordered_perm, elem_of_map_to_list.
      split; [|done]. apply elem_of_epochs_ordered in H3 as [_ ->]. done. }
  assert (Forall is_u64 (fst <$> es)) as Hu.
  { apply Forall_forall. intros e (r & Hr & _)%Hin. apply Hb in Hr. unfold is_u64, two63, two64 in *. lia. }
  assert (StronglySorted Z.lt (fst <$> es)) as Hs.
  { eapply sublist_StronglySorted; [apply epochs_ordered_lt|]. apply fmap_sublist, sublist_filter. }
  exists (fst <$> es). split.
  { unfold GetEmptyEpochs, wrapf. rewrite db_query_healthy. fold es. rewrite (mapM_out_ok _ fst); [done|].
    intros x Hx. apply scan_uint64_ok. rewrite Forall_fmap, Forall_forall in Hu. by apply Hu. }
  destruct (fst <$> es) as [|e l]; cbn [shown_ranges].
  { split_and!; [|constructor|constructor]. intros e. rewrite <- Hin, Exists_nil, elem_of_nil. done. }
  apply Forall_cons in Hu as [He Hl]. rewrite empty_ranges_collapse.
  destruct (collapse_from_spec l e e ltac:(lia) He Hl Hs) as (H1 & H2 & H3). split_and!; [| |done].
  - intros x. rewrite H1, <- Hin, elem_of_cons. assert (e ≤ x ≤ e ↔ x = e) as -> by lia. done.
  - eapply Forall_impl; [exact H2|]. cbn. lia.
Qed.
End EmptyEpochs.

(** ** The properties at concrete inputs *)

Definition demo_row (count size : Z) (time : option Z) : epoch_row := mkEpochRow "mainnet" 0 time "" "" count size.

(** Two months, and three epochs without blobs. *)
Definition demo_months : tables :=
  mkTables {[ 7 := demo_row 0 0 (Some 1710338135); 8 := demo_row 0 0 (Some 1710338519);
              9 := demo_row 3 393216 (Some 1712000000); 12 := demo_row 0 0 (Some 1712001000) ]} ∅ ∅.

Definition thirty_days (time : Z) : Z := time / 2592000 * 2592000.

Lemma shown_ranges_exact_witness : ∃ l,
  GetEmptyEpochs "mainnet" (healthy demo_months) = (Ok l, healthy demo_months) ∧
  ∀ e, Exists (in_range e) (shown_ranges l) ↔ empty_on_record "mainnet" demo_months e.
Proof.
  destruct (shown_ranges_exact "mainnet" demo_months) as (l & Hl & He & _); [|exists l; split; [exact Hl|exact He]].
  change (map_Forall (λ e _, 0 ≤ e < two63) (network_rows "mainnet" demo_months)).
  apply (bool_decide_unpack _). vm_compute. exact Logic.I.
Defined.

Lemma GetMonthlyStats_adds_up_witness : ∃ months,
  GetMonthlyStats thirty_days "mainnet" (healthy demo_months) = (Ok months, healthy demo_months) ∧
  sum_Z (ms_EpochCount <$> months) = 4 ∧ sum_Z (ms_SizeBytes <$> months) = 393216.
Proof.
  destruct (GetSummaryStats "mainnet" (healthy demo_months)) as [[stats|e|p] c] eqn:Hs; [|vm_compute in Hs; discriminate..].
  assert (c = healthy demo_months) as -> by (vm_compute in Hs |- *; injection Hs as _ <-; reflexivity).
  assert (ss_EpochCount stats = 4 ∧ ss_TotalSizeBytes stats = 393216) as [H1 H2]
    by (vm_compute in Hs; injection Hs as <-; split; reflexivity).
  destruct (GetMonthlyStats_adds_up thirty_days "mainnet" demo_months stats Hs) as (months & Hm & _ & _ & _ & Hall).
  exists months. destruct Hall as (Ha & _ & Hc).
  - change (map_Forall (λ _ r, is_Some (ep_epoch_time r)) (network_rows "mainnet" demo_months)).
    apply (bool_decide_unpack _). vm_compute. exact Logic.I.
  - split; [exact Hm|]. split; congruence.
Defined.

Example demo_empty_listing :
  match GetEmptyEpochs "mainnet" (healthy demo_months) with
  | (Ok l, _) => mapM_out (λ r, range_line (fst r) (snd r) (u64_add (u64_sub (snd r) (fst r)) 1)) (shown_ranges l)
  | _ => Ok []
  end = Ok ["  7 → 8  (2 epochs)"; "  12"].
Proof. vm_compute. reflexivity. Qed.
