(* ===== verification/Live.v ===== *)
(** * Live: the polling loops of generator.go

    Run with its choice of cursors, processLiveTick, and the two loops
    runLive and runSequential, which differ only in their log lines. *)

From S2P Require Import Prelude GoStd Types Ipld Store IpldModel Blob Epoch Network Db StateFile.
From S2P Require Import Beacon ElClient Ipfs Metrics Generator Reload Persist.

(** What a tick meets: the environment of its own requests, and one per epoch. *)
Record TickEnv := mkTickEnv { tk_env : Env; tk_epochs : Z → Env }.

Record tick_ok (t : TickEnv) : Prop := {
  tk_env_ok : env_ok (tk_env t);
  tk_epochs_ok : ∀ e, env_ok (tk_epochs t e) }.

(** What the select of a loop wakes up to. *)
Inductive wake := Tick (t : TickEnv) | CtxDone (e : error).

(** What Run does once it has set the cursors: which range the backfill
    goroutine is started on, if any. *)
Inductive run_mode :=
  | Sequential
  | Parallel (backfill : option (Z * Z)).

Section LiveOps.
Context {R : GoRuntime} {I : Ipld} {P : Postgres} {BJ : BeaconJson} {JS : JsonState}.
Context {N : Type} {K : Kubo N} {KJ : KuboJson} (g : Generator).

Abbreviation W := (World N).
Local Instance backend : StateBackend W := g_state g.

Definition finality (env : Env) : Go W FinalityCheckpoints :=
  in_beacon g (GetFinalityCheckpoints (en_http env) (en_req env) "head").

(** The body of a tick's loop: process the epoch, then move the cursor. *)
Definition live_epoch (t : TickEnv) (start total epoch : Z) : Go W unit :=
  let p := mkEpochProgress (epoch - start) total "live" in
  _ ← wrapf ("generator: process epoch " +:+ FormatUint epoch)
        (processEpoch g (tk_epochs t epoch) epoch (Some p));
  wrapf ("generator: set live cursor " +:+ FormatUint epoch) (sb_SetLastProcessedEpoch epoch).

(** The first epoch a tick looks at. *)
Definition tick_start (liveCursor : Z) : Z :=
  if 0 <? liveCursor then u64_add liveCursor 1 else cf_StartEpoch (g_cfg g).

Definition processLiveTick (t : TickEnv) : Go W unit :=
  checkpoints ← wrapf "generator: get finality checkpoints" (finality (tk_env t));
  liveCursor ← wrapf "generator: get live cursor" sb_GetLastProcessedEpoch;
  let startEpoch := tick_start liveCursor in
  let finalizedEpoch := fc_FinalizedEpoch checkpoints in
  if finalizedEpoch <? startEpoch then mret tt
  else
    let total := finalizedEpoch - startEpoch + 1 in
    _ ← for_each (seqZ startEpoch total) (live_epoch t startEpoch total);
    nonfatal (rebuildNetworkRoot g (tk_env t)).

(** A tick of a loop: an error is logged, unless it is about custody, which
    ends the loop. *)
Definition tick_or_stop (t : TickEnv) : Go W (option error) :=
  r ← attempt (processLiveTick t);
  mret (match r with
        | inl e => if errors_Is e ErrInsufficientCustody then Some e else None
        | inr _ => None
        end).

(** The error the loop returns, or [None] if it is still polling after the
    wake-ups given. *)
Fixpoint poll (wakes : list wake) : Go W (option error) :=
  match wakes with
  | [] => mret None
  | CtxDone e :: _ => mret (Some e)
  | Tick t :: rest =>
      stop ← tick_or_stop t;
      match stop with
      | Some e => mret (Some e)
      | None => poll rest
      end
  end.

(** Both loops tick once before they wait. *)
Definition runLive (first : TickEnv) (wakes : list wake) : Go W (option error) :=
  poll (Tick first :: wakes).
Definition runSequential (first : TickEnv) (wakes : list wake) : Go W (option error) :=
  poll (Tick first :: wakes).

Definition Run_start (env : Env) : Go W run_mode :=
  if negb (g_beacon g) then
    fail (errors_New "generator: beacon_rpc is required for the pull loop; use the push API instead")
  else if negb (g_db g) then mret Sequential
  else
    checkpoints ← wrapf "generator: get initial finality checkpoints" (finality env);
    let currentFinalized := fc_FinalizedEpoch checkpoints in
    liveCursor ← wrapf "generator: get live cursor" sb_GetLastProcessedEpoch;
    backfillCursor ← wrapf "generator: get backfill cursor" sb_GetBackfillCursor;
    let backfillStart :=
      if 0 <? backfillCursor then u64_add backfillCursor 1 else cf_StartEpoch (g_cfg g) in
    liveCursor ←
      (if backfillStart <? currentFinalized then
         let anchor := u64_sub currentFinalized 1 in
         _ ← wrapf "generator: set live cursor" (sb_SetLastProcessedEpoch anchor);
         mret anchor
       else mret liveCursor);
    mret (Parallel (if backfillStart <? liveCursor then Some (backfillStart, u64_sub liveCursor 1) else None)).

(** The live side of Run; the backfill goroutine runs beside it on the range
    Run_start chose. *)
Definition Run (env : Env) (first : TickEnv) (wakes : list wake) : Go W (option error) :=
  mode ← Run_start env;
  match mode with
  | Sequential => runSequential first wakes
  | Parallel _ => runLive first wakes
  end.
End LiveOps.

(** ** Facts *)

Section LiveFacts.
Context {R : GoRuntime} {I : Ipld} {L : IpldLaws I} {P : Postgres} {BJ : BeaconJson} {JS : JsonState}.
Context {N : Type} {K : Kubo N} {KL : KuboLaws N} {KJ : KuboJson} (g : Generator).
Context (Hdb : g_db g = true) (Hworkers : 0 < cf_Workers (g_cfg g)).

Definition live_cursor (w : World N) : option Z :=
  ipld_state (db_tables w) !! live_key (cf_Network (g_cfg g)).

(** Nothing below epoch [s] and no other cursor is touched. *)
Record live_frame (s : Z) (w w' : World N) : Prop := {
  lf_node : grows (w_node w) (w_node w');
  lf_epochs e : e < s → ipld_epochs (db_tables w') !! e = ipld_epochs (db_tables w) !! e }.

#[export] Instance live_frame_preorder s : PreOrder (live_frame s).
Proof.
  split; [intros w; by split|]. intros w1 w2 w3 [H1 H2] [G1 G2].
  split; [by etransitivity|intros e He; by rewrite G2, H2].
Qed.

Lemma recorded_live s e w w' : e < s → live_frame s w w' → recorded g w e → recorded g w' e.
Proof.
  intros He [Hn Hf] (row & c & Hr & Hc & Hk). exists row, c. rewrite Hf by done.
  split_and!; [done|done|]. destruct Hk as [|[d Hd]]; [by left|]. right. eauto.
Qed.

Lemma recorded_reads e w w' : reads w w' → recorded g w e → recorded g w' e.
Proof.
  intros [Hn Ht] (row & c & Hr & Hc & Hk). exists row, c. rewrite Ht.
  split_and!; [done|done|]. destruct Hk as [|[d Hd]]; [by left|]. right. eauto.
Qed.

Lemma live_cursor_reads (w w' : World N) : reads w w' → live_cursor w' = live_cursor w.
Proof. intros [_ Ht]. unfold live_cursor. by rewrite Ht. Qed.

Lemma tick_start_next v : 0 < v < two63 → tick_start g v = v + 1.
Proof.
  intros Hv. unfold tick_start. rewrite (proj2 (Z.ltb_lt 0 v)) by lia. apply wrap64_id.
  unfold is_u64, two63, two64 in *. lia.
Qed.

(** An epoch number that is no int8 fails on its first statement. *)
Lemma processEpoch_frame_any env e p :
  env_ok env → 0 ≤ e → always (epoch_frame e) (processEpoch (N := N) g env e p).
Proof.
  intros Henv He. destruct (decide (e < two63)) as [Hlt|Hge]; [by apply processEpoch_frame|].
  intros w. assert (∃ er, (be ← buildEpoch g env e p; persistEpoch g env be) w = (Err er, w)) as [er Her].
  { eexists. unfold buildEpoch, load_cached, in_db, GetBlobsByEpoch, mbind, go_bind, wrapf, zoom, lift. rewrite Hdb.
    unfold int8. rewrite (proj2 (Z.ltb_ge e two63)), andb_false_r by lia. cbn. by destruct w. }
  unfold processEpoch. rewrite Hdb. destruct (g_ipfs g); rewrite Her; reflexivity.
Qed.

Lemma SetLive_spec e (w : World N) :
  let '(o, w') := @sb_SetLastProcessedEpoch _ (g_state g) e w in
  w_node w' = w_node w ∧ ipld_epochs (db_tables w') = ipld_epochs (db_tables w) ∧
  match o with
  | Ok _ => live_cursor w' = Some e ∧ e < two63
  | _ => live_cursor w' = live_cursor w
  end.
Proof.
  cbn. rewrite Hdb. unfold in_db. rewrite Hdb. unfold zoom.
  pose proof (SetLastProcessedEpoch_atomically (cf_Network (g_cfg g)) e (w_db w)) as Ha.
  destruct (SetLastProcessedEpoch _ e (w_db w)) as [[u|er|p] d] eqn:Hs; cbn in *; [| |done].
  - unfold live_cursor. cbn. rewrite Ha. cbn. rewrite lookup_insert_eq. split_and!; [done..|].
    unfold SetLastProcessedEpoch in Hs. apply wrapf_Ok, bind_Ok in Hs as (x & c & [Hi _]%lift_Ok & _).
    unfold int8 in Hi. destruct (_ && _) eqn:Hb; [|done]. apply andb_true_iff in Hb as [_ Hb%Z.ltb_lt]. done.
  - unfold live_cursor. cbn. by rewrite Ha.
Qed.

Lemma live_epoch_spec t start total s (w : World N) : tick_ok t → 0 ≤ s →
  let '(o, w') := live_epoch g t start total s w in
  live_frame s w w' ∧
  match o with
  | Ok _ => live_cursor w' = Some s ∧ s < two63 ∧ recorded g w' s
  | _ => live_cursor w' = live_cursor w
  end.
Proof.
  intros [_ Ht] Hs. unfold live_epoch. set (p := Some (mkEpochProgress (s - start) total "live")).
  unfold mbind, go_bind, wrapf.
  pose proof (processEpoch_frame_any (tk_epochs t s) s p (Ht s) Hs w) as Hf.
  destruct (processEpoch g (tk_epochs t s) s p w) as [o1 w1] eqn:Hp. cbn in Hf.
  assert (live_frame s w w1) as Hlf by (destruct Hf as [? He _]; split; [done|intros; apply He; lia]).
  assert (live_cursor w1 = live_cursor w) as Hc1 by (unfold live_cursor; by rewrite (ef_state _ _ _ Hf)).
  destruct o1 as [u|er|pn]; cbn [wrap]; [|done|done].
  apply processEpoch_recorded in Hp as (row & c & Hr & Hc & Hk); [|done..].
  pose proof (SetLive_spec s w1) as Hset. change (backend g) with (g_state (N := N) g).
  destruct (@sb_SetLastProcessedEpoch _ (g_state g) s w1) as [o2 w2]. destruct Hset as (Hn2 & He2 & Ho2).
  assert (live_frame s w w2) as Hlf2.
  { etransitivity; [done|]. split; [by rewrite Hn2|by rewrite He2]. }
  destruct o2 as [u2|er|pn]; cbn [wrap]; [|by rewrite Ho2|by rewrite Ho2].
  destruct Ho2. split_and!; [done..|]. exists row, c. by rewrite Hn2, He2.
Qed.

(** The loop of a tick: the epochs up to the cursor it leaves are recorded. *)
Lemma live_epochs_spec t start total : tick_ok t → ∀ k s (w : World N), 0 ≤ s →
  let '(o, w') := for_each (seqZ s (Z.of_nat k)) (live_epoch g t start total) w in
  live_frame s w w' ∧
  (live_cursor w' = live_cursor w ∧ (o = Ok tt → k = 0%nat) ∨
   ∃ v, live_cursor w' = Some v ∧ s ≤ v < two63 ∧ v < s + Z.of_nat k ∧
     (o = Ok tt → v = s + Z.of_nat k - 1) ∧ ∀ e, s ≤ e ≤ v → recorded g w' e).
Proof.
  intros Ht. induction k as [|k IH]; intros s w Hs; [split; [reflexivity|by left]|].
  rewrite seqZ_cons by lia. cbn [for_each]. unfold mbind, go_bind.
  pose proof (live_epoch_spec t start total s w Ht Hs) as Hb.
  destruct (live_epoch g t start total s w) as [o1 w1]. destruct Hb as [Hf1 Ho1].
  destruct o1 as [u|er|pn]; [|split; [done|by left]..]. destruct Ho1 as (Hc1 & Hlt & Hrec).
  replace (Z.pred (Z.of_nat (S k))) with (Z.of_nat k) by lia. rewrite <- Z.add_1_r.
  specialize (IH (s + 1) w1 ltac:(lia)).
  destruct (for_each _ _ w1) as [o2 w2]. destruct IH as [Hf2 Hcur].
  assert (recorded g w2 s) as Hrec2 by (eapply (recorded_live (s + 1)); [lia|done|done]).
  split; [etransitivity; [done|]; destruct Hf2 as [? He]; split; [done|intros; apply He; lia]|]. right.
  destruct Hcur as [[Hc Hk]|(v & Hv & Hb & Hb2 & Hok & Hall)].
  - exists s. rewrite Hc. split_and!; [done|lia|lia|lia| |].
    + intros Ho. rewrite (Hk Ho). lia.
    + intros e He. by replace e with s by lia.
  - exists v. split_and!; [done|lia|lia|lia| |].
    + intros Ho. rewrite (Hok Ho). lia.
    + intros e He. destruct (decide (e = s)) as [->|]; [done|]. apply Hall. lia.
Qed.

Lemma GetAllEpochs_reads network : atomically (GetAllEpochs network) id.
Proof.
  apply atomically_wrapf, atomically_query. intros t p. apply mapM_out_no_panic. intros [e r] q.
  unfold mbind, outcome_bind. cbn.
  destruct (scan_uint64 e) as [| |?] eqn:He; [done|done|by apply scan_no_panic in He].
Qed.

Lemma reads_rebuild env : always reads (rebuildNetworkRoot (N := N) g env).
Proof.
  unfold rebuildNetworkRoot. rewrite Hdb. cbn [negb]. destruct (g_ipfs g); [|apply always_ret, _].
  apply always_bind; [apply _|apply always_wrapf, reads_db, GetAllEpochs_reads|intros records].
  apply always_bind; [apply _|apply always_lift, _|intros epochs].
  apply always_bind; [apply _|apply always_lift, _|intros x].
  apply always_bind; [apply _|apply always_wrapf, reads_node, PutBlockstore_grows|intros _].
  apply reads_metrics.
Qed.

Lemma reads_nonfatal (m : Go (World N) unit) : always reads m → always reads (nonfatal m).
Proof. intros Hm. apply always_bind; [apply _|by apply always_attempt|intros ?]. apply always_ret, _. Qed.

Lemma GetLive_spec (w : World N) v :
  live_cursor w = Some v →
  let '(o, w') := @sb_GetLastProcessedEpoch _ (g_state g) w in
  reads w w' ∧ ∀ e, o = Ok e → e = v.
Proof.
  intros Hv. cbn. rewrite Hdb.
  assert (atomically (GetLastProcessedEpoch (cf_Network (g_cfg g))) id) as Ha.
  { apply atomically_wrapf, atomically_query. intros t p. apply scan_no_panic. }
  pose proof (reads_db g _ Ha w) as Hr. unfold live_cursor in Hv.
  destruct (in_db g _ w) as [o w'] eqn:Hg. split; [done|]. intros e ->.
  apply in_db_inv in Hg as [[Hs _]%db_query_Ok _]; [|done]. rewrite Hv in Hs. by apply scan_uint64_inv in Hs.
Qed.

(** The state a live run keeps: everything after [v0] up to the cursor. *)
Definition live_inv (v0 : Z) (w : World N) : Prop :=
  ∃ v, live_cursor w = Some v ∧ v0 ≤ v < two63 ∧ ∀ e, v0 < e ≤ v → recorded g w e.

Lemma live_inv_reads v0 w w' : reads w w' → live_inv v0 w → live_inv v0 w'.
Proof.
  intros Hr (v & Hc & Hb & Hall). exists v. rewrite (live_cursor_reads _ _ Hr).
  split_and!; [done|lia|lia|]. intros e He. eapply recorded_reads; [done|auto].
Qed.

Lemma tick_inv t v0 (w : World N) :
  tick_ok t → 0 < v0 → live_inv v0 w → live_inv v0 (snd (processLiveTick g t w)).
Proof.
  intros Ht H0 Hinv. unfold processLiveTick.
  apply keeps_bind; [apply keeps_wrapf; eapply live_inv_reads; [apply reads_beacon|done]|].
  intros cp w1 _ Hinv1. change (backend g) with (g_state (N := N) g).
  destruct Hinv1 as (v & Hc & Hb & Hall). pose proof (GetLive_spec w1 v Hc) as Hget.
  destruct (@sb_GetLastProcessedEpoch _ (g_state g) w1) as [o w2] eqn:Hg. destruct Hget as [Hr2 Hv].
  assert (live_inv v0 w2) as (v2 & Hc2 & Hb2 & Hall2).
  { eapply live_inv_reads; [done|]. by exists v. }
  apply keeps_bind; [apply keeps_wrapf; rewrite Hg; by exists v2|].
  intros lc w3 Hw3%wrapf_Ok _. rewrite Hg in Hw3. injection Hw3 as -> ->. rewrite (Hv lc eq_refl) in *.
  assert (v2 = v) as -> by (rewrite (live_cursor_reads _ _ Hr2) in Hc2; congruence).
  rewrite (tick_start_next v ltac:(lia)). destruct (Z.ltb_spec (fc_FinalizedEpoch cp) (v + 1)) as [|Hle]; [by exists v|].
  set (k := fc_FinalizedEpoch cp - (v + 1) + 1). replace k with (Z.of_nat (Z.to_nat k)) by lia.
  pose proof (live_epochs_spec t (v + 1) (Z.of_nat (Z.to_nat k)) Ht (Z.to_nat k) (v + 1) w3 ltac:(lia)) as Hloop.
  apply keeps_bind; [|intros u w4 _ Hw4; eapply live_inv_reads; [apply reads_nonfatal, reads_rebuild|done]].
  destruct (for_each _ _ w3) as [o4 w4]. destruct Hloop as [Hf [[Hc4 _]|(v' & Hc4 & Hb4 & _ & _ & Hall4)]].
  - exists v. cbn. rewrite Hc4. split_and!; [done|lia|lia|]. intros e He.
    eapply (recorded_live (v + 1)); [lia|done|auto].
  - exists v'. split_and!; [done|lia|lia|]. intros e He. destruct (decide (e ≤ v)); [|apply Hall4; lia].
    eapply (recorded_live (v + 1)); [lia|done|apply Hall2; lia].
Qed.

Lemma poll_inv wakes v0 : ∀ w : World N,
  Forall (λ x, match x with Tick t => tick_ok t | CtxDone _ => True end) wakes →
  0 < v0 → live_inv v0 w → live_inv v0 (snd (poll g wakes w)).
Proof.
  induction wakes as [|[t|e] wakes IH]; intros w Hw H0 Hinv; cbn [poll]; [done| |done].
  apply Forall_cons in Hw as [Ht Hw]. unfold tick_or_stop. apply keeps_bind.
  - apply keeps_bind; [|by intros r w1 _ ?].
    pose proof (tick_inv t v0 w Ht H0 Hinv) as Hi. unfold attempt.
    by destruct (processLiveTick g t w) as [[] ?].
  - intros [e|] w1 _ Hinv1; [done|]. by apply IH.
Qed.
End LiveFacts.

(** ** Properties *)

Section LiveProperties.
Context {R : GoRuntime} {I : Ipld} {L : IpldLaws I} {P : Postgres} {BJ : BeaconJson} {JS : JsonState}.
Context {N : Type} {K : Kubo N} {KL : KuboLaws N} {KJ : KuboJson} (g : Generator).


(** C25. A tick that reports no error has caught up: the live cursor is then
    the finalized epoch the beacon node reported, or still what it was if that
    is not newer. *)
Theorem processLiveTick_catches_up t v0 (w w' : World N) :
  g_db g = true → 0 < cf_Workers (g_cfg g) → tick_ok t → 0 < v0 < two63 → live_cursor g w = Some v0 →
  processLiveTick g t w = (Ok tt, w') →
  ∃ cp, fst (finality g (tk_env t) w) = Ok cp ∧
    live_cursor g w' = Some (Z.max v0 (fc_FinalizedEpoch cp)).
Proof.
  intros Hdb Hwk Ht Hv Hc Hr. unfold processLiveTick in Hr. change (backend g) with (g_state (N := N) g) in Hr.
  apply bind_Ok in Hr as (cp & w1 & Hfin%wrapf_Ok & Hr).
  apply bind_Ok in Hr as (lc & w2 & Hget%wrapf_Ok & Hr). exists cp. rewrite Hfin. split; [done|].
  assert (live_cursor g w1 = Some v0) as Hc1.
  { pose proof (reads_beacon g (GetFinalityCheckpoints (en_http (tk_env t)) (en_req (tk_env t)) "head") w) as Hb.
    unfold finality in Hfin. rewrite Hfin in Hb. cbn [snd] in Hb. by rewrite (live_cursor_reads g _ _ Hb). }
  pose proof (GetLive_spec g Hdb w1 v0 Hc1) as Hg. rewrite Hget in Hg. destruct Hg as [Hrd Hlc].
  rewrite (Hlc lc eq_refl) in Hr.
  assert (live_cursor g w2 = Some v0) as Hc2 by by rewrite (live_cursor_reads g _ _ Hrd).
  rewrite (tick_start_next g v0 Hv) in Hr. destruct (Z.ltb_spec (fc_FinalizedEpoch cp) (v0 + 1)) as [|Hle].
  { apply ret_Ok in Hr as [_ ->]. rewrite Hc2. f_equal. lia. }
  apply bind_Ok in Hr as (u & w3 & Hloop & Hroot).
  set (k := fc_FinalizedEpoch cp - (v0 + 1) + 1) in *. rewrite <- (Z2Nat.id k) in Hloop by lia.
  pose proof (live_epochs_spec g Hdb Hwk t (v0 + 1) (Z.of_nat (Z.to_nat k)) Ht (Z.to_nat k) (v0 + 1) w2 ltac:(lia)) as Hs.
  rewrite Hloop in Hs. destruct u. destruct Hs as [_ [[_ Hk]|(v & Hcv & _ & _ & Hok & _)]].
  { specialize (Hk eq_refl). lia. }
  pose proof (reads_nonfatal _ (reads_rebuild (N := N) g Hdb (tk_env t)) w3) as Hrb. rewrite Hroot in Hrb. cbn [snd] in Hrb.
  rewrite (live_cursor_reads g _ _ Hrb), Hcv, (Hok eq_refl). f_equal. lia.
Qed.

(** The cursor and the range Run starts from. *)
Lemma Run_start_anchors env from F (w w' : World N) b cp bc :
  g_db g = true → 2 ≤ F < two63 →
  fst (finality g env w) = Ok cp → fc_FinalizedEpoch cp = F →
  default 0 (ipld_state (db_tables w) !! backfill_key (cf_Network (g_cfg g))) = bc →
  from = (if 0 <? bc then u64_add bc 1 else cf_StartEpoch (g_cfg g)) → 0 ≤ from < F →
  Run_start g env w = (Ok (Parallel b), w') →
  live_cursor g w' = Some (F - 1) ∧ b = if from <? F - 1 then Some (from, F - 2) else None.
Proof.
  intros Hdb HF Hfin HcpF Hbc Hfrom Hlt Hr. unfold Run_start in Hr. rewrite Hdb in Hr.
  change (backend g) with (g_state (N := N) g) in Hr. destruct (g_beacon g) eqn:Hbe; [|done]. cbn [negb] in Hr.
  apply bind_Ok in Hr as (cp' & w1 & Hf%wrapf_Ok & Hr). rewrite Hf in Hfin. injection Hfin as ->.
  apply bind_Ok in Hr as (lc & w2 & Hg%wrapf_Ok & Hr). apply bind_Ok in Hr as (bc' & w3 & Hb%wrapf_Ok & Hr).
  cbn in Hg, Hb. rewrite Hdb in Hg, Hb.
  apply in_db_inv in Hg as [[_ Ht2]%db_query_Ok _]; [|done].
  apply in_db_inv in Hb as [[Hs Ht3]%db_query_Ok _]; [|done]. apply scan_uint64_inv in Hs.
  assert (db_tables w1 = db_tables w) as Ht1.
  { pose proof (reads_beacon g (GetFinalityCheckpoints (en_http env) (en_req env) "head") w) as Hx.
    unfold finality in Hf. rewrite Hf in Hx. apply (rd_tables _ _ Hx). }
  rewrite Ht2, Ht1, Hbc in Hs. subst bc'. rewrite <- Hfrom, HcpF, (proj2 (Z.ltb_lt from F)) in Hr by lia.
  assert (u64_sub F 1 = F - 1) as HF1 by (apply wrap64_id; unfold is_u64, two63, two64 in *; lia).
  apply bind_Ok in Hr as (lc' & w4 & Hset & Hr). apply bind_Ok in Hset as (u & w5 & Hset%wrapf_Ok & [-> ->]%ret_Ok).
  apply ret_Ok in Hr as [[= ->] ->]. rewrite HF1 in *.
  pose proof (SetLive_spec g Hdb (F - 1) w3) as Hsp. rewrite Hset in Hsp. destruct Hsp as (_ & _ & Hcur & _).
  split; [done|].
  assert (u64_sub (F - 1) 1 = F - 2) as -> by (rewrite <- (wrap64_id (F - 2));
    [unfold u64_sub; f_equal; lia|unfold is_u64, two63, two64 in *; lia]).
  by destruct (from <? F - 1).
Qed.

(** C26. On a start that finds history to fill in (finalized epoch [F], first
    missing epoch [from] below it), Run moves the live cursor to [F - 1], so
    that the first tick begins at [F], and starts the backfill on
    [from, F - 2]: the two cover every epoch from [from] on except [F - 1]. *)
Theorem Run_start_ranges env from F (w w' : World N) b cp bc :
  g_db g = true → 2 ≤ F < two63 →
  fst (finality g env w) = Ok cp → fc_FinalizedEpoch cp = F →
  default 0 (ipld_state (db_tables w) !! backfill_key (cf_Network (g_cfg g))) = bc →
  from = (if 0 <? bc then u64_add bc 1 else cf_StartEpoch (g_cfg g)) → 0 ≤ from < F →
  Run_start g env w = (Ok (Parallel b), w') →
  live_cursor g w' = Some (F - 1) ∧ tick_start g (F - 1) = F ∧
  ∀ e, from ≤ e →
    (F ≤ e ∨ ∃ lo hi, b = Some (lo, hi) ∧ lo ≤ e ≤ hi) ↔ e ≠ F - 1.
Proof.
  intros Hdb HF Hfin HcpF Hbc Hfrom Hlt Hr.
  destruct (Run_start_anchors env from F w w' b cp bc Hdb HF Hfin HcpF Hbc Hfrom Hlt Hr) as [Hcur ->].
  split_and!; [done|rewrite tick_start_next; lia|]. intros e He. destruct (Z.ltb_spec from (F - 1)).
  - split; [intros [|(? & ? & [= <- <-] & ?)]; lia|]. intros Hne.
    destruct (decide (F ≤ e)); [by left|]. right. exists from, (F - 2). split; [done|lia].
  - split; [intros [|(? & ? & [=] & ?)]; lia|]. intros. left. lia.
Qed.
End LiveProperties.

(** ** The properties at concrete inputs *)

Definition demo_tick : TickEnv := mkTickEnv demo_run (λ _, demo_run).

Lemma demo_tick_ok : tick_ok demo_tick.
Proof. split; [exact demo_run_ok|intros; exact demo_run_ok]. Qed.

Definition demo_behind : World (gmap cid string) :=
  demo_world (set_state (insert (live_key "mainnet") 9) tables_empty).


(** Evaluated: the loop saves epochs 10 (one blob) and 11 (none). *)
Example demo_live_evaluated :
  let w' := snd (runLive (BJ := demo_reply) demo_gen demo_tick [Tick demo_tick] demo_behind) in
  live_cursor demo_gen w' = Some 11 ∧
  (λ e, ep_blob_count <$> ipld_epochs (db_tables w') !! e) <$> [9; 10; 11; 12] = [None; Some 1; Some 0; None].
Proof. vm_compute. done. Qed.

Lemma processLiveTick_catches_up_witness : ∃ cp,
  fst (finality (BJ := demo_reply) demo_gen demo_run demo_behind) = Ok cp ∧
  live_cursor demo_gen (snd (processLiveTick (BJ := demo_reply) demo_gen demo_tick demo_behind))
    = Some (Z.max 9 (fc_FinalizedEpoch cp)).
Proof.
  apply (processLiveTick_catches_up (BJ := demo_reply) demo_gen demo_tick 9 demo_behind);
    [done|done|exact demo_tick_ok|unfold two63; lia|done|].
  rewrite (surjective_pairing (processLiveTick _ _ _)) at 1.
  apply (f_equal (λ o, (o, snd (processLiveTick (BJ := demo_reply) demo_gen demo_tick demo_behind)))).
  vm_compute. reflexivity.
Defined.

(** A first start with epoch 7 configured and epoch 11 finalized: the backfill
    gets [7, 9], the live loop starts at 11. *)
Definition demo_start : Generator :=
  mkGenerator (mkConfig "mainnet" 7 4 2 1000 1000 true) true (Some demo_ipfs) true None 0 4 12.

Lemma Run_start_ranges_witness : ∃ b w',
  Run_start (BJ := demo_reply) demo_start demo_run (demo_world tables_empty) = (Ok (Parallel b), w') ∧
  live_cursor demo_start w' = Some 10 ∧ tick_start demo_start 10 = 11 ∧
  ∀ e, 7 ≤ e → (11 ≤ e ∨ ∃ lo hi, b = Some (lo, hi) ∧ lo ≤ e ≤ hi) ↔ e ≠ 10.
Proof.
  eexists _, _. split; [vm_compute; reflexivity|].
  eapply (Run_start_ranges (BJ := demo_reply) demo_start demo_run 7 11 (demo_world tables_empty));
    [done|unfold two63; lia|vm_compute; reflexivity|reflexivity|reflexivity|reflexivity|lia|vm_compute; reflexivity].
Defined.

(** The fallback of the live cursor to the newest row, in a database where it
    was never set: SaveBlobs of epoch 10 fails after SaveEpoch, and the next
    tick starts at 11. Epoch 10 keeps a row that counts one blob, and no blob. *)
Theorem live_fallback_skips_blobs :
  let w := mkWorld demo_client ∅ (Db.mkClient tables_empty [None; None; None; Some (errors_New "connection lost")])
             (mkManager "" (mkState "" 0 0), mkFS ∅ [] []) [] None in
  let w' := snd (runLive (BJ := demo_reply) demo_gen demo_tick [Tick demo_tick] w) in
  live_cursor demo_gen w' = Some 11 ∧
  ep_blob_count <$> ipld_epochs (db_tables w') !! 10 = Some 1 ∧ ipld_blobs (db_tables w') = ∅.
Proof. vm_compute. done. Qed.
