(* ===== verification/Repair.v ===== *)
(** * Repair: the push API's entry points and the repair commands of generator.go

    ProcessBlobInput and FinalizeEpoch (the callbacks of the HTTP API),
    RepairEpochs, BackfillIPFS, and what a scrape or a readiness probe asks of
    the generator. *)

From S2P Require Import Prelude GoStd Types Ipld Store IpldModel Blob Epoch Network Db StateFile.
From S2P Require Import Beacon ElClient Ipfs Api Metrics Generator Reload Persist Live.

(** How the upload of a backfilled epoch ends within the attempts given. *)
Inductive upload_end := Uploaded | Cancelled (e : error) | Retrying.

(** How one epoch of BackfillIPFS ends: no blob of it in the database, a
    logged failure, done, or still retrying its upload. *)
Inductive epoch_end := NotIndexed | Skipped | Done | Stuck.

(** The end of the command: its two counters, or the epoch whose upload is
    still being retried. *)
Inductive backfill_end := Finished (uploaded skipped : Z) | RetryingAt (epoch : Z).

(** What an epoch of BackfillIPFS meets: its own environment, and one for each
    attempt at the upload. *)
Record BackfillEnv := mkBackfillEnv { bk_env : Env; bk_attempts : list Env }.

Definition repair_msg (epoch : Z) : string :=
  "integrity check failed (DB metadata likely wrong or blob data missing) — run `backfill-ipfs -from "
  +:+ FormatUint epoch +:+ " -to " +:+ FormatUint epoch +:+ "` to re-fetch and self-heal".

Section Ops.
Context {R : GoRuntime} {I : Ipld} {P : Postgres} {BJ : BeaconJson} {JS : JsonState}.
Context {N : Type} {K : Kubo N} {KJ : KuboJson} (g : Generator).

Abbreviation W := (World N).
Abbreviation network := (cf_Network (g_cfg g)).
Abbreviation upload := (match g_ipfs g with Some _ => true | None => false end).
Local Instance repair_backend : StateBackend W := g_state g.

(** ** The push API *)

Definition push_input (req : BlobPushRequest) (rawData : string) : BlobInput :=
  mkBlobInput (pq_Commitment req) (pq_VersionedHash req) (pq_TxHash req) (pq_BlockNumber req)
    (pq_BlockHash req) (pq_Slot req) (pq_Epoch req) (pq_Index req) rawData 0.

Definition ProcessBlobInput (env : Env) (req : BlobPushRequest) : Go W BlobPushResponse :=
  rawData ← wrapf "decode blob data" (lift (hexDecode (pq_Data req)));
  let inp := push_input req rawData in
  x ← wrapf "process blob" (lift (on_store upload (λ BS B, ProcessBlob inp)));
  let '(res, blobBS) := x in
  _ ← match blobBS, g_ipfs g with
      | Some bs, Some c =>
          _ ← wrapf "upload blob to ipfs" (in_node (PutBlockstore c (en_inflight env) bs));
          in_metrics (ObserveIPFSUpload (MemBlockstore.Len bs))
      | _, _ => mret tt
      end;
  _ ← (if g_db g then
         wrapf "save blob to db"
           (in_db g (SaveBlobs network (pq_Epoch req) [inp] [res] (g_genesisTime g) (g_secondsPerSlot g)))
       else mret tt);
  _ ← in_metrics (RecordBlob network "push");
  _ ← in_sent (NotifyBlobs (g_notifier g)
         [mkBlobReference (pq_VersionedHash req) (cid_String (br_DataCID res)) (cid_String (br_MetaCID res))]);
  mret (mkBlobPushResponse (cid_String (br_DataCID res)) (cid_String (br_MetaCID res))
          (br_Commitment res) (pq_Epoch req) false "").

(** The epoch node of the rows in the database, uploaded and saved; then the
    network root and the live cursor. *)
Definition finalizeEpochInner (env : Env) (epoch : Z) : Go W cid :=
  if negb (g_db g) then
    fail (errors_New ("finalize epoch " +:+ FormatUint epoch
      +:+ ": DB persistence is disabled (postgres_dsn not set); cannot reconstruct blobs"))
  else
    blobs ← wrapf ("load blobs epoch " +:+ FormatUint epoch) (in_db g (GetBlobsByEpoch network epoch));
    if Nat.eqb (length blobs) 0 then fail (errors_New ("no blobs found for epoch " +:+ FormatUint epoch))
    else
      x ← wrapf ("reconstruct epoch " +:+ FormatUint epoch +:+ " from DB")
            (lift (ReconstructFromDB epoch blobs (g_slotsPerEpoch g)));
      y ← lift (on_store true (λ BS B,
            build_node g (fst x) (snd x) ("build epoch node " +:+ FormatUint epoch)));
      let er := fst y in
      _ ← uploadAndPin g env (default MemBlockstore.NewMemBlockstore (snd y)) (er_CID er) epoch;
      _ ← wrapf ("save epoch " +:+ FormatUint epoch +:+ " to db")
            (in_db g (SaveEpoch network er (Z.of_nat (length blobs)) (epoch_time g epoch)));
      _ ← nonfatal (rebuildNetworkRoot g env);
      _ ← sb_SetLastProcessedEpoch epoch;
      mret (er_CID er).

Definition FinalizeEpochWithCID (env : Env) (epoch : Z) : Go W string :=
  c ← finalizeEpochInner env epoch; mret (cid_String c).

Definition FinalizeEpoch (env : Env) (epoch : Z) : Go W unit :=
  _ ← finalizeEpochInner env epoch; mret tt.

(** ** repair-epochs *)

(** One epoch: the error passed to onDone, if any. *)
Definition repair_epoch (env : Env) (strict : bool) (epoch : Z) : Go W unit :=
  if negb (g_db g) then fail (errors_New "DB not configured")
  else
    blobs ← wrapf "load blobs" (in_db g (GetBlobsByEpoch network epoch));
    if Nat.eqb (length blobs) 0 then fail (errors_New "no blobs in DB")
    else
      x ← wrapf "reconstruct" (lift (ReconstructFromDB epoch blobs (g_slotsPerEpoch g)));
      y ← lift (on_store true (λ BS B, build_node g (fst x) (snd x) "build node"));
      let er := fst y in
      _ ← wrapf "ipfs upload"
            (uploadAndPin g env (default MemBlockstore.NewMemBlockstore (snd y)) (er_CID er) epoch);
      _ ← (if strict && upload then wrapf (repair_msg epoch) (in_node (VerifyLocal (er_CID er)))
           else mret tt);
      wrapf "save epoch"
        (in_db g (SaveEpoch network er (Z.of_nat (length blobs)) (epoch_time g epoch))).

(** The loop: what was reported to onDone, in order. *)
Fixpoint repair_loop (envs : Z → Env) (strict : bool) (epochs : list Z) : Go W (list (Z * option error)) :=
  match epochs with
  | [] => mret []
  | epoch :: rest =>
      match en_ctx (envs epoch) with
      | Some _ => mret []
      | None =>
          r ← attempt (repair_epoch (envs epoch) strict epoch);
          reports ← repair_loop envs strict rest;
          mret ((epoch, match r with inl e => Some e | inr _ => None end) :: reports)
      end
  end.

Definition report_ok (r : Z * option error) : bool := match snd r with None => true | Some _ => false end.

Definition RepairEpochs (env : Env) (envs : Z → Env) (epochs : list Z) (strict : bool)
    : Go W (Z * Z * list (Z * option error)) :=
  reports ← repair_loop envs strict epochs;
  let ok := Z.of_nat (length (List.filter report_ok reports)) in
  let failed := Z.of_nat (length reports) - ok in
  _ ← (if 0 <? ok then nonfatal (rebuildNetworkRoot g env) else mret tt);
  mret (ok, failed, reports).

(** ** backfill-ipfs *)

(** Whether a freshly computed CID differs from the database's. *)
Definition blob_mismatch (dbBlobs : list BlobRecord) (b : BlobInput) (res : BlobResult) : bool :=
  let dbByCommitment : gmap string BlobRecord :=
    foldl (λ m r, <[rb_Commitment r := r]> m) ∅ dbBlobs in
  match dbByCommitment !! bi_Commitment b with
  | None => true
  | Some r =>
      negb (bool_decide (cid_String (br_DataCID res) = rb_DataCID r)) ||
      negb (bool_decide (cid_String (br_MetaCID res) = rb_MetaCID r))
  end.

Definition cid_mismatch (dbBlobs : list BlobRecord) (blobs : list BlobInput) (results : list BlobResult) : bool :=
  existsb (λ p, blob_mismatch dbBlobs (fst p) (snd p)) (zip blobs results).

(** The retry loop of the upload. *)
Fixpoint upload_until (attempts : list Env) (bs : MemBlockstore.t) (c : cid) (epoch : Z) : Go W upload_end :=
  match attempts with
  | [] => mret Retrying
  | env :: rest =>
      r ← attempt (uploadAndPin g env bs c epoch);
      match r, en_ctx env with
      | inr _, _ => mret Uploaded
      | inl _, Some e => mret (Cancelled e)
      | inl _, None => upload_until rest bs c epoch
      end
  end.

Definition backfill_epoch (be : BackfillEnv) (epoch : Z) : Go W epoch_end :=
  let env := bk_env be in
  match en_ctx env with
  | Some e => fail e
  | None =>
      dbBlobs ← wrapf ("backfill-ipfs: load blobs epoch " +:+ FormatUint epoch)
                  (in_db g (GetBlobsByEpoch network epoch));
      if Nat.eqb (length dbBlobs) 0 then mret NotIndexed
      else
        f ← attempt (fetch_epoch g env epoch None);
        match f with
        | inl _ => mret Skipped
        | inr inp =>
            if Nat.eqb (length (ei_Blobs inp)) 0 then mret Skipped
            else
              built ← attempt (lift (on_store true (λ BS B,
                results ← process_blobs g env inp;
                er ← build_node g inp results "backfill-ipfs: build epoch node failed";
                mret (results, er))));
              match built with
              | inl _ => mret Skipped
              | inr (results, er, bs) =>
                  _ ← in_metrics (RecordEpoch network "backfill-ipfs" "built");
                  _ ← in_metrics (RecordBlobs network "backfill-ipfs" (Z.of_nat (length results)));
                  up ← upload_until (bk_attempts be) (default MemBlockstore.NewMemBlockstore bs) (er_CID er) epoch;
                  match up with
                  | Retrying => mret Stuck
                  | Cancelled e => fail e
                  | Uploaded =>
                      _ ← wrapf ("backfill-ipfs: save epoch " +:+ FormatUint epoch)
                            (in_db g (SaveEpoch network er (Z.of_nat (length results)) (epoch_time g epoch)));
                      _ ← (if cid_mismatch dbBlobs (ei_Blobs inp) results then
                             wrapf ("backfill-ipfs: save blobs epoch " +:+ FormatUint epoch)
                               (in_db g (SaveBlobs network epoch (ei_Blobs inp) results
                                           (g_genesisTime g) (g_secondsPerSlot g)))
                           else mret tt);
                      _ ← wrapf ("backfill-ipfs: set cursor " +:+ FormatUint epoch)
                            (sb_SetBackfillCursor epoch);
                      mret Done
                  end
              end
        end
  end.

Fixpoint backfill_loop (envs : Z → BackfillEnv) (epochs : list Z) (uploaded skipped : Z) : Go W backfill_end :=
  match epochs with
  | [] => mret (Finished uploaded skipped)
  | epoch :: rest =>
      r ← backfill_epoch (envs epoch) epoch;
      match r with
      | NotIndexed => backfill_loop envs rest uploaded skipped
      | Skipped => backfill_loop envs rest uploaded (skipped + 1)
      | Done => backfill_loop envs rest (uploaded + 1) skipped
      | Stuck => mret (RetryingAt epoch)
      end
  end.

Definition BackfillIPFS (env : Env) (envs : Z → BackfillEnv) (fromEpoch toEpoch : Z) : Go W backfill_end :=
  if negb upload then fail (errors_New "backfill-ipfs: IPFS client is not configured (skip_upload=true?)")
  else if negb (g_db g) then fail (errors_New "backfill-ipfs: DB is not configured (postgres_dsn not set)")
  else if negb (g_beacon g) then fail (errors_New "backfill-ipfs: beacon_rpc is required to re-fetch blob data")
  else if toEpoch <? fromEpoch then
    fail (errors_New ("backfill-ipfs: to_epoch (" +:+ FormatUint toEpoch +:+ ") must be >= from_epoch ("
                      +:+ FormatUint fromEpoch +:+ ")"))
  else
    r ← backfill_loop envs (seqZ fromEpoch (toEpoch - fromEpoch + 1)) 0 0;
    match r with
    | RetryingAt e => mret (RetryingAt e)
    | Finished u s => _ ← nonfatal (rebuildNetworkRoot g env); mret (Finished u s)
    end.

(** ** Probes *)

Definition Ping : Go W unit :=
  match g_ipfs g with
  | None => mret tt
  | Some _ => _ ← in_node GetNodeInfo; mret tt
  end.

(** A backend that fails is left out of the snapshot. *)
Definition MetricsSnapshot : Go W Snapshot :=
  let s0 := Snapshot_zero in
  s1 ← (if g_db g then
          r ← attempt (in_db g (GetSummaryStats network));
          mret (match r with
                | inl _ => s0
                | inr st => mkSnapshot (mkDBSnapshot network (ss_EpochCount st) (ss_EmptyEpochCount st)
                    (ss_TotalBlobs st) (ss_TotalSizeBytes st) (ss_FirstEpoch st) (ss_LastEpoch st)
                    (ss_GapCount st) (ss_LiveCursor st) (ss_BackfillCursor st)) true (sn_IPFS s0) false 0 0 false
                end)
        else mret s0);
  s2 ← match g_ipfs g with
       | None => mret s1
       | Some _ =>
           r ← attempt (in_node (GetRepoStat true));
           mret (match r with
                 | inl _ => s1
                 | inr st => mkSnapshot (sn_DB s1) (sn_HasDB s1)
                     (mkIPFSSnapshot (rs_RepoSize st) (rs_StorageMax st)) true 0 0 false
                 end)
       end;
  (if g_beacon g then
     n ← gets (λ w, (GetRPCRequestCount (w_beacon w), Get429Count (w_beacon w)));
     mret (mkSnapshot (sn_DB s2) (sn_HasDB s2) (sn_IPFS s2) (sn_HasIPFS s2) (fst n) (snd n) true)
   else mret s2).
End Ops.

(** ** Facts *)

Section RepairFacts.
Context {R : GoRuntime} {I : Ipld} {L : IpldLaws I} {P : Postgres} {BJ : BeaconJson} {JS : JsonState}.
Context {N : Type} {K : Kubo N} {KL : KuboLaws N} {KJ : KuboJson} (g : Generator).

(** A build that is always staged. *)
Lemma on_store_true_Ok {X} (f : ∀ BS : Type, blockstoreBackend BS → Go BS X) Q x bs :
  stages f Q → on_store true f = Ok (x, bs) →
  ∃ bs', bs = Some bs' ∧ ∃ c, Q x c ∧ (g_ipfs g = None ∨ staged g (Some bs') c).
Proof.
  intros Hf. unfold on_store.
  destruct (f _ _ MemBlockstore.NewMemBlockstore) as [o bs'] eqn:Hr. destruct o as [x'|e|p]; [|done|done].
  intros [= <- <-]. destruct (Hf _ _ mem_accepts _ _ _ Hr) as (blks & eb & Hc & -> & Hq).
  eexists. split; [done|]. exists (blk_Cid eb). split; [done|].
  pose proof (staged_put_all g blks eb Hc) as Hs. destruct (g_ipfs g); [by right|by left].
Qed.

Lemma on_store_upload {X} (f : ∀ BS : Type, blockstoreBackend BS → Go BS X) Q x bs env c e (w : World N) u w' :
  stages f Q → on_store true f = Ok (x, bs) → (∀ c', Q x c' → c' = c) →
  uploadAndPin g env (default MemBlockstore.NewMemBlockstore bs) c e w = (Ok u, w') →
  g_ipfs g = None ∨ is_Some (kubo_blocks (w_node w') c).
Proof.
  intros Hf Hs HQ Hup. destruct (on_store_true_Ok f Q x bs Hf Hs) as (bs' & -> & c' & Hq & Hst).
  rewrite (HQ c' Hq) in Hst. destruct Hst as [|Hst]; [by left|]. right. by eapply upload_holds.
Qed.

(** The epoch's row counts its blob rows. *)
Definition counted (t : tables) (e : Z) : Prop :=
  ∃ row rows, ipld_epochs t !! e = Some row ∧
    epoch_records (cf_Network (g_cfg g)) e t = Ok rows ∧ ep_blob_count row = Z.of_nat (length rows).

Lemma epoch_records_blobs network e t t' :
  ipld_blobs t' = ipld_blobs t → epoch_records network e t' = epoch_records network e t.
Proof. intros Hb. unfold epoch_records, joined_blobs. by rewrite Hb. Qed.

(** A step that only reads, before the rest. *)
Lemma reads_then {A B} (m : Go (World N) A) (k : A → Go (World N) B) (Φ : outcome B → World N → Prop) w0 w :
  reads w0 w → always reads m →
  (∀ o w', reads w0 w' → (∀ b, o ≠ Ok b) → Φ o w') →
  (∀ a w', m w = (Ok a, w') → reads w0 w' → Φ (fst (k a w')) (snd (k a w'))) →
  Φ (fst ((m ≫= k) w)) (snd ((m ≫= k) w)).
Proof.
  intros H0 Hm Herr Hok. specialize (Hm w). unfold mbind, go_bind.
  destruct (m w) as [[a|e|p] w1]; [apply Hok; [done|]|apply Herr; [|done]|apply Herr; [|done]];
    (etransitivity; [exact H0|exact Hm]).
Qed.

(** What rebuilding the row of epoch [e] may do. *)
Definition row_rebuilt (e : Z) (w : World N) (ok : bool) (w' : World N) : Prop :=
  if ok then
    grows (w_node w) (w_node w') ∧ recorded g w' e ∧ counted (db_tables w') e ∧
    ipld_blobs (db_tables w') = ipld_blobs (db_tables w) ∧
    ipld_state (db_tables w') = ipld_state (db_tables w) ∧
    ∀ e', e' ≠ e → ipld_epochs (db_tables w') !! e' = ipld_epochs (db_tables w) !! e'
  else reads w w'.

Lemma save_rebuilt w0 w er e rows time :
  g_db g = true → reads w0 w → er_Epoch er = e → epoch_records (cf_Network (g_cfg g)) e (db_tables w0) = Ok rows →
  (g_ipfs g = None ∨ is_Some (kubo_blocks (w_node w) (er_CID er))) →
  let '(o, w') := in_db g (SaveEpoch (cf_Network (g_cfg g)) er (Z.of_nat (length rows)) time) w in
  row_rebuilt e w0 (match o with Ok _ => true | _ => false end) w'.
Proof.
  intros Hdb [Hn Ht] <- Hrows Hk.
  pose proof (λ u w', save_recorded g er (Z.of_nat (length rows)) time (er_CID er) w u w' Hdb eq_refl Hk) as Hrec.
  unfold in_db in *. rewrite Hdb in *. unfold zoom in *.
  pose proof (SaveEpoch_atomically (cf_Network (g_cfg g)) er (Z.of_nat (length rows)) time (w_db w)) as Ha.
  destruct (SaveEpoch _ _ _ _ (w_db w)) as [[u|er'|p] d]; cbn in *; [| |done].
  - assert (∀ e, ipld_epochs (c_tables d) !! e = _) as He by (intros e; rewrite Ha; apply upsert_epoch_lookup).
    split_and!; cbn; [done|by eapply Hrec| |by rewrite Ha; cbn; rewrite Ht|by rewrite Ha; cbn; rewrite Ht|].
    + eexists _, rows. split_and!; [rewrite He, decide_True by done; reflexivity| |done].
      rewrite <- Hrows. apply epoch_records_blobs. by rewrite Ha, <- Ht.
    + intros e' He'. rewrite He, decide_False by done. by rewrite Ht.
  - by split; cbn; rewrite ?Ha.
Qed.

(** The part repair-epochs and finalize share: load the rows, rebuild the node,
    upload it. It only reads the tables, and what follows it can rely on the
    node holding the block. *)
Lemma rebuild_then {A} env m1 m2 m3 m4 (up : Go (World N) unit → Go (World N) unit) e
    (k : EpochResult → list BlobRecord → Go (World N) A) (Φ : outcome A → World N → Prop) w :
  g_db g = true → (∀ m, always reads m → always reads (up m)) →
  (∀ m s u s', up m s = (Ok u, s') → m s = (Ok u, s')) →
  (∀ o w', reads w w' → (∀ a, o ≠ Ok a) → Φ o w') →
  (∀ er rows w', reads w w' → er_Epoch er = e →
     epoch_records (cf_Network (g_cfg g)) e (db_tables w) = Ok rows →
     (g_ipfs g = None ∨ is_Some (kubo_blocks (w_node w') (er_CID er))) →
     Φ (fst (k er rows w')) (snd (k er rows w'))) →
  let m := blobs ← wrapf m1 (in_db g (GetBlobsByEpoch (cf_Network (g_cfg g)) e));
    if Nat.eqb (length blobs) 0 then fail (errors_New m2)
    else
      x ← wrapf m3 (lift (ReconstructFromDB e blobs (g_slotsPerEpoch g)));
      y ← lift (on_store true (λ BS B, build_node g (fst x) (snd x) m4));
      _ ← up (uploadAndPin g env (default MemBlockstore.NewMemBlockstore (snd y)) (er_CID (fst y)) e);
      k (fst y) blobs in
  Φ (fst (m w)) (snd (m w)).
Proof.
  intros Hdb Hup Hupok Herr Hk. cbv zeta.
  apply (reads_then _ _ Φ w); [reflexivity|apply always_wrapf, reads_db, GetBlobsByEpoch_reads|done|].
  intros rows w1 Hrows%wrapf_Ok R1. apply in_db_inv in Hrows as [[Hrows _]%GetBlobsByEpoch_Ok _]; [|done].
  destruct (Nat.eqb _ _); [by apply Herr|].
  apply (reads_then _ _ Φ w); [done|apply always_wrapf, always_lift, _|done|].
  intros [inp rs] w2 [Hrec _]%wrapf_Ok%lift_Ok R2. apply Reconstruct_Ok in Hrec as (Hep & Hl & Hd).
  apply (reads_then _ _ Φ w); [done|apply always_lift, _|done|]. intros [er bs] w3 [Hs _]%lift_Ok R3.
  cbn [fst snd] in *.
  destruct (on_store_true_Ok _ _ _ _ (stages_node g inp rs _ ltac:(lia) Hd) Hs) as (bs' & -> & c & [He <-] & Hst).
  apply (reads_then _ _ Φ w); [done|apply Hup, reads_upload|done|].
  intros u w4 Hu%Hupok R4. apply Hk; [done|by rewrite He, Hep|done|].
  destruct Hst as [|Hst]; [by left|]. right. by eapply upload_holds.
Qed.

Lemma held_reads (c : cid) (w w' : World N) :
  reads w w' → g_ipfs g = None ∨ is_Some (kubo_blocks (w_node w) c) →
  g_ipfs g = None ∨ is_Some (kubo_blocks (w_node w') c).
Proof. intros [Hn _] [|[d Hd]]; [by left|]. right. eauto. Qed.

Lemma repair_epoch_spec env strict e (w : World N) :
  g_db g = true →
  let '(o, w') := repair_epoch g env strict e w in
  row_rebuilt e w (match o with Ok _ => true | _ => false end) w'.
Proof.
  intros Hdb.
  set (Φ := λ (o : outcome unit) w', row_rebuilt e w (match o with Ok _ => true | _ => false end) w').
  assert (Φ (fst (repair_epoch g env strict e w)) (snd (repair_epoch g env strict e w))) as Hx;
    [|by destruct (repair_epoch g env strict e w)].
  assert (∀ o w', reads w w' → (∀ b : unit, o ≠ Ok b) → Φ o w') as Herr.
  { intros [[]| |] w' Hr Ho; [by destruct (Ho tt)|done|done]. }
  unfold repair_epoch. rewrite Hdb. cbn [negb].
  apply (rebuild_then env "load blobs" "no blobs in DB" "reconstruct" "build node" (wrapf "ipfs upload") e
    (λ er rows, _ ← (if strict && match g_ipfs g with Some _ => true | None => false end
                     then wrapf (repair_msg e) (in_node (VerifyLocal (er_CID er))) else mret tt);
       wrapf "save epoch" (in_db g
         (SaveEpoch (cf_Network (g_cfg g)) er (Z.of_nat (length rows)) (epoch_time g e)))) Φ w Hdb);
    [by intros; apply always_wrapf|by intros ????? %wrapf_Ok|done|].
  intros er rows w1 R1 He Hrows Hk.
  apply (reads_then _ _ Φ w); [done| |done|].
  { destruct (strict && _); [apply always_wrapf, reads_node, VerifyLocal_grows|apply always_ret, _]. }
  intros u w2 Hver R2.
  assert (reads w1 w2) as R12.
  { revert Hver. destruct (strict && _).
    - intros Hv. pose proof (always_wrapf _ (repair_msg e) _ (reads_node _ (VerifyLocal_grows (er_CID er))) w1) as Hr.
      by rewrite Hv in Hr.
    - by intros [_ ->]%ret_Ok. }
  pose proof (save_rebuilt w w2 er e rows (epoch_time g e) Hdb R2 He Hrows (held_reads _ _ _ R12 Hk)) as Hsave.
  unfold wrapf. destruct (in_db g _ w2) as [o w3]. unfold Φ. by destruct o.
Qed.
End RepairFacts.

(** ** Properties *)

Section RepairProperties.
Context {R : GoRuntime} {I : Ipld} {L : IpldLaws I} {P : Postgres} {BJ : BeaconJson} {JS : JsonState}.
Context {N : Type} {K : Kubo N} {KL : KuboLaws N} {KJ : KuboJson} (g : Generator).

Lemma counted_epoch t t' e :
  ipld_epochs t' !! e = ipld_epochs t !! e → ipld_blobs t' = ipld_blobs t → counted g t e → counted g t' e.
Proof.
  intros He Hb (row & rows & Hr & Hrec & Hc). exists row, rows. rewrite He.
  by rewrite (epoch_records_blobs _ _ _ _ Hb).
Qed.

(** The loop of RepairEpochs. *)
Record repairs (w : World N) (reports : list (Z * option error)) (w' : World N) : Prop := {
  rp_node : grows (w_node w) (w_node w');
  rp_blobs : ipld_blobs (db_tables w') = ipld_blobs (db_tables w);
  rp_state : ipld_state (db_tables w') = ipld_state (db_tables w);
  rp_kept e : (e, None) ∉ reports → ipld_epochs (db_tables w') !! e = ipld_epochs (db_tables w) !! e;
  rp_fixed e : (e, None) ∈ reports → recorded g w' e ∧ counted g (db_tables w') e }.

Lemma repairs_cons e (r : error + unit) w w1 reports w' :
  row_rebuilt g e w (match r with inr _ => true | inl _ => false end) w1 → repairs w1 reports w' →
  repairs w ((e, match r with inl er => Some er | inr _ => None end) :: reports) w'.
Proof.
  intros Hr [Gn Gb Gs Gk Gf]. destruct r as [er|u]; cbn in Hr.
  - destruct Hr as [Hn Ht]. rewrite Ht in Gb, Gs. split; [by etransitivity|done|done| |].
    + intros e' He'. rewrite Gk by (intros ?; apply He'; by right). by rewrite Ht.
    + intros e' [[=]|He']%elem_of_cons. by apply Gf.
  - destruct Hr as (Hn & Hrec & Hcnt & Hb & Hs & He). split; [by etransitivity|congruence|congruence| |].
    + intros e' [Hne Hni]%not_elem_of_cons. rewrite Gk by done. apply He. congruence.
    + intros e' Hin. destruct (decide ((e', None) ∈ reports)) as [|Hni]; [by apply Gf|].
      apply elem_of_cons in Hin as [[= ->]|]; [|done]. specialize (Gk e Hni). split.
      * destruct Hrec as (row & c & Hrow & Hc & Hk). exists row, c. rewrite Gk. split_and!; [done|done|].
        destruct Hk as [|[d Hd]]; [by left|]. right. eauto.
      * by eapply counted_epoch.
Qed.

Lemma repair_loop_spec envs strict epochs : g_db g = true → ∀ (w : World N) reports w',
  repair_loop g envs strict epochs w = (Ok reports, w') →
  repairs w reports w' ∧ reports.*1 `prefix_of` epochs ∧
  (Forall (λ e, en_ctx (envs e) = None) epochs → reports.*1 = epochs).
Proof.
  intros Hdb. induction epochs as [|e epochs IH]; intros w reports w' Hr; cbn [repair_loop] in Hr.
  { apply ret_Ok in Hr as [-> ->]. split_and!; [split; done || by intros ? ?%not_elem_of_nil|done|done]. }
  destruct (en_ctx (envs e)) as [er|] eqn:Hctx.
  { apply ret_Ok in Hr as [-> ->]. split_and!; [split; done || by intros ? ?%not_elem_of_nil|apply prefix_nil|].
    intros [H _]%Forall_cons. congruence. }
  apply bind_Ok in Hr as (r & w1 & Ha & Hr). apply bind_Ok in Hr as (reports' & w2 & Hl & [-> ->]%ret_Ok).
  destruct (IH w1 reports' w2 Hl) as (Hrep & Hpre & Hall).
  assert (row_rebuilt g e w (match r with inr _ => true | inl _ => false end) w1) as Hrb.
  { pose proof (repair_epoch_spec g (envs e) strict e w Hdb) as Hs. apply attempt_Ok in Ha.
    destruct r; rewrite Ha in Hs; exact Hs. }
  split_and!; [by eapply repairs_cons|by apply prefix_cons|]. intros [_ Hf]%Forall_cons. cbn. f_equal. auto.
Qed.

(** repair-epochs fixes what it reports as fixed: every epoch reported
    without an error then has a row whose blob_count is the number of its
    blob rows and whose CID the node holds; no other row, no blob and no
    cursor is touched; the counters add up, and without a cancellation every
    epoch asked for is reported, in order. *)
Lemma RepairEpochs_spec env envs epochs strict (w : World N) ok failed reports w' :
  g_db g = true →
  RepairEpochs g env envs epochs strict w = (Ok (ok, failed, reports), w') →
  repairs w reports w' ∧
  ok + failed = Z.of_nat (length reports) ∧ 0 ≤ failed ∧
  (failed = 0 → ∀ e r, (e, r) ∈ reports → r = None) ∧
  reports.*1 `prefix_of` epochs ∧
  (Forall (λ e, en_ctx (envs e) = None) epochs → reports.*1 = epochs).
Proof.
  intros Hdb Hr. unfold RepairEpochs in Hr. apply bind_Ok in Hr as (reports' & w1 & Hl & Hr).
  apply bind_Ok in Hr as (u & w2 & Hroot & Hr). apply ret_Ok in Hr as [[= -> -> ->] ->].
  destruct (repair_loop_spec envs strict epochs Hdb w reports' w1 Hl) as (Hrep & Hpre & Hall).
  assert (reads w1 w2) as [Gn Gt].
  { destruct (0 <? _); [|apply ret_Ok in Hroot as [_ ->]; reflexivity].
    pose proof (reads_nonfatal _ (reads_rebuild (N := N) g Hdb env) w1) as Hx. by rewrite Hroot in Hx. }
  pose proof (List.filter_length_le report_ok reports') as Hlen.
  split_and!; [|lia|lia| |done|done].
  - destruct Hrep as [Hn Hb Hs Hk Hf]. split; rewrite ?Gt; [by etransitivity|done|done|done|].
    intros e He. destruct (Hf e He) as [Hrec Hcnt]. split; [|done].
    eapply recorded_reads; [|done]. by split.
  - intros Hz e r Hin. pose proof (List.filter_length_forallb report_ok reports') as Hfa.
    specialize (Hfa ltac:(lia)). rewrite forallb_forall in Hfa.
    apply list_elem_of_In, Hfa in Hin. by destruct r.
Qed.
(** What finalizing epoch [e] may do, and what it did if it returned a CID. *)
Definition finalized (e : Z) (w : World N) (o : outcome cid) (w' : World N) : Prop :=
  grows (w_node w) (w_node w') ∧ ipld_blobs (db_tables w') = ipld_blobs (db_tables w) ∧
  (∀ e', e' ≠ e → ipld_epochs (db_tables w') !! e' = ipld_epochs (db_tables w) !! e') ∧
  match o with
  | Ok c => recorded g w' e ∧ counted g (db_tables w') e ∧ live_cursor g w' = Some e ∧
      ep_cid <$> ipld_epochs (db_tables w') !! e = Some (cid_String c)
  | _ => live_cursor g w' = live_cursor g w
  end.

Lemma finalized_reads e w o w' : reads w w' → (∀ c, o ≠ Ok c) → finalized e w o w'.
Proof.
  intros Hr Ho. pose proof (live_cursor_reads g _ _ Hr) as Hc. destruct Hr as [Hn Ht].
  split_and!; [done|by rewrite Ht|by rewrite Ht|]. by destruct o; [destruct (Ho a)| |].
Qed.

(** The end of finalize: the root is rebuilt and the live cursor moved. *)
Lemma finalize_tail env e er w w1 :
  g_db g = true → row_rebuilt g e w true w1 →
  ep_cid <$> ipld_epochs (db_tables w1) !! e = Some (cid_String (er_CID er)) →
  let m := (_ ← nonfatal (rebuildNetworkRoot g env);
            _ ← @sb_SetLastProcessedEpoch _ (g_state g) e; mret (er_CID er)) in
  finalized e w (fst (m w1)) (snd (m w1)).
Proof.
  intros Hdb (Gn & Hrec & Hcnt & Hb & Hs & He) Hcid. cbv zeta.
  apply (reads_then _ _ (finalized e w) w1);
    [reflexivity|apply reads_nonfatal, reads_rebuild; done| |].
  - intros o w2 R2 Ho. pose proof (live_cursor_reads g _ _ R2) as Hc. destruct R2 as [Hn2 Ht2].
    split_and!; [by etransitivity|by rewrite Ht2|intros; rewrite Ht2; auto|].
    unfold live_cursor in *. rewrite Hs in Hc. by destruct o; [destruct (Ho a)| |].
  - intros u w2 _ R2. pose proof (SetLive_spec g Hdb e w2) as Hset. pose proof (live_cursor_reads g _ _ R2) as Hc.
    pose proof (recorded_reads g e _ _ R2 Hrec) as (row & c & Hrow & Hrc & Hk). destruct R2 as [Hn2 Ht2].
    pose proof (SetLastProcessedEpoch_atomically (cf_Network (g_cfg g)) e (w_db w2)) as Ha.
    unfold mbind, go_bind. cbn [sb_SetLastProcessedEpoch g_state] in *. rewrite Hdb in *. unfold in_db, zoom in *.
    rewrite Hdb in *. destruct (SetLastProcessedEpoch _ e (w_db w2)) as [o d]. cbn [fst snd] in *.
    destruct Hset as (_ & He2 & Ho).
    assert (ipld_blobs (c_tables d) = ipld_blobs (db_tables w1)) as Hbd.
    { rewrite <- Ht2. destruct o; [by rewrite Ha|by rewrite Ha|done]. }
    cbn [w_db w_node] in *. rewrite Ht2 in He2, Hrow.
    assert (finalized e w (fst (match o with Ok _ => Ok (er_CID er) | Err x => Err x | Panic p => Panic p end, w2))
      (mkWorld (w_beacon w2) (w_node w2) d (w_state w2) (w_sent w2) (w_metrics w2))) as Hx; [|by destruct o].
    split_and!; cbn; [by etransitivity|congruence|intros; rewrite He2; auto|].
    unfold live_cursor in *. rewrite Hs in Hc. destruct o; cbn in *; [|congruence|congruence]. destruct Ho as [Ho _].
    split_and!; [| |done|by rewrite He2].
    + exists row, c. cbn. by rewrite He2.
    + eapply counted_epoch; [by rewrite He2|done|done].
Qed.

(** finalize-epoch: when it returns a CID, the epoch's row names it, the
    node holds its block, blob_count is the number of the epoch's blob rows and
    the live cursor is that epoch (whatever it was before, a later one
    included); whatever it returns, no blob and no other epoch's row has
    changed, and on an error the cursor has not moved. *)
Lemma finalizeEpochInner_correct env e (w : World N) :
  g_db g = true →
  finalized e w (fst (finalizeEpochInner g env e w)) (snd (finalizeEpochInner g env e w)).
Proof.
  intros Hdb. unfold finalizeEpochInner. rewrite Hdb. cbn [negb].
  change (repair_backend g) with (g_state (N := N) g).
  apply (rebuild_then g env ("load blobs epoch " +:+ FormatUint e) ("no blobs found for epoch " +:+ FormatUint e)
    ("reconstruct epoch " +:+ FormatUint e +:+ " from DB") ("build epoch node " +:+ FormatUint e) id e
    (λ er rows, _ ← wrapf ("save epoch " +:+ FormatUint e +:+ " to db") (in_db g
         (SaveEpoch (cf_Network (g_cfg g)) er (Z.of_nat (length rows)) (epoch_time g e)));
       _ ← nonfatal (rebuildNetworkRoot g env);
       _ ← @sb_SetLastProcessedEpoch _ (g_state g) e; mret (er_CID er)) (finalized e w) w Hdb);
    [done|done|by intros; apply finalized_reads|].
  intros er rows w1 R1 He Hrows Hk.
  pose proof (save_rebuilt g w w1 er e rows (epoch_time g e) Hdb R1 He Hrows Hk) as Hsave.
  rewrite bind_eq. unfold wrapf.
  destruct (in_db g _ w1) as [[u|er'|p] w2] eqn:Hdbs; cbn [wrap]; [|by apply finalized_reads..].
  apply finalize_tail; [done|done|].
  apply in_db_inv in Hdbs as [(row & Hrow & Hcid)%SaveEpoch_row _]; [|done]. rewrite He in Hrow.
  rewrite Hrow. cbn. by rewrite Hcid.
Qed.
End RepairProperties.

(** ** The properties at concrete inputs *)

(** A database that has epoch 10's blob and a row of it that counts five. *)
Definition demo_damaged : World (gmap cid string) :=
  let w := snd (processEpoch (BJ := demo_reply) demo_gen demo_run 10 None (demo_world tables_empty)) in
  let miscount r :=
    mkEpochRow (ep_network r) (ep_slot r) (ep_epoch_time r) (ep_cid r) (ep_car_path r) 5 (ep_size_bytes r) in
  mkWorld demo_client (w_node w) (healthy (set_epochs (alter miscount 10) (db_tables w))) (w_state w) [] None.

Lemma RepairEpochs_demo :
  let run := RepairEpochs demo_gen demo_run (λ _, demo_run) [10; 12] true demo_damaged in
  let reports := [(10, None); (12, Some (errors_New "no blobs in DB"))] in
  fst run = Ok (1, 1, reports) ∧ repairs demo_gen demo_damaged reports (snd run).
Proof.
  intros run reports. assert (fst run = Ok (1, 1, reports)) as Hf by (vm_compute; reflexivity).
  split; [exact Hf|].
  apply (RepairEpochs_spec demo_gen demo_run (λ _, demo_run) [10; 12] true demo_damaged 1 1 reports (snd run));
    [reflexivity|]. rewrite <- Hf. apply surjective_pairing.
Defined.

(** Evaluated: the damaged epoch is finalized, and the live cursor is there. *)
Lemma finalizeEpochInner_demo :
  let run := finalizeEpochInner demo_gen demo_run 10 demo_damaged in
  is_Ok (fst run) ∧ finalized demo_gen 10 demo_damaged (fst run) (snd run).
Proof.
  split; [vm_compute; eauto|].
  apply (finalizeEpochInner_correct demo_gen demo_run 10 demo_damaged). reflexivity.
Defined.
