(* ===== verification/Push.v ===== *)
(** * Push: what a pushed blob leaves behind

    Facts about ProcessBlobInput of generator.go, the processor the HTTP API
    hands each validated POST /blob to. *)

From S2P Require Import Prelude GoStd Types Ipld Store IpldModel Blob Epoch Network Db StateFile.
From S2P Require Import Beacon ElClient Ipfs Api Metrics Generator Reload Persist Live Repair.

Section PushFacts.
Context {R : GoRuntime} {I : Ipld} {L : IpldLaws I} {P : Postgres} {BJ : BeaconJson} {JS : JsonState}.
Context {N : Type} {K : Kubo N} {KL : KuboLaws N} {KJ : KuboJson} (g : Generator).

(** The store a blob is staged in has both its blocks, under their CIDs. *)
Lemma blob_staged b : let bs := put_all (blob_blocks b) MemBlockstore.NewMemBlockstore in
  (∀ k blk, MemBlockstore.blocks bs !! k = Some blk → certified blk) ∧
  Forall (λ blk, MemBlockstore.blocks bs !! blk_Cid blk = Some blk) (blob_blocks b).
Proof.
  cbv zeta. split.
  { intros k blk Hk. apply (mem_put_all_elem certified _ MemBlockstore.NewMemBlockstore) in Hk as [? _];
      [done|done|apply blob_blocks_certified]. }
  destruct (ProcessBlob_runs b) as (mb & Hmb & _). unfold blob_blocks, blob_meta. rewrite Hmb.
  assert (blk_Cid mb ≠ blk_Cid (raw_block (bi_Data b))) as Hne.
  { intros Hc. apply cbor_block_codec in Hmb. rewrite Hc in Hmb. discriminate. }
  repeat constructor; cbn.
  - rewrite lookup_insert_ne by done. apply lookup_insert_eq.
  - apply lookup_insert_eq.
Qed.

Lemma on_store_blob inp : on_store (match g_ipfs g with Some _ => true | None => false end)
    (λ BS B, ProcessBlob inp) =
  Ok (blob_result inp, match g_ipfs g with
    | Some _ => Some (put_all (blob_blocks inp) MemBlockstore.NewMemBlockstore)
    | None => None
    end).
Proof.
  unfold on_store. destruct (g_ipfs g).
  - by rewrite (ProcessBlob_blob inp _ mem_backend mem_accepts MemBlockstore.NewMemBlockstore).
  - by rewrite (ProcessBlob_blob inp _ null_backend null_accepts NullBlockstore.Null).
Qed.

(** The blob's own row, and only it, is written; the epoch gets a row without a
    CID if it had none. *)
Definition row_saved (network : string) (req : BlobPushRequest) (res : BlobResult) (t t' : tables) : Prop :=
  (∃ row, ipld_blobs t' !! pq_Commitment req = Some row ∧
     bl_data_cid row = cid_String (br_DataCID res) ∧ bl_meta_cid row = cid_String (br_MetaCID res) ∧
     bl_versioned_hash row = pq_VersionedHash req ∧
     (ipld_blobs t !! pq_Commitment req = None → bl_epoch row = to_i64 (pq_Epoch req) ∧ bl_network row = network)) ∧
  (∀ c, c ≠ pq_Commitment req → ipld_blobs t' !! c = ipld_blobs t !! c) ∧
  (∃ row, ipld_epochs t' !! to_i64 (pq_Epoch req) = Some row ∧
     (ipld_epochs t !! to_i64 (pq_Epoch req) = None → ep_network row = network ∧ ep_cid row = "" ∧ ep_blob_count row = 0)) ∧
  (∀ e row, ipld_epochs t !! e = Some row → ipld_epochs t' !! e = Some row).

Lemma saved_one network req raw res gt sps t :
  row_saved network req res t (saved_blobs network (pq_Epoch req) [push_input req raw] [res] gt sps t).
Proof.
  unfold saved_blobs. cbn [zip_with]. set (row := stage_row network (pq_Epoch req) gt sps (push_input req raw) res).
  assert (∀ c, distinct_stage [row] !! c = if decide (c = pq_Commitment req) then Some (snd row) else None) as Hd.
  { intros c. pose proof (distinct_stage_lookup [row] c) as H. case_decide as Hc.
    - destruct (distinct_stage [row] !! c) as [r|].
      + apply list_elem_of_singleton in H. by rewrite <- H.
      + destruct H. subst c. by left.
    - destruct (distinct_stage [row] !! c) as [r|]; [|done].
      apply list_elem_of_singleton in H. destruct Hc. exact (f_equal fst H). }
  split_and!; cbn [set_blobs set_epochs ipld_blobs ipld_epochs].
  - eexists. rewrite upsert_blobs_lookup, Hd, decide_True by done. split; [done|].
    destruct (ipld_blobs t !! _); split_and!; done.
  - intros c Hc. by rewrite upsert_blobs_lookup, Hd, decide_False.
  - unfold ensure_epoch. destruct (ipld_epochs t !! to_i64 (pq_Epoch req)) eqn:He; [by eexists|].
    eexists. by rewrite lookup_insert_eq.
  - intros e row' He. unfold ensure_epoch. destruct (ipld_epochs t !! to_i64 (pq_Epoch req)) eqn:He'; [done|].
    rewrite lookup_insert_ne; [done|congruence].
Qed.

(** What a push may do, and what it did if it answered. *)
Definition pushed (req : BlobPushRequest) (w : World N) (o : outcome BlobPushResponse) (w' : World N) : Prop :=
  grows (w_node w) (w_node w') ∧ ipld_state (db_tables w') = ipld_state (db_tables w) ∧
  match o with
  | Ok resp => ∃ raw, hexDecode (pq_Data req) = Ok raw ∧
      let inp := push_input req raw in
      ∃ res, fst (ProcessBlob inp NullBlockstore.Null) = Ok res ∧
        resp = mkBlobPushResponse (cid_String (br_DataCID res)) (cid_String (br_MetaCID res))
                 (pq_Commitment req) (pq_Epoch req) false "" ∧
        (g_ipfs g ≠ None → Forall (holds (w_node w')) (blob_blocks inp)) ∧
        (g_db g = true → row_saved (cf_Network (g_cfg g)) req res (db_tables w) (db_tables w'))
  | _ => db_tables w' = db_tables w
  end.

Lemma pushed_reads req w o w' : reads w w' → (∀ r, o ≠ Ok r) → pushed req w o w'.
Proof.
  intros [Hn Ht] Ho. split_and!; [done|by rewrite Ht|]. by destruct o; [destruct (Ho a)| |].
Qed.
End PushFacts.

(** ** Properties *)

Section PushProperties.
Context {R : GoRuntime} {I : Ipld} {L : IpldLaws I} {P : Postgres} {BJ : BeaconJson} {JS : JsonState}.
Context {N : Type} {K : Kubo N} {KL : KuboLaws N} {KJ : KuboJson} (g : Generator).

(** The upload of a pushed blob. *)
Lemma push_upload env inp w u w' :
  match (match g_ipfs g with
         | Some _ => Some (put_all (blob_blocks inp) MemBlockstore.NewMemBlockstore)
         | None => None
         end), g_ipfs g with
  | Some bs, Some c =>
      _ ← wrapf "upload blob to ipfs" (in_node (PutBlockstore c (en_inflight env) bs));
      in_metrics (ObserveIPFSUpload (MemBlockstore.Len bs))
  | _, _ => mret tt
  end w = (Ok u, w') → g_ipfs g ≠ None → Forall (holds (w_node w')) (blob_blocks inp).
Proof.
  destruct (g_ipfs g) as [c|]; [|done]. intros Hr _.
  apply bind_Ok in Hr as (u1 & w1 & Hput%wrapf_Ok%in_node_inv & Hm).
  destruct (blob_staged inp) as [Hcert Hst].
  pose proof (PutBlockstore_spec c (en_inflight env) _ (w_node w) Hcert) as Hp. rewrite Hput in Hp.
  destruct Hp as [_ Hp]. eapply Forall_impl; [exact Hst|]. intros blk Hb.
  eapply holds_grows; [|exact (Hp _ _ Hb)].
  match type of Hm with in_metrics ?m _ = _ => pose proof (reads_metrics (N := N) m w1) as Hg end.
  rewrite Hm in Hg. apply (rd_node _ _ Hg).
Qed.

(** Saving the row: nothing, or the row. *)
Lemma push_save req raw res (w : World N) :
  let m : Go (World N) unit := if g_db g then
      wrapf "save blob to db" (in_db g (SaveBlobs (cf_Network (g_cfg g)) (pq_Epoch req)
        [push_input req raw] [res] (g_genesisTime g) (g_secondsPerSlot g)))
    else mret tt in
  let '(o, w') := m w in
  w_node w' = w_node w ∧
  match o with
  | Ok _ => ipld_state (db_tables w') = ipld_state (db_tables w) ∧
      (g_db g = true → row_saved (cf_Network (g_cfg g)) req res (db_tables w) (db_tables w'))
  | _ => db_tables w' = db_tables w
  end.
Proof.
  cbv zeta. unfold in_db. destruct (g_db g); [|done]. unfold wrapf, zoom.
  pose proof (SaveBlobs_atomically (cf_Network (g_cfg g)) (pq_Epoch req) [push_input req raw] [res]
    (g_genesisTime g) (g_secondsPerSlot g) (w_db w)) as Ha.
  destruct (SaveBlobs _ _ _ _ _ _ (w_db w)) as [[u|e|p] d]; cbn [wrap w_db w_node] in *; [| |done].
  - rewrite Ha, decide_False by done. split_and!; [done|done|]. intros _. apply saved_one.
  - done.
Qed.

(** A push that is answered is durable: the response carries the CIDs
    ProcessBlob computes for the decoded bytes; the node holds the data and the
    metadata block of the blob; the database has a row for its commitment with
    those CIDs and a row for its epoch, no other blob and no existing epoch row
    having changed. A push that fails leaves the tables as they were. *)
Lemma ProcessBlobInput_correct env req (w : World N) :
  pushed g req w (fst (ProcessBlobInput g env req w)) (snd (ProcessBlobInput g env req w)).
Proof.
  unfold ProcessBlobInput.
  apply (reads_then _ _ (pushed g req w) w);
    [reflexivity|apply always_wrapf, always_lift, _|by intros; apply pushed_reads|].
  intros raw w1 [Hraw _]%wrapf_Ok%lift_Ok R1. set (inp := push_input req raw).
  rewrite on_store_blob.
  apply (reads_then _ _ (pushed g req w) w);
    [done|apply always_wrapf, always_lift, _|by intros; apply pushed_reads|].
  intros x w2 [Hx _]%wrapf_Ok%lift_Ok R2.
  match type of Hx with Ok ?y = _ => assert (x = y) as -> by congruence end. clear Hx.
  apply (reads_then _ _ (pushed g req w) w); [done| |by intros; apply pushed_reads|].
  { destruct (g_ipfs g); [|apply always_ret, _].
    apply always_bind; [apply _|apply always_wrapf, reads_node, PutBlockstore_grows|intros ?; apply reads_metrics]. }
  intros u w3 Hup R3. pose proof (push_upload env inp w2 u w3 Hup) as Hheld. clear Hup.
  pose proof (push_save req raw (blob_result inp) w3) as Hsave. cbv zeta in Hsave. fold inp in Hsave.
  rewrite bind_eq.
  match type of Hsave with context [(if g_db g then ?a else ?b) w3] => set (save := if g_db g then a else b) in * end.
  destruct (save w3) as [[u4|e|p] w4]; destruct Hsave as [Hn4 Hs]; cbn [fst snd];
    [|apply pushed_reads; [|done]; destruct R3; split; [by rewrite Hn4|congruence]..].
  destruct Hs as [Hst Hrow]. destruct R3 as [Hn3 Ht3]. rewrite Ht3 in Hst, Hrow.
  match goal with |- pushed _ _ _ (fst ?x) (snd ?x) => assert (∃ w5, x = (Ok (mkBlobPushResponse
    (cid_String (br_DataCID (blob_result inp))) (cid_String (br_MetaCID (blob_result inp)))
    (br_Commitment (blob_result inp)) (pq_Epoch req) false ""), w5) ∧ w_node w5 = w_node w4 ∧ w_db w5 = w_db w4)
    as (w5 & -> & Hn5 & Ht5) end.
  { rewrite !bind_eq. unfold NotifyBlobs. destruct (g_notifier g); eexists; split_and!; reflexivity. }
  unfold pushed. cbn [fst snd]. rewrite Hn5, Ht5, Hn4. split_and!; [done|done|].
  exists raw. split; [done|]. exists (blob_result inp).
  rewrite (ProcessBlob_blob inp _ null_backend null_accepts NullBlockstore.Null).
  split_and!; [done| |by rewrite Hn4 in Hheld || done|done].
  f_equal. unfold blob_result. destruct (ProcessBlob_runs inp) as (mb & Hmb & _). unfold blob_meta. by rewrite Hmb.
Qed.
End PushProperties.

(** ** The property at a concrete input *)

Definition demo_push : BlobPushRequest :=
  mkBlobPushRequest "0xaabbccddeeff00112233" "0x01aa" "0x0102" "0xtx" 5 "0xbh" 320 10 0 false.

Lemma ProcessBlobInput_demo :
  let run := ProcessBlobInput demo_gen demo_run demo_push (demo_world tables_empty) in
  is_Ok (fst run) ∧ pushed demo_gen demo_push (demo_world tables_empty) (fst run) (snd run).
Proof.
  split; [vm_compute; eauto|].
  apply (ProcessBlobInput_correct demo_gen demo_run demo_push (demo_world tables_empty)).
Defined.
