(* ===== verification/Pipeline.v ===== *)
(** * Pipeline: runBackfillPipeline and runBackfill of generator.go

    The goroutines of a backfill attempt as a labelled transition system: the
    dispatcher, the workers, the collector and the consumer, over the channels
    workCh, resultCh and pending with their capacities. A step is what one
    goroutine does up to its next channel operation or call: a call of
    EpochExists, buildEpoch, persistEpoch or SetBackfillCursor is one step on
    the shared world. [step] is executable: given a label it is the next state,
    or [None] when that goroutine cannot take that step. *)

From S2P Require Import Prelude GoStd Types Ipld Store IpldModel Blob Epoch Network Db StateFile.
From S2P Require Import Beacon ElClient Ipfs Api Metrics Generator Reload Persist Live.

(** A result of a worker; the collector hands it to the consumer unchanged, as
    a job. *)
Record buildResult := mkBuildResult { re_epoch : Z; re_be : builtEpoch; re_err : option error }.
Abbreviation job := buildResult.

(** Where each goroutine is. A worker takes an epoch, looks at pctx, asks
    whether the epoch exists, builds it, and sends the result ([last]: it
    returns after the send). *)
Inductive worker :=
  | WIdle
  | WTaken (epoch : Z)
  | WCheck (epoch : Z)
  | WBuild (epoch : Z)
  | WSend (r : buildResult) (last : bool)
  | WExited.

(** The dispatcher sends epochs; then it has closed workCh and waits for the
    workers; then it has returned, having closed resultCh or not. *)
Inductive dispatch := DLoop | DWait | DDone (closed : bool).

(** The collector receives; or holds the next job in order, for pending
    ([final]: resultCh is closed); or has closed pending and sent its error on
    producerDone. *)
Inductive collect := CRecv | CSend (final : bool) (r : job) | CDone (err : option error).

Inductive crash := SendOnClosed | PanicIn (msg : string).

(** The consumer receives; persists a job; moves the cursor; after an error
    drains pending; waits for the dispatcher and the collector; has returned.
    A panic of any goroutine ends the process. *)
Inductive consume :=
  | KRecv
  | KPersist (j : job)
  | KCursor (j : job)
  | KDrain (e : error)
  | KWait (e : option error)
  | KReturned (resume : Z) (err : option error)
  | KCrashed (c : crash).

Record dispatcher := mkDispatcher { d_state : dispatch; d_next : Z; d_workCh : list Z }.
Record collector := mkCollector { c_state : collect; c_reorder : gmap Z buildResult; c_expected : Z }.
Record consumer := mkConsumer { k_state : consume; k_resume : Z }.

Record pipe (N : Type) := mkPipe {
  p_world : World N;
  p_cancelled : bool;               (* pctx *)
  p_disp : dispatcher;
  p_workers : list worker;
  p_resultCh : list buildResult;
  p_coll : collector;
  p_pending : list job;
  p_cons : consumer }.
Arguments mkPipe {N}.
Arguments p_world {N}.
Arguments p_cancelled {N}.
Arguments p_disp {N}.
Arguments p_workers {N}.
Arguments p_resultCh {N}.
Arguments p_coll {N}.
Arguments p_pending {N}.
Arguments p_cons {N}.

Inductive label :=
  | DispatchSend | DispatchCancel | DispatchEnd | DispatchClose
  | WorkerTake (i : nat) | WorkerEnd (i : nat) | WorkerCtx (i : nat) | WorkerExists (i : nat)
  | WorkerBuild (i : nat) (env : Env) | WorkerSend (i : nat)
  | CollectRecv | CollectEnd | CollectSend | CollectCancel
  | Consume | ConsumeEnd | ConsumePersist (env : Env) | ConsumeCursor
  | ConsumeDrain | ConsumeDrained | ConsumeReturn
  | CtxCancel.

(** [builtEpoch{epoch: epoch}], and the zero value. *)
Definition unbuilt (epoch : Z) : builtEpoch :=
  mkBuiltEpoch epoch EpochInput_zero [] EpochResult_zero None false false false.

(** [pctx.Err()] once it is cancelled. *)
Definition ctx_err : error := mkError "context canceled" [CtxCanceled].

Definition worker_exited (x : worker) : bool := match x with WExited => true | _ => false end.

Section PipelineOps.
Context {R : GoRuntime} {I : Ipld} {P : Postgres} {BJ : BeaconJson} {JS : JsonState}.
Context {N : Type} {K : Kubo N} {KJ : KuboJson} (g : Generator).
Context (from target start total : Z).

Abbreviation network := (cf_Network (g_cfg g)).
Local Instance pipe_backend : StateBackend (World N) := g_state g.

Definition pipe_workers : nat :=
  Z.to_nat (if cf_BackfillEpochWorkers (g_cfg g) <=? 0 then 1 else cf_BackfillEpochWorkers (g_cfg g)).

Definition pipe_init (w : World N) : pipe N :=
  mkPipe w false (mkDispatcher DLoop from []) (replicate pipe_workers WIdle) []
    (mkCollector CRecv ∅ from) [] (mkConsumer KRecv from).

(** A panic takes the process down. *)
Definition pipe_crash (c : crash) (w : World N) (p : pipe N) : pipe N :=
  mkPipe w (p_cancelled p) (p_disp p) (p_workers p) (p_resultCh p) (p_coll p) (p_pending p)
    (mkConsumer (KCrashed c) (k_resume (p_cons p))).

(** ** Dispatcher *)

Definition set_disp (d : dispatcher) (p : pipe N) : pipe N :=
  mkPipe (p_world p) (p_cancelled p) d (p_workers p) (p_resultCh p) (p_coll p) (p_pending p) (p_cons p).

Definition dispatch_step (l : label) (p : pipe N) : option (pipe N) :=
  let d := p_disp p in
  match l, d_state d with
  | DispatchSend, DLoop =>
      if (d_next d <=? target) && (length (d_workCh d) <? pipe_workers)%nat then
        Some (set_disp (mkDispatcher DLoop (u64_add (d_next d) 1) (d_workCh d ++ [d_next d])) p)
      else None
  | DispatchCancel, DLoop =>
      if (d_next d <=? target) && p_cancelled p then
        Some (set_disp (mkDispatcher (DDone false) (d_next d) (d_workCh d)) p)
      else None
  | DispatchEnd, DLoop =>
      if target <? d_next d then Some (set_disp (mkDispatcher DWait (d_next d) (d_workCh d)) p) else None
  | DispatchClose, DWait =>
      if forallb worker_exited (p_workers p) then
        Some (set_disp (mkDispatcher (DDone true) (d_next d) (d_workCh d)) p)
      else None
  | _, _ => None
  end.

(** ** Workers *)

Definition set_worker (i : nat) (x : worker) (w : World N) (p : pipe N) : pipe N :=
  mkPipe w (p_cancelled p) (p_disp p) (<[i := x]> (p_workers p)) (p_resultCh p) (p_coll p) (p_pending p) (p_cons p).

(** [for epoch := range workCh]: the next epoch, or the end once it is closed
    and empty. *)
Definition worker_take (i : nat) (p : pipe N) : option (pipe N) :=
  match p_workers p !! i, d_workCh (p_disp p) with
  | Some WIdle, e :: rest =>
      Some (set_worker i (WTaken e) (p_world p)
        (set_disp (mkDispatcher (d_state (p_disp p)) (d_next (p_disp p)) rest) p))
  | _, _ => None
  end.

Definition worker_end (i : nat) (p : pipe N) : option (pipe N) :=
  match p_workers p !! i, d_workCh (p_disp p), d_state (p_disp p) with
  | Some WIdle, [], DLoop => None
  | Some WIdle, [], _ => Some (set_worker i WExited (p_world p) p)
  | _, _, _ => None
  end.

Definition worker_ctx (i : nat) (p : pipe N) : option (pipe N) :=
  match p_workers p !! i with
  | Some (WTaken e) =>
      Some (set_worker i
        (if p_cancelled p then WSend (mkBuildResult e (unbuilt 0) (Some ctx_err)) true
         else if g_db g then WCheck e else WBuild e) (p_world p) p)
  | _ => None
  end.

Definition worker_exists (i : nat) (p : pipe N) : option (pipe N) :=
  match p_workers p !! i with
  | Some (WCheck e) =>
      match in_db g (EpochExists network e) (p_world p) with
      | (Err er, w) =>
          Some (set_worker i (WSend (mkBuildResult e (unbuilt 0)
            (Some (errorf_w ("backfill: check epoch " +:+ FormatUint e) er))) true) w p)
      | (Ok true, w) =>
          Some (set_worker i (WSend (mkBuildResult e (skip_epoch e) None) false)
            (snd (in_metrics (RecordEpoch network "backfill" "skipped") w)) p)
      | (Ok false, w) => Some (set_worker i (WBuild e) w p)
      | (Panic m, w) => Some (pipe_crash (PanicIn m) w p)
      end
  | _ => None
  end.

Definition worker_build (i : nat) (env : Env) (p : pipe N) : option (pipe N) :=
  match p_workers p !! i with
  | Some (WBuild e) =>
      match buildEpoch g env e (Some (mkEpochProgress (e - start) total "backfill")) (p_world p) with
      | (Ok be, w) => Some (set_worker i (WSend (mkBuildResult e be None) false) w p)
      | (Err er, w) => Some (set_worker i (WSend (mkBuildResult e (unbuilt e) (Some er)) true) w p)
      | (Panic m, w) => Some (pipe_crash (PanicIn m) w p)
      end
  | _ => None
  end.

(** [resultCh <- r]: resultCh holds as many results as there are workers. *)
Definition worker_send (i : nat) (p : pipe N) : option (pipe N) :=
  match p_workers p !! i, d_state (p_disp p) with
  | Some (WSend r last), DDone true => Some (pipe_crash SendOnClosed (p_world p) p)
  | Some (WSend r last), _ =>
      if (length (p_resultCh p) <? pipe_workers)%nat then
        Some (mkPipe (p_world p) (p_cancelled p) (p_disp p)
          (<[i := if last then WExited else WIdle]> (p_workers p)) (p_resultCh p ++ [r])
          (p_coll p) (p_pending p) (p_cons p))
      else None
  | _, _ => None
  end.

(** ** Collector *)

Definition set_coll (rs : list buildResult) (c : collector) (pending : list job) (p : pipe N) : pipe N :=
  mkPipe (p_world p) (p_cancelled p) (p_disp p) (p_workers p) rs c pending (p_cons p).

(** The next job in order, if it has arrived; the loop after resultCh is closed
    also stops at the target. *)
Definition collect_next (final : bool) (reorder : gmap Z buildResult) (expected : Z) : collector :=
  if final && (target <? expected) then mkCollector (CDone None) reorder expected
  else match reorder !! expected with
  | Some r => mkCollector (CSend final r) (delete expected reorder) expected
  | None => mkCollector (if final then CDone None else CRecv) reorder expected
  end.

Definition collect_step (l : label) (p : pipe N) : option (pipe N) :=
  let c := p_coll p in
  match l, c_state c with
  | CollectRecv, CRecv =>
      match p_resultCh p with
      | [] => None
      | r :: rest =>
          Some (set_coll rest (collect_next false (<[re_epoch r := r]> (c_reorder c)) (c_expected c))
                  (p_pending p) p)
      end
  | CollectEnd, CRecv =>
      match p_resultCh p, d_state (p_disp p) with
      | [], DDone true => Some (set_coll [] (collect_next true (c_reorder c) (c_expected c)) (p_pending p) p)
      | _, _ => None
      end
  | CollectSend, CSend final r =>
      if (length (p_pending p) <? pipe_workers + 1)%nat then
        Some (set_coll (p_resultCh p)
          (match re_err r with
           | Some _ => mkCollector (CDone None) (c_reorder c) (c_expected c)
           | None => collect_next final (c_reorder c) (u64_add (c_expected c) 1)
           end) (p_pending p ++ [r]) p)
      else None
  | CollectCancel, CSend _ _ =>
      if p_cancelled p then
        Some (set_coll (p_resultCh p) (mkCollector (CDone (Some ctx_err)) (c_reorder c) (c_expected c))
                (p_pending p) p)
      else None
  | _, _ => None
  end.

(** ** Consumer *)

Definition set_cons (w : World N) (cancelled : bool) (pending : list job) (k : consumer) (p : pipe N) : pipe N :=
  mkPipe w cancelled (p_disp p) (p_workers p) (p_resultCh p) (p_coll p) pending k.

(** An error of the consumer: cancel, then drain. *)
Definition consume_fail (e : error) (w : World N) (pending : list job) (p : pipe N) : pipe N :=
  set_cons w true pending (mkConsumer (KDrain e) (k_resume (p_cons p))) p.

Definition consume_step (l : label) (p : pipe N) : option (pipe N) :=
  let k := p_cons p in
  let w := p_world p in
  let goto s := Some (set_cons w (p_cancelled p) (p_pending p) (mkConsumer s (k_resume k)) p) in
  match l, k_state k with
  | Consume, KRecv =>
      match p_pending p with
      | [] => None
      | j :: rest =>
          Some (match re_err j with
                | Some e => consume_fail e w rest p
                | None => set_cons w (p_cancelled p) rest
                    (mkConsumer (if be_skip (re_be j) then KCursor j else KPersist j) (k_resume k)) p
                end)
      end
  | ConsumeEnd, KRecv =>
      match p_pending p, c_state (p_coll p) with
      | [], CDone _ => goto (KWait None)
      | _, _ => None
      end
  | ConsumePersist env, KPersist j =>
      match persistEpoch g env (re_be j) w with
      | (Ok _, w') => Some (set_cons w' (p_cancelled p) (p_pending p) (mkConsumer (KCursor j) (k_resume k)) p)
      | (Err e, w') => Some (consume_fail
          (errorf_w ("backfill: persist epoch " +:+ FormatUint (re_epoch j)) e) w' (p_pending p) p)
      | (Panic m, w') => Some (pipe_crash (PanicIn m) w' p)
      end
  | ConsumeCursor, KCursor j =>
      match sb_SetBackfillCursor (re_epoch j) w with
      | (Ok _, w') => Some (set_cons w' (p_cancelled p) (p_pending p)
          (mkConsumer KRecv (u64_add (re_epoch j) 1)) p)
      | (Err e, w') => Some (consume_fail
          (errorf_w ("backfill: set cursor " +:+ FormatUint (re_epoch j)) e) w' (p_pending p) p)
      | (Panic m, w') => Some (pipe_crash (PanicIn m) w' p)
      end
  | ConsumeDrain, KDrain _ =>
      match p_pending p with
      | [] => None
      | _ :: rest => Some (set_cons w (p_cancelled p) rest k p)
      end
  | ConsumeDrained, KDrain e =>
      match p_pending p, c_state (p_coll p) with
      | [], CDone _ => goto (KWait (Some e))
      | _, _ => None
      end
  | ConsumeReturn, KWait oe =>
      match d_state (p_disp p), c_state (p_coll p) with
      | DDone _, CDone perr =>
          Some (set_cons w true (p_pending p)
            (mkConsumer (KReturned (k_resume k) (match oe with Some e => Some e | None => perr end)) (k_resume k)) p)
      | _, _ => None
      end
  | _, _ => None
  end.

(** The step of a label. *)
Definition step_live (l : label) (p : pipe N) : option (pipe N) :=
  match l with
  | DispatchSend | DispatchCancel | DispatchEnd | DispatchClose => dispatch_step l p
  | WorkerTake i => worker_take i p
  | WorkerEnd i => worker_end i p
  | WorkerCtx i => worker_ctx i p
  | WorkerExists i => worker_exists i p
  | WorkerBuild i env => worker_build i env p
  | WorkerSend i => worker_send i p
  | CollectRecv | CollectEnd | CollectSend | CollectCancel => collect_step l p
  | CtxCancel => Some (set_cons (p_world p) true (p_pending p) (p_cons p) p)
  | _ => consume_step l p
  end.

(** Nothing runs once the process has died. *)
Definition step (l : label) (p : pipe N) : option (pipe N) :=
  match k_state (p_cons p) with KCrashed _ => None | _ => step_live l p end.

Lemma step_inv l (p p' : pipe N) : step l p = Some p' → step_live l p = Some p'.
Proof. unfold step. by destruct (k_state (p_cons p)). Qed.

(** A schedule: the labels taken in order. *)
Fixpoint run_labels (ls : list label) (p : pipe N) : option (pipe N) :=
  match ls with
  | [] => Some p
  | l :: ls => p' ← step l p; run_labels ls p'
  end.

(** ** Runs and the retry loop *)

(** The environments a label carries are ones the goroutines can meet. *)
Definition label_ok (l : label) : Prop :=
  match l with WorkerBuild _ env | ConsumePersist env => env_ok env | _ => True end.

Definition set_world (w : World N) (p : pipe N) : pipe N :=
  mkPipe w (p_cancelled p) (p_disp p) (p_workers p) (p_resultCh p) (p_coll p) (p_pending p) (p_cons p).

(** A step of one of the goroutines, or of others who share the world. *)
Inductive pipe_step (others : relation (World N)) : relation (pipe N) :=
  | step_label l p p' : label_ok l → step l p = Some p' → pipe_step others p p'
  | step_others p w : others (p_world p) w → pipe_step others p (set_world w p).
End PipelineOps.

Section RetryLoop.
Context {R : GoRuntime} {I : Ipld} {P : Postgres} {BJ : BeaconJson} {JS : JsonState}.
Context {N : Type} {K : Kubo N} {KJ : KuboJson} (g : Generator).
Context (start target : Z) (others : relation (World N)).

(** An attempt from [next] that has returned. *)
Definition attempt_from (next : Z) (w : World N) (resumed : Z) (err : option error) (w' : World N) : Prop :=
  ∃ p, rtc (pipe_step g target start (target - start + 1) others) (pipe_init g next w) p ∧
    k_state (p_cons p) = KReturned resumed err ∧ p_world p = w'.

(** The loop of runBackfill from [next] on: the error it returns, and the
    world. A failed attempt is followed by a pause in which others run, and by
    an attempt from where the consumer stopped; at the end the network root is
    rebuilt. *)
Inductive runBackfill : Z → World N → option error → World N → Prop :=
  | rb_past next w env u w' : target < next →
      nonfatal (rebuildNetworkRoot g env) w = (Ok u, w') → runBackfill next w None w'
  | rb_ctx next w e : next ≤ target → runBackfill next w (Some e) w
  | rb_ok next w resumed w1 env u w' : next ≤ target → attempt_from next w resumed None w1 →
      nonfatal (rebuildNetworkRoot g env) w1 = (Ok u, w') → runBackfill next w None w'
  | rb_cancelled next w resumed e w1 ctx : next ≤ target → attempt_from next w resumed (Some e) w1 →
      runBackfill next w (Some ctx) w1
  | rb_retry next w resumed e w1 w2 r w' : next ≤ target → attempt_from next w resumed (Some e) w1 →
      rtc others w1 w2 → runBackfill resumed w2 r w' → runBackfill next w r w'.
End RetryLoop.
