(* ===== verification/Backfill.v ===== *)
(** * Backfill: what the pipeline of Pipeline.v guarantees

    The flow of epochs through the channels (each dispatched epoch is in exactly
    one place until the collector passes it on, in order), and from it: the
    consumer sees every epoch once, in order, moves the cursor behind them, and
    a run that ends without an error has covered the range. *)

From S2P Require Import Prelude GoStd Types Ipld Store IpldModel Blob Epoch Network Db StateFile.
From S2P Require Import Beacon ElClient Ipfs Api Metrics Generator Reload Persist Live Pipeline.

(** ** Lists of consecutive integers *)

Lemma seqZ_snoc m n : 0 ≤ n → seqZ m (n + 1) = seqZ m n ++ [m + n].
Proof.
  intros Hn. replace (n + 1) with (Z.of_nat (S (Z.to_nat n))) by lia. rewrite seqZ_S.
  by rewrite Z2Nat.id by lia.
Qed.

Lemma seqZ_head m n x l : seqZ m n = x :: l → x = m ∧ 0 < n ∧ l = seqZ (m + 1) (n - 1).
Proof.
  intros H. assert (0 < n) as Hn.
  { destruct (decide (0 < n)); [done|]. rewrite seqZ_nil in H by lia. done. }
  rewrite seqZ_cons in H by done. injection H as <- <-. split_and!; [done|done|].
  by rewrite <- Z.add_1_r, Z.sub_1_r.
Qed.

Lemma insert_perm {A} (l : list A) i x :
  l !! i = Some x → ∃ rest, l ≡ₚ x :: rest ∧ ∀ y, <[i := y]> l ≡ₚ y :: rest.
Proof.
  intros Hi. exists (delete i l). split; [by apply delete_Permutation|]. intros y.
  rewrite delete_take_drop, insert_take_drop by (by eapply lookup_lt_Some). symmetry. apply Permutation_middle.
Qed.

Lemma omap_perm {A B} (f : A → option B) l l' : l ≡ₚ l' → omap f l ≡ₚ omap f l'.
Proof.
  induction 1 as [|x l l' _ IH|x y l|]; cbn; [done| | |by etransitivity].
  - destruct (f x); [by f_equiv|done].
  - destruct (f x), (f y); [apply Permutation_swap|done..].
Qed.

(** ** The flow *)

(** The epoch a worker has taken and not sent. *)
Definition worker_epoch (x : worker) : option Z :=
  match x with
  | WTaken e | WCheck e | WBuild e => Some e
  | WSend r _ => Some (re_epoch r)
  | WIdle | WExited => None
  end.

Definition coll_item (c : collect) : list job := match c with CSend _ r => [r] | _ => [] end.
Definition coll_live (c : collect) : Prop := match c with CDone _ => False | _ => True end.
Definition failed (r : buildResult) : Prop := re_err r ≠ None.

(** The epochs taken from workCh that pending has not got yet. *)
Definition taken (ws : list worker) (rs : list buildResult) (c : collector) : list Z :=
  omap worker_epoch ws ++ (re_epoch <$> rs) ++ (map_to_list (c_reorder c)).*1 ++ (re_epoch <$> coll_item (c_state c)).

(** A failed result is on its way to the consumer, or the collector is done. *)
Definition failure_seen (rs : list buildResult) (c : collector) : Prop :=
  (∃ r, r ∈ rs ∧ failed r) ∨ (∃ k r, c_reorder c !! k = Some r ∧ failed r) ∨
  (∃ r, r ∈ coll_item (c_state c) ∧ failed r) ∨ ¬ coll_live (c_state c).

Section Flow.
Context (from target : Z).

Record flow (d : dispatcher) (ws : list worker) (rs : list buildResult) (c : collector) : Prop := {
  f_range : 0 ≤ from ≤ c_expected c ∧ from ≤ d_next d ≤ target + 1 ∧ target + 1 < two63;
  f_work : d_workCh d = seqZ (d_next d - Z.of_nat (length (d_workCh d))) (Z.of_nat (length (d_workCh d)));
  f_keys k r : c_reorder c !! k = Some r → re_epoch r = k;
  f_taken : coll_live (c_state c) → c_expected c ≤ d_next d - Z.of_nat (length (d_workCh d)) ∧
    taken ws rs c ≡ₚ seqZ (c_expected c) (d_next d - Z.of_nat (length (d_workCh d)) - c_expected c);
  f_item f r : c_state c = CSend f r → re_epoch r = c_expected c;
  f_disp : d_state d = DWait ∨ d_state d = DDone true → d_next d = target + 1;
  f_closed : d_state d = DDone true → Forall (λ x, x = WExited) ws;
  f_final r : c_state c = CSend true r → d_state d = DDone true ∧ rs = [];
  f_last r last : WSend r last ∈ ws → (last = true ↔ failed r);
  f_exit : WExited ∈ ws → d_state d ≠ DLoop ∧ d_workCh d = [] ∨ failure_seen rs c;
  f_workers : ws ≠ [] }.

Lemma flow_perm d ws ws' rs c : ws ≡ₚ ws' → flow d ws rs c → flow d ws' rs c.
Proof.
  intros Hp [H1 H2 H3 H4 H5 H6 H7 H8 H9 H10 H11]. split; try done.
  - intros Hc. destruct (H4 Hc) as [? Ht]. split; [done|]. rewrite <- Ht. unfold taken.
    by rewrite (omap_perm worker_epoch ws ws' Hp).
  - intros Hd. rewrite <- Hp. auto.
  - intros r last. rewrite <- Hp. apply H9.
  - rewrite <- Hp. done.
  - intros ->. by apply Permutation_nil_r in Hp.
Qed.

(** A worker that goes from one state to another, up to the order of the
    workers. *)
Lemma flow_worker d d' ws rs rs' c i x y :
  ws !! i = Some x →
  (∀ rest, flow d (x :: rest) rs c → flow d' (y :: rest) rs' c) →
  flow d ws rs c → flow d' (<[i := y]> ws) rs' c.
Proof.
  intros Hi Hf Hw. destruct (insert_perm ws i x Hi) as (rest & Hp & Hq).
  eapply flow_perm; [symmetry; apply Hq|]. apply Hf. by eapply flow_perm.
Qed.

(** A worker that keeps its epoch and does not exit. *)
Lemma flow_same d x y rest rs c :
  worker_epoch x = worker_epoch y → x ≠ WExited → y ≠ WExited →
  (∀ r last, y = WSend r last → (last = true ↔ failed r)) →
  flow d (x :: rest) rs c → flow d (y :: rest) rs c.
Proof.
  intros Hxy Hx Hy Hlast [H1 H2 H3 H4 H5 H6 H7 H8 H9 H10 H11]. split; try done.
  - unfold taken in *. cbn in *. rewrite <- Hxy. done.
  - intros Hd. destruct (Hx). by apply H7, Forall_cons in Hd as [-> _].
  - intros r last [Heq|Hin]%elem_of_cons; [by apply Hlast|]. apply H9. by right.
  - intros [Heq|Hin]%elem_of_cons; [done|]. apply H10. by right.
Qed.

(** ** The flow is kept: dispatcher and workers *)

Lemma flow_send d ws rs c :
  flow d ws rs c → d_state d = DLoop → d_next d ≤ target →
  flow (mkDispatcher DLoop (u64_add (d_next d) 1) (d_workCh d ++ [d_next d])) ws rs c.
Proof.
  intros [H1 H2 H3 H4 H5 H6 H7 H8 H9 H10 H11] Hs Hn.
  assert (u64_add (d_next d) 1 = d_next d + 1) as Hu
    by (apply wrap64_id; unfold is_u64, two63, two64 in *; lia).
  assert (d_next d + 1 - Z.of_nat (S (length (d_workCh d))) = d_next d - Z.of_nat (length (d_workCh d))) as Hlen by lia.
  split; try done; cbn; rewrite ?Hu, ?length_app, ?Nat.add_1_r, ?Hlen.
  - lia.
  - rewrite seqZ_S, <- H2. repeat f_equal. lia.
  - exact H4.
  - by intros [|].
  - intros r Hr. apply H8 in Hr as [Hd _]. congruence.
  - intros Hx. right. destruct (H10 Hx) as [[? _]|]; [congruence|done].
Qed.

(** The other steps of the dispatcher change only where it is. *)
Lemma flow_dispatch d s ws rs c :
  flow d ws rs c →
  (d_state d = DLoop ∧ s = DDone false ∨ d_state d = DLoop ∧ s = DWait ∧ target < d_next d ∨
   d_state d = DWait ∧ s = DDone true ∧ Forall (λ x, x = WExited) ws) →
  flow (mkDispatcher s (d_next d) (d_workCh d)) ws rs c.
Proof.
  intros [H1 H2 H3 H4 H5 H6 H7 H8 H9 H10 H11] Hs. split; try done; cbn.
  - intros Hd. destruct Hs as [[? ->]|[(? & -> & ?)|(Hw & -> & ?)]]; [naive_solver|lia|auto].
  - intros Hd. naive_solver.
  - intros r Hr. apply H8 in Hr as [Hd ?]. naive_solver congruence.
  - intros Hx. destruct (H10 Hx) as [[? ?]|]; [|by right]. left. naive_solver.
Qed.

Lemma flow_take s next e rest_w rest rs c :
  flow (mkDispatcher s next (e :: rest_w)) (WIdle :: rest) rs c →
  flow (mkDispatcher s next rest_w) (WTaken e :: rest) rs c.
Proof.
  intros [H1 H2 H3 H4 H5 H6 H7 H8 H9 H10 H11]. cbn -[seqZ Z.of_nat] in *.
  symmetry in H2. apply seqZ_head in H2 as (He & Hpos & Hrest).
  assert (next - Z.of_nat (length rest_w) = e + 1) as Hlen by lia.
  split; try done; cbn -[seqZ Z.of_nat].
  - rewrite Hrest at 1. f_equal; lia.
  - intros Hc. destruct (H4 Hc) as [Hle Ht]. split; [lia|].
    replace (next - Z.of_nat (length rest_w) - c_expected c)
      with (next - Z.of_nat (S (length rest_w)) - c_expected c + 1) by lia.
    rewrite seqZ_snoc by lia. unfold taken in *. cbn -[seqZ Z.of_nat] in *. rewrite Ht.
    replace (c_expected c + (next - Z.of_nat (S (length rest_w)) - c_expected c)) with e by lia.
    apply Permutation_cons_append.
  - intros Hd. by apply H7, Forall_cons in Hd as [? _].
  - intros r last [?|?]%elem_of_cons; [done|]. apply H9. by right.
  - intros [?|Hin]%elem_of_cons; [done|]. destruct H10 as [[? ?]|]; [by right|done|by right].
Qed.

Lemma flow_end d rest rs c :
  d_state d ≠ DLoop → d_workCh d = [] →
  flow d (WIdle :: rest) rs c → flow d (WExited :: rest) rs c.
Proof.
  intros Hd Hw [H1 H2 H3 H4 H5 H6 H7 H8 H9 H10 H11]. split; try done.
  - intros Hc. by apply H7, Forall_cons in Hc as [? _].
  - intros r last [?|?]%elem_of_cons; [done|]. apply H9. by right.
  - by left.
Qed.

Lemma failure_seen_app rs r c : failure_seen rs c → failure_seen (rs ++ [r]) c.
Proof. intros [(x & Hx & Hf)|Hs]; [left; exists x; set_solver|by right]. Qed.

Lemma flow_result d r last rest rs c :
  flow d (WSend r last :: rest) rs c →
  flow d ((if last then WExited else WIdle) :: rest) (rs ++ [r]) c ∧ d_state d ≠ DDone true.
Proof.
  intros [H1 H2 H3 H4 H5 H6 H7 H8 H9 H10 H11].
  assert (d_state d ≠ DDone true) as Hd by (intros Hc; by apply H7, Forall_cons in Hc as [? _]).
  split; [|done]. split; try done.
  - intros Hc. destruct (H4 Hc) as [Hle Ht]. split; [done|]. rewrite <- Ht. unfold taken. rewrite fmap_app.
    destruct last; cbn; rewrite <- !app_assoc; cbn; rewrite <- Permutation_middle; done || solve_Permutation.
  - intros r' Hr. by apply H8 in Hr as [? _].
  - intros r' last' [?|?]%elem_of_cons; [by destruct last|]. apply H9. by right.
  - intros Hin. destruct last.
    + right. left. exists r. split; [set_solver|]. apply (H9 r true); [by left|done].
    + apply elem_of_cons in Hin as [?|Hin]; [done|].
      destruct H10 as [|]; [by right|by left|right; by apply failure_seen_app].
Qed.

(** ** The flow is kept: collector *)

Lemma flow_done d ws rs c x :
  flow d ws rs c → flow d ws rs (mkCollector (CDone x) (c_reorder c) (c_expected c)).
Proof.
  intros [H1 H2 H3 H4 H5 H6 H7 H8 H9 H10 H11]. split; try done. intros _. right. do 3 right. cbn. tauto.
Qed.

Lemma flow_recv d ws r rs m e :
  flow d ws (r :: rs) (mkCollector CRecv m e) → flow d ws rs (mkCollector CRecv (<[re_epoch r := r]> m) e).
Proof.
  intros [H1 H2 H3 H4 H5 H6 H7 H8 H9 H10 H11]. cbn in *.
  assert (m !! re_epoch r = None) as Hfresh.
  { destruct (H4 Logic.I) as [_ Ht]. pose proof (NoDup_seqZ e (d_next d - Z.of_nat (length (d_workCh d)) - e)) as Hn.
    rewrite <- Ht in Hn. unfold taken in Hn. cbn in Hn. apply NoDup_app in Hn as (_ & _ & [Hn _]%NoDup_cons).
    destruct (m !! re_epoch r) as [r'|] eqn:Hm; [|done]. destruct Hn.
    apply elem_of_app. right. apply elem_of_app. left. apply list_elem_of_fmap. exists (re_epoch r, r').
    split; [done|by apply elem_of_map_to_list]. }
  split; try done; cbn.
  - intros k r' [[<- <-]|[_ Hk]]%lookup_insert_Some; [done|auto].
  - intros _. destruct (H4 Logic.I) as [Hle Ht]. split; [done|]. rewrite <- Ht. unfold taken. cbn.
    rewrite map_to_list_insert by done. cbn. apply Permutation_app_head. by rewrite <- Permutation_middle.
  - intros Hx. destruct (H10 Hx) as [|Hf]; [by left|]. right.
    destruct Hf as [(r' & [->|Hin]%elem_of_cons & Hf)|[(k & r' & Hk & Hf)|[(r' & Hr' & _)|Hl]]].
    + right. left. exists (re_epoch r), r. cbn. by rewrite lookup_insert_eq.
    + left. eauto.
    + right. left. exists k, r'. cbn in *. rewrite lookup_insert_ne; [done|]. intros <-. congruence.
    + by apply not_elem_of_nil in Hr'.
    + by destruct Hl.
Qed.

Lemma flow_item_le d ws rs f r m e : flow d ws rs (mkCollector (CSend f r) m e) → e ≤ target.
Proof.
  intros [H1 _ _ H4 _ _ _ _ _ _ _]. destruct (H4 Logic.I) as [_ Ht]. cbn in *.
  destruct (decide (0 < d_next d - Z.of_nat (length (d_workCh d)) - e)); [lia|].
  rewrite seqZ_nil in Ht by lia. apply Permutation_nil_r in Ht. unfold taken in Ht. cbn in Ht.
  rewrite !app_assoc in Ht. by apply app_nil in Ht as [_ ?].
Qed.

(** The job goes to pending: the collector looks for the next one. *)
Lemma flow_passed d ws rs f r m e :
  flow d ws rs (mkCollector (CSend f r) m e) → ¬ failed r →
  flow d ws rs (mkCollector CRecv m (u64_add e 1)) ∧ u64_add e 1 = e + 1 ∧ e ≤ target.
Proof.
  intros [H1 H2 H3 H4 H5 H6 H7 H8 H9 H10 H11] Hok. cbn in *.
  destruct (H4 Logic.I) as [Hle Ht]. pose proof (H5 f r eq_refl) as He.
  set (n := d_next d - Z.of_nat (length (d_workCh d)) - e) in *.
  assert (0 < n) as Hn.
  { destruct (decide (0 < n)); [done|]. rewrite seqZ_nil in Ht by lia. apply Permutation_nil_r in Ht.
    unfold taken in Ht. cbn in Ht. rewrite !app_assoc in Ht. by apply app_nil in Ht as [_ ?]. }
  assert (u64_add e 1 = e + 1) as Hu by (apply wrap64_id; unfold is_u64, two63, two64 in *; lia).
  rewrite Hu. split_and!; [|done|lia]. split; try done; cbn; [lia| |].
  - intros _. split; [lia|]. rewrite seqZ_cons in Ht by done. unfold taken in *. cbn in *.
    rewrite He, !app_assoc, <- Permutation_cons_append in Ht. apply Permutation_cons_inv in Ht.
    rewrite app_nil_r, <- app_assoc in *. rewrite Ht. f_equiv; lia.
  - intros Hx. destruct (H10 Hx) as [|Hf]; [by left|]. right.
    destruct Hf as [Hf|[Hf|[(r' & ->%list_elem_of_singleton & Hf)|Hl]]]; [by left|by right; left|done|by destruct Hl].
Qed.

Lemma flow_found d ws rs m e f r :
  m !! e = Some r → (f = true → d_state d = DDone true ∧ rs = []) →
  flow d ws rs (mkCollector CRecv m e) → flow d ws rs (mkCollector (CSend f r) (delete e m) e).
Proof.
  intros Hm Hf [H1 H2 H3 H4 H5 H6 H7 H8 H9 H10 H11]. split; try done; cbn in *.
  - intros k r' [_ Hk]%lookup_delete_Some. auto.
  - intros _. destruct (H4 Logic.I) as [Hle Ht]. split; [done|]. rewrite <- Ht. unfold taken. cbn.
    rewrite <- (map_to_list_delete m e r Hm). cbn. rewrite (H3 e r Hm), app_nil_r, !app_assoc.
    by rewrite <- Permutation_cons_append, <- Permutation_middle.
  - intros f' r' [= _ <-]. auto.
  - intros r' [= -> _]. auto.
  - intros Hx. destruct (H10 Hx) as [|Hs]; [by left|]. right.
    destruct Hs as [Hs|[(k & r' & Hk & Hs)|[(r' & Hr' & _)|Hl]]]; [by left| |by apply not_elem_of_nil in Hr'|by destruct Hl].
    cbn in Hk. destruct (decide (k = e)) as [->|Hne].
    + right. right. left. exists r. cbn. rewrite Hm in Hk. injection Hk as <-. split; [by left|done].
    + right. left. exists k, r'. cbn. by rewrite lookup_delete_ne.
Qed.

(** After resultCh is closed, the next job is missing only past the target. *)
Lemma flow_covered d ws m e :
  flow d ws [] (mkCollector CRecv m e) → d_state d = DDone true → m !! e = None ∨ target < e → e = target + 1.
Proof.
  intros [H1 H2 H3 H4 H5 H6 H7 H8 H9 H10 H11] Hd Hm. cbn in *.
  destruct (H4 Logic.I) as [Hle Ht]. pose proof (H6 (or_intror Hd)) as Hn.
  destruct Hm as [Hm|]; [|lia]. pose proof (H7 Hd) as Hall.
  assert (taken ws [] (mkCollector CRecv m e) = (map_to_list m).*1) as Htk.
  { unfold taken. cbn. rewrite app_nil_r. replace (omap worker_epoch ws) with (@nil Z); [done|].
    clear -Hall. induction Hall as [|x l ->]; cbn; [done|]. done. }
  rewrite Htk in Ht. set (n := d_next d - Z.of_nat (length (d_workCh d)) - e) in *.
  assert (n ≤ 0) as Hn0.
  { destruct (decide (n ≤ 0)); [done|]. assert (e ∈ (map_to_list m).*1) as He.
    { rewrite Ht. apply elem_of_seqZ. lia. }
    apply list_elem_of_fmap in He as ([k r] & -> & Hk%elem_of_map_to_list). cbn in Hm. congruence. }
  destruct ws as [|x ws]; [done|]. apply Forall_cons in Hall as [-> _].
  destruct H10 as [[_ Hw]|Hs]; [by left| |].
  - apply (f_equal length) in Hw. cbn in Hw. unfold n in Hn0. lia.
  - rewrite seqZ_nil in Ht by lia. apply Permutation_nil_r, fmap_nil_inv, map_to_list_empty_iff in Ht. subst m.
    destruct Hs as [(r & Hr & _)|[(k & r & Hk & _)|[(r & Hr & _)|Hl]]];
      [by apply not_elem_of_nil in Hr|by cbn in Hk; rewrite lookup_empty in Hk|by apply not_elem_of_nil in Hr|by destruct Hl].
Qed.

Lemma flow_next d ws rs m e final :
  (final = true → d_state d = DDone true ∧ rs = []) →
  flow d ws rs (mkCollector CRecv m e) →
  flow d ws rs (collect_next target final m e) ∧
  (∀ x, c_state (collect_next target final m e) = CDone x → x = None ∧ e = target + 1) ∧
  c_expected (collect_next target final m e) = e.
Proof.
  intros Hf Hw. unfold collect_next. destruct (final && (target <? e)) eqn:Hfin.
  - apply andb_true_iff in Hfin as [-> Hlt%Z.ltb_lt]. destruct (Hf eq_refl) as [Hd ->].
    split_and!; [by apply (flow_done d ws [] _ None) in Hw| |done]. intros x [= <-]. split; [done|].
    eapply flow_covered; eauto.
  - destruct (m !! e) as [r|] eqn:Hm.
    + split_and!; [by apply flow_found|done|done].
    + destruct final; [|done]. destruct (Hf eq_refl) as [Hd ->].
      split_and!; [by apply (flow_done d ws [] _ None) in Hw| |done]. intros x [= <-]. split; [done|].
      eapply flow_covered; eauto.
Qed.

(** ** The jobs between the collector and the consumer *)

(** They are the epochs from the resume point on, without a failure, except
    that the last may be the failed job the collector stopped at. *)
Definition queue_ok (c : collector) (q : list job) (resume : Z) : Prop :=
  re_epoch <$> q = seqZ resume (Z.of_nat (length q)) ∧ resume + Z.of_nat (length q) ≤ target + 1 ∧
  match c_state c with
  | CDone None =>
      Forall (λ r, ¬ failed r) q ∧ resume + Z.of_nat (length q) = target + 1 ∨
      ∃ q' r, q = q' ++ [r] ∧ failed r ∧ Forall (λ r, ¬ failed r) q'
  | CDone (Some _) => Forall (λ r, ¬ failed r) q
  | _ => Forall (λ r, ¬ failed r) q ∧ c_expected c = resume + Z.of_nat (length q)
  end.

Definition cons_ok (c : collector) (pending : list job) (k : consumer) : Prop :=
  from ≤ k_resume k ≤ target + 1 ∧
  match k_state k with
  | KRecv => queue_ok c pending (k_resume k)
  | KPersist j | KCursor j => ¬ failed j ∧ queue_ok c (j :: pending) (k_resume k)
  | KWait None => pending = [] ∧
      match c_state c with
      | CDone None => k_resume k = target + 1
      | CDone (Some _) => True
      | _ => False
      end
  | KReturned r err => r = k_resume k ∧ (err = None → r = target + 1)
  | KCrashed SendOnClosed => False
  | _ => True
  end.

(** A collector that moves without touching pending. *)
Lemma cons_ok_next c c' pending k :
  coll_live (c_state c) → c_expected c' = c_expected c →
  (∀ x, c_state c' = CDone x → x = None ∧ c_expected c = target + 1 ∨ ∃ e, x = Some e) →
  cons_ok c pending k → cons_ok c' pending k.
Proof.
  intros Hl He Hd [Hr Hk]. split; [done|].
  assert (∀ q, queue_ok c q (k_resume k) → queue_ok c' q (k_resume k)) as Hq.
  { intros q (Hs & Hle & Hq). split_and!; [done|done|].
    assert (Forall (λ r, ¬ failed r) q ∧ c_expected c = k_resume k + Z.of_nat (length q)) as [Hok Hexp].
    { by destruct (c_state c). }
    destruct (c_state c') as [|f r|x] eqn:Hc'; [by rewrite He|by rewrite He|].
    destruct (Hd x eq_refl) as [[-> Ht]|[e ->]]; [left; split; [done|lia]|done]. }
  destruct (k_state k) as [|j|j| |[]| |]; try done; [auto|destruct Hk; auto..|].
  destruct Hk as [_ Hk]. by destruct (c_state c).
Qed.

(** The collector sends its job. *)
Lemma cons_ok_send c c' r pending k :
  coll_live (c_state c) → re_epoch r = c_expected c → c_expected c ≤ target →
  match c_state c' with
  | CDone None => failed r ∨ ¬ failed r ∧ c_expected c + 1 = target + 1
  | CDone (Some _) => False
  | _ => ¬ failed r ∧ c_expected c' = c_expected c + 1
  end →
  cons_ok c pending k → cons_ok c' (pending ++ [r]) k.
Proof.
  intros Hl Hr Hle Hc' [Hb Hk]. split; [done|].
  assert (∀ q, queue_ok c q (k_resume k) → queue_ok c' (q ++ [r]) (k_resume k)) as Hq.
  { intros q (Hs & Hlen & Hq).
    assert (Forall (λ r, ¬ failed r) q ∧ c_expected c = k_resume k + Z.of_nat (length q)) as [Hok Hexp].
    { by destruct (c_state c). }
    unfold queue_ok. rewrite fmap_app, length_app, Nat.add_1_r, seqZ_S, Hs. cbn [fmap list_fmap].
    rewrite Hr, Hexp. split_and!; [done|lia|].
    assert (¬ failed r → Forall (λ r, ¬ failed r) (q ++ [r])) as Happ.
    { intros. apply Forall_app. split; [done|by apply Forall_singleton]. }
    destruct (c_state c') as [|f r'|[e|]]; [| |done|].
    - destruct Hc' as [Hf He]. split; [auto|lia].
    - destruct Hc' as [Hf He]. split; [auto|lia].
    - destruct Hc' as [Hf|[Hf He]]; [right; by exists q, r|left; split; [auto|lia]]. }
  destruct (k_state k) as [|j|j| |[]| |]; try done;
    [exact (Hq _ Hk)|split; [apply Hk|exact (Hq _ (proj2 Hk))]..|].
  destruct Hk as [_ Hk]. by destruct (c_state c).
Qed.
End Flow.

(** ** Every step keeps the flow *)

Section Steps.
Context {R : GoRuntime} {I : Ipld} {P : Postgres} {BJ : BeaconJson} {JS : JsonState}.
Context {N : Type} {K : Kubo N} {KJ : KuboJson} (g : Generator).
Context (from target start total : Z).

Definition ordered (p : pipe N) : Prop :=
  flow from target (p_disp p) (p_workers p) (p_resultCh p) (p_coll p) ∧
  cons_ok from target (p_coll p) (p_pending p) (p_cons p).

Lemma ordered_crash c w p : c ≠ SendOnClosed → ordered p → ordered (pipe_crash c w p).
Proof. intros Hc [Hf [Hr Hk]]. split; [done|]. split; [done|]. cbn. by destruct c. Qed.

Lemma ordered_disp d p :
  flow from target d (p_workers p) (p_resultCh p) (p_coll p) → ordered p → ordered (set_disp d p).
Proof. intros Hf [_ Hk]. by split. Qed.

Lemma ordered_worker i x y w (p : pipe N) :
  p_workers p !! i = Some x → worker_epoch x = worker_epoch y → x ≠ WExited → y ≠ WExited →
  (∀ r last, y = WSend r last → (last = true ↔ failed r)) →
  ordered p → ordered (set_worker i y w p).
Proof.
  intros Hi Hxy Hx Hy Hl [Hf Hk]. split; [|done]. cbn.
  eapply flow_worker; [done| |done]. intros rest. by apply flow_same.
Qed.

Lemma dispatch_ordered l (p p' : pipe N) :
  dispatch_step g target l p = Some p' → ordered p → ordered p'.
Proof.
  unfold dispatch_step. intros Hs Ho. pose proof Ho as [Hf _].
  destruct l, (d_state (p_disp p)) eqn:Hd; try done.
  - destruct (_ && _) eqn:Hb; [|done]. injection Hs as <-. apply andb_true_iff in Hb as [Hn%Z.leb_le _].
    apply ordered_disp; [|done]. by apply flow_send.
  - destruct (_ && _) eqn:Hb; [|done]. injection Hs as <-.
    apply ordered_disp; [|done]. apply flow_dispatch; [done|]. by left.
  - destruct (target <? _) eqn:Hb; [|done]. injection Hs as <-. apply Z.ltb_lt in Hb.
    apply ordered_disp; [|done]. apply flow_dispatch; [done|]. by right; left.
  - destruct (forallb _ _) eqn:Hb; [|done]. injection Hs as <-.
    apply ordered_disp; [|done]. apply flow_dispatch; [done|]. right. right. split_and!; [done|done|].
    apply Forall_forall. intros x Hx%list_elem_of_In. rewrite forallb_forall in Hb. apply Hb in Hx. by destruct x.
Qed.

Lemma take_ordered i (p p' : pipe N) : worker_take i p = Some p' → ordered p → ordered p'.
Proof.
  unfold worker_take. intros Hs [Hf Hk]. destruct (p_workers p !! i) as [[]|] eqn:Hi; try done.
  destruct (d_workCh (p_disp p)) as [|e rest] eqn:Hw; [done|]. injection Hs as <-. split; [|done]. cbn.
  eapply flow_worker; [done| |]; [intros rest'; apply (flow_take _ _ _ _ e)|].
  destruct (p_disp p). cbn in *. by subst.
Qed.

Lemma end_ordered i (p p' : pipe N) : worker_end i p = Some p' → ordered p → ordered p'.
Proof.
  unfold worker_end. intros Hs [Hf Hk]. destruct (p_workers p !! i) as [[]|] eqn:Hi; try done.
  destruct (d_workCh (p_disp p)) eqn:Hw; [|done].
  assert (d_state (p_disp p) ≠ DLoop ∧ p' = set_worker i WExited (p_world p) p) as [Hd ->].
  { destruct (d_state (p_disp p)); [done|split; congruence..]. }
  split; [|done]. cbn. eapply flow_worker; [done| |done]. intros rest. by apply flow_end.
Qed.

Lemma ctx_ordered i (p p' : pipe N) : worker_ctx g i p = Some p' → ordered p → ordered p'.
Proof.
  unfold worker_ctx. intros Hs Ho. destruct (p_workers p !! i) as [[]|] eqn:Hi; try done. injection Hs as <-.
  eapply ordered_worker; [done| |done| | |done]; destruct (p_cancelled p), (g_db g); try done;
    by intros ?? [= <- <-].
Qed.

Lemma exists_ordered i (p p' : pipe N) : worker_exists g i p = Some p' → ordered p → ordered p'.
Proof.
  unfold worker_exists. intros Hs Ho. destruct (p_workers p !! i) as [[]|] eqn:Hi; try done.
  destruct (in_db g _ _) as [[[]|er|m] w]; injection Hs as <-;
    [eapply ordered_worker; [done|done|done|done| |done]..|by apply ordered_crash]; [| |].
  - intros ?? [= <- <-]. unfold failed. cbn. naive_solver.
  - done.
  - intros ?? [= <- <-]. unfold failed. cbn. naive_solver.
Qed.

Lemma build_ordered i env (p p' : pipe N) :
  worker_build g start total i env p = Some p' → ordered p → ordered p'.
Proof.
  unfold worker_build. intros Hs Ho. destruct (p_workers p !! i) as [[]|] eqn:Hi; try done.
  destruct (buildEpoch _ _ _ _ _) as [[be|er|m] w]; injection Hs as <-;
    [eapply ordered_worker; [done|done|done|done| |done]..|by apply ordered_crash]; [|].
  - intros ?? [= <- <-]. unfold failed. cbn. naive_solver.
  - intros ?? [= <- <-]. unfold failed. cbn. naive_solver.
Qed.

Lemma send_ordered i (p p' : pipe N) : worker_send g i p = Some p' → ordered p → ordered p'.
Proof.
  unfold worker_send. intros Hs [Hf Hk]. destruct (p_workers p !! i) as [[|?|?|?|r last|]|] eqn:Hi; try done.
  destruct (insert_perm _ _ _ Hi) as (rest & Hp & Hq).
  destruct (flow_result _ _ _ _ _ _ _ _ (flow_perm _ _ _ _ _ _ _ Hp Hf)) as [Hf' Hd].
  assert (p' = mkPipe (p_world p) (p_cancelled p) (p_disp p) (<[i := if last then WExited else WIdle]> (p_workers p))
    (p_resultCh p ++ [r]) (p_coll p) (p_pending p) (p_cons p)) as ->.
  { destruct (d_state (p_disp p)) as [| |[]]; try done; destruct (_ <? _)%nat; congruence. }
  split; [|done]. cbn. eapply flow_perm; [symmetry; apply Hq|done].
Qed.

Lemma collect_ordered l (p p' : pipe N) : collect_step g target l p = Some p' → ordered p → ordered p'.
Proof.
  unfold collect_step. intros Hs [Hf Hk]. destruct (p_coll p) as [cs m e] eqn:Hc.
  cbn [c_state c_reorder c_expected] in Hs.
  destruct l, cs as [|final r|x]; try done.
  - destruct (p_resultCh p) as [|r rest] eqn:Hr; [done|]. injection Hs as <-.
    destruct (flow_next _ _ _ _ _ _ e false ltac:(done) (flow_recv _ _ _ _ _ _ _ _ Hf)) as (Hf' & Hdone & He).
    split; [done|]. cbn. eapply (cons_ok_next _ _ (mkCollector CRecv m e)); [done|done| |done].
    intros x Hx. left. by apply Hdone.
  - destruct (p_resultCh p) as [|r rest] eqn:Hr; [|done]. destruct (d_state (p_disp p)) as [| |[]] eqn:Hd; try done.
    injection Hs as <-. destruct (flow_next _ _ (p_disp p) (p_workers p) [] m e true ltac:(done) Hf) as (Hf' & Hdone & He).
    split; [done|]. cbn. eapply (cons_ok_next _ _ (mkCollector CRecv m e)); [done|done| |done].
    intros x Hx. left. by apply Hdone.
  - destruct (_ <? _)%nat; [|done]. injection Hs as <-.
    pose proof (flow_item_le _ _ _ _ _ _ _ _ _ Hf) as Hle. pose proof (f_item _ _ _ _ _ _ Hf _ _ eq_refl) as Hr.
    destruct (re_err r) as [er|] eqn:Her.
    + split; [by apply (flow_done _ _ _ _ _ (mkCollector (CSend final r) m e) None)|]. cbn.
      eapply (cons_ok_send _ _ (mkCollector (CSend final r) m e)); [done|done|done| |done].
      left. unfold failed. congruence.
    + assert (¬ failed r) as Hok by (intros Hx; by apply Hx).
      pose proof (f_final _ _ _ _ _ _ Hf r) as Hfin. cbn in Hfin.
      destruct (flow_passed _ _ _ _ _ _ _ _ _ Hf Hok) as (Hf1 & Hu & _).
      destruct (flow_next _ _ (p_disp p) (p_workers p) (p_resultCh p) m (u64_add e 1) final ltac:(intros ->; auto) Hf1) as (Hf' & Hdone & He).
      split; [done|]. cbn. eapply (cons_ok_send _ _ (mkCollector (CSend final r) m e)); [done|done|done| |done].
      cbn. destruct (c_state (collect_next _ _ _ _)) as [|f' r'|x]; [split; [done|lia]..|].
      destruct (Hdone x eq_refl) as [-> ?]. right. split; [done|lia].
  - destruct (p_cancelled p); [|done]. injection Hs as <-.
    split; [by apply (flow_done _ _ _ _ _ (mkCollector (CSend final r) m e))|]. cbn.
    eapply (cons_ok_next _ _ (mkCollector (CSend final r) m e)); [done|done| |done].
    intros x [= <-]. eauto.
Qed.

(** The consumer is done with the first job. *)
Lemma queue_tail c j q resume :
  ¬ failed j → queue_ok target c (j :: q) resume →
  re_epoch j = resume ∧ resume ≤ target ∧ queue_ok target c q (resume + 1).
Proof.
  intros Hj (Hs & Hle & Hq). cbn -[seqZ Z.of_nat] in Hs, Hle. symmetry in Hs.
  apply seqZ_head in Hs as (Hr & _ & Hs). cbn -[seqZ Z.of_nat] in Hq.
  rewrite Nat2Z.inj_succ in *. split_and!; [done|lia|].
  split_and!; [rewrite Hs; f_equal; lia|lia|].
  assert (Forall (λ r, ¬ failed r) (j :: q) → Forall (λ r, ¬ failed r) q) as Htail by (intros [_ ?]%Forall_cons; done).
  destruct (c_state c) as [|f r|[e|]].
  - destruct Hq as [? ?]. split; [auto|lia].
  - destruct Hq as [? ?]. split; [auto|lia].
  - auto.
  - destruct Hq as [[? ?]|(q' & r & Hq & Hf & Hok)]; [left; split; [auto|lia]|]. right.
    destruct q' as [|j' q']; [by injection Hq as <- _|]. injection Hq as <- ->.
    exists q', r. apply Forall_cons in Hok as [_ ?]. done.
Qed.

Lemma queue_end c resume x : c_state c = CDone x → queue_ok target c [] resume →
  match x with None => resume = target + 1 | Some _ => True end.
Proof.
  intros Hc (_ & _ & Hq). rewrite Hc in Hq. destruct x; [done|]. cbn in Hq.
  destruct Hq as [[_ ?]|(q' & r & Hq & _)]; [lia|by destruct q'].
Qed.

Lemma ordered_cons w cancelled pending k (p : pipe N) :
  cons_ok from target (p_coll p) pending k → ordered p → ordered (set_cons w cancelled pending k p).
Proof. intros Hk [Hf _]. by split. Qed.

Lemma ordered_fail e w pending (p : pipe N) : ordered p → ordered (consume_fail e w pending p).
Proof. intros Ho. apply ordered_cons; [|done]. split; [apply Ho|done]. Qed.

Lemma consume_ordered l (p p' : pipe N) : consume_step g l p = Some p' → ordered p → ordered p'.
Proof.
  unfold consume_step. intros Hs Ho. pose proof Ho as [Hf [Hr Hk]].
  destruct l, (k_state (p_cons p)) as [|j|j|e|oe| |] eqn:Hks; try done.
  - destruct (p_pending p) as [|j rest]; [done|]. injection Hs as <-.
    destruct (re_err j) eqn:Hj; [by apply ordered_fail|]. apply ordered_cons; [|done]. split; [done|].
    assert (¬ failed j) by (intros Hx; by apply Hx). cbn. by destruct (be_skip _).
  - destruct (p_pending p) as [|j rest]; [|done]. destruct (c_state (p_coll p)) as [| |x] eqn:Hc; try done.
    injection Hs as <-. apply ordered_cons; [|done]. split; [done|]. cbn. rewrite Hc.
    split; [done|]. apply (queue_end _ _ x Hc) in Hk. by destruct x.
  - destruct (persistEpoch _ _ _ _) as [[u|er|m] w']; injection Hs as <-;
      [by apply ordered_cons|by apply ordered_fail|by apply ordered_crash].
  - destruct Hk as [Hj Hq]. apply queue_tail in Hq as (Hje & Hle & Hq); [|done].
    destruct (sb_SetBackfillCursor _ _) as [[u|er|m] w']; injection Hs as <-;
      [|by apply ordered_fail|by apply ordered_crash].
    assert (u64_add (re_epoch j) 1 = k_resume (p_cons p) + 1) as Hu.
    { rewrite Hje. apply wrap64_id. pose proof (f_range _ _ _ _ _ _ Hf). unfold is_u64, two63, two64 in *. lia. }
    apply ordered_cons; [|done]. split; cbn; rewrite Hu; [lia|done].
  - destruct (p_pending p) as [|j rest]; [done|]. injection Hs as <-. apply ordered_cons; [|done].
    split; [done|]. by rewrite Hks.
  - destruct (p_pending p) as [|j rest]; [|done]. destruct (c_state (p_coll p)) as [| |x] eqn:Hc; try done.
    injection Hs as <-. by apply ordered_cons.
  - destruct (d_state (p_disp p)); try done. destruct (c_state (p_coll p)) as [| |x] eqn:Hc; try done.
    injection Hs as <-. apply ordered_cons; [|done]. split; [done|]. cbn. split; [done|].
    destruct oe; [done|]. intros ->. by destruct Hk.
Qed.

(** Each step of any goroutine keeps the order. *)
Lemma step_ordered l (p p' : pipe N) : step g target start total l p = Some p' → ordered p → ordered p'.
Proof.
  intros Hl%step_inv Ho. unfold step_live in Hl.
  destruct l; (by eapply dispatch_ordered) || (by eapply take_ordered) || (by eapply end_ordered) ||
    (by eapply ctx_ordered) || (by eapply exists_ordered) || (by eapply build_ordered) ||
    (by eapply send_ordered) || (by eapply collect_ordered) || (by eapply consume_ordered) || idtac.
  injection Hl as <-. by destruct Ho.
Qed.

Lemma init_ordered (w : World N) :
  0 ≤ from → from ≤ target + 1 → target + 1 < two63 → ordered (pipe_init g from w).
Proof.
  intros H0 H1 H2. split.
  - assert (∀ x, x ∈ replicate (pipe_workers g) WIdle → x = WIdle) as Hidle
      by (intros x Hx; by apply elem_of_replicate in Hx as [? _]).
    split; try done; cbn.
    + intros _. split; [lia|]. unfold taken. cbn. rewrite map_to_list_empty, (seqZ_nil from) by lia. cbn.
      assert (∀ n, omap worker_epoch (replicate n WIdle) = []) as -> by (by induction n). done.
    + by intros [|].
    + intros r last Hx%Hidle. done.
    + intros Hx%Hidle. done.
    + unfold pipe_workers. destruct (Z.leb_spec (cf_BackfillEpochWorkers (g_cfg g)) 0); [done|].
      destruct (Z.to_nat _) eqn:Hn; [lia|done].
  - split; [cbn; lia|]. cbn. split_and!; cbn; [done|lia|]. split; [constructor|lia].
Qed.
End Steps.

(** ** What the jobs carry, and what the consumer leaves in the database *)

Section Data.
Context {R : GoRuntime} {I : Ipld} {L : IpldLaws I} {P : Postgres} {BJ : BeaconJson} {JS : JsonState}.
Context {N : Type} {K : Kubo N} {KL : KuboLaws N} {KJ : KuboJson} (g : Generator).
Context (Hdb : g_db g = true) (Hworkers : 0 < cf_Workers (g_cfg g)).
Context (from target start total : Z).

Definition has_row (w : World N) (e : Z) : Prop := is_Some (ipld_epochs (db_tables w) !! e).
Definition backfill_cursor (w : World N) : option Z :=
  ipld_state (db_tables w) !! backfill_key (cf_Network (g_cfg g)).

Definition rows_kept (w w' : World N) : Prop := ∀ e, has_row w e → has_row w' e.

#[export] Instance rows_kept_preorder : PreOrder rows_kept.
Proof. split; [by intros w e|]. intros w1 w2 w3 H1 H2 e He. auto. Qed.

Lemma rows_kept_reads w w' : reads w w' → rows_kept w w'.
Proof. intros [_ Ht] e. unfold has_row. by rewrite Ht. Qed.

Lemma rows_kept_SaveEpoch er n time : always rows_kept (in_db g (SaveEpoch (cf_Network (g_cfg g)) er n time)).
Proof.
  intros w e [row Hrow]. unfold has_row, in_db. rewrite Hdb. unfold zoom.
  pose proof (SaveEpoch_atomically (cf_Network (g_cfg g)) er n time (w_db w)) as Ha.
  destruct (SaveEpoch _ _ _ _ (w_db w)) as [[u|er'|p] d]; cbn in *; [| |done]; rewrite Ha; [|by eexists].
  cbn. rewrite upsert_epoch_lookup. case_decide; by eexists.
Qed.

Lemma rows_kept_SaveBlobs e blobs results gt sps :
  always rows_kept (in_db g (SaveBlobs (cf_Network (g_cfg g)) e blobs results gt sps)).
Proof.
  intros w e' [row Hrow]. unfold has_row, in_db. rewrite Hdb. unfold zoom.
  pose proof (SaveBlobs_atomically (cf_Network (g_cfg g)) e blobs results gt sps (w_db w)) as Ha.
  destruct (SaveBlobs _ _ _ _ _ _ (w_db w)) as [[u|er'|p] d]; cbn in *; [| |done]; rewrite Ha; [|by eexists].
  case_decide; [by eexists|]. cbn. unfold ensure_epoch.
  destruct (ipld_epochs (c_tables (w_db w)) !! to_i64 e) eqn:He; [by eexists|].
  rewrite lookup_insert_ne by congruence. by eexists.
Qed.

Lemma persistEpoch_kept env e be : built_ok g e be → always rows_kept (persistEpoch g env be).
Proof.
  apply persistEpoch_always; [apply _|apply rows_kept_reads| |].
  - intros. apply rows_kept_SaveEpoch.
  - intros. apply rows_kept_SaveBlobs.
Qed.

Lemma SetBackfill_spec e (w : World N) :
  let '(o, w') := @sb_SetBackfillCursor _ (g_state g) e w in
  w_node w' = w_node w ∧ ipld_epochs (db_tables w') = ipld_epochs (db_tables w) ∧
  ipld_blobs (db_tables w') = ipld_blobs (db_tables w) ∧
  backfill_cursor w' = match o with Ok _ => Some e | _ => backfill_cursor w end.
Proof.
  cbn. rewrite Hdb. unfold in_db. rewrite Hdb. unfold zoom.
  pose proof (SetBackfillCursor_atomically (cf_Network (g_cfg g)) e (w_db w)) as Ha.
  destruct (SetBackfillCursor _ e (w_db w)) as [[u|er|p] d]; cbn in *; [| |done]; unfold backfill_cursor; cbn.
  - rewrite Ha. cbn. by rewrite lookup_insert_eq.
  - by rewrite Ha.
Qed.

(** A result without an error: the epoch has a row already, or its node is
    built and staged. *)
Definition result_ok (w : World N) (r : buildResult) : Prop :=
  re_err r = None →
  be_skip (re_be r) = true ∧ has_row w (re_epoch r) ∨
  be_skip (re_be r) = false ∧ built_ok g (re_epoch r) (re_be r).

Lemma result_ok_kept w w' r : rows_kept w w' → result_ok w r → result_ok w' r.
Proof. intros Hk Hr He. destruct (Hr He) as [[? ?]|?]; [left; split; [done|by apply Hk]|by right]. Qed.

Definition worker_result (x : worker) : option buildResult := match x with WSend r _ => Some r | _ => None end.

Definition results_of (ws : list worker) (rs : list buildResult) (c : collector) (pending : list job) (k : consume)
    : list buildResult :=
  omap worker_result ws ++ rs ++ (map_to_list (c_reorder c)).*2 ++ coll_item (c_state c) ++ pending ++
  match k with KPersist j | KCursor j => [j] | _ => [] end.

(** The consumer's state, against the cursor [c0] and the world. *)
Record data (c0 : option Z) (p : pipe N) : Prop := {
  dt_results r : r ∈ results_of (p_workers p) (p_resultCh p) (p_coll p) (p_pending p) (k_state (p_cons p)) →
    result_ok (p_world p) r;
  dt_persist j : k_state (p_cons p) = KPersist j → be_skip (re_be j) = false;
  dt_saved j : k_state (p_cons p) = KCursor j → has_row (p_world p) (re_epoch j);
  dt_rows e : from ≤ e < k_resume (p_cons p) → has_row (p_world p) e;
  dt_cursor : backfill_cursor (p_world p) =
    if decide (k_resume (p_cons p) = from) then c0 else Some (k_resume (p_cons p) - 1);
  dt_held : g_ipfs g ≠ None → rows_held (p_world p) }.

(** What others may do to the world meanwhile: the live loop, the workers an
    earlier attempt left behind, the push API. *)
Record interferes (w w' : World N) : Prop := {
  if_rows : rows_kept w w';
  if_cursor : backfill_cursor w' = backfill_cursor w;
  if_held : g_ipfs g ≠ None → rows_held w → rows_held w' }.

Lemma reads_interferes w w' : reads w w' → interferes w w'.
Proof.
  intros Hr. split; [by apply rows_kept_reads| |].
  - unfold backfill_cursor. by rewrite (rd_tables _ _ Hr).
  - intros _. by apply rows_held_reads.
Qed.

(** Any step that brings no new result but good ones and leaves the consumer
    where it is. *)
Lemma data_keep c0 (p p' : pipe N) :
  interferes (p_world p) (p_world p') →
  (∀ r, r ∈ results_of (p_workers p') (p_resultCh p') (p_coll p') (p_pending p') (k_state (p_cons p')) →
    r ∈ results_of (p_workers p) (p_resultCh p) (p_coll p) (p_pending p) (k_state (p_cons p)) ∨
    result_ok (p_world p') r) →
  p_cons p' = p_cons p ∨
    k_resume (p_cons p') = k_resume (p_cons p) ∧
    (∀ j, k_state (p_cons p') ≠ KPersist j ∧ k_state (p_cons p') ≠ KCursor j) →
  data c0 p → data c0 p'.
Proof.
  intros [Hk Hc Hh] Hr Hcons [H1 H2 H3 H4 H5 H6].
  assert (k_resume (p_cons p') = k_resume (p_cons p)) as Hres by (by destruct Hcons as [->|[? _]]).
  split; rewrite ?Hres, ?Hc; auto.
  - intros r [Hin|?]%Hr; [|done]. by eapply result_ok_kept, H1.
  - intros j Hj. destruct Hcons as [Heq|[_ Hno]]; [|by destruct (Hno j)]. apply H2. by rewrite <- Heq.
  - intros j Hj. destruct Hcons as [Heq|[_ Hno]]; [|by destruct (Hno j)]. apply Hk, H3. by rewrite <- Heq.
Qed.

(** ** Every step keeps it *)

Lemma results_worker ws i x y rs c pending k r :
  ws !! i = Some x → r ∈ results_of (<[i := y]> ws) rs c pending k →
  r ∈ results_of ws rs c pending k ∨ worker_result y = Some r.
Proof.
  intros Hi. destruct (insert_perm ws i x Hi) as (rest & Hp & Hq). unfold results_of.
  rewrite (omap_perm worker_result _ _ (Hq y)), (omap_perm worker_result _ _ Hp). cbn.
  rewrite !elem_of_app. destruct (worker_result y) as [r'|], (worker_result x); rewrite ?elem_of_cons; intuition (subst; eauto).
Qed.

Lemma data_worker c0 i x y w (p : pipe N) :
  p_workers p !! i = Some x → reads (p_world p) w →
  (∀ r, worker_result y = Some r → result_ok w r) →
  data c0 p → data c0 (set_worker i y w p).
Proof.
  intros Hi Hr Hy. apply data_keep; [by apply reads_interferes| |by left].
  intros r [?|?]%(results_worker _ _ x); [by left|right; auto|done].
Qed.

Lemma data_crash c0 c w (p : pipe N) : interferes (p_world p) w → data c0 p → data c0 (pipe_crash c w p).
Proof.
  intros Hw. apply data_keep; [done| |right; split; [done|by intros j]].
  intros r Hin. left. unfold results_of in *. cbn in Hin. rewrite app_nil_r in Hin. rewrite !elem_of_app in *. tauto.
Qed.

Lemma reads_EpochExists e : always reads (in_db (N := N) g (EpochExists (cf_Network (g_cfg g)) e)).
Proof.
  apply reads_db, atomically_wrapf, atomically_check; [intros p0; apply int8_no_panic|].
  intros _. by apply atomically_query.
Qed.

Lemma exists_data c0 i (p p' : pipe N) : worker_exists g i p = Some p' → data c0 p → data c0 p'.
Proof.
  unfold worker_exists. intros Hs Hd. destruct (p_workers p !! i) as [[]|] eqn:Hi; try done.
  pose proof (reads_EpochExists epoch (p_world p)) as Hr. destruct (in_db g _ _) as [[[]|er|m] w] eqn:He; cbn in Hr; injection Hs as <-.
  - eapply data_worker; [done|etransitivity; [exact Hr|by split]| |done].
    intros r [= <-] _. left. split; [done|]. cbn.
    apply in_db_inv in He as [He _]; [|done]. apply wrapf_Ok, bind_Ok in He as (u & d & [_ ->]%lift_Ok & Hq).
    destruct (db_query_Ok _ "" (w_db (p_world p)) true (w_db w) ltac:(unfold wrapf; by rewrite Hq)) as [[= Hx] Ht].
    apply bool_decide_eq_true in Hx as [row Hrow].
    unfold network_rows in Hrow. apply map_lookup_filter_Some in Hrow as [Hrow _].
    apply rows_kept_reads with w; [by split|]. unfold has_row. exists row. congruence.
  - by eapply data_worker.
  - eapply data_worker; [done|done| |done]. by intros r [= <-].
  - apply data_crash; [by apply reads_interferes|done].
Qed.

Lemma build_data c0 i env (p p' : pipe N) :
  env_ok env → worker_build g start total i env p = Some p' → data c0 p → data c0 p'.
Proof.
  unfold worker_build. intros Henv Hs Hd. destruct (p_workers p !! i) as [[]|] eqn:Hi; try done.
  set (pr := Some (mkEpochProgress (epoch - start) total "backfill")) in *.
  pose proof (reads_buildEpoch (KL := KL) g env epoch pr (p_world p)) as Hr.
  destruct (buildEpoch g env epoch pr (p_world p)) as [[be|er|m] w] eqn:Hb; cbn in Hr; injection Hs as <-.
  - eapply data_worker; [done|done| |done]. intros r [= <-] _. right. cbn. split; [|by eapply buildEpoch_Ok].
    by eapply buildEpoch_skip.
  - eapply data_worker; [done|done| |done]. by intros r [= <-].
  - apply data_crash; [by apply reads_interferes|done].
Qed.

Lemma send_data c0 i (p p' : pipe N) : worker_send g i p = Some p' → data c0 p → data c0 p'.
Proof.
  unfold worker_send. intros Hs Hd. destruct (p_workers p !! i) as [[|?|?|?|r last|]|] eqn:Hi; try done.
  assert (p' = pipe_crash SendOnClosed (p_world p) p ∨
    p' = mkPipe (p_world p) (p_cancelled p) (p_disp p) (<[i := if last then WExited else WIdle]> (p_workers p))
    (p_resultCh p ++ [r]) (p_coll p) (p_pending p) (p_cons p)) as [->| ->].
  { destruct (d_state (p_disp p)) as [| |[]]; try (destruct (_ <? _)%nat; [right; congruence|done]). left. congruence. }
  { apply data_crash; [by apply reads_interferes|done]. }
  apply (data_keep c0 p); [by apply reads_interferes| |by left|done]. cbn. intros r' Hin. left.
  assert (r ∈ omap worker_result (p_workers p)) as Hr.
  { apply list_elem_of_omap. eexists. split; [by eapply list_elem_of_lookup_2|done]. }
  unfold results_of in *. rewrite !elem_of_app in *.
  destruct Hin as [Hin|[[?| ->%list_elem_of_singleton]|?]]; [|tauto..]. left.
  apply list_elem_of_omap in Hin as (x & Hx & Hxr). apply list_elem_of_omap. exists x. split; [|done].
  apply list_elem_of_lookup in Hx as [j Hj]. apply list_lookup_insert_Some in Hj as [(-> & <- & _)|[_ Hj]].
  - by destruct last.
  - by eapply list_elem_of_lookup_2.
Qed.

Lemma or_assoc_2 (A B C : Prop) : A ∨ B ∨ C ↔ (A ∨ B) ∨ C.
Proof. tauto. Qed.

Lemma elem_of_vals (m : gmap Z buildResult) r : r ∈ (map_to_list m).*2 ↔ ∃ k, m !! k = Some r.
Proof.
  rewrite list_elem_of_fmap. split.
  - intros ([k r'] & -> & Hk%elem_of_map_to_list). eauto.
  - intros [k Hk]. exists (k, r). by rewrite elem_of_map_to_list.
Qed.

Lemma elem_of_results ws rs c pending k r :
  r ∈ results_of ws rs c pending k ↔
  r ∈ omap worker_result ws ∨ r ∈ rs ∨ (∃ e, c_reorder c !! e = Some r) ∨ r ∈ coll_item (c_state c) ∨
  r ∈ pending ∨ r ∈ match k with KPersist j | KCursor j => [j] | _ => [] end.
Proof. unfold results_of. by rewrite !elem_of_app, elem_of_vals. Qed.

Lemma collect_next_results final m e r :
  let c := collect_next target final m e in
  (∃ e', c_reorder c !! e' = Some r) ∨ r ∈ coll_item (c_state c) → ∃ e', m !! e' = Some r.
Proof.
  cbv zeta. unfold collect_next. destruct (_ && _).
  { intros [?|Hr]; [done|by apply not_elem_of_nil in Hr]. }
  destruct (m !! e) as [r'|] eqn:Hm; cbn.
  - intros [[k [_ Hk]%lookup_delete_Some]| ->%list_elem_of_singleton]; eauto.
  - intros [?|Hr]; [done|]. destruct final; by apply not_elem_of_nil in Hr.
Qed.

Lemma collect_data c0 l (p p' : pipe N) : collect_step g target l p = Some p' → data c0 p → data c0 p'.
Proof.
  unfold collect_step. intros Hs Hd.
  assert (p_world p' = p_world p ∧ p_cons p' = p_cons p ∧
    ∀ r, r ∈ results_of (p_workers p') (p_resultCh p') (p_coll p') (p_pending p') (k_state (p_cons p')) →
      r ∈ results_of (p_workers p) (p_resultCh p) (p_coll p) (p_pending p) (k_state (p_cons p))) as (Hw & Hk & Hr).
  { destruct (p_coll p) as [cs m e] eqn:Hc. cbn [c_state c_reorder c_expected] in Hs.
    destruct l, cs as [|final r|x]; try done.
    - destruct (p_resultCh p) as [|r rest] eqn:Hrs; [done|]. injection Hs as <-. split_and!; [done..|].
      intros r'. rewrite !elem_of_results. cbn -[collect_next]. rewrite elem_of_cons.
      intros [?|[?|Hin]]; [auto..|]. rewrite or_assoc_2 in Hin. destruct Hin as [Hin|?]; [|auto 10].
      apply collect_next_results in Hin as [k [[_ <-]|[_ Hk]]%lookup_insert_Some]; eauto 10.
    - destruct (p_resultCh p) as [|r rest] eqn:Hrs; [|done]. destruct (d_state (p_disp p)) as [| |[]]; try done.
      injection Hs as <-. split_and!; [done..|]. intros r'. rewrite !elem_of_results. cbn -[collect_next].
      intros [?|[?|Hin]]; [auto..|]. rewrite or_assoc_2 in Hin. destruct Hin as [Hin|?]; [|auto 10].
      apply collect_next_results in Hin. auto.
    - destruct (_ <? _)%nat; [|done]. injection Hs as <-. split_and!; [done..|].
      intros r'. rewrite !elem_of_results. cbn -[collect_next].
      rewrite elem_of_app, !list_elem_of_singleton.
      intros [?|[?|Hin]]; [auto..|]. rewrite or_assoc_2 in Hin.
      destruct Hin as [Hin|[[?|?]|?]]; [|auto 10..].
      destruct (re_err r); [destruct Hin as [?|Hin]; [auto|by apply not_elem_of_nil in Hin]|].
      apply collect_next_results in Hin. auto.
    - destruct (p_cancelled p); [|done]. injection Hs as <-. split_and!; [done..|].
      intros r'. rewrite !elem_of_results. cbn. rewrite elem_of_nil. tauto. }
  apply (data_keep c0 p); [rewrite Hw; by apply reads_interferes|auto|by left|done].
Qed.

(** The consumer's current job is the epoch at the resume point. *)
Lemma ordered_current (p : pipe N) j :
  ordered from target p → k_state (p_cons p) = KPersist j ∨ k_state (p_cons p) = KCursor j →
  re_err j = None ∧ re_epoch j = k_resume (p_cons p) ∧ from ≤ re_epoch j ≤ target ∧ 0 ≤ re_epoch j < two63 ∧
  u64_add (re_epoch j) 1 = re_epoch j + 1.
Proof.
  intros [Hf [Hr Hk]] Hj. pose proof (f_range _ _ _ _ _ _ Hf) as Hrange.
  assert (¬ failed j ∧ queue_ok target (p_coll p) (j :: p_pending p) (k_resume (p_cons p))) as [Hok Hq]
    by (by destruct Hj as [Hj|Hj]; rewrite Hj in Hk).
  apply queue_tail in Hq as (He & Hle & _); [|done]. rewrite He.
  split_and!; try lia; [|apply wrap64_id; unfold is_u64, two63, two64 in *; lia].
  destruct (re_err j) eqn:Herr; [|done]. destruct Hok. unfold failed. congruence.
Qed.

(** The consumer moves on to a state that holds no job. *)
Lemma data_cons c0 w cancelled pending s (p : pipe N) :
  interferes (p_world p) w → (∀ r, r ∈ pending → r ∈ p_pending p) →
  (∀ j, s ≠ KPersist j ∧ s ≠ KCursor j) →
  data c0 p → data c0 (set_cons w cancelled pending (mkConsumer s (k_resume (p_cons p))) p).
Proof.
  intros Hw Hp Hs. apply data_keep; [done| |by right]. intros r. rewrite !elem_of_results. cbn.
  assert (match s with KPersist j | KCursor j => [j] | _ => [] end = []) as Hnil.
  { destruct s as [|j|j| | | |]; try done; by destruct (Hs j). }
  rewrite Hnil, elem_of_nil. pose proof (Hp r). tauto.
Qed.

Lemma persist_built c0 j (p : pipe N) :
  ordered from target p → k_state (p_cons p) = KPersist j → data c0 p → built_ok g (re_epoch j) (re_be j).
Proof.
  intros Ho Hj Hd. destruct (ordered_current p j Ho (or_introl Hj)) as (Herr & _).
  destruct (dt_results _ _ Hd j) as [[Hskip _]|[_ ?]]; [|done| |done].
  - rewrite elem_of_results, Hj. do 5 right. by left.
  - rewrite (dt_persist _ _ Hd j Hj) in Hskip. done.
Qed.

Lemma persist_data c0 env j (p : pipe N) :
  ordered from target p → k_state (p_cons p) = KPersist j → data c0 p →
  let '(o, w') := persistEpoch g env (re_be j) (p_world p) in
  interferes (p_world p) w' ∧ (is_Ok o → has_row w' (re_epoch j)).
Proof.
  intros Ho Hj Hd. destruct (ordered_current p j Ho (or_introl Hj)) as (Herr & _ & _ & Hrange & _).
  pose proof (persist_built c0 j p Ho Hj Hd) as Hb.
  pose proof (persistEpoch_kept env _ _ Hb (p_world p)) as Hk.
  pose proof (persistEpoch_frame (KL := KL) g env _ _ Hrange Hb (p_world p)) as Hf.
  pose proof (λ Hi, persistEpoch_rows_held (KL := KL) g env _ _ (p_world p) Hi Hb) as Hh.
  destruct (persistEpoch g env (re_be j) (p_world p)) as [o w'] eqn:Hp. cbn in *. split.
  - split; [done| |done]. unfold backfill_cursor. by rewrite (ef_state _ _ _ Hf).
  - intros [u ->]. apply persistEpoch_recorded with (e := re_epoch j) in Hp as (row & c & Hrow & _); [|done..].
    by exists row.
Qed.

(** The next job is taken. *)
Lemma take_data c0 j rest (p : pipe N) :
  p_pending p = j :: rest → re_err j = None → data c0 p →
  data c0 (set_cons (p_world p) (p_cancelled p) rest
    (mkConsumer (if be_skip (re_be j) then KCursor j else KPersist j) (k_resume (p_cons p))) p).
Proof.
  intros Hp Herr Hd. assert (result_ok (p_world p) j) as Hj.
  { apply (dt_results _ _ Hd). rewrite elem_of_results, Hp. do 4 right. left. by left. }
  destruct Hd as [H1 H2 H3 H4 H5 H6]. split; cbn -[results_of]; try done.
  - intros r. rewrite elem_of_results. cbn. intros Hin. apply H1. rewrite elem_of_results. rewrite Hp, elem_of_cons.
    assert (r ∈ match (if be_skip (re_be j) then KCursor j else KPersist j) with
                | KPersist j | KCursor j => [j] | _ => [] end → r = j) as Hlast.
    { destruct (be_skip _); apply list_elem_of_singleton. }
    tauto.
  - intros j' Hj'. destruct (be_skip (re_be j)) eqn:Hskip; [done|]. by injection Hj' as <-.
  - intros j' Hj'. destruct (be_skip (re_be j)) eqn:Hskip; [|done]. injection Hj' as <-.
    destruct (Hj Herr) as [[_ ?]|[? _]]; [done|congruence].
Qed.

(** Its row is saved. *)
Lemma saved_data c0 j w' (p : pipe N) :
  k_state (p_cons p) = KPersist j → interferes (p_world p) w' → has_row w' (re_epoch j) → data c0 p →
  data c0 (set_cons w' (p_cancelled p) (p_pending p) (mkConsumer (KCursor j) (k_resume (p_cons p))) p).
Proof.
  intros Hks [Hk Hc Hh] Hrow [H1 H2 H3 H4 H5 H6].
  split; cbn -[results_of]; rewrite ?Hc; auto; try done.
  - intros r Hin. eapply result_ok_kept; [done|]. apply H1. by rewrite elem_of_results, Hks in *.
  - by intros j' [= <-].
Qed.

(** The cursor is set to its epoch, or is where it was. *)
Lemma cursor_data c0 j (p : pipe N) :
  ordered from target p → k_state (p_cons p) = KCursor j → data c0 p →
  let '(o, w') := @sb_SetBackfillCursor _ (g_state g) (re_epoch j) (p_world p) in
  match o with
  | Ok _ => data c0 (set_cons w' (p_cancelled p) (p_pending p) (mkConsumer KRecv (u64_add (re_epoch j) 1)) p)
  | _ => interferes (p_world p) w'
  end.
Proof.
  intros Ho Hks Hd. destruct (ordered_current p j Ho (or_intror Hks)) as (_ & He & Hrange & _ & Hu).
  pose proof (SetBackfill_spec (re_epoch j) (p_world p)) as Hset.
  destruct (@sb_SetBackfillCursor _ (g_state g) (re_epoch j) (p_world p)) as [o w'].
  destruct Hset as (Hn & Hep & Hbl & Hcur).
  assert (rows_kept (p_world p) w') as Hk by (intros e; unfold has_row; by rewrite Hep).
  assert (rows_held (p_world p) → rows_held w') as Hh by (apply rows_held_same; [by rewrite Hn|done..]).
  destruct o as [u|er|m]; [|by split; auto..].
  destruct Hd as [H1 H2 H3 H4 H5 H6]. split; cbn -[results_of]; rewrite ?Hu; try done; auto.
  - intros r Hin. eapply result_ok_kept; [done|]. apply H1. rewrite elem_of_results in *. rewrite Hks. cbn in Hin.
    rewrite elem_of_nil in Hin. tauto.
  - intros e He'. apply Hk. destruct (decide (e = re_epoch j)) as [->|]; [by apply H3|apply H4; lia].
  - rewrite Hcur, decide_False by lia. f_equal. lia.
Qed.

Lemma consume_data c0 l (p p' : pipe N) :
  ordered from target p → consume_step g l p = Some p' → data c0 p → data c0 p'.
Proof.
  unfold consume_step. intros Ho Hs Hd. pose proof (reads_interferes (p_world p) _ (reflexivity _)) as Hrefl.
  destruct l, (k_state (p_cons p)) as [|j|j|e|oe| |] eqn:Hks; try done.
  - destruct (p_pending p) as [|j rest] eqn:Hp; [done|]. injection Hs as <-.
    destruct (re_err j) eqn:Herr; [apply data_cons; [done|intros r Hr; rewrite Hp; by right|done|done]|by apply take_data].
  - destruct (p_pending p) as [|j rest] eqn:Hp; [|done]. destruct (c_state (p_coll p)); try done.
    injection Hs as <-. apply data_cons; [done|by rewrite Hp|done|done].
  - pose proof (persist_data c0 env j p Ho Hks Hd) as Hx.
    destruct (persistEpoch g env (re_be j) (p_world p)) as [[u|er|m] w']; destruct Hx as [Hi Hrow]; injection Hs as <-;
      [|by apply data_cons|by apply data_crash]. apply saved_data; [done..|apply Hrow; by eexists|done].
  - pose proof (cursor_data c0 j p Ho Hks Hd) as Hx. change (pipe_backend g) with (g_state (N := N) g) in Hs.
    destruct (@sb_SetBackfillCursor _ (g_state g) (re_epoch j) (p_world p)) as [[u|er|m] w'];
      injection Hs as <-; [done|by apply data_cons|by apply data_crash].
  - destruct (p_pending p) as [|j rest] eqn:Hp; [done|]. injection Hs as <-.
    destruct (p_cons p) as [s r] eqn:Hc. cbn in Hks. subst s. rewrite <- Hc.
    replace (p_cons p) with (mkConsumer (KDrain e) (k_resume (p_cons p))) at 1 by (by rewrite Hc).
    apply data_cons; [done|rewrite Hp; by right|done|done].
  - destruct (p_pending p) as [|j rest] eqn:Hp; [|done]. destruct (c_state (p_coll p)); try done.
    injection Hs as <-. apply data_cons; [done|by rewrite Hp|done|done].
  - destruct (d_state (p_disp p)); try done. destruct (c_state (p_coll p)); try done.
    injection Hs as <-. by apply data_cons.
Qed.

Lemma step_data c0 l (p p' : pipe N) :
  label_ok l → ordered from target p → step g target start total l p = Some p' → data c0 p → data c0 p'.
Proof.
  intros Hl Ho Hx%step_inv Hd. unfold step_live in Hx.
  assert (∀ d, data c0 (set_disp d p)) as Hdisp by (intros d; by destruct Hd).
  destruct l; try (by eapply collect_data); try (by eapply consume_data).
  1-4: unfold dispatch_step in Hx; destruct (d_state (p_disp p)); try done; case_match; by simplify_eq.
  - unfold worker_take in Hx. destruct (p_workers p !! i) as [[]|] eqn:Hi; try done. destruct (d_workCh (p_disp p)); [done|].
    injection Hx as <-. by eapply (data_worker c0 i WIdle).
  - unfold worker_end in Hx. destruct (p_workers p !! i) as [[]|] eqn:Hi; try done.
    destruct (d_workCh (p_disp p)), (d_state (p_disp p)); try done;
      injection Hx as <-; by eapply data_worker.
  - unfold worker_ctx in Hx. destruct (p_workers p !! i) as [[]|] eqn:Hi; try done. injection Hx as <-.
    eapply data_worker; [done|done| |done]. intros r. destruct (p_cancelled p), (g_db g); cbn; try done; by intros [= <-].
  - by eapply exists_data.
  - by eapply build_data.
  - by eapply send_data.
  - injection Hx as <-. by destruct Hd.
Qed.

Lemma init_data (w : World N) :
  (g_ipfs g ≠ None → rows_held w) → data (backfill_cursor w) (pipe_init g from w).
Proof.
  intros Hh. split; cbn -[results_of]; try done.
  - intros r. rewrite elem_of_results. cbn. rewrite !elem_of_nil.
    intros [Hr|[?|[[e He]|?]]]; [|done| |by destruct_or!].
    + apply list_elem_of_omap in Hr as (x & [-> _]%elem_of_replicate & ?). done.
    + by rewrite lookup_empty in He.
  - lia.
  - by rewrite decide_True.
Qed.

(** What an attempt has done when it is at [p]. *)
Definition attempt_ok (w : World N) (p : pipe N) : Prop :=
  ordered from target p ∧ data (backfill_cursor w) p.

Lemma reachable_ok (w : World N) (p : pipe N) :
  0 ≤ from → from ≤ target + 1 → target + 1 < two63 → (g_ipfs g ≠ None → rows_held w) →
  rtc (pipe_step g target start total interferes) (pipe_init g from w) p → attempt_ok w p.
Proof.
  intros H0 H1 H2 Hh Hr.
  revert p Hr. refine (rtc_ind_r _ _ _ _).
  - split; [by apply init_ordered|by apply init_data].
  - intros p1 p2 _ [l q q' Hl Hs|q w' Hw] [Ho Hd].
    + split; [by eapply step_ordered|by eapply step_data].
    + split; [exact Ho|]. apply (data_keep _ q); [done|by left|by left|done].
Qed.

(** ** The live loop may run beside the pipeline *)

#[export] Instance interferes_preorder : PreOrder interferes.
Proof.
  split; [intros w; by apply reads_interferes|]. intros w1 w2 w3 [H1 H2 H3] [G1 G2 G3].
  split; [by etransitivity|congruence|auto].
Qed.

Lemma always_interferes {A} (m : Go (World N) A) : always reads m → always interferes m.
Proof. intros Hm w. apply reads_interferes, Hm. Qed.

Lemma processEpoch_interferes env e pr :
  env_ok env → 0 ≤ e → always interferes (processEpoch (N := N) g env e pr).
Proof.
  intros Henv He. unfold processEpoch. rewrite Hdb.
  assert (always interferes (be ← buildEpoch g env e pr; persistEpoch g env be)) as Hx; [|by destruct (g_ipfs g)].
  intros w. pose proof (processEpoch_frame_any (KL := KL) g Hdb Hworkers env e pr Henv He w) as Hf.
  unfold processEpoch in Hf. rewrite Hdb in Hf.
  assert (epoch_frame e w (snd ((be ← buildEpoch g env e pr; persistEpoch g env be) w))) as Hframe
    by (by destruct (g_ipfs g)). clear Hf.
  split.
  - apply (always_bind_Ok rows_kept); [|]; [intros w'; apply rows_kept_reads, reads_buildEpoch|].
    intros be s s' Hb. apply persistEpoch_kept with e. by eapply buildEpoch_Ok.
  - unfold backfill_cursor. by rewrite (ef_state _ _ _ Hframe).
  - intros Hi Hw. apply keeps_bind; [eapply rows_held_reads; [apply reads_buildEpoch|done]|].
    intros be w1 Hb Hw1. eapply persistEpoch_rows_held; [done| |done]. by eapply buildEpoch_Ok.
Qed.

Lemma SetLive_interferes e : always interferes (@sb_SetLastProcessedEpoch _ (g_state (N := N) g) e).
Proof.
  intros w. cbn. rewrite Hdb. unfold in_db. rewrite Hdb. unfold zoom.
  pose proof (SetLastProcessedEpoch_atomically (cf_Network (g_cfg g)) e (w_db w)) as Ha.
  destruct (SetLastProcessedEpoch _ e (w_db w)) as [[u|er|p] d]; cbn in *; [| |done]; split.
  - intros e'. unfold has_row. cbn. by rewrite Ha.
  - unfold backfill_cursor. cbn. rewrite Ha. cbn. apply lookup_insert_ne. apply live_backfill_keys.
  - intros _. apply rows_held_same; cbn; by rewrite ?Ha.
  - intros e'. unfold has_row. cbn. by rewrite Ha.
  - unfold backfill_cursor. cbn. by rewrite Ha.
  - intros _. apply rows_held_same; cbn; by rewrite ?Ha.
Qed.

Lemma for_each_interferes {A} (l : list A) (f : A → Go (World N) unit) :
  (∀ x, x ∈ l → always interferes (f x)) → always interferes (for_each l f).
Proof.
  induction l as [|x l IH]; intros Hf; cbn; [apply always_ret, _|].
  apply always_bind; [apply _|apply Hf; by left|intros _]. apply IH. intros y Hy. apply Hf. by right.
Qed.

Lemma tick_start_nonneg lc : 0 ≤ cf_StartEpoch (g_cfg g) → 0 ≤ tick_start g lc.
Proof.
  intros H0. unfold tick_start. destruct (0 <? lc); [|done].
  apply Z.mod_pos_bound. unfold two64. lia.
Qed.

Lemma tick_interferes t :
  0 ≤ cf_StartEpoch (g_cfg g) → tick_ok t → always interferes (processLiveTick (N := N) g t).
Proof.
  intros H0 [Ht He]. unfold processLiveTick.
  apply always_bind; [apply _|apply always_wrapf, always_interferes, reads_beacon|intros cp].
  apply always_bind; [apply _| |intros lc].
  { apply always_wrapf, always_interferes. cbn. rewrite Hdb. apply reads_db.
    apply atomically_wrapf, atomically_query. intros tb p. apply scan_no_panic. }
  destruct (Z.ltb_spec (fc_FinalizedEpoch cp) (tick_start g lc)); [apply always_ret, _|].
  apply always_bind; [apply _| |intros _; apply always_interferes, reads_nonfatal, reads_rebuild; done].
  apply for_each_interferes. intros e [Hs _]%elem_of_seqZ. unfold live_epoch.
  apply always_bind; [apply _|apply always_wrapf|intros _; apply always_wrapf, SetLive_interferes].
  apply processEpoch_interferes; [done|]. pose proof (tick_start_nonneg lc H0). lia.
Qed.

(** However long the live loop polls. *)
Lemma poll_interferes wakes :
  0 ≤ cf_StartEpoch (g_cfg g) →
  Forall (λ x, match x with Tick t => tick_ok t | CtxDone _ => True end) wakes →
  always interferes (poll (N := N) g wakes).
Proof.
  intros H0. induction wakes as [|[t|e] wakes IH]; intros Hw; cbn [poll];
    [apply always_ret, _| |apply always_ret, _].
  apply Forall_cons in Hw as [Ht Hw].
  apply always_bind; [apply _| |intros [e|]; [apply always_ret, _|auto]].
  unfold tick_or_stop. apply always_bind; [apply _| |intros r; apply always_ret, _].
  apply always_attempt. by apply tick_interferes.
Qed.
End Data.
