(* ===== verification/Attempt.v ===== *)
(** * Attempt: one backfill attempt, and the retry loop around it

    The theorems on runBackfillPipeline and runBackfill: what holds at any
    point of any schedule, that an attempt refines the sequential loop over
    epochs, and what a backfill that returns without an error has done. *)

From S2P Require Import Prelude GoStd Types Ipld Store IpldModel Blob Epoch Network Db StateFile.
From S2P Require Import Beacon ElClient Ipfs Api Metrics Generator Reload Persist Live Pipeline Backfill.

(** ** The sequential loop *)

(** How an attempt ends: it returns, or the process dies. *)
Inductive ended := Returned (err : option error) | Died.

(** The state of the loop [for epoch := from; epoch <= target; epoch++]: the
    world, the epoch it is at, whether it has ended. *)
Record seqst (N : Type) := mkSeqst { sq_world : World N; sq_next : Z; sq_end : option ended }.
Arguments mkSeqst {N}.
Arguments sq_world {N}.
Arguments sq_next {N}.
Arguments sq_end {N}.

Section Sequential.
Context {R : GoRuntime} {I : Ipld} {P : Postgres} {BJ : BeaconJson} {JS : JsonState}.
Context {N : Type} {K : Kubo N} {KL : KuboLaws N} (g : Generator) (target : Z).

(** One epoch at a time: its row is there and the cursor is on it when the loop
    moves to the next. It returns no error only behind the target. *)
Inductive seq_step : relation (seqst N) :=
  | seq_epoch w w' n : n ≤ target → rows_kept w w' → has_row w' n → backfill_cursor g w' = Some n →
      (g_ipfs g ≠ None → rows_held w') →
      seq_step (mkSeqst w n None) (mkSeqst w' (n + 1) None)
  | seq_fail w n e : seq_step (mkSeqst w n None) (mkSeqst w n (Some (Returned (Some e))))
  | seq_done w n : n = target + 1 → seq_step (mkSeqst w n None) (mkSeqst w n (Some (Returned None)))
  | seq_other w w' n e : interferes g w w' → seq_step (mkSeqst w n e) (mkSeqst w' n e)
  | seq_die w w' n e : interferes g w w' → seq_step (mkSeqst w n e) (mkSeqst w' n (Some Died)).

(** What the pipeline's state is to the loop. *)
Definition pipe_end (p : pipe N) : option ended :=
  match k_state (p_cons p) with
  | KReturned _ err => Some (Returned err)
  | KCrashed _ => Some Died
  | _ => None
  end.
Definition seq_of (p : pipe N) : seqst N := mkSeqst (p_world p) (k_resume (p_cons p)) (pipe_end p).
End Sequential.

(** ** What one step of a goroutine can change *)

Section Moves.
Context {R : GoRuntime} {I : Ipld} {L : IpldLaws I} {P : Postgres} {BJ : BeaconJson} {JS : JsonState}.
Context {N : Type} {K : Kubo N} {KL : KuboLaws N} {KJ : KuboJson} (g : Generator).
Context (Hdb : g_db g = true) (Hworkers : 0 < cf_Workers (g_cfg g)).
Context (from target start total : Z).

(** The ways the consumer's part moves. *)
Inductive moved (p p' : pipe N) : Prop :=
  | moved_stay : k_resume (p_cons p') = k_resume (p_cons p) → pipe_end p' = pipe_end p → moved p p'
  | moved_on : k_resume (p_cons p') = k_resume (p_cons p) + 1 → pipe_end p = None → pipe_end p' = None →
      k_resume (p_cons p) ≤ target → moved p p'
  | moved_end err : k_resume (p_cons p') = k_resume (p_cons p) → pipe_end p = None →
      pipe_end p' = Some (Returned err) → p_world p' = p_world p → moved p p'
  | moved_died : k_resume (p_cons p') = k_resume (p_cons p) → pipe_end p' = Some Died → moved p p'.

Lemma moved_cons (p p' : pipe N) : p_cons p' = p_cons p → moved p p'.
Proof. intros Hc. apply moved_stay; unfold pipe_end; by rewrite Hc. Qed.

Lemma moved_crash c w (p : pipe N) : moved p (pipe_crash c w p).
Proof. by apply moved_died. Qed.

Lemma worker_moves i l (p p' : pipe N) :
  l = WorkerTake i ∨ l = WorkerEnd i ∨ l = WorkerCtx i ∨ l = WorkerExists i ∨
    (∃ env, l = WorkerBuild i env) ∨ l = WorkerSend i →
  step_live g target start total l p = Some p' → reads (p_world p) (p_world p') ∧ moved p p'.
Proof.
  intros Hl Hs. destruct Hl as [->|[->|[->|[->|[[env ->]| ->]]]]]; cbn in Hs.
  - unfold worker_take in Hs. repeat case_match; simplify_eq. split; [done|by apply moved_cons].
  - unfold worker_end in Hs. repeat case_match; simplify_eq; (split; [done|by apply moved_cons]).
  - unfold worker_ctx in Hs. do 2 (case_match; try done). simplify_eq. split; [done|by apply moved_cons].
  - unfold worker_exists in Hs. do 2 (case_match; try done). subst.
    pose proof (reads_EpochExists g epoch (p_world p)) as Hr.
    destruct (in_db _ _ _) as [[[]|?|?] w]; cbn in Hr; simplify_eq; cbn;
      (split; [done || (etransitivity; [exact Hr|by split])|(by apply moved_cons) || apply moved_crash]).
  - unfold worker_build in Hs. do 2 (case_match; try done). subst.
    set (pr := Some (mkEpochProgress (epoch - start) total "backfill")) in *.
    pose proof (reads_buildEpoch (KL := KL) g env epoch pr (p_world p)) as Hr.
    destruct (buildEpoch _ _ _ _ _) as [[|?|?] w]; cbn in Hr; simplify_eq;
      (split; [done|(by apply moved_cons) || apply moved_crash]).
  - unfold worker_send in Hs. repeat case_match; simplify_eq; (split; [done|(by apply moved_cons) || apply moved_crash]).
Qed.

Lemma consume_moves l (p p' : pipe N) c0 :
  ordered from target p → data g from c0 p → consume_step g l p = Some p' →
  rows_kept (p_world p) (p_world p') ∧ moved p p'.
Proof.
  unfold consume_step. intros Ho Hd Hs.
  assert (∀ s, k_state (p_cons p) = s → pipe_end p = match s with
    | KReturned _ err => Some (Returned err) | KCrashed _ => Some Died | _ => None end) as Hend by (by intros s <-).
  destruct l, (k_state (p_cons p)) as [|j|j|e|oe| |] eqn:Hks; try done.
  - destruct (p_pending p) as [|j rest]; [done|]. injection Hs as <-. split; [by destruct (re_err j)|].
    apply moved_stay; [by destruct (re_err j)|]. rewrite (Hend _ eq_refl).
    unfold pipe_end. by destruct (re_err j), (be_skip (re_be j)).
  - destruct (p_pending p), (c_state (p_coll p)); try done. injection Hs as <-. split; [done|].
    apply moved_stay; [done|]. by rewrite (Hend _ eq_refl).
  - pose proof (persist_data (KL := KL) g Hdb from target c0 env j p Ho Hks Hd) as Hp.
    destruct (persistEpoch g env (re_be j) (p_world p)) as [[u|er|m] w']; destruct Hp as [[Hk _ _] _]; injection Hs as <-;
      (split; [done|]); [apply moved_stay; [done|by rewrite (Hend _ eq_refl)]..|by apply moved_died].
  - destruct (ordered_current from target p j Ho (or_intror Hks)) as (_ & He & Hrange & _ & Hu).
    pose proof (SetBackfill_spec g Hdb (re_epoch j) (p_world p)) as Hset.
    change (pipe_backend g) with (g_state (N := N) g) in Hs.
    destruct (@sb_SetBackfillCursor _ (g_state g) (re_epoch j) (p_world p)) as [o w']. destruct Hset as (_ & Hep & _).
    assert (rows_kept (p_world p) w') as Hk by (intros e; unfold has_row; by rewrite Hep).
    destruct o as [u|er|m]; injection Hs as <-; (split; [done|]).
    + apply moved_on; cbn; [lia|by rewrite (Hend _ eq_refl)|done|lia].
    + apply moved_stay; [done|]. by rewrite (Hend _ eq_refl).
    + by apply moved_died.
  - destruct (p_pending p); [done|]. injection Hs as <-. split; [done|by apply moved_cons].
  - destruct (p_pending p), (c_state (p_coll p)); try done. injection Hs as <-. split; [done|].
    apply moved_stay; [done|]. by rewrite (Hend _ eq_refl).
  - destruct (d_state (p_disp p)), (c_state (p_coll p)); try done. injection Hs as <-. split; [done|].
    eapply moved_end; [done|by rewrite (Hend _ eq_refl)|done|done].
Qed.

Lemma step_moves l (p p' : pipe N) c0 :
  ordered from target p → data g from c0 p → step g target start total l p = Some p' →
  rows_kept (p_world p) (p_world p') ∧ moved p p'.
Proof.
  intros Ho Hd Hs%step_inv.
  assert (∀ i, (l = WorkerTake i ∨ l = WorkerEnd i ∨ l = WorkerCtx i ∨ l = WorkerExists i ∨
    (∃ env, l = WorkerBuild i env) ∨ l = WorkerSend i) → rows_kept (p_world p) (p_world p') ∧ moved p p') as Hw.
  { intros i Hi. destruct (worker_moves i l p p' Hi Hs). split; [by apply rows_kept_reads|done]. }
  unfold step_live in Hs. destruct l; try (by eapply consume_moves); try (by eapply Hw; eauto 10).
  1-4: cbn in Hs; unfold dispatch_step in Hs; repeat case_match; simplify_eq; (split; [done|by apply moved_cons]).
  1-4: cbn in Hs; unfold collect_step in Hs; repeat case_match; simplify_eq; (split; [done|by apply moved_cons]).
  injection Hs as <-. split; [done|by apply moved_cons].
Qed.

(** ** The simulation *)

(** Each step of the pipeline is a step of the loop. *)
Lemma step_simulates w l (p p' : pipe N) :
  attempt_ok g from target w p → attempt_ok g from target w p' →
  step g target start total l p = Some p' → seq_step g target (seq_of p) (seq_of p').
Proof.
  intros [Ho Hd] [Ho' Hd'] Hs. destruct (step_moves l p p' _ Ho Hd Hs) as [Hk Hm].
  assert (k_resume (p_cons p') = k_resume (p_cons p) → interferes g (p_world p) (p_world p')) as Hi.
  { intros Hr. split; [done| |intros ? _; by apply Hd'].
    by rewrite (dt_cursor _ _ _ _ Hd'), (dt_cursor _ _ _ _ Hd), Hr. }
  unfold seq_of. destruct Hm as [Hr He|Hr He He' Hle|err Hr He He' Hw|Hr He'].
  - rewrite Hr, He. by apply seq_other, Hi.
  - rewrite Hr, He, He'. destruct Hd as [? ? ? ? ? ?], Hd' as [? ? ? Hrows Hcur Hheld].
    pose proof (proj1 (proj2 Ho)) as Hb.
    apply seq_epoch; [done|done| | |done]; [apply Hrows; lia|].
    rewrite Hcur, Hr, decide_False by lia. f_equal. lia.
  - rewrite Hr, He, He', Hw. destruct err as [e|]; [apply seq_fail|]. apply seq_done.
    destruct Ho' as [_ [_ Hk']]. unfold pipe_end in He'.
    destruct (k_state (p_cons p')) as [| | | | |r err|]; try done. injection He' as ->.
    destruct Hk' as [Heq Ht]. rewrite <- Hr. by rewrite <- Heq, Ht.
  - rewrite Hr, He'. by apply seq_die, Hi.
Qed.

Lemma reachable_simulates (w : World N) (p : pipe N) :
  0 ≤ from → from ≤ target + 1 → target + 1 < two63 → (g_ipfs g ≠ None → rows_held w) →
  rtc (pipe_step g target start total (interferes g)) (pipe_init g from w) p →
  rtc (seq_step g target) (mkSeqst w from None) (seq_of p).
Proof.
  intros H0 H1 H2 Hh Hr. revert p Hr. refine (rtc_ind_r _ _ _ _); [done|].
  intros p2 p3 Hs Hp IH. eapply rtc_r; [exact IH|].
  pose proof (reachable_ok g Hdb Hworkers from target start total w p2 H0 H1 H2 Hh Hs) as Hok.
  assert (attempt_ok g from target w p3) as Hok'.
  { eapply reachable_ok; [done..|]. by eapply rtc_r. }
  inversion Hp; subst.
  - by eapply step_simulates.
  - by apply seq_other.
Qed.
End Moves.

(** ** The theorems *)

Section AttemptTheorems.
Context {R : GoRuntime} {I : Ipld} {L : IpldLaws I} {P : Postgres} {BJ : BeaconJson} {JS : JsonState}.
Context {N : Type} {K : Kubo N} {KL : KuboLaws N} {KJ : KuboJson}.

(** C13. At any point of any schedule of runBackfillPipeline's goroutines, with
    any number of workers and with others at work on the same database and
    node: nextResume is between from and target + 1, every epoch before it has
    a row, the backfill cursor is on the epoch before it (or where it was, if
    none was done), what the rows name is held by the IPFS node, nobody has sent
    on the closed resultCh, and if the attempt has returned, it returned
    nextResume, without an error only behind the target. *)
Theorem runBackfillPipeline_safe (g : Generator) from target start total (w : World N) (p : pipe N) :
  g_db g = true → 0 < cf_Workers (g_cfg g) → 0 ≤ from → from ≤ target + 1 → target + 1 < two63 →
  (g_ipfs g ≠ None → rows_held w) →
  rtc (pipe_step g target start total (interferes g)) (pipe_init g from w) p →
  let next := k_resume (p_cons p) in
  from ≤ next ≤ target + 1 ∧
  (∀ e, from ≤ e < next → has_row (p_world p) e) ∧
  backfill_cursor g (p_world p) = (if decide (next = from) then backfill_cursor g w else Some (next - 1)) ∧
  (g_ipfs g ≠ None → rows_held (p_world p)) ∧
  k_state (p_cons p) ≠ KCrashed SendOnClosed ∧
  ∀ r err, k_state (p_cons p) = KReturned r err → r = next ∧ (err = None → r = target + 1).
Proof.
  intros Hdb Hw H0 H1 H2 Hh Hr.
  destruct (reachable_ok g Hdb Hw from target start total w p H0 H1 H2 Hh Hr) as [[_ [Hb Hk]] [_ _ _ Hrows Hcur Hheld]].
  cbv zeta. split_and!; try done; [lia|lia|intros Hc; by rewrite Hc in Hk|]. intros r err Hret. by rewrite Hret in Hk.
Qed.

(** C14. The pipeline refines the loop that does one epoch at a time: whatever
    its goroutines do is a run of the loop, which moves from an epoch to the
    next only when its row is saved and the cursor is on it. *)
Theorem runBackfillPipeline_refines (g : Generator) from target start total (w : World N) (p : pipe N) :
  g_db g = true → 0 < cf_Workers (g_cfg g) → 0 ≤ from → from ≤ target + 1 → target + 1 < two63 →
  (g_ipfs g ≠ None → rows_held w) →
  rtc (pipe_step g target start total (interferes g)) (pipe_init g from w) p →
  rtc (seq_step g target) (mkSeqst w from None) (seq_of p).
Proof. intros. by apply reachable_simulates with start total. Qed.

(** What the loop of runBackfill has done up to [n], having started at [next]. *)
Record covered (g : Generator) (next n : Z) (w w' : World N) : Prop := {
  cv_rows e : next ≤ e < n → has_row w' e;
  cv_kept : rows_kept w w';
  cv_cursor : backfill_cursor g w' = if decide (n = next) then backfill_cursor g w else Some (n - 1);
  cv_held : g_ipfs g ≠ None → rows_held w → rows_held w' }.

Lemma covered_others g next n w w1 w' : covered g next n w w1 → interferes g w1 w' → covered g next n w w'.
Proof.
  intros [H1 H2 H3 H4] [G1 G2 G3]. split; [auto|by etransitivity|by rewrite G2|auto].
Qed.

Lemma covered_trans g next n m w w1 w' :
  next ≤ n ≤ m → covered g next n w w1 → covered g n m w1 w' → covered g next m w w'.
Proof.
  intros Hle [H1 H2 H3 H4] [G1 G2 G3 G4]. split; [|by etransitivity| |auto].
  - intros e He. destruct (decide (e < n)); [apply G2, H1; lia|apply G1; lia].
  - rewrite G3, H3. repeat case_decide; try done; f_equal; lia.
Qed.

Lemma seq_covered g target from (w : World N) s :
  rtc (seq_step g target) (mkSeqst w from None) s → from ≤ sq_next s ∧ covered g from (sq_next s) w (sq_world s).
Proof.
  revert s. refine (rtc_ind_r _ _ _ _).
  - cbn. split; [lia|]. split; [lia|done|by rewrite decide_True|done].
  - intros s s' _ Hs [Hle Hc]. destruct Hs as [w1 w' n Hn Hk Hrow Hcur Hh|w1 n e|w1 n Hn|w1 w' n e Hi|w1 w' n e Hi];
      cbn in *; [|done|done|by split; [|eapply covered_others]..].
    split; [lia|]. apply covered_trans with n w1; [lia|done|].
    split; [|done|rewrite decide_False by lia; rewrite Hcur; f_equal; lia|intros ? _; by apply Hh].
    intros e He. by replace e with n by lia.
Qed.

Lemma attempt_covered g start target next resumed err (w w' : World N) :
  g_db g = true → 0 < cf_Workers (g_cfg g) → 0 ≤ next → next ≤ target + 1 → target + 1 < two63 →
  (g_ipfs g ≠ None → rows_held w) → attempt_from g start target (interferes g) next w resumed err w' →
  covered g next resumed w w' ∧ next ≤ resumed ≤ target + 1 ∧ (err = None → resumed = target + 1).
Proof.
  intros Hdb Hw H0 H1 H2 Hh (p & Hr & Hk & <-).
  pose proof (reachable_simulates (KL := KL) g Hdb Hw next target start _ w p H0 H1 H2 Hh Hr) as Hsim.
  destruct (reachable_ok g Hdb Hw next target start _ w p H0 H1 H2 Hh Hr) as [[_ [Hb Hc]] _].
  rewrite Hk in Hc. destruct Hc as [-> He]. apply seq_covered in Hsim as [_ Hcov]. split; [done|]. split; [lia|done].
Qed.

Lemma rebuild_interferes (g : Generator) env (w : World N) : g_db g = true → 
  interferes g w (snd (nonfatal (rebuildNetworkRoot g env) w)).
Proof. intros Hdb. apply reads_interferes, reads_nonfatal. by apply reads_rebuild. Qed.

Lemma runBackfill_covered g start target next r (w w' : World N) :
  g_db g = true → 0 < cf_Workers (g_cfg g) → target + 1 < two63 →
  runBackfill g start target (interferes g) next w r w' →
  0 ≤ next → next ≤ target + 1 → (g_ipfs g ≠ None → rows_held w) →
  ∃ n, next ≤ n ≤ target + 1 ∧ covered g next n w w' ∧ (r = None → n = target + 1).
Proof.
  intros Hdb Hw H2 Hrun. assert (∀ n (w : World N), covered g n n w w) as Hrefl.
  { intros n w0. split; [lia|done|by rewrite decide_True|done]. }
  induction Hrun as [next w env u w' Hn Hb|next w e Hn|next w res w1 env u w' Hn Ha Hb|next w res e w1 ctx Hn Ha
    |next w res e w1 w2 r w' Hn Ha Ho Hrun IH]; intros H0 H1 Hh.
  - exists next. split; [lia|]. split; [|lia]. apply covered_others with w; [done|].
    pose proof (rebuild_interferes g env w Hdb) as Hi. by rewrite Hb in Hi.
  - exists next. by split; [lia|].
  - destruct (attempt_covered g start target next res None w w1 Hdb Hw H0 H1 H2 Hh Ha) as (Hc & Hle & He).
    exists res. split; [done|]. split; [|done]. apply covered_others with w1; [done|].
    pose proof (rebuild_interferes g env w1 Hdb) as Hi. by rewrite Hb in Hi.
  - destruct (attempt_covered g start target next res (Some e) w w1 Hdb Hw H0 H1 H2 Hh Ha) as (Hc & Hle & _).
    by exists res.
  - destruct (attempt_covered g start target next res (Some e) w w1 Hdb Hw H0 H1 H2 Hh Ha) as (Hc & Hle & _).
    assert (interferes g w1 w2) as Hi by (clear -Ho; induction Ho; [done|by etransitivity]).
    assert (covered g next res w w2) as Hc2 by (by eapply covered_others).
    destruct IH as (n & Hn' & Hcn & Hr); [lia|lia|intros ?; apply Hc2; auto|].
    exists n. split; [lia|]. split; [|done]. apply covered_trans with res w2; [lia|done..].
Qed.

(** C12. A backfill of [start .. target] that returns without an error, however
    often it failed and was resumed, whatever the schedules of its attempts
    were and whatever the live loop did meanwhile, leaves every epoch of the
    range with a row and the cursor on the target; no row that was there is
    lost, and what the rows name, epoch nodes and blobs, is held by the IPFS
    node. *)
Theorem runBackfill_complete (g : Generator) start target (w w' : World N) :
  g_db g = true → 0 < cf_Workers (g_cfg g) → 0 ≤ start → start ≤ target → target + 1 < two63 →
  (g_ipfs g ≠ None → rows_held w) →
  runBackfill g start target (interferes g) start w None w' →
  (∀ e, start ≤ e ≤ target → has_row w' e) ∧ backfill_cursor g w' = Some target ∧
  rows_kept w w' ∧ (g_ipfs g ≠ None → rows_held w').
Proof.
  intros Hdb Hw H0 H1 H2 Hh Hrun.
  destruct (runBackfill_covered g start target start None w w' Hdb Hw H2 Hrun) as (n & Hn & [Hr Hk Hc Hheld] & Hend);
    [lia..|done|]. rewrite (Hend eq_refl) in *.
  split_and!; [intros; apply Hr; lia| |done|auto]. rewrite Hc, decide_False by lia. f_equal. lia.
Qed.

End AttemptTheorems.

(** ** The properties at concrete inputs *)

Section Schedules.
Context {R : GoRuntime} {I : Ipld} {P : Postgres} {BJ : BeaconJson} {JS : JsonState}.
Context {N : Type} {K : Kubo N} {KJ : KuboJson} (g : Generator).
Context (target start total : Z).

Lemma run_labels_rtc others ls (p p' : pipe N) :
  Forall label_ok ls → run_labels g target start total ls p = Some p' →
  rtc (pipe_step g target start total others) p p'.
Proof.
  revert p. induction ls as [|l ls IH]; intros p Hok Hr; [by injection Hr as <-|].
  apply Forall_cons in Hok as [Hl Hls]. cbn in Hr. apply bind_Some in Hr as (p1 & Hs & Hr).
  eapply rtc_l; [by eapply step_label|auto].
Qed.

(** The first of the given labels that can be taken, and so on. *)
Fixpoint first_step (ls : list label) (p : pipe N) : option (label * pipe N) :=
  match ls with
  | [] => None
  | l :: ls => match step g target start total l p with Some p' => Some (l, p') | None => first_step ls p end
  end.
Fixpoint greedy (ls : list label) (fuel : nat) (p : pipe N) : list label :=
  match fuel with
  | 0%nat => []
  | S fuel => match first_step ls p with Some (l, p') => l :: greedy ls fuel p' | None => [] end
  end.

Lemma greedy_ok ls fuel p : Forall label_ok ls → Forall label_ok (greedy ls fuel p).
Proof.
  intros Hls. revert p. induction fuel as [|fuel IH]; intros p; [constructor|]. cbn.
  destruct (first_step ls p) as [[l p']|] eqn:Hf; [|constructor]. constructor; [|apply IH].
  revert Hf. clear IH. induction Hls as [|x ls' Hx Hls IHls]; [done|]. cbn.
  destruct (step _ _ _ _ _ _); [by intros [= <- _]|done].
Qed.
End Schedules.

(** Two workers on epochs 10 (one blob) and 11 (none), each goroutine as far as
    it gets. *)
Definition demo_labels : list label :=
  [DispatchSend; DispatchEnd; WorkerTake 1; WorkerTake 0; WorkerEnd 0; WorkerEnd 1; WorkerCtx 0; WorkerCtx 1;
   WorkerExists 0; WorkerExists 1; WorkerBuild 0 demo_run; WorkerBuild 1 demo_run; WorkerSend 0; WorkerSend 1;
   DispatchClose; CollectRecv; CollectSend; CollectEnd; Consume; ConsumePersist demo_run; ConsumeCursor;
   ConsumeEnd; ConsumeReturn].
Definition demo_pipe : pipe (gmap cid string) := pipe_init demo_gen 10 (demo_world tables_empty).
Definition demo_schedule : list label := greedy (BJ := demo_reply) demo_gen 11 10 2 demo_labels 60 demo_pipe.

Lemma demo_schedule_ok : Forall label_ok demo_schedule.
Proof. apply greedy_ok. repeat first [exact demo_run_ok | constructor]. Qed.

Definition demo_end : pipe (gmap cid string) :=
  default demo_pipe (run_labels (BJ := demo_reply) demo_gen 11 10 2 demo_schedule demo_pipe).

Lemma demo_end_eq : run_labels (BJ := demo_reply) demo_gen 11 10 2 demo_schedule demo_pipe = Some demo_end.
Proof.
  assert (from_option (λ _, true) false (run_labels (BJ := demo_reply) demo_gen 11 10 2 demo_schedule demo_pipe) = true)
    as Hr by (vm_compute; reflexivity).
  unfold demo_end. by destruct (run_labels _ _ _ _ _ _).
Qed.

(** Evaluated: the attempt returns 12 without an error. *)
Lemma demo_end_evaluated :
  k_state (p_cons demo_end) = KReturned 12 None ∧ k_resume (p_cons demo_end) = 12 ∧
  backfill_cursor demo_gen (p_world demo_end) = Some 11 ∧
  (λ e, ep_blob_count <$> ipld_epochs (db_tables (p_world demo_end)) !! e) <$> [9; 10; 11; 12] = [None; Some 1; Some 0; None].
Proof. vm_compute. done. Qed.

Lemma demo_end_reached others :
  rtc (pipe_step (BJ := demo_reply) demo_gen 11 10 2 others) demo_pipe demo_end.
Proof. eapply run_labels_rtc; [exact demo_schedule_ok|exact demo_end_eq]. Qed.

Lemma runBackfillPipeline_safe_witness :
  let next := k_resume (p_cons demo_end) in
  next = 12 ∧ (∀ e, 10 ≤ e < next → has_row (p_world demo_end) e) ∧
  backfill_cursor demo_gen (p_world demo_end) = (if decide (next = 10) then None else Some (next - 1)).
Proof.
  destruct (runBackfillPipeline_safe (BJ := demo_reply) demo_gen 10 11 10 2 (demo_world tables_empty) demo_end
    ltac:(done) ltac:(done) ltac:(lia) ltac:(lia) ltac:(unfold two63; lia) ltac:(done) (demo_end_reached _))
    as (_ & Hrows & Hcur & _).
  split; [apply demo_end_evaluated|split; [exact Hrows|exact Hcur]].
Defined.

Lemma runBackfillPipeline_refines_witness :
  rtc (seq_step demo_gen 11) (mkSeqst (demo_world tables_empty) 10 None) (seq_of demo_end).
Proof.
  apply (runBackfillPipeline_refines (BJ := demo_reply) demo_gen 10 11 10 2 (demo_world tables_empty) demo_end);
    [done|done|lia|lia|unfold two63; lia|done|exact (demo_end_reached _)].
Defined.

Local Opaque demo_end.

Lemma demo_backfill_ran :
  runBackfill (BJ := demo_reply) demo_gen 10 11 (interferes demo_gen) 10 (demo_world tables_empty) None
    (snd (nonfatal (rebuildNetworkRoot demo_gen demo_run) (p_world demo_end))).
Proof.
  pose proof demo_end_evaluated as (Hk & _).
  destruct (nonfatal (rebuildNetworkRoot demo_gen demo_run) (p_world demo_end)) as [o w'] eqn:Hn.
  destruct o as [u|e|m].
  - eapply rb_ok; [lia| |exact Hn]. exists demo_end. change (11 - 10 + 1) with 2.
    split; [exact (demo_end_reached _)|split; [exact Hk|reflexivity]].
  - exfalso. unfold nonfatal, mbind, go_bind, attempt in Hn. by destruct (rebuildNetworkRoot _ _ _) as [[] ?].
  - exfalso. apply (f_equal fst) in Hn. revert Hn. vm_compute. done.
Qed.

Lemma runBackfill_complete_witness :
  let w' := snd (nonfatal (rebuildNetworkRoot demo_gen demo_run) (p_world demo_end)) in
  (∀ e, 10 ≤ e ≤ 11 → has_row w' e) ∧ backfill_cursor demo_gen w' = Some 11.
Proof.
  destruct (runBackfill_complete (BJ := demo_reply) demo_gen 10 11 (demo_world tables_empty) _
    ltac:(done) ltac:(done) ltac:(lia) ltac:(lia) ltac:(unfold two63; lia) ltac:(done) demo_backfill_ran)
    as (Hrows & Hcur & _).
  split; [exact Hrows|exact Hcur].
Defined.
