(* ===== verification/Progress.v ===== *)
(** * Progress: how long a backfill attempt can go on, and when it is stuck

    A measure that every step of every goroutine of runBackfillPipeline
    decreases, which bounds the length of any schedule; that an attempt in
    which nothing has failed can always take a step until it returns; and a
    schedule after a failure in which every goroutine waits for another. *)

From S2P Require Import Prelude GoStd Types Ipld Store IpldModel Blob Epoch Network Db StateFile.
From S2P Require Import Beacon ElClient Ipfs Api Metrics Generator Reload Persist Live Pipeline Backfill Attempt.

(** ** The measure *)

(** What is left to do on an epoch, by where it is, plus what a goroutine has
    left before it returns. *)
Definition disp_cost (target : Z) (d : dispatcher) : nat :=
  12 * Z.to_nat (target + 1 - d_next d) + 11 * length (d_workCh d) +
  match d_state d with DLoop => 2 | DWait => 1 | DDone _ => 0 end.
Definition worker_cost (x : worker) : nat :=
  match x with WIdle => 1 | WTaken _ => 11 | WCheck _ => 10 | WBuild _ => 9 | WSend _ _ => 8 | WExited => 0 end.
Definition coll_cost (c : collector) : nat :=
  5 * size (c_reorder c) + match c_state c with CRecv => 1 | CSend _ _ => 5 | CDone _ => 0 end.
Definition cons_cost (k : consume) : nat :=
  match k with
  | KRecv => 4 | KPersist _ => 6 | KCursor _ => 5 | KDrain _ => 3 | KWait _ => 2 | KReturned _ _ => 1 | KCrashed _ => 0
  end.
Definition pipe_cost {N} (target : Z) (p : pipe N) : nat :=
  disp_cost target (p_disp p) + sum_list_with worker_cost (p_workers p) + 6 * length (p_resultCh p) +
  coll_cost (p_coll p) + 3 * length (p_pending p) + cons_cost (k_state (p_cons p)).

Lemma sum_insert {A} (f : A → nat) (l : list A) i x y :
  l !! i = Some x → (sum_list_with f (<[i := y]> l) + f x = sum_list_with f l + f y)%nat.
Proof.
  revert i. induction l as [|z l IH]; intros [|i] Hi; [done|done|injection Hi as ->; cbn; lia|].
  change (<[S i := y]> (z :: l)) with (z :: <[i := y]> l). cbn. specialize (IH i Hi). lia.
Qed.

Lemma size_insert_le (m : gmap Z buildResult) k r : (size (<[k := r]> m) ≤ S (size m))%nat.
Proof. destruct (m !! k) eqn:Hk; [rewrite map_size_insert_Some|rewrite map_size_insert_None]; eauto; lia. Qed.

(** Passing on to the next job in order costs nothing. *)
Lemma collect_next_cost target final m e :
  (coll_cost (collect_next target final m e) ≤ 5 * size m + if final then 0 else 1)%nat.
Proof.
  unfold collect_next, coll_cost. destruct (final && _); [cbn; lia|].
  destruct (m !! e) as [r|] eqn:Hm; cbn; [|destruct final; lia].
  assert (size m = S (size (delete e m))) as ->; [|lia].
  rewrite map_size_delete_Some by eauto. destruct (size m) eqn:Hs; [|lia].
  apply map_size_empty_iff in Hs. by rewrite Hs, lookup_empty in Hm.
Qed.

Section Cost.
Context {R : GoRuntime} {I : Ipld} {P : Postgres} {BJ : BeaconJson} {JS : JsonState}.
Context {N : Type} {K : Kubo N} {KJ : KuboJson} (g : Generator).
Context (from target start total : Z).

Lemma crash_cost c w (p : pipe N) : (∀ x, k_state (p_cons p) ≠ KCrashed x) →
  (pipe_cost target (pipe_crash c w p) < pipe_cost target p)%nat.
Proof. intros Hx. unfold pipe_cost. cbn. destruct (k_state (p_cons p)) eqn:Hk; cbn; try lia. by destruct (Hx c0). Qed.

Lemma set_worker_cost i x y w (p : pipe N) :
  p_workers p !! i = Some x → (worker_cost y < worker_cost x)%nat →
  (pipe_cost target (set_worker i y w p) < pipe_cost target p)%nat.
Proof. intros Hi Hlt. unfold pipe_cost. cbn. pose proof (sum_insert worker_cost _ i x y Hi). lia. Qed.

Lemma dispatch_cost l (p p' : pipe N) :
  ordered from target p → dispatch_step g target l p = Some p' → (pipe_cost target p' < pipe_cost target p)%nat.
Proof.
  intros [Hf _] Hs. pose proof (f_range _ _ _ _ _ _ Hf) as Hr. unfold dispatch_step in Hs.
  destruct l, (d_state (p_disp p)) eqn:Hd; try done; (case_match eqn:Hb; [|done]); injection Hs as <-;
    unfold pipe_cost, disp_cost; cbn [set_disp p_disp p_workers p_resultCh p_coll p_pending p_cons d_state d_next d_workCh];
    rewrite Hd; try lia.
  apply andb_true_iff in Hb as [Hb%Z.leb_le _]. rewrite length_app. cbn.
  assert (u64_add (d_next (p_disp p)) 1 = d_next (p_disp p) + 1) as ->
    by (apply wrap64_id; unfold is_u64, two63, two64 in *; lia). lia.
Qed.

Lemma worker_cost_step i l (p p' : pipe N) :
  l = WorkerTake i ∨ l = WorkerEnd i ∨ l = WorkerCtx i ∨ l = WorkerExists i ∨
    (∃ env, l = WorkerBuild i env) ∨ l = WorkerSend i →
  (∀ x, k_state (p_cons p) ≠ KCrashed x) →
  step_live g target start total l p = Some p' → (pipe_cost target p' < pipe_cost target p)%nat.
Proof.
  intros Hl Hx Hs. destruct Hl as [->|[->|[->|[->|[[env ->]| ->]]]]]; cbn in Hs.
  - unfold worker_take in Hs. destruct (p_workers p !! i) as [[]|] eqn:Hi; try done.
    destruct (d_workCh (p_disp p)) as [|e rest] eqn:Hw; [done|]. injection Hs as <-.
    unfold pipe_cost, disp_cost. cbn -[Nat.mul]. rewrite Hw.
    pose proof (sum_insert worker_cost _ i WIdle (WTaken e) Hi). cbn -[Nat.mul] in *. lia.
  - unfold worker_end in Hs. destruct (p_workers p !! i) as [[]|] eqn:Hi; try done.
    destruct (d_workCh (p_disp p)), (d_state (p_disp p)); try done; injection Hs as <-;
      (eapply set_worker_cost; [done|cbn; lia]).
  - unfold worker_ctx in Hs. destruct (p_workers p !! i) as [[]|] eqn:Hi; try done. injection Hs as <-.
    eapply set_worker_cost; [done|]. destruct (p_cancelled p), (g_db g); cbn; lia.
  - unfold worker_exists in Hs. destruct (p_workers p !! i) as [[]|] eqn:Hi; try done.
    destruct (in_db _ _ _) as [[[]|?|?] w]; injection Hs as <-;
      [eapply set_worker_cost; [done|cbn; lia]..|by apply crash_cost].
  - unfold worker_build in Hs. destruct (p_workers p !! i) as [[]|] eqn:Hi; try done.
    destruct (buildEpoch _ _ _ _ _) as [[|?|?] w]; injection Hs as <-;
      [eapply set_worker_cost; [done|cbn; lia]..|by apply crash_cost].
  - unfold worker_send in Hs. destruct (p_workers p !! i) as [[|?|?|?|r last|]|] eqn:Hi; try done.
    destruct (d_state (p_disp p)) as [| |[]]; try (destruct (_ <? _)%nat; [|done]); injection Hs as <-;
      try (by apply crash_cost); unfold pipe_cost; cbn -[Nat.mul]; rewrite length_app; cbn -[Nat.mul];
      pose proof (sum_insert worker_cost _ i (WSend r last) (if last then WExited else WIdle) Hi);
      destruct last; cbn -[Nat.mul] in *; lia.
Qed.

Lemma collect_cost l (p p' : pipe N) :
  collect_step g target l p = Some p' → (pipe_cost target p' < pipe_cost target p)%nat.
Proof.
  unfold collect_step. intros Hs. unfold pipe_cost. destruct (p_coll p) as [cs m e] eqn:Hc.
  cbn [c_state c_reorder c_expected] in Hs. destruct l, cs as [|final r|x]; try done.
  - destruct (p_resultCh p) as [|r rest]; [done|]. injection Hs as <-.
    cbn [set_coll p_disp p_workers p_resultCh p_coll p_pending p_cons length c_reorder c_expected].
    change (coll_cost (mkCollector CRecv m e)) with (5 * size m + 1)%nat.
    pose proof (collect_next_cost target false (<[re_epoch r := r]> m) e) as Hn. cbv iota in Hn.
    pose proof (size_insert_le m (re_epoch r) r). lia.
  - destruct (p_resultCh p); [|done]. destruct (d_state (p_disp p)) as [| |[]]; try done. injection Hs as <-.
    cbn [set_coll p_disp p_workers p_resultCh p_coll p_pending p_cons length c_reorder c_expected].
    change (coll_cost (mkCollector CRecv m e)) with (5 * size m + 1)%nat.
    pose proof (collect_next_cost target true m e) as Hn. cbv iota in Hn. lia.
  - destruct (_ <? _)%nat; [|done]. injection Hs as <-.
    cbn [set_coll p_disp p_workers p_resultCh p_coll p_pending p_cons]. rewrite length_app. cbn [length c_reorder c_expected].
    change (coll_cost (mkCollector (CSend final r) m e)) with (5 * size m + 5)%nat.
    pose proof (collect_next_cost target final m (u64_add e 1)) as Hn.
    destruct (re_err r) as [er|].
    + change (coll_cost (mkCollector (CDone None) m e)) with (5 * size m + 0)%nat. lia.
    + destruct final; lia.
  - destruct (p_cancelled p); [|done]. injection Hs as <-. cbn -[Nat.mul]. unfold coll_cost. cbn -[Nat.mul]. lia.
Qed.

Lemma consume_cost l (p p' : pipe N) :
  consume_step g l p = Some p' → (pipe_cost target p' < pipe_cost target p)%nat.
Proof.
  unfold consume_step, pipe_cost. intros Hs.
  destruct l, (k_state (p_cons p)) as [|j|j|e|oe| |] eqn:Hk; try done.
  - destruct (p_pending p) as [|j rest]; [done|]. injection Hs as <-.
    destruct (re_err j); cbn -[Nat.mul]; [lia|]. destruct (be_skip (re_be j)); cbn -[Nat.mul]; lia.
  - destruct (p_pending p), (c_state (p_coll p)); try done. injection Hs as <-. cbn -[Nat.mul]. lia.
  - destruct (persistEpoch _ _ _ _) as [[]]; injection Hs as <-; cbn -[Nat.mul]; lia.
  - destruct (sb_SetBackfillCursor _ _) as [[]]; injection Hs as <-; cbn -[Nat.mul]; lia.
  - destruct (p_pending p); [done|]. injection Hs as <-. cbn -[Nat.mul]. rewrite Hk. cbn. lia.
  - destruct (p_pending p), (c_state (p_coll p)); try done. injection Hs as <-. cbn -[Nat.mul]. lia.
  - destruct (d_state (p_disp p)), (c_state (p_coll p)); try done. injection Hs as <-. cbn -[Nat.mul]. lia.
Qed.

Lemma step_cost l (p p' : pipe N) :
  ordered from target p → l ≠ CtxCancel → step g target start total l p = Some p' →
  (pipe_cost target p' < pipe_cost target p)%nat.
Proof.
  intros Ho Hl Hs. assert (∀ x, k_state (p_cons p) ≠ KCrashed x) as Hx.
  { intros x Hx. unfold step in Hs. by rewrite Hx in Hs. }
  apply step_inv in Hs. pose proof Hs as Hw. unfold step_live in Hs.
  destruct l; try done; try (by eapply dispatch_cost); try (by eapply collect_cost); try (by eapply consume_cost);
    (eapply worker_cost_step; [|done|exact Hw]; eauto 10).
Qed.

(** ** Schedules with anything in between *)

(** The world is changed by others, pctx may be cancelled, and then a goroutine
    takes a step. *)
Definition disturbed (w : World N) (c : bool) (p : pipe N) : pipe N :=
  set_cons w (p_cancelled p || c) (p_pending p) (p_cons p) p.

Definition busy (p p' : pipe N) : Prop :=
  ∃ w c l, l ≠ CtxCancel ∧ step g target start total l (disturbed w c p) = Some p'.

Lemma busy_cost (p p' : pipe N) :
  ordered from target p → busy p p' → ordered from target p' ∧ (pipe_cost target p' < pipe_cost target p)%nat.
Proof.
  intros Ho (w & c & l & Hl & Hs).
  assert (ordered from target (disturbed w c p)) as Ho' by (by destruct Ho).
  split; [by eapply step_ordered|]. change (pipe_cost target p) with (pipe_cost target (disturbed w c p)).
  by eapply step_cost.
Qed.

Lemma nsteps_cost n (p p' : pipe N) :
  ordered from target p → nsteps busy n p p' → (pipe_cost target p' + n ≤ pipe_cost target p)%nat.
Proof.
  intros Ho Hn. induction Hn as [|n p1 p2 p3 Hb _ IH]; [lia|].
  destruct (busy_cost p1 p2 Ho Hb) as [Ho2 Hlt]. specialize (IH Ho2). lia.
Qed.

Lemma init_cost (w : World N) :
  pipe_cost target (pipe_init g from w) = (12 * Z.to_nat (target + 1 - from) + pipe_workers g + 7)%nat.
Proof.
  unfold pipe_cost, disp_cost, coll_cost, pipe_init. cbn -[Nat.mul pipe_workers]. rewrite map_size_empty.
  assert (∀ n, sum_list_with worker_cost (replicate n WIdle) = n) as -> by (intros n; induction n; cbn; lia). lia.
Qed.
End Cost.

(** ** What a goroutine's end means *)

Section Calm.
Context {R : GoRuntime} {I : Ipld} {P : Postgres} {BJ : BeaconJson} {JS : JsonState}.
Context {N : Type} {K : Kubo N} {KJ : KuboJson} (g : Generator).
Context (from target start total : Z).

(** The dispatcher leaves its loop early, and the consumer stops persisting,
    only when pctx is cancelled; the collector ends when resultCh is closed,
    when pctx is cancelled, or with a failed job that the consumer will see. *)
Record calm (p : pipe N) : Prop := {
  cm_disp : d_state (p_disp p) = DDone false → p_cancelled p = true;
  cm_coll x : c_state (p_coll p) = CDone x →
    d_state (p_disp p) = DDone true ∨ p_cancelled p = true ∨ ∃ r, r ∈ p_pending p ∧ failed r;
  cm_cons : match k_state (p_cons p) with
    | KDrain _ | KWait (Some _) | KReturned _ _ => p_cancelled p = true | _ => True end }.

Lemma calm_crash c w (p : pipe N) : calm p → calm (pipe_crash c w p).
Proof. by intros [H1 H2 H3]; split. Qed.

Lemma calm_set_worker i x w (p : pipe N) : calm p → calm (set_worker i x w p).
Proof. by intros [H1 H2 H3]; split. Qed.

Lemma calm_dispatch l (p p' : pipe N) : dispatch_step g target l p = Some p' → calm p → calm p'.
Proof.
  unfold dispatch_step. intros Hs [H1 H2 H3].
  assert (∀ x, c_state (p_coll p) = CDone x → ∀ s, s = DDone true ∨ d_state (p_disp p) ≠ DDone true →
    s = DDone true ∨ p_cancelled p = true ∨ ∃ r, r ∈ p_pending p ∧ failed r) as Hcoll.
  { intros x Hx s Hs'. destruct (H2 x Hx) as [?|?]; [|by right]. left. by destruct Hs'. }
  destruct l, (d_state (p_disp p)) eqn:Hd; try done; (destruct (_ && _) eqn:Hb || destruct (target <? _) || destruct (forallb _ _));
    try done; injection Hs as <-; split; cbn; try done; try (intros x Hx; apply (Hcoll x Hx); (by left) || by right).
  intros _. by apply andb_true_iff in Hb as [_ ?].
Qed.

Lemma calm_collect l (p p' : pipe N) :
  ordered from target p → collect_step g target l p = Some p' → calm p → calm p'.
Proof.
  unfold collect_step. intros [Hf _] Hs [H1 H2 H3].
  assert (∀ final m e x, c_state (collect_next target final m e) = CDone x → final = true) as Hnext.
  { intros final m e x. unfold collect_next. destruct final; [done|]. by destruct (m !! e). }
  destruct l, (c_state (p_coll p)) as [|final r|x] eqn:Hc; try done.
  - destruct (p_resultCh p); [done|]. injection Hs as <-. split; cbn -[collect_next]; try done.
    by intros x ?%Hnext.
  - destruct (p_resultCh p), (d_state (p_disp p)) as [| |[]] eqn:Hd; try done. injection Hs as <-.
    split; cbn -[collect_next]; try done; [congruence|]. intros x _. by left.
  - destruct (_ <? _)%nat; [|done]. injection Hs as <-. split; cbn -[collect_next]; try done.
    intros x. destruct (re_err r) as [er|] eqn:Her.
    + intros _. right. right. exists r. split; [apply elem_of_app; right; by left|]. unfold failed. congruence.
    + intros ->%Hnext. left. by apply (f_final _ _ _ _ _ _ Hf r).
  - destruct (p_cancelled p) eqn:Hp; [|done]. injection Hs as <-. split; cbn; rewrite ?Hp; try done.
    intros x _. by right; left.
Qed.

Lemma calm_consume l (p p' : pipe N) : consume_step g l p = Some p' → calm p → calm p'.
Proof.
  unfold consume_step. intros Hs Hcalm. pose proof Hcalm as [H1 H2 H3].
  assert (∀ e w pending, calm (consume_fail e w pending p)) as Hfail.
  { intros. split; cbn; [done| |done]. intros; by right; left. }
  destruct l, (k_state (p_cons p)) as [|j|j|e|oe| |] eqn:Hk; try done.
  - destruct (p_pending p) as [|j rest] eqn:Hp; [done|]. injection Hs as <-.
    destruct (re_err j) as [er|] eqn:Her; [done|]. split; cbn; [done| |by destruct (be_skip _)].
    intros x Hx. destruct (H2 x Hx) as [|[|(r & [->|Hr]%elem_of_cons & Hfr)]]; [by left|by right; left| |].
    + by destruct Hfr.
    + right. right. by exists r.
  - destruct (p_pending p) eqn:Hp, (c_state (p_coll p)) eqn:Hc; try done. injection Hs as <-.
    split; cbn; [done| |done]. by rewrite Hc.
  - destruct (persistEpoch _ _ _ _) as [[] w']; injection Hs as <-; [by split|done|by apply calm_crash].
  - destruct (sb_SetBackfillCursor _ _) as [[] w']; injection Hs as <-; [by split|done|by apply calm_crash].
  - destruct (p_pending p); [done|]. injection Hs as <-. split; cbn; [done| |by rewrite Hk]. intros; by right; left.
  - destruct (p_pending p) eqn:Hp, (c_state (p_coll p)) eqn:Hc; try done. injection Hs as <-.
    split; cbn; [done| |done]. intros; by right; left.
  - destruct (d_state (p_disp p)) eqn:Hd, (c_state (p_coll p)); try done. injection Hs as <-.
    split; cbn; [done| |done]. intros; by right; left.
Qed.

Lemma step_calm l (p p' : pipe N) :
  ordered from target p → step g target start total l p = Some p' → calm p → calm p'.
Proof.
  intros Ho Hs%step_inv Hc. unfold step_live in Hs.
  destruct l; try (by eapply calm_dispatch); try (by eapply calm_collect); try (by eapply calm_consume).
  - unfold worker_take in Hs. repeat case_match; simplify_eq. apply calm_set_worker. by destruct Hc.
  - unfold worker_end in Hs. repeat case_match; simplify_eq; by apply calm_set_worker.
  - unfold worker_ctx in Hs. do 2 (case_match; try done). simplify_eq. by apply calm_set_worker.
  - unfold worker_exists in Hs. do 2 (case_match; try done). subst.
    destruct (in_db _ _ _) as [[[]| |] w]; simplify_eq; by apply calm_set_worker || apply calm_crash.
  - unfold worker_build in Hs. do 2 (case_match; try done). subst.
    destruct (buildEpoch _ _ _ _ _) as [[] w]; simplify_eq; by apply calm_set_worker || apply calm_crash.
  - unfold worker_send in Hs. repeat case_match; simplify_eq; (by destruct Hc) || by apply calm_crash.
  - injection Hs as <-. destruct Hc as [H1 H2 H3]. split; cbn; [done| |by repeat case_match]. intros; by right; left.
Qed.
End Calm.

(** ** The theorems *)

(** No failure is under way: pctx is live, nobody has panicked, and no result
    between a worker and the consumer carries an error. *)
Definition quiet {N} (p : pipe N) : Prop :=
  p_cancelled p = false ∧ (∀ c, k_state (p_cons p) ≠ KCrashed c) ∧
  ∀ r, r ∈ results_of (p_workers p) (p_resultCh p) (p_coll p) (p_pending p) (k_state (p_cons p)) → ¬ failed r.

Section ProgressFacts.
Context {R : GoRuntime} {I : Ipld} {P : Postgres} {BJ : BeaconJson} {JS : JsonState}.
Context {N : Type} {K : Kubo N} {KJ : KuboJson} (g : Generator).
Context (from target start total : Z) (others : relation (World N)).

Abbreviation enabled p := (∃ l p', label_ok l ∧ l ≠ CtxCancel ∧ step g target start total l p = Some p').

Lemma reachable_calm (w : World N) (p : pipe N) :
  0 ≤ from → from ≤ target + 1 → target + 1 < two63 →
  rtc (pipe_step g target start total others) (pipe_init g from w) p → ordered from target p ∧ calm p.
Proof.
  intros H0 H1 H2 Hr. revert p Hr. refine (rtc_ind_r _ _ _ _).
  - split; [by apply init_ordered|by split].
  - intros p1 p2 _ [l q q' Hl Hs|q w' Hw] [Ho Hc].
    + split; [by eapply step_ordered|by eapply step_calm].
    + split; [exact Ho|by destruct Hc].
Qed.

Lemma pipe_workers_pos : (0 < pipe_workers g)%nat.
Proof. unfold pipe_workers. destruct (Z.leb_spec (cf_BackfillEpochWorkers (g_cfg g)) 0); lia. Qed.

Lemma room {A} : (length (@nil A) <? pipe_workers g)%nat = true.
Proof. apply Nat.ltb_lt, pipe_workers_pos. Qed.

(** Where every goroutine stands has a worker in one of three ways. *)
Lemma workers_cases (ws : list worker) :
  (∃ i x, ws !! i = Some x ∧ x ≠ WIdle ∧ x ≠ WExited) ∨ (∃ i, ws !! i = Some WIdle) ∨ Forall (λ x, x = WExited) ws.
Proof.
  induction ws as [|x ws IH]; [by right; right|].
  destruct IH as [(i & y & Hi & Hy)|[[i Hi]|Hall]]; [left; by exists (S i), y| |].
  - destruct x; try (left; by exists 0%nat; eexists); right; left; by exists (S i).
  - destruct x; try (left; by exists 0%nat; eexists); [right; left; by exists 0%nat|right; right; by constructor].
Qed.

Lemma step_uncrashed l (p : pipe N) :
  (∀ c, k_state (p_cons p) ≠ KCrashed c) → step g target start total l p = step_live g target start total l p.
Proof. intros Hk. unfold step. destruct (k_state (p_cons p)); try done. by destruct (Hk c). Qed.

(** A worker that holds an epoch can go on while resultCh has room. *)
Lemma worker_enabled env i x (p : pipe N) :
  env_ok env → (∀ c, k_state (p_cons p) ≠ KCrashed c) → p_resultCh p = [] →
  p_workers p !! i = Some x → x ≠ WIdle → x ≠ WExited → enabled p.
Proof.
  intros Henv Hk Hrs Hi Hidle Hexit.
  assert (Hstep := λ l, step_uncrashed l p Hk).
  destruct x as [|e|e|e|r last|]; try done.
  - exists (WorkerCtx i). eexists. rewrite Hstep. cbn [step_live label_ok]. unfold worker_ctx. by rewrite Hi.
  - exists (WorkerExists i). rewrite Hstep. cbn [step_live label_ok]. unfold worker_exists. rewrite Hi.
    destruct (in_db _ _ _) as [[[]| |] w]; by eexists.
  - exists (WorkerBuild i env). rewrite Hstep. cbn [step_live label_ok]. unfold worker_build. rewrite Hi.
    destruct (buildEpoch _ _ _ _ _) as [[] w]; by eexists.
  - exists (WorkerSend i). rewrite Hstep. cbn [step_live label_ok]. unfold worker_send. rewrite Hi, Hrs.
    rewrite (room (A := buildResult)).
    destruct (d_state (p_disp p)) as [| |[]]; by eexists.
Qed.

(** With every worker idle or gone, and nothing in resultCh. *)
Lemma idle_enabled (p : pipe N) :
  ordered from target p → calm p → quiet p → p_resultCh p = [] → c_state (p_coll p) = CRecv →
  (∃ i, p_workers p !! i = Some WIdle) ∨ Forall (λ x, x = WExited) (p_workers p) → enabled p.
Proof.
  intros [Hf _] Hc (Hq & Hk & Hres) Hrs Hcoll Hws.
  assert (Hstep := λ l, step_uncrashed l p Hk).
  destruct (d_state (p_disp p)) as [| |[]] eqn:Hd; cycle 2.
  - exists CollectEnd. eexists. rewrite Hstep. cbn [step_live label_ok]. unfold collect_step. by rewrite Hcoll, Hrs, Hd.
  - pose proof (cm_disp _ Hc Hd). congruence.
  - destruct Hws as [[i Hi]|Hall].
    + destruct (d_workCh (p_disp p)) as [|e rest] eqn:Hw.
      * destruct (Z.leb_spec (d_next (p_disp p)) target).
        -- exists DispatchSend. eexists. rewrite Hstep. cbn [step_live label_ok]. unfold dispatch_step. rewrite Hd, Hw.
           rewrite (proj2 (Z.leb_le _ _) ltac:(eassumption)), (room (A := Z)). done.
        -- exists DispatchEnd. eexists. rewrite Hstep. cbn [step_live label_ok]. unfold dispatch_step. rewrite Hd.
           by rewrite (proj2 (Z.ltb_lt _ _)).
      * exists (WorkerTake i). eexists. rewrite Hstep. cbn [step_live label_ok]. unfold worker_take. by rewrite Hi, Hw.
    + exfalso. destruct (p_workers p) as [|x ws]; [by destruct (f_workers _ _ _ _ _ _ Hf)|].
      apply Forall_cons in Hall as [-> _].
      destruct (f_exit _ _ _ _ _ _ Hf ltac:(by left)) as [[? _]|[(r & Hr & _)|[(k & r & Hr & Hfail)|[(r & Hr & _)|Hl]]]].
      * done.
      * rewrite Hrs in Hr. by apply not_elem_of_nil in Hr.
      * apply (Hres r); [|done]. rewrite elem_of_results. eauto 10.
      * rewrite Hcoll in Hr. by apply not_elem_of_nil in Hr.
      * by rewrite Hcoll in Hl.
  - destruct Hws as [[i Hi]|Hall].
    + destruct (d_workCh (p_disp p)) as [|e rest] eqn:Hw.
      * exists (WorkerEnd i). eexists. rewrite Hstep. cbn [step_live label_ok]. unfold worker_end. by rewrite Hi, Hw, Hd.
      * exists (WorkerTake i). eexists. rewrite Hstep. cbn [step_live label_ok]. unfold worker_take. by rewrite Hi, Hw.
    + exists DispatchClose. eexists. rewrite Hstep. cbn [step_live label_ok]. unfold dispatch_step. rewrite Hd.
      replace (forallb worker_exited (p_workers p)) with true; [done|]. symmetry. apply forallb_forall.
      intros x Hx%list_elem_of_In. rewrite Forall_forall in Hall. by rewrite (Hall x Hx).
Qed.

Lemma quiet_enabled env (p : pipe N) :
  env_ok env → ordered from target p → calm p → quiet p → enabled p.
Proof.
  intros Henv Ho Hc Hquiet. pose proof Hquiet as (Hq & Hk & Hres). assert (Hstep := λ l, step_uncrashed l p Hk).
  destruct (k_state (p_cons p)) as [|j|j|e|oe|r err|c] eqn:Hks.
  - destruct (p_pending p) as [|j rest] eqn:Hp.
    + destruct (c_state (p_coll p)) as [|final r|x] eqn:Hcoll.
      * destruct (p_resultCh p) as [|r rs] eqn:Hrs.
        -- destruct (workers_cases (p_workers p)) as [(i & x & Hi & Hx1 & Hx2)|Hws].
           ++ eapply worker_enabled; [done|by rewrite Hks|done..].
           ++ by apply idle_enabled.
        -- exists CollectRecv. eexists. rewrite Hstep. cbn [step_live label_ok]. unfold collect_step. by rewrite Hcoll, Hrs.
      * exists CollectSend. eexists. rewrite Hstep. cbn [step_live label_ok]. unfold collect_step. rewrite Hcoll, Hp.
        assert ((length (@nil job) <? pipe_workers g + 1) = true)%nat as -> by (apply Nat.ltb_lt; cbn; lia). done.
      * exists ConsumeEnd. eexists. rewrite Hstep. cbn [step_live label_ok]. unfold consume_step. by rewrite Hks, Hp, Hcoll.
    + exists Consume. eexists. rewrite Hstep. cbn [step_live label_ok]. unfold consume_step. by rewrite Hks, Hp.
  - exists (ConsumePersist env). rewrite Hstep. cbn [step_live label_ok]. unfold consume_step. rewrite Hks.
    destruct (persistEpoch _ _ _ _) as [[] w]; by eexists.
  - exists ConsumeCursor. rewrite Hstep. cbn [step_live label_ok]. unfold consume_step. rewrite Hks.
    destruct (sb_SetBackfillCursor _ _) as [[] w]; by eexists.
  - pose proof (cm_cons _ Hc) as Hx. rewrite Hks in Hx. congruence.
  - pose proof (cm_cons _ Hc) as Hx. rewrite Hks in Hx. destruct oe; [congruence|].
    destruct Ho as [_ [_ Hcons]]. rewrite Hks in Hcons. destruct (c_state (p_coll p)) as [| |x] eqn:Hcoll; [by destruct Hcons..|].
    destruct (cm_coll _ Hc x Hcoll) as [Hd|[?|(r & Hr & Hfr)]]; [|congruence|].
    + exists ConsumeReturn. eexists. rewrite Hstep. cbn [step_live label_ok]. unfold consume_step. by rewrite Hks, Hd, Hcoll.
    + destruct (Hres r); [|done]. rewrite elem_of_results. auto 10.
  - pose proof (cm_cons _ Hc) as Hx. rewrite Hks in Hx. congruence.
  - by destruct (Hk c).
Qed.
End ProgressFacts.

Section ProgressTheorems.
Context {R : GoRuntime} {I : Ipld} {P : Postgres} {BJ : BeaconJson} {JS : JsonState}.
Context {N : Type} {K : Kubo N} {KJ : KuboJson}.

(** C15. No schedule of runBackfillPipeline goes on for ever: whatever others do
    to the world and whenever pctx is cancelled, its goroutines take at most
    12 steps for each epoch of the range, one for each worker and 7 more. *)
Theorem runBackfillPipeline_terminates (g : Generator) from target start total (w : World N) n (p : pipe N) :
  0 ≤ from → from ≤ target + 1 → target + 1 < two63 →
  nsteps (busy g target start total) n (pipe_init g from w) p →
  (n ≤ 12 * Z.to_nat (target + 1 - from) + pipe_workers g + 7)%nat.
Proof.
  intros H0 H1 H2 Hn. rewrite <- (init_cost g from target w).
  pose proof (nsteps_cost g from target start total n _ p (init_ordered g from target w H0 H1 H2) Hn). lia.
Qed.

(** C16. While nothing has failed, the pipeline is never stuck: until the attempt
    returns some goroutine can take a step, whatever the schedule so far and
    whatever others do to the world. *)
Theorem runBackfillPipeline_never_stuck (g : Generator) from target start total others (w : World N) env (p : pipe N) :
  0 ≤ from → from ≤ target + 1 → target + 1 < two63 → env_ok env →
  rtc (pipe_step g target start total others) (pipe_init g from w) p → quiet p →
  ∃ l p', label_ok l ∧ l ≠ CtxCancel ∧ step g target start total l p = Some p'.
Proof.
  intros H0 H1 H2 Henv Hr Hq.
  destruct (reachable_calm g from target start total others w p H0 H1 H2 Hr) as [Ho Hc].
  by apply (quiet_enabled g from target start total env).
Qed.
End ProgressTheorems.

(** ** After a failure *)

(** The consumer waits for the dispatcher, which waits for the workers; the
    collector has returned, and a worker has a result for a full resultCh. *)
Record deadlocked (workers : nat) {N} (p : pipe N) : Prop := {
  dl_cons : ∃ e, k_state (p_cons p) = KWait e;
  dl_disp : d_state (p_disp p) = DWait;
  dl_coll : ∃ x, c_state (p_coll p) = CDone x;
  dl_full : (workers ≤ length (p_resultCh p))%nat;
  dl_sends : ∃ r last, WSend r last ∈ p_workers p;
  dl_blocked : Forall (λ x, match x with WSend _ _ | WExited => True | _ => False end) (p_workers p) }.

Section Deadlock.
Context {R : GoRuntime} {I : Ipld} {P : Postgres} {BJ : BeaconJson} {JS : JsonState}.
Context {N : Type} {K : Kubo N} {KJ : KuboJson} (g : Generator) (target start total : Z).

Lemma deadlocked_worker i x (p : pipe N) : deadlocked (pipe_workers g) p → p_workers p !! i = Some x →
  (∃ r last, x = WSend r last) ∨ x = WExited.
Proof.
  intros [_ _ _ _ _ Hb] Hi. pose proof (Forall_lookup_1 _ _ _ _ Hb Hi) as Hx. destruct x; try done; eauto.
Qed.

Lemma deadlocked_stuck l (p : pipe N) :
  deadlocked (pipe_workers g) p → l ≠ CtxCancel → step g target start total l p = None.
Proof.
  intros Hd Hl. pose proof Hd as [[e Hk] Hdisp [x Hc] Hfull [r [last Hsend]] _].
  assert (∀ i, match p_workers p !! i with Some (WSend _ _) | Some WExited | None => True | _ => False end) as Hw.
  { intros i. destruct (p_workers p !! i) as [y|] eqn:Hi; [|done].
    by destruct (deadlocked_worker i y p Hd Hi) as [(? & ? & ->)| ->]. }
  assert ((length (p_resultCh p) <? pipe_workers g)%nat = false) as Hroom by (by apply Nat.ltb_ge).
  assert (forallb worker_exited (p_workers p) = false) as Hall.
  { apply not_true_is_false. rewrite forallb_forall. intros Hall.
    by specialize (Hall _ (proj1 (list_elem_of_In _ _) Hsend)). }
  unfold step. rewrite Hk. unfold step_live. destruct l as [| | | |i|i|i|i|i env|i| | | | | | | | | | | |]; try done;
    unfold dispatch_step, collect_step, consume_step, worker_take, worker_end, worker_ctx, worker_exists,
      worker_build, worker_send; rewrite ?Hk, ?Hdisp, ?Hc, ?Hall, ?Hroom; try done;
    specialize (Hw i); destruct (p_workers p !! i) as [[]|]; try done.
Qed.
End Deadlock.

(** Epoch 20 cannot be fetched; 21 to 23 are in the database already. *)
Definition hang_tables : tables :=
  let row := mkEpochRow "mainnet" 0 None "" "" 0 0 in mkTables (list_to_map [(21, row); (22, row); (23, row)]) ∅ ∅.
Definition hang_env : Env := mkEnv (λ _, Response 500 "oops") demo_env None (seq 0) (seq 0) 1 None.
Definition hang_schedule : list label :=
  [DispatchSend; DispatchSend; WorkerTake 0; WorkerTake 1; DispatchSend; DispatchSend; DispatchEnd;
   WorkerCtx 0; WorkerExists 0; WorkerBuild 0 hang_env; WorkerSend 0; CollectRecv; CollectSend;
   WorkerCtx 1; WorkerExists 1; WorkerSend 1; WorkerTake 1; WorkerCtx 1; WorkerExists 1; WorkerSend 1;
   WorkerTake 1; WorkerCtx 1; WorkerExists 1; Consume; ConsumeDrained].

Definition hang_check (workers : nat) {N} (p : pipe N) : bool :=
  match k_state (p_cons p), d_state (p_disp p), c_state (p_coll p), p_workers p with
  | KWait _, DWait, CDone _, [WExited; WSend _ _] => (workers <=? length (p_resultCh p))%nat
  | _, _, _, _ => false
  end.

Lemma hang_check_ok workers {N} (p : pipe N) : hang_check workers p = true → deadlocked workers p.
Proof.
  unfold hang_check. intros Hh. destruct (k_state (p_cons p)) as [| | | |e| |] eqn:Hk; try done.
  destruct (d_state (p_disp p)) eqn:Hd; try done. destruct (c_state (p_coll p)) as [| |x] eqn:Hc; try done.
  destruct (p_workers p) as [|[] [|[| | | |r f|] []]] eqn:Hw; try done. apply Nat.leb_le in Hh.
  split; rewrite ?Hw; [eauto|done|eauto|done| |by repeat constructor].
  exists r, f. right. by left.
Qed.

(** C17. After a failed build the attempt can hang: with two workers, if the
    fetch of epoch 20 fails while the other worker finds epochs 21, 22 and 23
    in the database, the collector has returned, the other worker blocks on
    the full resultCh, the dispatcher waits for that worker and the consumer
    for the dispatcher. No goroutine can ever take a step again, whatever
    happens to the world, and runBackfill never retries. *)
Theorem runBackfillPipeline_hangs :
  ∃ p, run_labels (BJ := demo_reply) demo_gen 23 20 4 hang_schedule
         (pipe_init demo_gen 20 (demo_world hang_tables)) = Some p ∧
    (∀ r err, k_state (p_cons p) ≠ KReturned r err) ∧
    ∀ w c l, l ≠ CtxCancel → step (BJ := demo_reply) demo_gen 23 20 4 l (disturbed w c p) = None.
Proof.
  set (q := pipe_init demo_gen 20 (demo_world hang_tables)).
  assert (from_option (hang_check 2) false (run_labels (BJ := demo_reply) demo_gen 23 20 4 hang_schedule q) = true)
    as Hh by (vm_compute; reflexivity).
  destruct (run_labels demo_gen 23 20 4 hang_schedule q) as [p|]; [|done].
  pose proof (hang_check_ok 2 p Hh) as Hd. exists p. split; [done|]. split.
  - intros r err. destruct (dl_cons _ _ Hd) as [e ->]. done.
  - intros w c l Hl. apply deadlocked_stuck; [|done]. by destruct Hd.
Qed.

(** ** The properties at concrete inputs *)

Lemma run_labels_busy {R : GoRuntime} {I : Ipld} {P : Postgres} {BJ : BeaconJson} {JS : JsonState} {N} {K : Kubo N}
    {KJ : KuboJson} (g : Generator) target start total ls (p p' : pipe N) :
  CtxCancel ∉ ls → run_labels g target start total ls p = Some p' →
  nsteps (busy g target start total) (length ls) p p'.
Proof.
  revert p. induction ls as [|l ls IH]; intros p Hno Hr; [injection Hr as <-; constructor|].
  apply not_elem_of_cons in Hno as [Hl Hno]. cbn in Hr. apply bind_Some in Hr as (p1 & Hs & Hr).
  apply nsteps_l with p1; [|auto]. exists (p_world p), false, l. split; [done|].
  assert (disturbed (p_world p) false p = p) as -> by (destruct p; unfold disturbed, set_cons; cbn; by rewrite orb_false_r).
  done.
Qed.

Lemma runBackfillPipeline_terminates_witness :
  nsteps (busy (BJ := demo_reply) demo_gen 11 10 2) (length demo_schedule) demo_pipe demo_end ∧
  length demo_schedule = 29%nat ∧ (length demo_schedule ≤ 33)%nat.
Proof.
  assert (nsteps (busy (BJ := demo_reply) demo_gen 11 10 2) (length demo_schedule) demo_pipe demo_end) as Hn.
  { apply run_labels_busy; [|exact demo_end_eq]. intros Hin.
    assert (existsb (λ l, match l with CtxCancel => true | _ => false end) demo_schedule = false) as Hno
      by (vm_compute; reflexivity).
    apply not_true_iff_false in Hno. apply Hno, existsb_exists. exists CtxCancel.
    split; [exact (proj1 (list_elem_of_In _ _) Hin)|reflexivity]. }
  split; [exact Hn|]. split; [vm_compute; reflexivity|].
  exact (runBackfillPipeline_terminates (BJ := demo_reply) demo_gen 10 11 10 2 (demo_world tables_empty) _ demo_end
    ltac:(lia) ltac:(lia) ltac:(unfold two63; lia) Hn).
Defined.

(** A worker has taken epoch 10. *)
Definition demo_busy : pipe (gmap cid string) :=
  mkPipe (demo_world tables_empty) false (mkDispatcher DLoop 11 []) [WTaken 10; WIdle] [] (mkCollector CRecv ∅ 10) []
    (mkConsumer KRecv 10).

Lemma runBackfillPipeline_never_stuck_witness :
  quiet demo_busy ∧
  ∃ l p', label_ok l ∧ l ≠ CtxCancel ∧ step (BJ := demo_reply) demo_gen 11 10 2 l demo_busy = Some p'.
Proof.
  assert (quiet demo_busy) as Hq by (split_and!; [done|done|intros r Hr; by apply elem_of_nil in Hr]).
  split; [exact Hq|].
  apply (runBackfillPipeline_never_stuck (BJ := demo_reply) demo_gen 10 11 10 2 (λ _ _, False)
    (demo_world tables_empty) demo_run demo_busy); [lia|lia|unfold two63; lia|exact demo_run_ok| |exact Hq].
  apply (run_labels_rtc (BJ := demo_reply) demo_gen 11 10 2 _ [DispatchSend; WorkerTake 0]); [by repeat constructor|].
  reflexivity.
Defined.
