(* ===== verification/PushPull.v ===== *)
(** * PushPull: the push API beside the loops that pull from the beacon node

    [serve -pull] runs the live loop and the backfill on the database the push
    API writes to. What they make of an epoch that a blob has been pushed for. *)

From S2P Require Import Prelude GoStd Types Ipld Store IpldModel Blob Epoch Network Db StateFile.
From S2P Require Import Beacon ElClient Ipfs Api Metrics Generator Reload Persist Live Repair Push Pipeline.

Section PushPull.
Context {R : GoRuntime} {I : Ipld} {L : IpldLaws I} {P : Postgres} {BJ : BeaconJson} {JS : JsonState}.
Context {N : Type} {K : Kubo N} {KL : KuboLaws N} {KJ : KuboJson} (g : Generator).

Abbreviation network := (cf_Network (g_cfg g)).

(** No request to the beacon node, and no blob row written. *)
Record from_db (w w' : World N) : Prop := {
  fd_beacon : w_beacon w' = w_beacon w;
  fd_blobs : ipld_blobs (db_tables w') = ipld_blobs (db_tables w) }.

#[export] Instance from_db_preorder : PreOrder from_db.
Proof. split; [intros w; by split|]. intros w1 w2 w3 [H1 H2] [G1 G2]. split; congruence. Qed.

Lemma from_db_node {A} (m : Go N A) : always from_db (in_node m).
Proof. apply always_zoom. intros w. by split. Qed.

Lemma from_db_metrics {A} (m : Go (option Metrics) A) : always from_db (in_metrics m).
Proof. apply always_zoom. intros w. by split. Qed.

Lemma from_db_upload env bs c e : always from_db (uploadAndPin g env bs c e).
Proof.
  unfold uploadAndPin. destruct (g_ipfs g); [|apply always_ret, _].
  apply always_bind; [apply _|apply always_wrapf, from_db_node|intros _].
  apply always_bind; [apply _|apply from_db_metrics|intros _].
  destruct (cf_PinOnAdd _); [|apply always_ret, _].
  apply always_bind; [apply _|apply always_attempt, from_db_node|intros [|]]; [apply from_db_metrics|].
  apply always_bind; [apply _|apply always_attempt, from_db_node|intros ?]. apply from_db_metrics.
Qed.

(** The blob rows of an epoch, read back as records. *)
Lemma epoch_records_length e t rows :
  epoch_records network e t = Ok rows → length rows = length (joined_blobs e network t).
Proof.
  intros Hr%mapM_out_Ok_inv%Forall2_length. rewrite <- Hr. apply Permutation_length, sort_Slice_perm.
Qed.

(** An epoch with blob rows is built from them. *)
Lemma buildEpoch_cached env e p (w : World N) be w' :
  g_db g = true → joined_blobs e network (db_tables w) ≠ [] → buildEpoch g env e p w = (Ok be, w') →
  from_db w w' ∧ be_epoch be = e ∧ be_empty be = false ∧ be_fromCache be = true ∧ er_Epoch (be_epochResult be) = e ∧
  length (be_blobResults be) = length (joined_blobs e network (db_tables w)).
Proof.
  intros Hdb Hne Hr. unfold buildEpoch in Hr. apply bind_Ok in Hr as (cached & w1 & Hload & Hr).
  unfold load_cached in Hload. rewrite Hdb in Hload. apply bind_Ok in Hload as (rows & w2 & Hq%wrapf_Ok & Hload).
  unfold in_db in Hq. rewrite Hdb in Hq. apply zoom_inv in Hq as (d & [Hrows Ht]%GetBlobsByEpoch_Ok & ->).
  pose proof (epoch_records_length _ _ _ Hrows) as Hlen.
  destruct rows as [|r rows]; [by destruct (joined_blobs _ _ _)|].
  apply bind_Ok in Hload as ([inp rs] & w3 & [Hrec ->]%wrapf_Ok%lift_Ok & [-> ->]%ret_Ok).
  assert (length rs = length (r :: rows)) as Hrs.
  { revert Hrec. unfold ReconstructFromDB. destruct (mapM_out record_result (r :: rows)) as [rs'| |] eqn:Hm; [|done..].
    intros [= _ <-]. apply mapM_out_Ok_inv, Forall2_length in Hm. done. }
  apply Reconstruct_Ok in Hrec as (Hep & Hl & Hd).
  apply bind_Ok in Hr as ([[rs' er] bs] & w4 & [Hs ->]%lift_Ok & Hr).
  destruct (on_store_Ok g _ _ _ _ (stages_map _ (λ er, (rs, er)) _
    (λ x c, fst x = rs ∧ er_Epoch (snd x) = ei_Epoch inp ∧ er_CID (snd x) = c)
    (stages_node g inp rs _ ltac:(lia) Hd) ltac:(done)) Hs) as (c & (Hx & Her & _) & _). cbn in Hx, Her. subst rs'.
  assert (from_db w w' ∧ be = mkBuiltEpoch e inp rs er bs true false false) as [Hf ->].
  { apply bind_Ok in Hr as (u1 & v1 & (m1 & _ & ->)%zoom_inv & Hr).
    apply bind_Ok in Hr as (u2 & v2 & (m2 & _ & ->)%zoom_inv & Hr).
    apply bind_Ok in Hr as (u3 & v3 & (m3 & _ & ->)%zoom_inv & [-> ->]%ret_Ok). split; [|done]. by split; cbn; rewrite ?Ht. }
  split_and!; cbn; [done..|by rewrite Her|lia].
Qed.

(** And persisted with their number, whatever the beacon node has. *)
Lemma processEpoch_cached env e p (w : World N) u w' :
  g_db g = true → joined_blobs e network (db_tables w) ≠ [] → processEpoch g env e p w = (Ok u, w') →
  from_db w w' ∧
  ∃ row, ipld_epochs (db_tables w') !! e = Some row ∧
    ep_blob_count row = Z.of_nat (length (joined_blobs e network (db_tables w))).
Proof.
  intros Hdb Hne Hr.
  assert ((be ← buildEpoch g env e p; persistEpoch g env be) w = (Ok u, w')) as Hr'.
  { unfold processEpoch in Hr. rewrite Hdb in Hr. by destruct (g_ipfs g). }
  clear Hr. apply bind_Ok in Hr' as (be & w1 & Hb & Hp).
  destruct (buildEpoch_cached _ _ _ _ _ _ Hdb Hne Hb) as (Hf & Hep & Hem & Hc & Her & Hlen).
  unfold persistEpoch in Hp. rewrite Hem, Hc, Hdb in Hp. cbn [negb] in Hp.
  apply bind_Ok in Hp as (u1 & w2 & Hup & Hp). apply bind_Ok in Hp as (u2 & w3 & Hs & [_ ->]%ret_Ok).
  apply bind_Ok in Hs as (u3 & w4 & Hs%wrapf_Ok & [_ ->]%ret_Ok).
  assert (from_db w1 w2) as Hf2.
  { destruct (be_epochBS be) as [bs|]; [|by apply ret_Ok in Hup as [_ ->]].
    pose proof (from_db_upload env bs (er_CID (be_epochResult be)) (be_epoch be) w1) as H. by rewrite Hup in H. }
  unfold in_db in Hs. rewrite Hdb in Hs. apply zoom_inv in Hs as (d & Hs & ->).
  pose proof (SaveEpoch_atomically network (be_epochResult be) (Z.of_nat (length (be_blobResults be)))
    (epoch_time g (be_epoch be)) (w_db w2)) as Ha. rewrite Hs in Ha.
  split.
  - etransitivity; [exact Hf|]. etransitivity; [exact Hf2|]. split; [done|]. cbn. by rewrite Ha.
  - rewrite <- Hlen. cbn. rewrite Ha. cbn. rewrite upsert_epoch_lookup, decide_True by done.
    eexists. split; [done|]. by destruct (ipld_epochs _ !! _).
Qed.

(** A push into an epoch without rows leaves one blob row for it. *)
Lemma pushed_one req (w : World N) resp w1 :
  g_db g = true → 0 ≤ pq_Epoch req < two63 →
  ipld_blobs (db_tables w) !! pq_Commitment req = None →
  (∀ c row, ipld_blobs (db_tables w) !! c = Some row → bl_epoch row ≠ pq_Epoch req) →
  pushed g req w (Ok resp) w1 →
  length (joined_blobs (pq_Epoch req) network (db_tables w1)) = 1%nat.
Proof.
  intros Hdb He Hnone Hno (_ & _ & raw & _ & res & _ & _ & _ & Hsaved).
  destruct (Hsaved Hdb) as ((row & Hrow & _ & _ & _ & Hnew) & Hothers & _). destruct (Hnew Hnone) as [Hep Hnet].
  rewrite to_i64_nonneg in Hep by done.
  assert (joined_blobs (pq_Epoch req) network (db_tables w1) ≡ₚ [(pq_Commitment req, row)]) as Hp;
    [|by rewrite Hp].
  apply NoDup_Permutation; [|apply NoDup_singleton|].
  { apply NoDup_filter. rewrite map_range_perm. apply NoDup_map_to_list. }
  intros [c x]. rewrite list_elem_of_singleton. unfold joined_blobs.
  rewrite list_elem_of_filter, map_range_perm, elem_of_map_to_list. cbn. split.
  - intros [[Hx _] Hc]. destruct (decide (c = pq_Commitment req)) as [->|Hne]; [congruence|].
    rewrite Hothers in Hc by done. by destruct (Hno c x Hc).
  - intros [= -> ->]. done.
Qed.

Lemma EpochExists_row e c c' row :
  EpochExists network e c = (Ok false, c') → ipld_epochs (c_tables c) !! e = Some row → ep_network row ≠ network.
Proof.
  unfold EpochExists. intros Hq Hrow Hnet. apply wrapf_Ok, bind_Ok in Hq as (z & c1 & [_ ->]%lift_Ok & Hq).
  assert (wrapf "" (db_query (λ t, Ok (bool_decide (is_Some (network_rows network t !! e))))) c = (Ok false, c')) as Hw
    by (unfold wrapf; by rewrite Hq).
  apply db_query_Ok in Hw as [[= Hf%bool_decide_eq_false] _]. apply Hf. exists row. unfold network_rows.
  by apply map_lookup_filter_Some.
Qed.

(** C11. One pushed blob shadows its epoch. After a push into an epoch the
    database knows nothing of, the pull loops do not ask the beacon node for
    it: the live loop (or the [epoch] command) builds the epoch from the rows,
    records it with a blob_count of 1 and saves no other blob; the backfill
    finds the epoch's placeholder row and never builds it. Whatever other blobs
    the epoch has on the chain are missing, until someone pushes them too. *)
Theorem push_shadows_epoch env req (w : World N) resp w1 :
  let e := pq_Epoch req in
  g_db g = true → 0 ≤ e < two63 →
  ipld_epochs (db_tables w) !! e = None →
  (∀ c row, ipld_blobs (db_tables w) !! c = Some row → bl_epoch row ≠ e) →
  ipld_blobs (db_tables w) !! pq_Commitment req = None →
  ProcessBlobInput g env req w = (Ok resp, w1) →
  (∀ env' p u w2, processEpoch g env' e p w1 = (Ok u, w2) →
     w_beacon w2 = w_beacon w1 ∧ ipld_blobs (db_tables w2) = ipld_blobs (db_tables w1) ∧
     ∃ row, ipld_epochs (db_tables w2) !! e = Some row ∧ ep_blob_count row = 1) ∧
  (∀ i (p p' : pipe N), db_tables (p_world p) = db_tables w1 → p_workers p !! i = Some (WCheck e) →
     worker_exists g i p = Some p' → p_workers p' !! i ≠ Some (WBuild e)).
Proof.
  intros e Hdb He Hrow Hno Hnone Hpush.
  pose proof (ProcessBlobInput_correct g env req w) as Hp. rewrite Hpush in Hp. cbn [fst snd] in Hp.
  pose proof (pushed_one req w resp w1 Hdb He Hnone Hno Hp) as Hone. fold e in Hone. split.
  - intros env' p u w2 Hr. apply processEpoch_cached in Hr as ([Hb Ht] & row & Hr & Hc); [|done|by intros Hnil; rewrite Hnil in Hone].
    split_and!; [done|done|]. exists row. by rewrite Hc, Hone.
  - intros i p p' Ht Hi Hw. destruct Hp as (_ & _ & raw & _ & res & _ & _ & _ & Hsaved).
    destruct (Hsaved Hdb) as (_ & _ & (row & Hr & Hnew) & _). rewrite to_i64_nonneg in Hr, Hnew by done.
    destruct (Hnew Hrow) as [Hnet _]. unfold worker_exists in Hw. rewrite Hi in Hw.
    pose proof (lookup_lt_Some _ _ _ Hi) as Hlt.
    destruct (in_db g (EpochExists network e) (p_world p)) as [[[]|er|m] w2] eqn:Hex; injection Hw as <-; cbn.
    1,3: by rewrite list_lookup_insert_eq. 2: by rewrite Hi.
    exfalso. unfold in_db in Hex. rewrite Hdb in Hex. apply zoom_inv in Hex as (d & Hex & _).
    eapply EpochExists_row in Hex; [by apply Hex|by rewrite Ht].
Qed.
End PushPull.

(** ** The property at a concrete input *)

(** A blob of epoch 10 that is not the one the beacon node has there. *)
Definition demo_other : BlobPushRequest :=
  mkBlobPushRequest "0x99887766554433221100" "0x0199" "0x0304" "0xtx" 5 "0xbh" 40 10 0 false.

Definition demo_pushed : outcome BlobPushResponse * World (gmap cid string) :=
  ProcessBlobInput demo_gen demo_run demo_other (demo_world tables_empty).
Definition demo_pulled : outcome unit * World (gmap cid string) :=
  processEpoch (BJ := demo_reply) demo_gen demo_run 10 None (snd demo_pushed).

Definition demo_answer : BlobPushResponse :=
  match fst demo_pushed with Ok r => r | _ => mkBlobPushResponse "" "" "" 0 false "" end.

Lemma demo_pushed_ok : demo_pushed = (Ok demo_answer, snd demo_pushed).
Proof.
  assert (fst demo_pushed = Ok demo_answer) as <- by (vm_compute; reflexivity). apply surjective_pairing.
Qed.

Lemma demo_pulled_ok : demo_pulled = (Ok tt, snd demo_pulled).
Proof. assert (fst demo_pulled = Ok tt) as <- by (vm_compute; reflexivity). apply surjective_pairing. Qed.

(** The epoch counts one blob, and it is not the one of the beacon node, which
    was not asked for anything. *)
Lemma push_shadows_epoch_witness :
  (∃ row, ipld_epochs (db_tables (snd demo_pulled)) !! 10 = Some row ∧ ep_blob_count row = 1) ∧
  w_beacon (snd demo_pulled) = w_beacon (snd demo_pushed) ∧
  ipld_blobs (db_tables (snd demo_pulled)) !! "0xaabbccddeeff00112233" = None.
Proof.
  destruct (push_shadows_epoch (BJ := demo_reply) demo_gen demo_run demo_other (demo_world tables_empty) demo_answer
    (snd demo_pushed) eq_refl ltac:(cbn; unfold two63; lia) eq_refl ltac:(intros c row; cbn; by rewrite lookup_empty)
    eq_refl demo_pushed_ok) as [Hlive _].
  destruct (Hlive demo_run None tt (snd demo_pulled) demo_pulled_ok) as (Hb & _ & Hrow).
  split; [exact Hrow|]. split; [exact Hb|]. vm_compute. reflexivity.
Defined.
