(* ===== verification/Held.v ===== *)
(** * Held: what is recorded is on the node, whatever the generator does

    Every operation of generator.go that writes rows, and every request of the
    push API, keeps [rows_held]: no row of the database names a CID, of an
    epoch's node or of a blob's data or metadata, whose block the IPFS node does
    not hold. *)

From S2P Require Import Prelude GoStd Types Ipld Store IpldModel Blob Epoch Network Db StateFile.
From S2P Require Import Beacon ElClient Ipfs Api Metrics Generator Reload Persist Live Repair Push Pipeline Backfill.

Section Held.
Context {R : GoRuntime} {I : Ipld} {L : IpldLaws I} {P : Postgres} {BJ : BeaconJson} {JS : JsonState}.
Context {N : Type} {K : Kubo N} {KL : KuboLaws N} {KJ : KuboJson} (g : Generator).
Context (Hdb : g_db g = true).

Abbreviation network := (cf_Network (g_cfg g)).

(** ** Saving rows *)

Lemma SaveEpoch_interferes er n time (w : World N) :
  (g_ipfs g = None ∨ is_Some (kubo_blocks (w_node w) (er_CID er))) →
  interferes g w (snd (in_db g (SaveEpoch network er n time) w)).
Proof.
  intros Hk. pose proof (rows_kept_SaveEpoch g Hdb er n time w) as Hkept. split; [done| |].
  - unfold backfill_cursor, in_db. rewrite Hdb. unfold zoom.
    pose proof (SaveEpoch_atomically network er n time (w_db w)) as Ha.
    by destruct (SaveEpoch _ _ _ _ (w_db w)) as [[u|e|p] d]; cbn in *; rewrite ?Ha.
  - intros Hi. destruct Hk as [|Hk]; [done|by apply rows_held_SaveEpoch].
Qed.

Lemma SaveBlobs_interferes e blobs results gt sps (w : World N) :
  (g_ipfs g = None ∨ results_held w results) →
  interferes g w (snd (in_db g (SaveBlobs network e blobs results gt sps) w)).
Proof.
  intros Hk. pose proof (rows_kept_SaveBlobs g Hdb e blobs results gt sps w) as Hkept. split; [done| |].
  - unfold backfill_cursor, in_db. rewrite Hdb. unfold zoom.
    pose proof (SaveBlobs_atomically network e blobs results gt sps (w_db w)) as Ha.
    destruct (SaveBlobs _ _ _ _ _ _ (w_db w)) as [[u|er|p] d]; cbn in *; rewrite ?Ha; [by case_decide|done|done].
  - intros Hi. destruct Hk as [|Hk]; [done|by apply rows_held_SaveBlobs].
Qed.

(** ** The push API *)

Lemma finalizeEpochInner_interferes env e : always (interferes (N := N) g) (finalizeEpochInner g env e).
Proof.
  intros w. unfold finalizeEpochInner. rewrite Hdb. cbn [negb].
  change (repair_backend g) with (g_state (N := N) g).
  apply (rebuild_then g env ("load blobs epoch " +:+ FormatUint e) ("no blobs found for epoch " +:+ FormatUint e)
    ("reconstruct epoch " +:+ FormatUint e +:+ " from DB") ("build epoch node " +:+ FormatUint e) id e
    (λ er rows, _ ← wrapf ("save epoch " +:+ FormatUint e +:+ " to db") (in_db g
         (SaveEpoch network er (Z.of_nat (length rows)) (epoch_time g e)));
       _ ← nonfatal (rebuildNetworkRoot g env);
       _ ← @sb_SetLastProcessedEpoch _ (g_state g) e; mret (er_CID er)) (λ _ w', interferes g w w') w Hdb);
    [done|done|by intros; apply reads_interferes|].
  intros er rows w1 R1 _ _ Hk. etransitivity; [by apply reads_interferes|].
  apply keeps_bind; [by apply (keeps_wrapf (interferes g w1)), SaveEpoch_interferes|]. intros u w2 _ Hi.
  etransitivity; [exact Hi|]. clear Hi. revert w2.
  change (always (interferes g) (_ ← nonfatal (rebuildNetworkRoot g env);
    _ ← @sb_SetLastProcessedEpoch _ (g_state (N := N) g) e; mret (er_CID er))).
  apply (always_bind (interferes g)); [by apply always_interferes, reads_nonfatal, reads_rebuild|intros _].
  apply (always_bind (interferes g)); [by apply SetLive_interferes|intros c]. apply always_ret, _.
Qed.

Lemma ProcessBlobInput_interferes env req : always (interferes (N := N) g) (ProcessBlobInput g env req).
Proof.
  intros w. unfold ProcessBlobInput.
  apply (reads_then _ _ (λ _ w', interferes g w w') w);
    [reflexivity|apply always_wrapf, always_lift, _|by intros; apply reads_interferes|].
  intros raw w1 _ R1. set (inp := push_input req raw). rewrite on_store_blob.
  apply (reads_then _ _ (λ _ w', interferes g w w') w);
    [done|apply always_wrapf, always_lift, _|by intros; apply reads_interferes|].
  intros x w2 [Hx _]%wrapf_Ok%lift_Ok R2.
  match type of Hx with Ok ?y = _ => assert (x = y) as -> by congruence end. clear Hx.
  apply (reads_then _ _ (λ _ w', interferes g w w') w); [done| |by intros; apply reads_interferes|].
  { destruct (g_ipfs g); [|apply always_ret, _].
    apply always_bind; [apply _|apply always_wrapf, reads_node, PutBlockstore_grows|intros ?; apply reads_metrics]. }
  intros u w3 Hup R3. pose proof (push_upload g env inp w2 u w3 Hup) as Hheld. clear Hup.
  etransitivity; [by apply reads_interferes|]. rewrite Hdb.
  apply keeps_bind.
  - apply (keeps_wrapf (interferes g w3)), SaveBlobs_interferes. destruct (decide (g_ipfs g = None)) as [|Hi]; [by left|right].
    intros r ->%list_elem_of_singleton. specialize (Hheld Hi). rewrite Forall_forall in Hheld.
    destruct (blob_blocks_cids inp) as [(d & -> & Hd)%list_elem_of_fmap (m & -> & Hm)%list_elem_of_fmap].
    destruct (Hheld d Hd) as (x & Hx & _), (Hheld m Hm) as (y & Hy & _). split; eauto.
  - intros u2 w4 _ Hi. etransitivity; [exact Hi|]. clear Hi. revert w4.
    match goal with |- ∀ w4, interferes g w4 (snd (?m w4)) => change (always (interferes g) m) end.
    apply (always_bind (interferes g)); [apply always_interferes, reads_metrics|intros _].
    apply (always_bind (interferes g)); [apply always_interferes, reads_sent|intros _]. apply always_ret, _.
Qed.

Lemma GetNodeInfo_grows (n : N) : grows n (snd (GetNodeInfo n)).
Proof. apply (always_bind grows); [intros m; apply rpc_grows|intros body; apply always_lift, _]. Qed.

(** Every request, whatever its method, path and body. *)
Lemma route_interferes renv observe method path decoded :
  let s := mkServer (World N) (ProcessBlobInput g renv) (Some (FinalizeEpochWithCID g renv)) (Some (Ping g)) true observe in
  always (interferes g) (route s method path decoded).
Proof.
  intros s. assert (∀ r, always (interferes (N := N) g) (mret (M := Go (World N)) (A := response) r)) as Hret by (intros; apply always_ret, _).
  assert (always (interferes g) (handlePushBlob s decoded)) as Hpush.
  { unfold handlePushBlob. destruct decoded as [e|req]; [apply Hret|].
    destruct (validateBlobRequest req); [|apply Hret|apply always_lift, _].
    apply always_bind; [apply _|apply always_attempt, ProcessBlobInput_interferes|intros [e|resp]; [apply Hret|]].
    cbn. destruct (pq_Finalize req); [|apply Hret].
    apply always_bind; [apply _|apply always_attempt|intros [|]; apply Hret].
    apply always_bind; [apply _|apply finalizeEpochInner_interferes|intros; apply always_ret, _]. }
  assert (always (interferes g) (handleReady s)) as Hready.
  { cbn. apply always_bind; [apply _|apply always_attempt|intros; apply Hret]. unfold Ping.
    destruct (g_ipfs g); [|apply always_ret, _].
    apply always_bind; [apply _|apply always_interferes, reads_node, GetNodeInfo_grows|intros; apply always_ret, _]. }
  unfold route. repeat match goal with |- context [if ?b then _ else _] => destruct b end; done || apply Hret.
Qed.

(** ** repair-epochs *)

Lemma row_rebuilt_interferes e (w w' : World N) ok : row_rebuilt g e w ok w' → interferes g w w'.
Proof.
  destruct ok; [|by apply reads_interferes]. intros (Hn & (row & c & Hrow & Hcid & Hk) & _ & Hb & Hs & He). split.
  - intros e' He'. unfold has_row in *. destruct (decide (e' = e)) as [->|Hne]; [by eexists|by rewrite He].
  - unfold backfill_cursor. by rewrite Hs.
  - intros Hi [H1 H2]. pose proof (names_held_grows w w') as Hg. split.
    + intros e' row' Hr. destruct (decide (e' = e)) as [->|Hne].
      * right. exists c. rewrite Hrow in Hr. injection Hr as <-. split; [done|by destruct Hk].
      * rewrite He in Hr by done. destruct (H1 e' row' Hr); eauto.
    + intros k row' Hr. rewrite Hb in Hr. destruct (H2 k row' Hr). eauto.
Qed.

Lemma RepairEpochs_interferes env envs epochs strict :
  always (interferes (N := N) g) (RepairEpochs g env envs epochs strict).
Proof.
  unfold RepairEpochs. apply always_bind; [apply _| |intros reports].
  - induction epochs as [|e epochs IH]; cbn [repair_loop]; [apply always_ret, _|].
    destruct (en_ctx (envs e)); [apply always_ret, _|].
    apply always_bind; [apply _|apply always_attempt|intros r].
    { intros w. pose proof (repair_epoch_spec g (envs e) strict e w Hdb) as Hr.
      destruct (repair_epoch g (envs e) strict e w). by eapply row_rebuilt_interferes. }
    apply always_bind; [apply _|exact IH|intros; apply always_ret, _].
  - apply always_bind; [apply _| |intros; apply always_ret, _].
    destruct (0 <? _); [by apply always_interferes, reads_nonfatal, reads_rebuild|apply always_ret, _].
Qed.
End Held.

(** ** backfill-ipfs *)

Section BackfillIPFS.
Context {R : GoRuntime} {I : Ipld} {L : IpldLaws I} {P : Postgres} {BJ : BeaconJson} {JS : JsonState}.
Context {N : Type} {K : Kubo N} {KL : KuboLaws N} {KJ : KuboJson} (g : Generator).
Context (Hdb : g_db g = true) (Hipfs : g_ipfs g ≠ None) (Hworkers : 0 < cf_Workers (g_cfg g)).

Abbreviation network := (cf_Network (g_cfg g)).

(** What is recorded stays on the node. *)
Definition stays_held (w w' : World N) : Prop := rows_held w → rows_held w'.

#[export] Instance stays_held_preorder : PreOrder stays_held.
Proof. split; [intros w Hw; exact Hw|]. intros w1 w2 w3 H1 H2 H. exact (H2 (H1 H)). Qed.

Lemma held_reads_always {A} (m : Go (World N) A) : always reads m → always stays_held m.
Proof. apply always_impl. intros w w' Hr Hw. by eapply rows_held_reads. Qed.

Lemma held_interferes {A} (m : Go (World N) A) : always (interferes g) m → always stays_held m.
Proof. intros Hm w. exact (if_held _ _ _ (Hm w) Hipfs). Qed.

(** An upload loop that ends with Uploaded has put what was staged. *)
Lemma upload_until_holds attempts bs root e c : ∀ (w w' : World N),
  staged g (Some bs) c → upload_until g attempts bs root e w = (Ok Uploaded, w') → is_Some (kubo_blocks (w_node w') c).
Proof.
  induction attempts as [|env rest IH]; intros w w' Hs Hu; cbn [upload_until] in Hu; [done|].
  apply bind_Ok in Hu as (r & w1 & Hr%attempt_Ok & Hu). destruct r as [er|u].
  - destruct (en_ctx env); [done|by eapply IH].
  - apply ret_Ok in Hu as [_ ->]. by eapply upload_holds.
Qed.

Lemma reads_upload_until attempts bs root e : always (reads (N := N)) (upload_until g attempts bs root e).
Proof.
  induction attempts as [|env rest IH]; cbn [upload_until]; [apply always_ret, _|].
  apply always_bind; [apply _|apply always_attempt, reads_upload|intros [|]; [|apply always_ret, _]].
  destruct (en_ctx env); [apply always_ret, _|exact IH].
Qed.

(** What backfill-ipfs builds is staged: the node of the epoch and its blobs. *)
Lemma backfill_staged env inp msg results er bs :
  env_ok env →
  on_store true (λ BS B, results ← process_blobs g env inp; er ← build_node g inp results msg; mret (results, er))
    = Ok (results, er, bs) →
  staged g (Some (default MemBlockstore.NewMemBlockstore bs)) (er_CID er) ∧
  ∀ r, r ∈ results → staged g (Some (default MemBlockstore.NewMemBlockstore bs)) (br_DataCID r) ∧
                     staged g (Some (default MemBlockstore.NewMemBlockstore bs)) (br_MetaCID r).
Proof.
  intros He Hs.
  assert (on_store (match g_ipfs g with Some _ => true | None => false end)
    (λ BS B, results ← wrapf "" (process_blobs g env inp); er ← build_node g inp results msg; mret (results, er))
    = Ok (results, er, bs)) as Hs'.
  { destruct (g_ipfs g); [|done]. revert Hs. unfold on_store, wrapf, mbind, go_bind.
    by destruct (process_blobs g env inp _) as [[]]. }
  destruct (on_store_Ok g _ _ _ _ (stages_fresh g env inp _ _ He Hworkers) Hs') as (c & (_ & <- & _) & Hst).
  pose proof (λ c, on_store_also g _ _ _ _ c (fresh_stages_blobs g env inp _ _ He Hworkers) Hs') as Hb.
  assert (∃ b, bs = Some b) as [b ->].
  { unfold staged in Hst. destruct (g_ipfs g), bs; (done || by eexists). }
  split; [exact Hst|]. intros r Hr. split; apply Hb; exists r; auto.
Qed.

Lemma SetBackfill_held e : always stays_held (@sb_SetBackfillCursor _ (g_state (N := N) g) e).
Proof.
  intros w. pose proof (SetBackfill_spec g Hdb e w) as Hs.
  destruct (@sb_SetBackfillCursor _ (g_state g) e w) as [o w']. destruct Hs as (Hn & He & Hb & _).
  cbn [snd]. intros Hw. apply (rows_held_same w); [by rewrite Hn|done..].
Qed.

(** The rows are saved when the upload is done. *)
Lemma backfill_save_held e er n time inp results (mis : bool) (w : World N) :
  is_Some (kubo_blocks (w_node w) (er_CID er)) → results_held w results → rows_held w →
  rows_held (snd ((_ ← wrapf ("backfill-ipfs: save epoch " +:+ FormatUint e) (in_db g (SaveEpoch network er n time));
    _ ← (if mis then wrapf ("backfill-ipfs: save blobs epoch " +:+ FormatUint e)
           (in_db g (SaveBlobs network e (ei_Blobs inp) results (g_genesisTime g) (g_secondsPerSlot g)))
         else mret tt);
    _ ← wrapf ("backfill-ipfs: set cursor " +:+ FormatUint e) (@sb_SetBackfillCursor _ (g_state (N := N) g) e);
    mret Done) w)).
Proof.
  intros Hk Hres Hw. apply keeps_bind; [by apply (keeps_wrapf rows_held), rows_held_SaveEpoch|].
  intros u w1 Hs Hw1. assert (w_node w1 = w_node w) as Hn by by apply wrapf_Ok, in_db_inv in Hs as [_ ?].
  apply keeps_bind.
  - destruct mis; [|done]. apply (keeps_wrapf rows_held), rows_held_SaveBlobs; [|done]. intros r. rewrite Hn. apply Hres.
  - intros u2 w2 _ Hw2. apply keeps_bind; [by apply (keeps_wrapf rows_held), SetBackfill_held|done].
Qed.

Lemma backfill_epoch_held be e : env_ok (bk_env be) → always stays_held (backfill_epoch (N := N) g be e).
Proof.
  intros He. unfold backfill_epoch. destruct (en_ctx (bk_env be)); [apply always_lift, _|].
  apply always_bind; [apply _|by apply always_wrapf, held_reads_always, reads_db, GetBlobsByEpoch_reads|intros dbBlobs].
  destruct (Nat.eqb _ _); [apply always_ret, _|].
  apply always_bind; [apply _|apply always_attempt, held_reads_always, reads_beacon|intros [|inp]; [apply always_ret, _|]].
  destruct (Nat.eqb _ _); [apply always_ret, _|].
  apply always_bind_Ok; [apply _|apply always_attempt, always_lift, _|]. intros built s s' Hb%attempt_Ok.
  destruct built as [|[[results er] bs]]; [apply always_ret, _|]. apply lift_Ok in Hb as [Hb _].
  destruct (backfill_staged (bk_env be) inp _ results er bs He Hb) as [Hroot Hblobs].
  apply always_bind; [apply _|apply held_reads_always, reads_metrics|intros _].
  apply always_bind; [apply _|apply held_reads_always, reads_metrics|intros _].
  intros w Hw. apply keeps_bind; [by apply (held_reads_always _ (reads_upload_until _ _ _ _))|].
  intros up w1 Hup Hw1. destruct up; [|done|done].
  pose proof (λ c Hc, upload_until_holds _ _ _ _ c w w1 Hc Hup) as Hheld.
  change (repair_backend g) with (g_state (N := N) g).
  apply backfill_save_held; [by apply Hheld| |done]. intros r [H1 H2]%Hblobs. auto.
Qed.

Lemma BackfillIPFS_held env envs from to :
  (∀ e, env_ok (bk_env (envs e))) → always stays_held (BackfillIPFS (N := N) g env envs from to).
Proof.
  intros He. unfold BackfillIPFS.
  do 4 (match goal with |- always _ (if ?b then _ else _) => destruct b; [apply always_lift, _|] end).
  apply always_bind; [apply _| |intros [u s|e]; [|apply always_ret, _]].
  - generalize 0 at 1 as uploaded. generalize 0 as skipped. generalize (seqZ from (to - from + 1)) as l.
    induction l as [|e l IH]; intros skipped uploaded; cbn [backfill_loop]; [apply always_ret, _|].
    apply always_bind; [apply _|by apply backfill_epoch_held|intros [| | |]; [apply IH..|apply always_ret, _]].
  - apply always_bind; [apply _|by apply held_reads_always, reads_nonfatal, reads_rebuild|intros; apply always_ret, _].
Qed.
End BackfillIPFS.
