(* ===== verification/Commands.v ===== *)
(** * Commands: the subcommands and main of cmd/blobscan-ipld/main.go

    Every subcommand from its arguments on, over the generator and the commands
    the other files model, and main, which reads the command line and the
    environment and dispatches. *)

From S2P Require Import Prelude GoStd GoTime Flags Types Ipld Store IpldModel Blob Epoch Network Db StateFile.
From S2P Require Import Beacon ElClient Ipfs Metrics Generator New Reload Persist Live Api Repair.
From S2P Require Config ExportRefs Health Car Pin Summary.

(** What a run of the program meets besides its state: the beacon node and
    PostgreSQL as generator.New and db.New find them, the environments of the
    generator's methods, the orders in which concurrent work completes, what
    os.Create returns, and standard output. *)
Record MainEnv := mkMainEnv {
  me_new : NewEnv;
  me_connect : option error;
  me_env : Env;
  me_epochs : Z → Env;
  me_backfill : Z → BackfillEnv;
  me_first : TickEnv;
  me_wakes : list wake;
  me_pin_ctx : nat → nat → option error;
  me_schedule : list nat;
  me_order : nat → list nat;
  me_month : Z → Z;
  me_out : error + ExportRefs.sink;
  me_stdout : ExportRefs.sink }.

(** How a command ends: with an exit code, still working when the wake-ups and
    attempts it is given run out, or serving the API. *)
Inductive command_end :=
  | Exit (code : Z)
  | Working
  | Serving (g : Generator) (listen : string) (pull : bool).

Section Commands.
Context {R : GoRuntime} {I : Ipld} {P : Postgres} {BJ : BeaconJson} {JS : JsonState} {GC : Car.GoCar}.
Context {N : Type} {K : Kubo N} {KJ : KuboJson} {FT : Config.FloatText}.
Context (env : MainEnv).

Abbreviation W := (World N).

(** The parts of the world the other files' commands work on. *)
Definition in_tables {A} : Go Db.Client A → Go W A :=
  zoom w_db (λ d w, mkWorld (w_beacon w) (w_node w) d (w_state w) (w_sent w) (w_metrics w)).
Definition in_pair {A} : Go (Db.Client * N) A → Go W A :=
  zoom (λ w, (w_db w, w_node w))
    (λ p w, mkWorld (w_beacon w) (snd p) (fst p) (w_state w) (w_sent w) (w_metrics w)).
Definition in_car {A} : Go (Car.CarWorld N) A → Go W A :=
  zoom (λ w, Car.mkCarWorld (w_db w) (w_node w) (snd (w_state w)))
    (λ c w, mkWorld (w_beacon w) (Car.cw_node c) (Car.cw_db c) (fst (w_state w), Car.cw_fs c) (w_sent w) (w_metrics w)).
Definition in_disk {A} : Go FS A → Go W A :=
  zoom (snd ∘ w_state) (λ f w, mkWorld (w_beacon w) (w_node w) (w_db w) (fst (w_state w), f) (w_sent w) (w_metrics w)).

(** What a command prints on standard output, and how it ends. *)
Abbreviation result := (list string * command_end)%type.
Definition exits (code : Z) : Go W result := mret ([], Exit code).

Section Configured.
Context (cfg : Config.Config).

Abbreviation network := (Config.nc_Name (Config.c_Network cfg)).
Definition no_dsn : bool := bool_decide (Config.st_PostgresDSN (Config.c_Storage cfg) = "").

(** [fs.Parse(args)]. *)
Definition with_flags (c : subcommand) (args : list string) (k : FlagSet → Go W result) : Go W result :=
  match Parse (flags_of c) args with
  | ParseExit code => exits code
  | Parsed fs _ => k fs
  end.

(** [generator.New(ctx, cfg, log)]; an error ends the command with 1. *)
Definition with_generator (k : Generator → Go W result) : Go W result :=
  r ← attempt (New cfg (me_new env));
  match r with
  | inl _ => exits 1
  | inr g => k g
  end.

(** [db.New(ctx, cfg.Storage.PostgresDSN)]. *)
Definition with_db (k : Go W result) : Go W result :=
  match me_connect env with
  | Some _ => exits 1
  | None => k
  end.

(** [err != nil && !errors.Is(err, context.Canceled)] *)
Definition exit_unless_canceled (e : error) : command_end := Exit (if errors_Is e CtxCanceled then 0 else 1).

Definition cmdRun (args : list string) : Go W result :=
  with_flags Flags.Run args (λ _, with_generator (λ g,
    r ← attempt (Live.Run g (me_env env) (me_first env) (me_wakes env));
    mret ([], match r with
              | inl e | inr (Some e) => exit_unless_canceled e
              | inr None => Working
              end))).

(** [api.New(listen, gen.ProcessBlobInput, gen.FinalizeEpochWithCID, gen.Ping, ...)],
    for a request that meets [renv]. *)
Definition api_server (g : Generator) (renv : Env) : Api.Server W :=
  api_New (ProcessBlobInput g renv) (Some (FinalizeEpochWithCID g renv)) (Some (Ping g)) true
    (Some (λ method path status, in_metrics (ObserveHTTPRequest method path status))).

(** [gen.WithMetrics(m)]. *)
Definition WithMetrics (m : Metrics) : Go W unit :=
  modify (λ w, mkWorld (w_beacon w) (w_node w) (w_db w) (w_state w) (w_sent w) (Some m)).

(** serve, up to the start of the server and, with [-pull], of the loop. *)
Definition cmdServe (args : list string) : Go W result :=
  with_flags Flags.Serve args (λ fs, with_generator (λ g,
    let listen := Config.gc_APIListen (Config.c_Generator cfg) in
    _ ← WithMetrics Metrics_New;
    mret ([], Serving g (if bool_decide (listen = "") then ":8080" else listen) (bool_flag fs "pull")))).

(** What ends serve: the signal, after which it shuts down, or the server. *)
Inductive serve_stop := StopSignal | ServerStopped (err : option error).

Definition serve_exit (stop : serve_stop) : Z :=
  match stop with StopSignal | ServerStopped None => 0 | ServerStopped (Some _) => 1 end.

(** A command about one epoch, [-n]. *)
Definition with_epoch (c : subcommand) (args : list string) (m : Generator → Z → Go W unit) : Go W result :=
  with_flags c args (λ fs,
    let epochNum := uint64_flag fs "n" in
    if epochNum =? 0 then exits 1
    else with_generator (λ g,
      r ← attempt (m g epochNum);
      exits (match r with inl _ => 1 | inr _ => 0 end))).

Definition cmdEpoch (args : list string) : Go W result :=
  with_epoch Flags.SingleEpoch args (λ g e, ProcessSingleEpoch g (me_env env) e).

Definition cmdFinalizeEpoch (args : list string) : Go W result :=
  with_epoch Flags.FinalizeEpoch args (λ g e, FinalizeEpoch g (me_env env) e).

(** The last epoch of backfill-ipfs, or the exit code: 0 when the database has
    no epoch to upload, 1 when it cannot be asked. *)
Definition backfill_to (toEpoch : Z) : Go W (Z + Z) :=
  if negb (toEpoch =? 0) then mret (inr toEpoch)
  else match me_connect env with
  | Some _ => mret (inl 1)
  | None =>
      q ← attempt (in_tables (GetMaxEpoch network));
      mret (match q with
            | inl _ => inl 1
            | inr maxEpoch => if maxEpoch =? 0 then inl 0 else inr maxEpoch
            end)
  end.

Definition cmdBackfillIPFS (args : list string) : Go W result :=
  with_flags Flags.BackfillIPFS args (λ fs,
    if no_dsn then exits 1
    else if Config.ic_SkipUpload (Config.c_IPFS cfg) then exits 1
    else if bool_decide (Config.nc_BeaconRPC (Config.c_Network cfg) = "") then exits 1
    else with_generator (λ g,
      let from := if uint64_flag fs "from" =? 0 then Config.gc_StartEpoch (Config.c_Generator cfg) else uint64_flag fs "from" in
      to ← backfill_to (uint64_flag fs "to");
      match to with
      | inl code => exits code
      | inr to =>
          r ← attempt (Repair.BackfillIPFS g (me_env env) (me_backfill env) from to);
          mret ([], match r with
                    | inl e => exit_unless_canceled e
                    | inr (Finished _ _) => Exit 0
                    | inr (RetryingAt _) => Working
                    end)
      end)).

Definition mismatch_line (m : EpochCountMismatch) : string :=
  let tab := String (byte_of 9) "" in
  FormatUint (cm_Epoch m) +:+ tab +:+ "stored=" +:+ pretty (cm_Stored m) +:+ tab +:+ "actual=" +:+ pretty (cm_Actual m).

Definition cmdRepairEpochs (args : list string) : Go W result :=
  with_flags Flags.RepairEpochs args (λ fs,
    if no_dsn then exits 1
    else with_db (
      q ← attempt (in_tables (GetBlobCountMismatches network));
      match q with
      | inl _ => exits 1
      | inr [] => exits 0
      | inr mismatches =>
          if bool_flag fs "dry-run" then mret (mismatch_line <$> mismatches, Exit 0)
          else with_generator (λ g,
            r ← Repair.RepairEpochs g (me_env env) (me_epochs env) (cm_Epoch <$> mismatches)
                  (negb (bool_flag fs "no-verify"));
            let '(_, failed, _) := r in
            exits (if 0 <? failed then 1 else 0))
      end)).

Definition run_export_car (args : list string) : Go W result :=
  with_flags Flags.ExportCAR args (λ fs,
    code ← in_car (Car.cmdExportCAR cfg (me_connect env) (uint64_flag fs "n") (string_flag fs "out"));
    exits code).

Definition run_export_car_range (args : list string) : Go W result :=
  with_flags Flags.ExportCARRange args (λ fs,
    code ← in_car (Car.cmdExportCARRange cfg (me_connect env) (uint64_flag fs "from") (uint64_flag fs "to")
                     (string_flag fs "out"));
    exits code).

Definition run_pin_existing (args : list string) : Go W result :=
  with_flags Flags.PinExisting args (λ fs,
    r ← in_pair (Pin.cmdPinExisting cfg (me_connect env)
          (Pin.mkPinFlags (bool_flag fs "dry-run") (int_flag fs "workers") (int_flag fs "retries") (int_flag fs "limit"))
          (me_pin_ctx env) (me_schedule env));
    exits (fst r)).

(** The file that [-out] names has the bytes written to it. *)
Definition put_file (path bytes : string) (f : FS) : FS :=
  let files := <[path := bytes]> (fs_files f) in mkFS files (fs_seen f ++ [files]) (fs_faults f).

Definition run_export_blob_refs (args : list string) : Go W result :=
  with_flags Flags.ExportBlobRefs args (λ fs,
    if no_dsn then exits 1
    else with_db (
      let path := string_flag fs "out" in
      let create := if bool_decide (path = "") then inr (me_stdout env) else me_out env in
      r ← in_tables (ExportRefs.cmdExportBlobRefs network (uint64_flag fs "from") (uint64_flag fs "to")
            (bool_flag fs "meta") (bool_flag fs "binary") create);
      match fst r with
      | None => exits (snd r)
      | Some out =>
          if bool_decide (path = "") then mret ([ExportRefs.sk_bytes out], Exit (snd r))
          else _ ← in_disk (modify (put_file path (ExportRefs.sk_bytes out))); exits (snd r)
      end)).

Definition run_summary (args : list string) : Go W result :=
  with_flags Flags.Summary args (λ fs w,
    let flags := Summary.mkSummaryFlags (bool_flag fs "check-ipfs") (bool_flag fs "gaps") (bool_flag fs "empty")
                   (int_flag fs "top") (bool_flag fs "monthly") in
    let '(o, s) := Summary.cmdSummary (me_month env) cfg (me_connect env) flags (me_order env)
                     (Summary.mkSumWorld (w_db w) (w_node w) []) in
    (code ← o; Ok (Summary.sm_out s, Exit code),
     mkWorld (w_beacon w) (Summary.sm_node s) (Summary.sm_db s) (w_state w) (w_sent w) (w_metrics w))).

Definition run_health_check (args : list string) : Go W result :=
  with_flags Flags.HealthCheck args (λ fs,
    if no_dsn then exits 1
    else with_db (
      r ← in_tables (Health.cmdHealthCheck network (Config.nc_SlotsPerEpoch (Config.c_Network cfg))
            (Config.gc_HAMTThreshold (Config.c_Generator cfg)) (int_flag fs "tier") (int_flag fs "samples") (me_order env));
      mret (fst r, Exit (snd r)))).

(** The switch. *)
Definition run_subcommand (c : subcommand) : list string → Go W result :=
  match c with
  | Flags.Run => cmdRun
  | Flags.Serve => cmdServe
  | Flags.SingleEpoch => cmdEpoch
  | Flags.FinalizeEpoch => cmdFinalizeEpoch
  | Flags.ExportCAR => run_export_car
  | Flags.ExportCARRange => run_export_car_range
  | Flags.BackfillIPFS => cmdBackfillIPFS
  | Flags.PinExisting => run_pin_existing
  | Flags.ExportBlobRefs => run_export_blob_refs
  | Flags.Summary => run_summary
  | Flags.RepairEpochs => cmdRepairEpochs
  | Flags.HealthCheck => run_health_check
  end.
End Configured.

(** main, from [os.Args[1:]] and the environment variables on. *)
Definition main (Getenv : string → string) (args : list string) : Go W result :=
  match main_start args with
  | MainExit code => exits code
  | Chosen _ name subArgs =>
      match Config.Load Getenv with
      | Ok cfg =>
          dirs ← attempt (in_disk (for_each [Config.st_DataDir (Config.c_Storage cfg); Config.st_CARDir (Config.c_Storage cfg)]
                   Car.os_MkdirAll));
          match dirs, subcommand_of name with
          | inl _, _ | inr _, None => exits 1
          | inr _, Some c => run_subcommand cfg c subArgs
          end
      | _ => exits 1
      end
  end.
End Commands.
