(* ===== verification/CommandFacts.v ===== *)
(** * CommandFacts: what the program guarantees from its command line on

    The [epoch] command from the environment variables to the row, the blocks
    and the cursor; [repair-epochs] until nothing is left to repair; and what a
    push to the server of [serve] has stored when it is answered. *)

From S2P Require Import Prelude GoStd GoTime Flags Types Ipld Store IpldModel Blob Epoch Network Db StateFile.
From S2P Require Import Beacon ElClient Ipfs Metrics Generator New Reload Persist Live Api Repair Push Backfill Commands.
From S2P Require Config ExportRefs Health Car Pin Summary.

Section Facts.
Context {R : GoRuntime} {I : Ipld} {L : IpldLaws I} {P : Postgres} {BJ : BeaconJson} {JS : JsonState} {GC : Car.GoCar}.
Context {N : Type} {K : Kubo N} {KL : KuboLaws N} {KJ : KuboJson} {FT : Config.FloatText}.
Context (env : MainEnv).

(** ** Construction and dispatch *)

Lemma reads_verify_network cfg nenv g : always reads (verify_network (N := N) cfg nenv g).
Proof.
  apply always_bind; [apply _|apply always_attempt, reads_beacon|intros [e|name]; [apply always_ret, _|]].
  destruct (bool_decide _); [|apply always_lift, _].
  apply always_bind; [apply _|apply always_attempt, reads_beacon|intros; apply always_ret, _].
Qed.

Lemma reads_New cfg nenv : always reads (New (N := N) cfg nenv).
Proof.
  unfold New. cbn zeta.
  apply always_bind; [apply _|destruct (negb _); [intros w; by split|apply always_ret, _]|intros _].
  apply always_bind; [apply _|destruct (_ && _); [apply always_lift, _|apply always_ret, _]|intros _].
  apply always_bind; [apply _|repeat case_match; (apply always_lift, _ || apply always_ret, _)|intros _].
  apply always_bind; [apply _|destruct (negb _); [apply always_ret, _|]|intros _].
  { apply always_bind; [apply _|apply always_wrapf|intros m]; intros w; by split. }
  apply always_bind; [apply _|destruct (negb _); [apply reads_verify_network|apply always_ret, _]|intros t].
  apply always_ret, _.
Qed.

Lemma reads_with_generator cfg k : (∀ g, always reads (k g)) → always (reads (N := N)) (with_generator env cfg k).
Proof.
  intros Hk. apply always_bind; [apply _|apply always_attempt, reads_New|]. intros [e|g]; [apply always_ret, _|apply Hk].
Qed.

(** Making the directories touches the disk only. *)
Lemma reads_in_disk {A} (m : Go FS A) : always (reads (N := N)) (in_disk m).
Proof. apply always_zoom. intros w. by split. Qed.

(** ** One epoch *)

(** The rows of the other epochs are as they were, and every row's CID is on
    the node. *)
Definition only_epoch (e : Z) (w w' : World N) : Prop :=
  rows_held w' ∧ grows (w_node w) (w_node w') ∧
  ∀ e', e' ≠ e → ipld_epochs (db_tables w') !! e' = ipld_epochs (db_tables w) !! e'.

Lemma only_epoch_reads e w w1 w' : reads w w1 → only_epoch e w1 w' → only_epoch e w w'.
Proof. intros [Hn Ht] (H1 & H2 & H3). split_and!; [done|by etransitivity|]. intros e' He. by rewrite H3, Ht. Qed.

Lemma reads_only_epoch e w w' : reads w w' → rows_held w → only_epoch e w w'.
Proof. intros Hr Hw. split_and!; [by eapply rows_held_reads|apply Hr|]. intros e' _. by rewrite (rd_tables _ _ Hr). Qed.

Lemma ProcessSingleEpoch_spec g genv e (w : World N) :
  0 < cf_Workers (g_cfg g) → g_db g = true → g_ipfs g ≠ None → env_ok genv → 0 ≤ e < two63 → rows_held w →
  let '(o, w') := ProcessSingleEpoch g genv e w in
  only_epoch e w w' ∧ (o = Ok tt → recorded g w' e ∧ live_cursor g w' = Some e).
Proof.
  intros Hw Hdb Hi Henv He Hrows. unfold ProcessSingleEpoch. rewrite bind_eq.
  pose proof (processEpoch_rows_held g Hw genv e None w Henv Hi Hrows) as Hr.
  pose proof (processEpoch_frame (KL := KL) g Hw genv e None Henv He w) as [Fn Fe _].
  destruct (processEpoch g genv e None w) as [[u|er|p] w1] eqn:Hp; cbn [snd] in *; [|by split; [split_and!|]..].
  pose proof (processEpoch_recorded g Hw genv e None w u w1 Henv Hdb Hp) as Hrec. rewrite bind_eq.
  pose proof (SetLive_spec g Hdb e w1) as Hset. pose proof (if_held _ _ _ (SetLive_interferes g Hdb e w1) Hi Hr) as Hr2.
  destruct (@sb_SetLastProcessedEpoch _ (g_state g) e w1) as [o2 w2]. cbn [snd] in Hr2. destruct Hset as (Hn2 & He2 & Hc2).
  assert (only_epoch e w w2) as Honly.
  { split_and!; [exact Hr2|by rewrite Hn2|intros e' Hne; by rewrite He2, Fe]. }
  destruct o2 as [u2|er|p]; [|by split..]. destruct Hc2 as [Hcur _].
  pose proof (reads_nonfatal _ (reads_rebuild (N := N) g Hdb genv) w2) as [Hn3 Ht3].
  destruct (nonfatal _ w2) as [o3 w3]. cbn [snd] in *. destruct Honly as (O1 & O2 & O3). split.
  - split_and!; [eapply rows_held_reads; [|exact O1]; by split|by etransitivity|intros e' Hne; by rewrite Ht3, O3].
  - intros _. unfold live_cursor. rewrite Ht3. split; [|done].
    destruct Hrec as (row & c & Hrow & Hc & Hk). exists row, c. rewrite Ht3, He2. split_and!; [done|done|].
    destruct Hk as [|[d Hd]]; [by left|right]. exists d. apply Hn3. by rewrite Hn2.
Qed.

(** ** The command line *)

Lemma Parse_epoch c e : flags_of c = {[ "n" := FUint64 0 ]} → is_u64 e →
  Parse (flags_of c) ["-n"; FormatUint e] = Parsed {[ "n" := FUint64 e ]} [].
Proof.
  intros -> He. cbn [Parse arg_of flag_parts split_equals]. rewrite lookup_singleton_eq. cbn [is_bool_flag flag_Set].
  rewrite ParseUint0_FormatUint by done. cbn. by rewrite insert_singleton_eq.
Qed.

(** Making directories does not panic. *)
Lemma mkdirs_no_panic dirs : ∀ f p, fst (for_each dirs Car.os_MkdirAll f) ≠ Panic p.
Proof.
  induction dirs as [|d dirs IH]; intros f p; [done|]. cbn [for_each]. rewrite bind_eq. unfold Car.os_MkdirAll at 1.
  destruct (fs_next f) as [[] f']; [apply IH|done..].
Qed.

(** main, once the configuration is loaded. *)
Lemma main_loaded Getenv cfg name args c w : main_start (name :: args) = Chosen "info" name args →
  Config.Load Getenv = Ok cfg → subcommand_of name = Some c →
  ∃ w1, reads w w1 ∧
    (main env Getenv (name :: args) w = (Ok ([], Exit 1), w1) ∨
     main env Getenv (name :: args) w = run_subcommand env cfg c args w1).
Proof.
  intros Hs HL Hc. unfold main. rewrite Hs, HL, Hc, bind_eq. unfold attempt.
  set (dirs := [_; _]). pose proof (reads_in_disk (for_each dirs Car.os_MkdirAll) w) as Hr.
  pose proof (mkdirs_no_panic dirs (snd (w_state w))) as Hp. unfold in_disk, zoom in *. cbn [compose] in *.
  destruct (for_each dirs _ _) as [[u|er|p] f]; cbn [fst snd] in Hr, Hp; [eexists; split; [exact Hr|by right]|eexists; split; [exact Hr|by left]|].
  by destruct (Hp p).
Qed.

Lemma New_clients cfg nenv (w : World N) g w' : New cfg nenv w = (Ok g, w') →
  g_db g = negb (bool_decide (Config.st_PostgresDSN (Config.c_Storage cfg) = "")) ∧ g_ipfs g = new_ipfs cfg ∧
  g_cfg g = generator_config cfg.
Proof.
  intros HN. unfold New in HN. do 5 (apply bind_Ok in HN as (? & ? & _ & HN)). by injection HN as <- <-.
Qed.

(** A configuration that records and uploads, read from the environment. *)
Record records_and_uploads (Getenv : string → string) (cfg : Config.Config) : Prop := {
  ru_load : Config.Load Getenv = Ok cfg;
  ru_workers : 0 ≤ Config.env_int Getenv "GENERATOR_WORKERS" 0;
  ru_dsn : Config.st_PostgresDSN (Config.c_Storage cfg) ≠ "";
  ru_upload : Config.ic_SkipUpload (Config.c_IPFS cfg) = false }.

Lemma New_records Getenv cfg nenv (w : World N) g w' : records_and_uploads Getenv cfg → New cfg nenv w = (Ok g, w') →
  0 < cf_Workers (g_cfg g) ∧ g_db g = true ∧ g_ipfs g ≠ None ∧
  cf_Network (g_cfg g) = Config.nc_Name (Config.c_Network cfg).
Proof.
  intros [HL Hw Hd Hu] HN. destruct (New_ready Getenv cfg nenv w w' g HL Hw HN) as (H1 & _).
  destruct (New_clients _ _ _ _ _ HN) as (H2 & H3 & H4). split_and!; [done| | |by rewrite H4].
  - rewrite H2. by rewrite bool_decide_eq_false_2.
  - rewrite H3. unfold new_ipfs. by rewrite Hu.
Qed.

Lemma cmdEpoch_spec Getenv cfg e (w : World N) :
  records_and_uploads Getenv cfg → env_ok (me_env env) → 0 < e < two63 → rows_held w →
  let '(o, w') := cmdEpoch env cfg ["-n"; FormatUint e] w in
  only_epoch e w w' ∧
  (∀ out, o = Ok (out, Exit 0) →
    (∃ row c, ipld_epochs (db_tables w') !! e = Some row ∧ ep_cid row = cid_String c ∧
      is_Some (kubo_blocks (w_node w') c)) ∧
    ipld_state (db_tables w') !! live_key (Config.nc_Name (Config.c_Network cfg)) = Some e).
Proof.
  intros Hcfg Henv He Hrows. unfold cmdEpoch, with_epoch, with_flags.
  rewrite Parse_epoch by (done || unfold is_u64, two63, two64 in *; lia).
  change (uint64_flag {[ "n" := FUint64 e ]} "n") with e. rewrite (proj2 (Z.eqb_neq e 0)) by lia.
  unfold with_generator. rewrite bind_eq. unfold attempt at 1. pose proof (reads_New cfg (me_new env) w) as Hr.
  destruct (New cfg (me_new env) w) as [[g|er|p] w1] eqn:HN; cbn [snd] in Hr; [|split; [by apply reads_only_epoch|by intros out [=]]..].
  destruct (New_records _ _ _ _ _ _ Hcfg HN) as (Hw & Hdb & Hi & Hnet). rewrite bind_eq. unfold attempt.
  pose proof (ProcessSingleEpoch_spec g (me_env env) e w1 Hw Hdb Hi Henv ltac:(lia) (rows_held_reads _ _ Hr Hrows)) as Hs.
  destruct (ProcessSingleEpoch g (me_env env) e w1) as [[u|er|p] w2]; destruct Hs as [Ho Hs]; cbn;
    (split; [by eapply only_epoch_reads|]); intros out [= _].
  destruct u. destruct (Hs eq_refl) as [(row & c & H1 & H2 & [|H3]) H4]; [done|]. split; [by exists row, c|].
  unfold live_cursor in H4. by rewrite Hnet in H4.
Qed.

(** C7. The [epoch] command from the command line to the stores. With a
    configuration that records and uploads, [epoch -n e] leaves, however it
    ends, every row's CID on the node and the rows of all other epochs as they
    were; and if the process exits with 0, the row of [e] names a CID whose
    block the node holds and the live cursor is [e]. *)
Theorem main_epoch_end_to_end Getenv cfg e (w : World N) :
  records_and_uploads Getenv cfg → env_ok (me_env env) → 0 < e < two63 → rows_held w →
  let '(o, w') := main env Getenv ["epoch"; "-n"; FormatUint e] w in
  only_epoch e w w' ∧
  (∀ out, o = Ok (out, Exit 0) →
    (∃ row c, ipld_epochs (db_tables w') !! e = Some row ∧ ep_cid row = cid_String c ∧
      is_Some (kubo_blocks (w_node w') c)) ∧
    ipld_state (db_tables w') !! live_key (Config.nc_Name (Config.c_Network cfg)) = Some e).
Proof.
  intros Hcfg Henv He Hrows.
  destruct (main_loaded Getenv cfg "epoch" ["-n"; FormatUint e] Flags.SingleEpoch w eq_refl (ru_load _ _ Hcfg) eq_refl)
    as (w1 & Hr & [->| ->]); [split; [by apply reads_only_epoch|by intros out [=]]|].
  pose proof (cmdEpoch_spec Getenv cfg e w1 Hcfg Henv He (rows_held_reads _ _ Hr Hrows)) as Hs.
  cbn [run_subcommand]. destruct (cmdEpoch _ _ _ w1) as [o w']. destruct Hs as [Ho Hs].
  split; [by eapply only_epoch_reads|done].
Qed.

(** ** repair-epochs *)

Section Repairing.
Context (cfg : Config.Config).
Abbreviation network := (Config.nc_Name (Config.c_Network cfg)).

(** The row of the epoch does not count its blob rows. *)
Definition mismatched (t : tables) (e : Z) : Prop :=
  ∃ row, network_rows network t !! e = Some row ∧ ep_blob_count row ≠ Z.of_nat (length (joined_blobs e network t)).

Lemma GetBlobCountMismatches_Ok c ms c' : GetBlobCountMismatches network c = (Ok ms, c') →
  c_tables c' = c_tables c ∧ ∀ e, e ∈ cm_Epoch <$> ms ↔ mismatched (c_tables c) e.
Proof.
  intros [Hq Hc]%db_query_Ok. split; [done|]. apply mapM_out_Ok_inv in Hq.
  assert (cm_Epoch <$> ms = cm_Epoch <$> mismatches network ep_blob_count (λ bs, Z.of_nat (length bs)) (c_tables c)) as ->.
  { clear -Hq. induction Hq as [|x y l l' Hxy _ IH]; [done|]. rewrite !fmap_cons, IH. f_equal.
    unfold scan_mismatch, scan_uint64 in Hxy. destruct (0 <=? cm_Epoch x); [|done]. by injection Hxy as <-. }
  intros e. unfold mismatches. rewrite list_elem_of_fmap. split.
  - intros (m & -> & [Hne ([e' row] & -> & [Hr Hnet]%elem_of_epochs_ordered)%list_elem_of_fmap]%list_elem_of_filter).
    cbn in *. exists row. rewrite Hnet in Hne. split; [|done]. unfold network_rows. by apply map_lookup_filter_Some.
  - intros (row & Hr & Hne). pose proof Hr as [_ Hnet]%map_lookup_filter_Some. cbn in Hnet.
    eexists. split; [|apply list_elem_of_filter; split; [|apply list_elem_of_fmap; exists (e, row); split; [reflexivity|]]].
    + done.
    + cbn. by rewrite Hnet.
    + by rewrite epochs_ordered_perm, elem_of_map_to_list.
Qed.

Lemma counted_matches g t e : cf_Network (g_cfg g) = network → counted g t e → ¬ mismatched t e.
Proof.
  intros Hnet (row & rows & Hr & Hrec & Hc) (row' & Hr' & Hne). apply map_lookup_filter_Some in Hr' as [Hr' _].
  rewrite Hr in Hr'. injection Hr' as <-. destruct Hne. rewrite Hc. f_equal. rewrite Hnet in Hrec.
  unfold epoch_records in Hrec. apply mapM_out_Ok_inv, Forall2_length in Hrec. rewrite <- Hrec.
  by rewrite sort_Slice_perm.
Qed.

(** What a run that exits with 0 has done to the epochs it found. *)
Lemma repaired_all g (w w1 : World N) epochs envs genv strict ok reports w' :
  g_db g = true → cf_Network (g_cfg g) = network → reads w w1 →
  (∀ e, e ∈ epochs ↔ mismatched (db_tables w) e) → (∀ e, en_ctx (envs e) = None) →
  Repair.RepairEpochs g genv envs epochs strict w1 = (Ok (ok, 0, reports), w') →
  ipld_blobs (db_tables w') = ipld_blobs (db_tables w) ∧ ipld_state (db_tables w') = ipld_state (db_tables w) ∧
  (∀ e, ¬ mismatched (db_tables w) e → ipld_epochs (db_tables w') !! e = ipld_epochs (db_tables w) !! e) ∧
  ∀ e, ¬ mismatched (db_tables w') e.
Proof.
  intros Hdb Hnet [_ Ht] Hep Hctx Hrun.
  destruct (RepairEpochs_spec g genv envs epochs strict w1 ok 0 reports w' Hdb Hrun) as ([_ Hb Hs Hk Hf] & _ & _ & H0 & _ & Hall).
  assert (reports.*1 = epochs) as Hre by (apply Hall, Forall_forall; done).
  assert (∀ e, (e, None) ∈ reports ↔ mismatched (db_tables w) e) as Hrep.
  { intros e. rewrite <- Hep, <- Hre, list_elem_of_fmap. split; [intros; by exists (e, None)|].
    intros ([e' r] & -> & Hin). by rewrite (H0 eq_refl _ _ Hin) in Hin. }
  rewrite Ht in Hb, Hs. split_and!; [done|done| |].
  - intros e Hne. rewrite Hk by by rewrite Hrep. by rewrite Ht.
  - intros e Hm. destruct (decide ((e, None) ∈ reports)) as [Hin|Hni].
    + destruct (Hf e Hin) as [_ Hc]. by eapply counted_matches.
    + assert (ipld_epochs (db_tables w') !! e = ipld_epochs (db_tables w) !! e) as He by (rewrite Hk by done; by rewrite Ht).
      apply Hni, Hrep. destruct Hm as (row & Hrow & Hne). exists row.
      apply map_lookup_filter_Some in Hrow as [Hrow Hn]. rewrite He in Hrow. split; [by apply map_lookup_filter_Some|].
      unfold joined_blobs in *. by rewrite <- Hb.
Qed.

End Repairing.

(** ** The push API *)

(** What a push that was answered with 201 has done. *)
Definition push_done (g : Generator) (req : BlobPushRequest) (b : body) (w w' : World N) : Prop :=
  if pq_Finalize req then
    ∃ resp w1 c, pushed g req w (Ok resp) w1 ∧ finalized g (pq_Epoch req) w1 (Ok c) w' ∧
      b = BodyBlob (mkBlobPushResponse (ps_DataCID resp) (ps_MetaCID resp) (ps_Commitment resp) (ps_Epoch resp) true (cid_String c))
  else ∃ resp, pushed g req w (Ok resp) w' ∧ b = BodyBlob resp.

(** And one that was answered with 500: nothing in the tables, or the blob is
    there and the epoch is not finalized. *)
Definition push_failed (g : Generator) (req : BlobPushRequest) (w w' : World N) : Prop :=
  db_tables w' = db_tables w ∨
  (pq_Finalize req = true ∧ ∃ resp w1 e, pushed g req w (Ok resp) w1 ∧ finalized g (pq_Epoch req) w1 (Err e) w').

Lemma FinalizeEpochWithCID_spec g genv e (w : World N) : g_db g = true →
  let '(o, w') := FinalizeEpochWithCID g genv e w in
  match o with
  | Ok s => ∃ c, s = cid_String c ∧ finalized g e w (Ok c) w'
  | Err er => finalized g e w (Err er) w'
  | Panic _ => True
  end.
Proof.
  intros Hdb. unfold FinalizeEpochWithCID. rewrite bind_eq. pose proof (finalizeEpochInner_correct g genv e w Hdb) as Hf.
  destruct (finalizeEpochInner g genv e w) as [[c|er|p] w']; cbn in Hf |- *; [by exists c|done|done].
Qed.

(** C8. From the command line to POST /blob: with a database configured, every
    request to the server that [serve] starts is answered with 400, leaving
    everything as it was; with 201, when the blob's blocks are on the node (if
    there is one) and its row is in the database with the CIDs of the response,
    and, if it was asked to finalize, the epoch's row counts and names what was
    built and the live cursor is there; or with 500, when the tables are as
    they were or only the finalization is missing. (A handler that panics, for
    which net/http drops the connection, gives no answer.) *)
Theorem serve_push_durable cfg args (w0 : World N) out g listen pull w1 renv decoded (w : World N) :
  Config.st_PostgresDSN (Config.c_Storage cfg) ≠ "" →
  cmdServe env cfg args w0 = (Ok (out, Serving g listen pull), w1) →
  g_db g = true ∧ g_ipfs g = new_ipfs cfg ∧
  let '(o, w') := route (api_server g renv) "POST" "/blob" decoded w in
  match o with
  | Ok r =>
      (rsp_status r = 400 ∧ w' = w) ∨
      (rsp_status r = 201 ∧ ∃ req, decoded = inr req ∧ push_done g req (rsp_body r) w w') ∨
      (rsp_status r = 500 ∧ ∃ req, decoded = inr req ∧ push_failed g req w w')
  | Err _ => False
  | Panic _ => True
  end.
Proof.
  intros Hdsn Hserve. unfold cmdServe, with_flags in Hserve. destruct (Parse _ args) as [code|fs rest]; [done|].
  unfold with_generator in Hserve. apply bind_Ok in Hserve as (r & w2 & HN%attempt_Ok & Hserve). destruct r as [er|g0]; [done|].
  apply bind_Ok in Hserve as (u & w3 & _ & [= _ <- _ _ _]). destruct (New_clients _ _ _ _ _ HN) as (Hdb & Hi & _).
  rewrite bool_decide_eq_false_2 in Hdb by done. cbn [negb] in Hdb. split_and!; [done|done|].
  assert (route (api_server g0 renv) "POST" "/blob" decoded w = handlePushBlob (api_server g0 renv) decoded w) as -> by done.
  pose proof (handlePushBlob_correct (api_server g0 renv) decoded w) as Hh.
  destruct decoded as [er|req]; [destruct Hh as [m ->]; by left|].
  destruct (validateBlobRequest req) as [u1|er|p]; [|destruct Hh as [m ->]; by left..].
  cbn [srv_processor srv_finalizer api_server api_New] in Hh.
  pose proof (ProcessBlobInput_correct g0 renv req w) as Hp.
  destruct (ProcessBlobInput g0 renv req w) as [[resp|er|p] w4]; cbn [fst snd] in Hp; [| |by rewrite Hh].
  2:{ destruct Hh as [m ->]. right. right. split; [done|]. exists req. split; [done|]. left. apply Hp. }
  destruct (pq_Finalize req) eqn:Hfin.
  2:{ rewrite Hh. right. left. split; [done|]. exists req. split; [done|]. unfold push_done. rewrite Hfin. by exists resp. }
  pose proof (FinalizeEpochWithCID_spec g0 renv (pq_Epoch req) w4 Hdb) as Hf.
  destruct (FinalizeEpochWithCID g0 renv (pq_Epoch req) w4) as [[s|er|p] w5]; [| |by rewrite Hh].
  - rewrite Hh. destruct Hf as (c & -> & Hf). right. left. split; [done|]. exists req. split; [done|].
    unfold push_done. rewrite Hfin. by exists resp, w4, c.
  - destruct Hh as [m ->]. right. right. split; [done|]. exists req. split; [done|]. right. split; [done|].
    by exists resp, w4, er.
Qed.
End Facts.

(** ** The properties at concrete inputs *)

#[local] Instance cmd_text : Config.FloatText := {| Config.ParseFloat _ := None |}.

Definition demo_main : MainEnv :=
  mkMainEnv demo_new None demo_run (λ _, demo_run) (λ _, mkBackfillEnv demo_run []) demo_tick [] (λ _ _, None) [] (seq 0) id
    (inr (ExportRefs.mkSink "" [])) (ExportRefs.mkSink "" []).

Lemma demo_records : records_and_uploads (demo_vars "4") (demo_cfg "4").
Proof. split; [vm_compute; reflexivity|vm_compute; discriminate|vm_compute; discriminate|vm_compute; reflexivity]. Qed.

(** A beacon node on mainnet whose slot 41 has one blob. *)
Definition demo_chain : BeaconJson := {|
  json_finality := json_finality (BeaconJson := demo_reply);
  json_header := json_header (BeaconJson := demo_reply);
  json_sidecars := json_sidecars (BeaconJson := demo_reply);
  json_payload := json_payload (BeaconJson := demo_reply);
  json_genesis := json_genesis (BeaconJson := demo_reply);
  json_config_name _ := Ok "mainnet" |}.

Definition demo_epoch_run : outcome (list string * command_end) * World (gmap cid string) :=
  main (BJ := demo_chain) (GC := Car.car_model) demo_main (demo_vars "4") ["epoch"; "-n"; "1"] (demo_world tables_empty).

Lemma demo_epoch_exit : fst demo_epoch_run = Ok ([], Exit 0).
Proof. vm_compute. reflexivity. Qed.

Lemma main_epoch_end_to_end_witness :
  fst demo_epoch_run = Ok ([], Exit 0) ∧ only_epoch 1 (demo_world tables_empty) (snd demo_epoch_run) ∧
  ipld_state (db_tables (snd demo_epoch_run)) !! live_key "mainnet" = Some 1.
Proof.
  pose proof (main_epoch_end_to_end (BJ := demo_chain) (GC := Car.car_model) demo_main (demo_vars "4") (demo_cfg "4") 1
    (demo_world tables_empty) demo_records demo_run_ok ltac:(unfold two63; lia) ltac:(split; intros k row; cbn; by rewrite lookup_empty)) as H.
  change (main _ _ ["epoch"; "-n"; FormatUint 1] _) with demo_epoch_run in H. pose proof demo_epoch_exit as Hexit.
  destruct demo_epoch_run as [o w']. destruct H as [Ho H]. cbn [fst snd] in *.
  split; [exact Hexit|]. split; [exact Ho|]. exact (proj2 (H _ Hexit)).
Defined.

(** The server of [serve], and a push whose data is too short for a blob. *)
Definition demo_serve : outcome (list string * command_end) * World (gmap cid string) :=
  cmdServe (BJ := demo_chain) demo_main (demo_cfg "4") [] (demo_world tables_empty).
Definition demo_served : Generator :=
  match fst demo_serve with Ok (_, Serving g _ _) => g | _ => demo_gen end.

Lemma demo_serving : cmdServe (BJ := demo_chain) demo_main (demo_cfg "4") [] (demo_world tables_empty) =
  (Ok ([], Serving demo_served ":8080" false), snd demo_serve).
Proof. vm_compute. reflexivity. Qed.

Lemma serve_push_durable_witness :
  g_db demo_served = true ∧
  let '(o, w') := route (api_server demo_served demo_run) "POST" "/blob" (inr demo_push) (snd demo_serve) in
  match o with Ok r => rsp_status r = 400 ∧ w' = snd demo_serve | _ => False end.
Proof.
  destruct (serve_push_durable (BJ := demo_chain) demo_main (demo_cfg "4") [] (demo_world tables_empty) [] demo_served
    ":8080" false (snd demo_serve) demo_run (inr demo_push) (snd demo_serve) ltac:(vm_compute; discriminate) demo_serving)
    as (Hdb & _ & H).
  split; [exact Hdb|].
  assert (match fst (route (api_server demo_served demo_run) "POST" "/blob" (inr demo_push) (snd demo_serve)) with
          | Ok r => rsp_status r | _ => 0 end = 400) as Hs by (vm_compute; reflexivity).
  destruct (route _ _ _ _ _) as [[r|e|p] w']; cbn [fst] in Hs; [|discriminate..].
  destruct H as [H|[[H _]|[H _]]]; [exact H|rewrite Hs in H; discriminate..].
Defined.

(** Epoch 10's row counts five blobs and has one. *)
Definition demo_repair_run : outcome (list string * command_end) * World (gmap cid string) :=
  cmdRepairEpochs (BJ := demo_chain) demo_main (demo_cfg "4") [] demo_damaged.

Lemma demo_repair_exit : fst demo_repair_run = Ok ([], Exit 0).
Proof. vm_compute. reflexivity. Qed.

