(* ===== verification/System.v ===== *)
(** * System: Run with both of its goroutines, beside the push API

    Run starts the live loop and the backfill, which share the database, the
    node and the metrics with each other and, under [serve -pull], with the
    requests of the push API. Here all of them are threads of one transition
    system: the live loop takes a step per call that touches the world, the
    backfill takes the steps of its pipeline, and a request is one step or an
    upload and a save. *)

From S2P Require Import Prelude GoStd GoTime Flags Types Ipld Store IpldModel Blob Epoch Network Db StateFile.
From S2P Require Import Beacon ElClient Ipfs Metrics Generator New Reload Persist Live Api Repair Push Pipeline Backfill Attempt Held.
From S2P Require Import Commands.

(** ** The live loop, call by call *)

(** Where runLive is: waiting; a tick that knows the finalized epoch; at the
    head of its loop; between processEpoch and the cursor; behind the loop;
    returned. A panic ends the process. *)
Inductive live_pc :=
  | LIdle
  | LCursor (t : TickEnv) (finalized : Z)
  | LEpoch (t : TickEnv) (start total epoch : Z)
  | LSave (t : TickEnv) (start total epoch : Z)
  | LRoot (t : TickEnv)
  | LReturned (e : error)
  | LCrashed.

Inductive live_label := LiveWake (x : wake) | LiveCall.

(** Where runBackfill is: at the head of its loop, in an attempt, behind the
    loop, returned. *)
Inductive back (N : Type) :=
  | BOff
  | BLoop (next : Z)
  | BAttempt (next : Z) (p : pipe N)
  | BRoot
  | BReturned (err : option error).
Arguments BOff {N}.
Arguments BLoop {N}.
Arguments BAttempt {N}.
Arguments BRoot {N}.
Arguments BReturned {N}.

Record sys (N : Type) := mkSys { sy_world : World N; sy_live : live_pc; sy_back : back N }.
Arguments mkSys {N}.
Arguments sy_world {N}.
Arguments sy_live {N}.
Arguments sy_back {N}.

Section SystemOps.
Context {R : GoRuntime} {I : Ipld} {P : Postgres} {BJ : BeaconJson} {JS : JsonState}.
Context {N : Type} {K : Kubo N} {KJ : KuboJson} (g : Generator).

Local Instance sys_backend : StateBackend (World N) := g_state g.

(** A tick that fails: logged, unless it is about custody. *)
Definition tick_failed (e : error) : live_pc :=
  if errors_Is e ErrInsufficientCustody then LReturned e else LIdle.

(** After a call of the tick: on, or out of it. *)
Definition after_call {A} (r : outcome A * World N) (next : A → live_pc) : live_pc * World N :=
  match r with
  | (Ok a, w) => (next a, w)
  | (Err e, w) => (tick_failed e, w)
  | (Panic _, w) => (LCrashed, w)
  end.

Definition live_step (l : live_label) (pc : live_pc) (w : World N) : option (live_pc * World N) :=
  match l, pc with
  | LiveWake (CtxDone e), LIdle => Some (LReturned e, w)
  | LiveWake (Tick t), LIdle =>
      Some (after_call (wrapf "generator: get finality checkpoints" (finality g (tk_env t)) w)
        (λ cp, LCursor t (fc_FinalizedEpoch cp)))
  | LiveCall, LCursor t finalized =>
      Some (after_call (wrapf "generator: get live cursor" sb_GetLastProcessedEpoch w) (λ liveCursor,
        let start := tick_start g liveCursor in
        if finalized <? start then LIdle else LEpoch t start (finalized - start + 1) start))
  | LiveCall, LEpoch t start total epoch =>
      Some (after_call (wrapf ("generator: process epoch " +:+ FormatUint epoch)
          (processEpoch g (tk_epochs t epoch) epoch (Some (mkEpochProgress (epoch - start) total "live"))) w)
        (λ _, LSave t start total epoch))
  | LiveCall, LSave t start total epoch =>
      Some (after_call (wrapf ("generator: set live cursor " +:+ FormatUint epoch) (sb_SetLastProcessedEpoch epoch) w)
        (λ _, if epoch + 1 <? start + total then LEpoch t start total (epoch + 1) else LRoot t))
  | LiveCall, LRoot t => Some (after_call (nonfatal (rebuildNetworkRoot g (tk_env t)) w) (λ _, LIdle))
  | _, _ => None
  end.

(** ** The system *)

(** The backfill is on [start .. target]; others may act on the world. *)
Context (start target : Z) (others : relation (World N)).

Definition live_label_ok (l : live_label) : Prop :=
  match l with LiveWake (Tick t) => tick_ok t | _ => True end.

Inductive sys_move : relation (sys N) :=
  | sys_live l pc w pc' w' b : live_label_ok l → live_step l pc w = Some (pc', w') →
      sys_move (mkSys w pc b) (mkSys w' pc' b)
  | sys_attempt w pc next : next ≤ target →
      sys_move (mkSys w pc (BLoop next)) (mkSys w pc (BAttempt next (pipe_init g next w)))
  | sys_pipe l w pc next p p' : label_ok l → step g target start (target - start + 1) l (set_world w p) = Some p' →
      sys_move (mkSys w pc (BAttempt next p)) (mkSys (p_world p') pc (BAttempt next p'))
  | sys_done w pc next p resumed : k_state (p_cons p) = KReturned resumed None →
      sys_move (mkSys w pc (BAttempt next p)) (mkSys w pc BRoot)
  | sys_failed w pc next p resumed e : k_state (p_cons p) = KReturned resumed (Some e) →
      sys_move (mkSys w pc (BAttempt next p)) (mkSys w pc (BLoop resumed))
  | sys_past w pc next : target < next → sys_move (mkSys w pc (BLoop next)) (mkSys w pc BRoot)
  | sys_cancelled w pc next e : sys_move (mkSys w pc (BLoop next)) (mkSys w pc (BReturned (Some e)))
  | sys_root w pc env u w' : nonfatal (rebuildNetworkRoot g env) w = (Ok u, w') →
      sys_move (mkSys w pc BRoot) (mkSys w' pc (BReturned None))
  | sys_others w pc b w' : others w w' → sys_move (mkSys w pc b) (mkSys w' pc b).

(** A panic, of the live loop or of a goroutine of the backfill, has ended the
    process. *)
Definition crashed (s : sys N) : bool :=
  match sy_live s with
  | LCrashed => true
  | _ => match sy_back s with
         | BAttempt _ p => match k_state (p_cons p) with KCrashed _ => true | _ => false end
         | _ => false
         end
  end.

Definition sys_step (s s' : sys N) : Prop := crashed s = false ∧ sys_move s s'.

(** What Run hands to its goroutines. *)
Definition sys_init (w : World N) (backfill : option (Z * Z)) : sys N :=
  mkSys w LIdle (match backfill with Some (lo, _) => BLoop lo | None => BOff end).
End SystemOps.

(** The requests of the push API that do not ask to finalize, in one step or
    call by call: an upload is one of the steps that leave the tables alone, the
    save that follows it finds the blocks on the node. The steps that leave the
    tables alone are also those of the workers of an attempt that failed, which
    may still be at work, and of the reporting commands. *)
Inductive beside {R : GoRuntime} {I : Ipld} {P : Postgres} {BJ : BeaconJson} {JS : JsonState} {N : Type} {K : Kubo N}
    {KL : KuboLaws N} {KJ : KuboJson} (g : Generator) : relation (World N) :=
  | beside_request renv method path decoded w :
      (∀ req, decoded = inr req → pq_Finalize req = false) →
      beside g w (snd (ServeHTTP (api_server g renv) method path decoded w))
  | beside_save epoch blobs results w : g_ipfs g = None ∨ results_held w results →
      beside g w (snd (in_db g (SaveBlobs (cf_Network (g_cfg g)) epoch blobs results (g_genesisTime g) (g_secondsPerSlot g)) w))
  | beside_reads w w' : reads w w' → beside g w w'.

(** ** The calls of a tick are processLiveTick *)

Section TickFacts.
Context {R : GoRuntime} {I : Ipld} {P : Postgres} {BJ : BeaconJson} {JS : JsonState}.
Context {N : Type} {K : Kubo N} {KJ : KuboJson} (g : Generator).

(** The loop on its own, [n] calls. *)
Fixpoint live_calls (n : nat) (pc : live_pc) (w : World N) : live_pc * World N :=
  match n with
  | O => (pc, w)
  | S n => match live_step g LiveCall pc w with
           | Some (pc, w) => live_calls n pc w
           | None => (pc, w)
           end
  end.

(** How a tick ended. *)
Definition tick_end (r : outcome unit * World N) : live_pc * World N := after_call r (λ _, LIdle).

Lemma live_calls_stop n pc w : live_step g LiveCall pc w = None → live_calls n pc w = (pc, w).
Proof. intros Hs. destruct n; [done|]. cbn [live_calls]. by rewrite Hs. Qed.

Lemma live_calls_failed n e w : live_calls n (tick_failed e) w = (tick_failed e, w).
Proof. apply live_calls_stop. unfold tick_failed. by destruct (errors_Is _ _). Qed.

(** One epoch: two calls. *)
Lemma live_calls_epoch n t start total s (w : World N) :
  live_calls (S (S n)) (LEpoch t start total s) w =
  match live_epoch g t start total s w with
  | (Ok _, w') => live_calls n (if s + 1 <? start + total then LEpoch t start total (s + 1) else LRoot t) w'
  | (Err e, w') => (tick_failed e, w')
  | (Panic _, w') => (LCrashed, w')
  end.
Proof.
  unfold live_epoch. rewrite bind_eq. change (backend g) with (g_state (N := N) g).
  cbn [live_calls live_step]. destruct (wrapf _ (processEpoch _ _ _ _) w) as [[u|e|m] w1]; cbn [after_call];
    [|apply (live_calls_failed (S n))|done].
  cbn [live_calls live_step]. change (sys_backend g) with (g_state (N := N) g).
  destruct (wrapf _ (sb_SetLastProcessedEpoch s) w1) as [[u2|e|m] w2]; cbn [after_call];
    [done|apply live_calls_failed|by apply live_calls_stop].
Qed.

Lemma live_calls_loop t start total : ∀ k s (w : World N), s + Z.of_nat (S k) = start + total →
  live_calls (2 * S k + 1) (LEpoch t start total s) w =
  tick_end ((_ ← for_each (seqZ s (Z.of_nat (S k))) (live_epoch g t start total); nonfatal (rebuildNetworkRoot g (tk_env t))) w).
Proof.
  induction k as [|k IH]; intros s w Hs; rewrite seqZ_cons by lia; cbn [for_each]; rewrite !bind_eq.
  - change (2 * 1 + 1)%nat with 3%nat. rewrite live_calls_epoch, (proj2 (Z.ltb_ge _ _)) by lia.
    destruct (live_epoch g t start total s w) as [[u|e|m] w1]; [|done|done]. cbn [live_calls live_step].
    change (seqZ (Z.succ s) (Z.pred (Z.of_nat 1))) with (@nil Z). cbn [for_each].
    cbn [mret go_ret]. unfold tick_end. destruct (nonfatal _ w1) as [[v|e|m] w2]; cbn [after_call]; done.
  - replace (2 * S (S k) + 1)%nat with (S (S (2 * S k + 1))) by lia. rewrite live_calls_epoch, (proj2 (Z.ltb_lt _ _)) by lia.
    destruct (live_epoch g t start total s w) as [[u|e|m] w1]; [|done|done].
    rewrite IH, bind_eq by lia. replace (Z.pred (Z.of_nat (S (S k)))) with (Z.of_nat (S k)) by lia. by rewrite Z.add_1_r.
Qed.

(** A tick of the loop that nobody interrupts does what processLiveTick does. *)
Theorem live_tick t (w : World N) :
  ∃ n pc w1, live_step g (LiveWake (Tick t)) LIdle w = Some (pc, w1) ∧
    live_calls n pc w1 = tick_end (processLiveTick g t w).
Proof.
  unfold processLiveTick. rewrite bind_eq. cbn [live_step]. change (backend g) with (g_state (N := N) g).
  destruct (wrapf _ (finality g (tk_env t)) w) as [[cp|e|m] w1]; cbn [after_call];
    [|by exists 0%nat; eexists _, _..].
  destruct (wrapf "generator: get live cursor" (@sb_GetLastProcessedEpoch _ (g_state g)) w1) as [o w2] eqn:Hg.
  set (start := λ lc, tick_start g lc). set (fin := fc_FinalizedEpoch cp).
  assert (∀ n, live_calls (S n) (LCursor t fin) w1 =
    match o with
    | Ok lc => live_calls n (if fin <? start lc then LIdle else LEpoch t (start lc) (fin - start lc + 1) (start lc)) w2
    | Err e => (tick_failed e, w2)
    | Panic _ => (LCrashed, w2)
    end) as Hcall.
  { intros n. cbn [live_calls live_step]. change (sys_backend g) with (g_state (N := N) g). rewrite Hg.
    destruct o; cbn [after_call]; [done|apply live_calls_failed|by apply live_calls_stop]. }
  destruct o as [lc|e|m]; [|by exists 1%nat; eexists _, _; split; [done|rewrite Hcall, bind_eq, Hg]..].
  destruct (Z.ltb_spec fin (start lc)) as [Hlt|Hge].
  - exists 1%nat. eexists _, _. split; [done|]. rewrite Hcall, bind_eq, Hg. fold fin (start lc).
    by rewrite (proj2 (Z.ltb_lt fin (start lc))).
  - set (k := Z.to_nat (fin - start lc)). exists (S (2 * S k + 1)). eexists _, _. split; [done|].
    rewrite Hcall, bind_eq, Hg. fold fin (start lc). rewrite (proj2 (Z.ltb_ge fin (start lc))) by done.
    rewrite live_calls_loop by lia. replace (Z.of_nat (S k)) with (fin - start lc + 1) by lia. done.
Qed.
End TickFacts.

(** A request, through the middleware, is one of the others of the backfill. *)
Lemma ServeHTTP_interferes {R : GoRuntime} {I : Ipld} {L : IpldLaws I} {P : Postgres} {BJ : BeaconJson} {JS : JsonState}
    {N : Type} {K : Kubo N} {KL : KuboLaws N} {KJ : KuboJson} (g : Generator) renv method path decoded : g_db g = true →
  always (interferes (N := N) g) (ServeHTTP (api_server g renv) method path decoded).
Proof.
  intros Hdb. apply always_bind; [apply _|by apply route_interferes|intros rec].
  apply always_bind; [apply _| |intros; apply always_ret, _]. cbn. apply always_interferes, reads_metrics.
Qed.

(** ** What holds at every point *)

Section SystemFacts.
Context {R : GoRuntime} {I : Ipld} {L : IpldLaws I} {P : Postgres} {BJ : BeaconJson} {JS : JsonState}.
Context {N : Type} {K : Kubo N} {KL : KuboLaws N} {KJ : KuboJson} (g : Generator).
Context (Hdb : g_db g = true) (Hworkers : 0 < cf_Workers (g_cfg g)).
(** The live loop starts behind [v0], the backfill ends before it. *)
Context (v0 start target : Z) (Hv0 : 0 < v0 < two63) (Hstart : 0 ≤ start) (Htarget : start ≤ target + 1) (Hbefore : target < v0).

(** What leaves the live loop's results alone. *)
Record keeps_live (w w' : World N) : Prop := {
  kl_rows : rows_kept w w';
  kl_cursor : live_cursor g w' = live_cursor g w;
  kl_recorded e : v0 < e → recorded g w e → recorded g w' e }.

#[export] Instance keeps_live_preorder : PreOrder keeps_live.
Proof.
  split; [by intros w; split|]. intros w1 w2 w3 [A1 B1 C1] [A2 B2 C2]. split; [by etransitivity|congruence|auto].
Qed.

Lemma keeps_live_reads w w' : reads w w' → keeps_live w w'.
Proof. intros Hr. split; [by apply rows_kept_reads|by apply live_cursor_reads|intros e _; by apply recorded_reads]. Qed.

Lemma recorded_same e (w w' : World N) : grows (w_node w) (w_node w') →
  ipld_epochs (db_tables w') !! e = ipld_epochs (db_tables w) !! e → recorded g w e → recorded g w' e.
Proof.
  intros Hn Hf (row & c & Hr & Hc & Hk). exists row, c. rewrite Hf.
  split_and!; [done|done|]. destruct Hk as [|[d Hd]]; [by left|]. right. eauto.
Qed.

Lemma keeps_live_frame e w w' : e ≤ target → rows_kept w w' → epoch_frame e w w' → keeps_live w w'.
Proof.
  intros He Hk [Hn Hf Hs]. split; [done|unfold live_cursor; by rewrite Hs|].
  intros e' He'. apply recorded_same; [done|]. apply Hf. lia.
Qed.

Lemma SetBackfill_keeps_live e : always keeps_live (@sb_SetBackfillCursor _ (g_state (N := N) g) e).
Proof.
  intros w. pose proof (SetBackfill_spec g Hdb e w) as Hs.
  cbn in *. rewrite Hdb in *. unfold in_db in *. rewrite Hdb in *. unfold zoom in *.
  pose proof (SetBackfillCursor_atomically (cf_Network (g_cfg g)) e (w_db w)) as Ha.
  destruct (SetBackfillCursor _ e (w_db w)) as [[u|er|p] d]; cbn in *; [| |done]; destruct Hs as (Hn & He & _);
    (assert (∀ e, ipld_epochs (c_tables d) !! e = ipld_epochs (db_tables w) !! e) as Hee by (intros; by rewrite He)).
  - split; [intros e'; unfold has_row; cbn; by rewrite Hee|unfold live_cursor; cbn; rewrite Ha; cbn; by rewrite lookup_insert_ne|].
    intros e' _. apply recorded_same; [done|cbn; by rewrite He].
  - split; [intros e'; unfold has_row; cbn; by rewrite Hee|unfold live_cursor; cbn; by rewrite Ha|]. intros e' _. apply recorded_same; [done|cbn; by rewrite He].
Qed.

(** The live loop: everything from [v0] up to the cursor is recorded, and the
    epoch the loop is at is the next one. *)
Definition live_ok (pc : live_pc) (w : World N) : Prop :=
  ∃ v, live_cursor g w = Some v ∧ v0 ≤ v < two63 ∧ (∀ e, v0 < e ≤ v → recorded g w e) ∧
    match pc with
    | LCursor t _ | LRoot t => tick_ok t
    | LEpoch t _ _ e => tick_ok t ∧ e = v + 1
    | LSave t _ _ e => tick_ok t ∧ e = v + 1 ∧ recorded g w e
    | _ => True
    end.

Lemma live_ok_keeps pc w w' : keeps_live w w' → live_ok pc w → live_ok pc w'.
Proof.
  intros [_ Hc Hr] (v & Hv & Hb & Hall & Hpc). exists v. rewrite Hc. split_and!; [done|lia|lia|intros; apply Hr; [lia|auto]|].
  destruct pc; try done. destruct Hpc as (? & -> & ?). split_and!; [done|done|]. apply Hr; [lia|done].
Qed.

Lemma live_ok_out pc pc' w : match pc' with LIdle | LReturned _ | LCrashed => True | _ => False end →
  live_ok pc w → live_ok pc' w.
Proof. intros Hpc (v & Hv & Hb & Hall & _). exists v. split_and!; [done|lia|lia|done|]. by destruct pc'. Qed.

(** A call that only reads, or fails. *)
Lemma live_call_ok {A} (m : Go (World N) A) next pc w pc' w' :
  after_call (m w) next = (pc', w') → keeps_live w (snd (m w)) → live_ok pc w →
  (∀ a w1, m w = (Ok a, w1) → live_ok pc w1 → live_ok (next a) w1) → live_ok pc' w'.
Proof.
  intros Hm Hk Hok Hnext. pose proof (live_ok_keeps pc _ _ Hk Hok) as Hok'.
  destruct (m w) as [[a|e|p] w1]; injection Hm as <- <-; cbn [snd] in Hok'; [by eapply Hnext|eapply live_ok_out; [|done]..].
  - unfold tick_failed. by destruct (errors_Is _ _).
  - done.
Qed.

Lemma after_failed {A} (r : outcome A * World N) next pc' w' : (∀ a, fst r ≠ Ok a) → after_call r next = (pc', w') →
  w' = snd r ∧ match pc' with LIdle | LReturned _ | LCrashed => True | _ => False end.
Proof.
  intros Hr Ha. destruct r as [[a|e|p] w1]; [by destruct (Hr a)|..]; injection Ha as <- <-; (split; [done|]); [|done].
  unfold tick_failed. by destruct (errors_Is _ _).
Qed.

(** A tick reads the cursor: it is where the invariant says. *)
Lemma live_cursor_ok t fin w pc' w' : live_step g LiveCall (LCursor t fin) w = Some (pc', w') →
  live_ok (LCursor t fin) w → live_ok pc' w'.
Proof.
  intros Hs (v & Hv & Hb & Hall & Ht). cbn [live_step] in Hs; apply (inj Some) in Hs. change (sys_backend g) with (g_state (N := N) g) in Hs.
  pose proof (GetLive_spec g Hdb w v Hv) as Hget.
  destruct (@sb_GetLastProcessedEpoch _ (g_state g) w) as [o w1] eqn:Hg. destruct Hget as [Hr Hlc].
  eapply (live_call_ok _ _ (LCursor t fin)); [exact Hs| |by exists v|].
  - apply keeps_live_reads. unfold wrapf. by rewrite Hg.
  - intros lc w2 Hw2%wrapf_Ok _. rewrite Hg in Hw2. injection Hw2 as -> ->. rewrite (Hlc lc eq_refl), tick_start_next by lia.
    exists v. rewrite (live_cursor_reads g _ _ Hr). split_and!; [done|lia|lia| |by destruct (_ <? _)].
    intros e He. eapply recorded_reads; [done|auto].
Qed.

(** It processes the next epoch. *)
Lemma live_epoch_ok t st tot e w pc' w' : live_step g LiveCall (LEpoch t st tot e) w = Some (pc', w') →
  live_ok (LEpoch t st tot e) w → live_ok pc' w'.
Proof.
  intros Hs (v & Hv & Hb & Hall & [Ht1 Ht2] & ->). cbn [live_step] in Hs; apply (inj Some) in Hs. set (pr := Some (mkEpochProgress _ _ _)) in Hs.
  pose proof (processEpoch_frame_any (KL := KL) g Hdb Hworkers (tk_epochs t (v + 1)) (v + 1) pr (Ht2 (v + 1)) ltac:(lia) w) as Hf.
  unfold wrapf in Hs. destruct (processEpoch g (tk_epochs t (v + 1)) (v + 1) pr w) as [o w1] eqn:Hp. cbn [snd] in Hf.
  destruct Hf as [Fn Fe Fs].
  assert (live_cursor g w1 = Some v) as Hc by (unfold live_cursor; by rewrite Fs).
  assert (∀ e, v0 < e ≤ v → recorded g w1 e) as Ha.
  { intros e He. apply recorded_same with w; [done|apply Fe; lia|auto]. }
  destruct o as [u|er|p].
  - injection Hs as <- <-. exists v. split_and!; try done; try lia.
    eapply processEpoch_recorded; [done|apply Ht2|done|exact Hp].
  - apply after_failed in Hs as [-> Hpc]; [|done]. eapply (live_ok_out LIdle); [done|by exists v].
  - apply after_failed in Hs as [-> Hpc]; [|done]. eapply (live_ok_out LIdle); [done|by exists v].
Qed.

(** And moves the cursor to it. *)
Lemma live_save_ok t st tot e w pc' w' : live_step g LiveCall (LSave t st tot e) w = Some (pc', w') →
  live_ok (LSave t st tot e) w → live_ok pc' w'.
Proof.
  intros Hs (v & Hv & Hb & Hall & Ht & -> & Hrec). cbn [live_step] in Hs; apply (inj Some) in Hs. change (sys_backend g) with (g_state (N := N) g) in Hs.
  pose proof (SetLive_spec g Hdb (v + 1) w) as Hset. unfold wrapf in Hs.
  destruct (@sb_SetLastProcessedEpoch _ (g_state g) (v + 1) w) as [o w1]. destruct Hset as (Hn & He & Ho).
  assert (∀ e, v0 < e ≤ v + 1 → recorded g w1 e) as Ha.
  { intros e' He'. apply recorded_same with w; [by rewrite Hn|by rewrite He|]. 
    destruct (decide (e' = v + 1)) as [->|]; [done|apply Hall; lia]. }
  destruct o as [u|er|p].
  - injection Hs as <- <-. destruct Ho as [Hc Hlt]. exists (v + 1). split_and!; [done|lia|lia|done|].
    by destruct (_ <? _).
  - apply after_failed in Hs as [-> Hpc]; [|done]. eapply (live_ok_out LIdle); [done|].
    exists v. rewrite Hv in Ho. split_and!; try done; try lia. intros; apply Ha; lia.
  - apply after_failed in Hs as [-> Hpc]; [|done]. eapply (live_ok_out LIdle); [done|].
    exists v. rewrite Hv in Ho. split_and!; try done; try lia. intros; apply Ha; lia.
Qed.

Lemma live_step_ok l pc w pc' w' :
  live_label_ok l → live_step g l pc w = Some (pc', w') → live_ok pc w → live_ok pc' w'.
Proof.
  intros Hl Hs Hok. destruct l as [[t|ec]|], pc as [|tk fin|tk st tot e|tk st tot e|tk|err|]; try done.
  - cbn [live_step] in Hs. apply (inj Some) in Hs. eapply live_call_ok; [exact Hs| |exact Hok|]; [apply keeps_live_reads, always_wrapf, reads_beacon|].
    intros cp w1 _ (v & Hv & Hb & Hall & _). by exists v.
  - injection Hs as <- <-. by eapply live_ok_out.
  - by eapply live_cursor_ok.
  - by eapply live_epoch_ok.
  - by eapply live_save_ok.
  - cbn [live_step] in Hs. apply (inj Some) in Hs. eapply live_call_ok; [exact Hs| |exact Hok|].
    + by apply keeps_live_reads, reads_nonfatal, reads_rebuild.
    + intros u w1 _. by apply live_ok_out.
Qed.

(** For the backfill the live loop is one of the others. *)
Lemma live_step_interferes l pc w pc' w' :
  live_label_ok l → live_step g l pc w = Some (pc', w') → live_ok pc w → interferes g w w'.
Proof.
  assert (∀ A (m : Go (World N) A) next, always (interferes g) m → after_call (m w) next = (pc', w') → interferes g w w') as Hcall.
  { intros A m next Hm Ha. specialize (Hm w). destruct (m w) as [[] w1]; by injection Ha as <- <-. }
  intros Hl Hs (v & Hv & Hb & Hall & Hpc). destruct l as [[t|ec]|], pc as [|tk fin|tk st tot e|tk st tot e|tk|err|]; try done;
    cbn [live_step] in Hs; apply (inj Some) in Hs; change (sys_backend g) with (g_state (N := N) g) in Hs.
  - eapply Hcall; [|exact Hs]. apply always_wrapf, always_interferes, reads_beacon.
  - by injection Hs as <- <-.
  - eapply Hcall; [|exact Hs]. apply always_wrapf, always_interferes. cbn. rewrite Hdb.
    apply reads_db, atomically_wrapf, atomically_query. intros tb p. apply scan_no_panic.
  - eapply Hcall; [|exact Hs]. destruct Hpc as [[_ Ht] ->]. apply always_wrapf, processEpoch_interferes; [done|done|auto|lia].
  - eapply Hcall; [|exact Hs]. by apply always_wrapf, SetLive_interferes.
  - eapply Hcall; [|exact Hs]. by apply always_interferes, reads_nonfatal, reads_rebuild.
Qed.

(** A step of the pipeline leaves the live loop's results alone: the consumer
    saves epochs up to the target, everybody else reads. *)
Lemma step_keeps_live from c0 l (p p' : pipe N) :
  label_ok l → ordered from target p → data g from c0 p →
  step g target start (target - start + 1) l p = Some p' → keeps_live (p_world p) (p_world p').
Proof.
  intros Hl Ho Hd Hs%step_inv. unfold step_live in Hs.
  assert (∀ w, reads (p_world p) w → keeps_live (p_world p) w) as Hreads by apply keeps_live_reads.
  destruct l; cbn in Hs; unfold dispatch_step, worker_take, worker_end, worker_ctx, worker_send, collect_step in Hs;
    try (by repeat case_match; simplify_eq).
  - unfold worker_exists in Hs. destruct (p_workers p !! i) as [[]|]; try done.
    pose proof (reads_EpochExists g epoch (p_world p)) as Hr.
    destruct (in_db g (EpochExists (cf_Network (g_cfg g)) epoch) (p_world p)) as [[[]|er|m] w]; cbn [snd] in Hr;
      injection Hs as <-; apply Hreads; [|exact Hr..]. etransitivity; [exact Hr|by split].
  - unfold worker_build in Hs. destruct (p_workers p !! i) as [[]|]; try done.
    set (pr := Some (mkEpochProgress _ _ _)) in Hs.
    pose proof (reads_buildEpoch g env epoch pr (p_world p)) as Hr.
    destruct (buildEpoch g env epoch pr (p_world p)) as [[] w]; cbn [snd] in Hr; injection Hs as <-; by apply Hreads.
  - destruct (k_state (p_cons p)) as [|j|j|e|oe| |] eqn:Hks; try done.
    destruct (ordered_current from target p j Ho (or_introl Hks)) as (_ & _ & Hb & H63 & _).
    pose proof (persist_built g from target c0 j p Ho Hks Hd) as Hbuilt.
    pose proof (persistEpoch_frame (KL := KL) g env _ _ H63 Hbuilt (p_world p)) as Hf.
    apply (keeps_live_frame _ _ _ (proj2 Hb) (persistEpoch_kept g Hdb env _ _ Hbuilt _)) in Hf.
    by destruct (persistEpoch g env (re_be j) (p_world p)) as [[] w]; injection Hs as <-.
  - destruct (k_state (p_cons p)) as [|j|j|e|oe| |] eqn:Hks; try done.
    pose proof (SetBackfill_keeps_live (re_epoch j) (p_world p)) as Hf.
    cbn in Hf. rewrite Hdb in Hs, Hf.
    by destruct (in_db g (SetBackfillCursor _ (re_epoch j)) (p_world p)) as [[] w]; injection Hs as <-.
Qed.

(** ** The others *)

Lemma ProcessBlobInput_keeps_live renv req : always keeps_live (ProcessBlobInput g renv req).
Proof.
  intros w. pose proof (ProcessBlobInput_correct g renv req w) as Hp.
  pose proof (if_rows _ _ _ (ProcessBlobInput_interferes g Hdb renv req w)) as Hk.
  destruct (ProcessBlobInput g renv req w) as [o w']; destruct Hp as (Hn & Hs & Ho). cbn [fst snd] in *.
  split; [done|unfold live_cursor; by rewrite Hs|]. intros e _ Hrec. destruct o as [resp|er|p]; [|by eapply recorded_same; [| |exact Hrec]; [|rewrite Ho]..].
  destruct Ho as (raw & _ & res & _ & _ & _ & Hrow). destruct (Hrow Hdb) as (_ & _ & _ & Hkeep).
  destruct Hrec as (row & c & Hr & Hc & Hh). exists row, c. split_and!; [by apply Hkeep|done|].
  destruct Hh as [|[d Hd]]; [by left|right]. eauto.
Qed.

Lemma SaveBlobs_keeps_live e blobs results gt sps :
  always keeps_live (in_db g (SaveBlobs (cf_Network (g_cfg g)) e blobs results gt sps)).
Proof.
  intros w. pose proof (rows_kept_SaveBlobs g Hdb e blobs results gt sps w) as Hk.
  unfold in_db in *. rewrite Hdb in *. unfold zoom in *.
  pose proof (SaveBlobs_atomically (cf_Network (g_cfg g)) e blobs results gt sps (w_db w)) as Ha.
  destruct (SaveBlobs _ _ _ _ _ _ (w_db w)) as [o d]. cbn [snd] in *. split; [done| |].
  - unfold live_cursor. cbn. destruct o; rewrite ?Ha; [by case_decide|done|done].
  - intros e' _ (row & c & Hr & Hc & Hh). exists row, c. split_and!; [|done|exact Hh]. cbn.
    destruct o; [rewrite Ha|by rewrite Ha|done]. case_decide; [exact Hr|]. cbn. unfold ensure_epoch.
    destruct (ipld_epochs (c_tables (w_db w)) !! to_i64 e) eqn:He; [exact Hr|]. rewrite lookup_insert_ne; [exact Hr|congruence].
Qed.

Lemma route_keeps_live renv method path decoded :
  (∀ req, decoded = inr req → pq_Finalize req = false) →
  always keeps_live (route (api_server g renv) method path decoded).
Proof.
  intros Hfin. assert (∀ r, always keeps_live (mret (M := Go (World N)) (A := response) r)) as Hret by (intros; apply always_ret, _).
  assert (always keeps_live (handlePushBlob (api_server g renv) decoded)) as Hpush.
  { unfold handlePushBlob. destruct decoded as [e|req]; [apply Hret|].
    destruct (validateBlobRequest req); [|apply Hret|apply always_lift, _].
    apply always_bind; [apply _|apply always_attempt, ProcessBlobInput_keeps_live|intros [e|resp]; [apply Hret|]].
    cbn. rewrite (Hfin req eq_refl). apply Hret. }
  assert (always keeps_live (handleReady (api_server g renv))) as Hready.
  { cbn. apply always_bind; [apply _|apply always_attempt|intros; apply Hret]. unfold Ping.
    destruct (g_ipfs g); [|apply always_ret, _].
    apply (always_impl _ reads); [apply keeps_live_reads|].
    apply always_bind; [apply _|apply reads_node, GetNodeInfo_grows|intros; apply always_ret, _]. }
  unfold route. repeat match goal with |- context [if ?b then _ else _] => destruct b end; done || apply Hret.
Qed.

Lemma ServeHTTP_keeps_live renv method path decoded :
  (∀ req, decoded = inr req → pq_Finalize req = false) →
  always keeps_live (ServeHTTP (api_server g renv) method path decoded).
Proof.
  intros Hfin. apply always_bind; [apply _|by apply route_keeps_live|intros rec].
  apply always_bind; [apply _| |intros; apply always_ret, _]. cbn.
  apply (always_impl _ reads); [apply keeps_live_reads|apply reads_metrics].
Qed.

Lemma beside_ok w w' : beside g w w' → interferes g w w' ∧ keeps_live w w'.
Proof.
  intros [renv method path decoded w1 Hfin|e blobs results w1 Hres|w1 w2 Hr].
  - split; [by apply ServeHTTP_interferes|by apply ServeHTTP_keeps_live].
  - split; [by apply SaveBlobs_interferes|apply SaveBlobs_keeps_live].
  - split; [by apply reads_interferes|by apply keeps_live_reads].
Qed.

(** ** The invariant *)

(** The backfill has done what is before [n]; [c0] is the cursor it found. *)
Definition done_before (c0 : option Z) (n : Z) (w : World N) : Prop :=
  start ≤ n ≤ target + 1 ∧ (∀ e, start ≤ e < n → has_row w e) ∧
  backfill_cursor g w = if decide (n = start) then c0 else Some (n - 1).

Definition back_ok (c0 : option Z) (b : back N) (w : World N) : Prop :=
  match b with
  | BOff | BReturned (Some _) => True
  | BLoop n => done_before c0 n w
  | BAttempt n p =>
      start ≤ n ≤ target + 1 ∧ (∀ e, start ≤ e < n → has_row w e) ∧ ordered n target (set_world w p) ∧
      data g n (if decide (n = start) then c0 else Some (n - 1)) (set_world w p)
  | BRoot | BReturned None => done_before c0 (target + 1) w
  end.

Record sys_ok (c0 : option Z) (s : sys N) : Prop := {
  so_live : live_ok (sy_live s) (sy_world s);
  so_back : back_ok c0 (sy_back s) (sy_world s);
  so_held : g_ipfs g ≠ None → rows_held (sy_world s) }.

Lemma done_before_interferes c0 n w w' : interferes g w w' → done_before c0 n w → done_before c0 n w'.
Proof. intros [Hk Hc _] (Hb & Hr & Hcur). split_and!; [lia|lia|intros; by apply Hk, Hr|by rewrite Hc]. Qed.

Lemma back_ok_interferes c0 b w w' : interferes g w w' → back_ok c0 b w → back_ok c0 b w'.
Proof.
  intros Hi. destruct b as [|n|n p| |[e|]]; cbn [back_ok]; try done; try by apply done_before_interferes.
  intros (Hb & Hr & Ho & Hd). split_and!; [lia|lia|intros; by apply (if_rows _ _ _ Hi), Hr|done|].
  apply (data_keep g n _ (set_world w p)); [done|by left|by left|done].
Qed.

(** What an attempt has done, whether it has returned or not. *)
Lemma attempt_done c0 n p w : back_ok c0 (BAttempt n p) w → done_before c0 (k_resume (p_cons p)) w.
Proof.
  intros (Hb & Hr & [Hf [Hk Hc]] & Hd). pose proof (dt_rows _ _ _ _ Hd) as Hrows. pose proof (dt_cursor _ _ _ _ Hd) as Hcur.
  cbn in Hrows, Hcur, Hk. split_and!; [lia|lia| |].
  - intros e He. destruct (decide (e < n)); [apply Hr; lia|apply Hrows; lia].
  - rewrite Hcur. repeat case_decide; (done || (exfalso; lia) || (f_equal; lia)).
Qed.

Lemma attempt_returned c0 n p w r err : back_ok c0 (BAttempt n p) w → k_state (p_cons p) = KReturned r err →
  r = k_resume (p_cons p) ∧ (err = None → r = target + 1).
Proof. intros (_ & _ & [_ [_ Hk]] & _) Hs. cbn in Hk. by rewrite Hs in Hk. Qed.

Lemma sys_move_ok c0 s s' : sys_move g start target (beside g) s s' → sys_ok c0 s → sys_ok c0 s'.
Proof.
  intros Hm [Hlive Hback Hheld].
  destruct Hm as [l pc w pc' w' b Hl Hs|w pc n Hn|l w pc n p p' Hl Hs|w pc n p r Hk|w pc n p r e Hk|w pc n Hn|w pc n e
    |w pc env u w' Hroot|w pc b w' Ho]; cbn [sy_live sy_back sy_world] in *.
  - pose proof (live_step_interferes _ _ _ _ _ Hl Hs Hlive) as Hi.
    split; [by eapply live_step_ok|by eapply back_ok_interferes|]. intros Hip. by apply (if_held _ _ _ Hi), Hheld.
  - split; [done| |done]. destruct Hback as (Hb & Hr & Hcur). split_and!; [lia|lia|done| |].
    + apply init_ordered; lia.
    + rewrite <- Hcur. by apply init_data.
  - destruct Hback as (Hb & Hr & Ho & Hd). pose proof (step_keeps_live _ _ _ _ _ Hl Ho Hd Hs) as Hkeep.
    assert (ordered n target p' ∧ data g n (if decide (n = start) then c0 else Some (n - 1)) p') as [Ho' Hd'].
    { split; [by eapply step_ordered|by eapply step_data]. }
    split; cbn [sy_live sy_back sy_world]; [by eapply live_ok_keeps| |exact (dt_held _ _ _ _ Hd')].
    split_and!; [lia|lia|intros; by apply (kl_rows _ _ Hkeep), Hr|by destruct p'|by destruct p'].
  - split; [done| |done]. destruct (attempt_returned _ _ _ _ _ _ Hback Hk) as [Hr1 Hr2].
    apply attempt_done in Hback. cbn. rewrite <- Hr1, (Hr2 eq_refl) in Hback. done.
  - split; [done| |done]. destruct (attempt_returned _ _ _ _ _ _ Hback Hk) as [-> _]. by eapply attempt_done.
  - split; [done| |done]. pose proof Hback as [Hb _]. cbn. by replace (target + 1) with n by lia.
  - by split.
  - pose proof (reads_nonfatal _ (reads_rebuild (N := N) g Hdb env) w) as Hr. rewrite Hroot in Hr. cbn [snd] in Hr.
    split; [eapply live_ok_keeps; [by apply keeps_live_reads|done]|eapply done_before_interferes; [by apply reads_interferes|done]|].
    intros Hip. eapply rows_held_reads; [done|auto].
  - destruct (beside_ok _ _ Ho) as [Hi Hk]. split; [by eapply live_ok_keeps|by eapply back_ok_interferes|].
    intros Hip. by apply (if_held _ _ _ Hi), Hheld.
Qed.
End SystemFacts.

(** ** Properties *)

Section SystemProperties.
Context {R : GoRuntime} {I : Ipld} {L : IpldLaws I} {P : Postgres} {BJ : BeaconJson} {JS : JsonState}.
Context {N : Type} {K : Kubo N} {KL : KuboLaws N} {KJ : KuboJson} (g : Generator).

(** The start of Run is one of the others, too. *)
Lemma Run_start_interferes env : g_db g = true → always (interferes (N := N) g) (Run_start g env).
Proof.
  intros Hdb.
  assert (always (reads (N := N)) (@sb_GetLastProcessedEpoch _ (g_state g)) ∧ always (reads (N := N)) (@sb_GetBackfillCursor _ (g_state g))) as [Hlive Hback].
  { cbn. rewrite Hdb. split; apply reads_db, atomically_wrapf, atomically_query; intros tb p; apply scan_no_panic. }
  unfold Run_start. destruct (negb _); [apply always_lift, _|]. destruct (negb _); [apply always_ret, _|].
  apply always_bind; [apply _|apply always_wrapf, always_interferes, reads_beacon|intros cps].
  apply always_bind; [apply _|by apply always_wrapf, always_interferes|intros lc].
  apply always_bind; [apply _|by apply always_wrapf, always_interferes|intros bc].
  cbn zeta. apply always_bind; [apply _| |intros; apply always_ret, _]. destruct (_ <? _); [|apply always_ret, _].
  apply always_bind; [apply _|by apply always_wrapf, SetLive_interferes|intros; apply always_ret, _].
Qed.

(** C5. Run with both of its goroutines, beside the push API. It starts with the
    beacon node at the finalized epoch [F] and [from] the first epoch not
    backfilled. At any point of any interleaving of the live loop's calls, the
    pipeline's goroutines and requests that do not finalize (in one step, or
    upload and save apart), whatever fails:
    the live cursor is at [v], not before [F - 1]; every epoch from [F] to [v]
    has a row that names a CID, held by the node if there is one; and what any
    row names is held. When the backfill has returned without an error, or was
    not needed, every epoch from [from] to [v] has a row, except perhaps
    [F - 1], which neither side processes. *)
Theorem pull_covers_history env cp from (w0 w : World N) b s :
  g_db g = true → 0 < cf_Workers (g_cfg g) →
  fst (finality g env w0) = Ok cp → let F := fc_FinalizedEpoch cp in 2 ≤ F < two63 →
  let bc := default 0 (backfill_cursor g w0) in
  from = (if 0 <? bc then u64_add bc 1 else cf_StartEpoch (g_cfg g)) → 0 ≤ from < F →
  (g_ipfs g ≠ None → rows_held w0) →
  Run_start g env w0 = (Ok (Parallel b), w) →
  rtc (sys_step g from (F - 2) (beside g)) (sys_init w b) s →
  ∃ v, live_cursor g (sy_world s) = Some v ∧ F - 1 ≤ v ∧
    (∀ e, F ≤ e ≤ v → recorded g (sy_world s) e) ∧ (g_ipfs g ≠ None → rows_held (sy_world s)) ∧
    (b = None ∨ sy_back s = BReturned None → ∀ e, from ≤ e ≤ v → e ≠ F - 1 → has_row (sy_world s) e).
Proof.
  intros Hdb Hw Hfin F HF bc Hfrom Hlt Hheld Hrun Hrtc.
  destruct (Run_start_anchors g env from F w0 w b cp bc Hdb HF Hfin eq_refl eq_refl Hfrom Hlt Hrun) as [Hcur Hb].
  pose proof (Run_start_interferes env Hdb w0) as Hi. rewrite Hrun in Hi. cbn [snd] in Hi.
  assert (sys_ok g (F - 1) from (F - 2) (backfill_cursor g w) s) as [(v & Hv & Hle & Hall & _) Hback Hh].
  { assert (∀ s1 s2, rtc (sys_step g from (F - 2) (beside g)) s1 s2 → sys_ok g (F - 1) from (F - 2) (backfill_cursor g w) s1 →
      sys_ok g (F - 1) from (F - 2) (backfill_cursor g w) s2) as Hinv.
    { intros s1 s2 H. induction H as [|s1 s2 s3 [_ Hm] _ IH]; [done|]. intros Hok. apply IH.
      eapply sys_move_ok; [..|exact Hm|exact Hok]; (done || lia). }
    apply (Hinv _ _ Hrtc). split; cbn [sys_init sy_live sy_back sy_world].
    - exists (F - 1). split_and!; [done|lia|lia|lia|done].
    - rewrite Hb. destruct (Z.ltb_spec from (F - 1)); [|done]. split_and!; [lia|lia|lia|by rewrite decide_True].
    - intros Hip. by apply (if_held _ _ _ Hi), Hheld. }
  assert (∀ e, F ≤ e ≤ v → recorded g (sy_world s) e) as Hrec by (intros; apply Hall; lia).
  exists v. split_and!; [done|lia|done|done|]. intros Hdone e He Hne.
  destruct (decide (F ≤ e)) as [Hge|].
  { destruct (Hrec e ltac:(lia)) as (row & c & Hrow & _). by exists row. }
  destruct Hdone as [->|Hret].
  - destruct (Z.ltb_spec from (F - 1)); [done|lia].
  - rewrite Hret in Hback. destruct Hback as (_ & Hrows & _). apply Hrows. lia.
Qed.

(** A push that finalizes takes the live loop's cursor with it: when it names an
    epoch that is not before the finalized one, the ticks that follow find
    nothing to do, whatever there was between the old cursor and that epoch. *)
Theorem finalize_moves_live renv t e (w w1 w2 : World N) c cp :
  g_db g = true → 0 < e < two63 → FinalizeEpochWithCID g renv e w = (Ok c, w1) →
  fst (finality g (tk_env t) w1) = Ok cp → fc_FinalizedEpoch cp ≤ e →
  processLiveTick g t w1 = (Ok tt, w2) →
  live_cursor g w1 = Some e ∧ db_tables w2 = db_tables w1.
Proof.
  intros Hdb He Hfin Hcp Hle Htick. unfold FinalizeEpochWithCID in Hfin.
  apply bind_Ok in Hfin as (c' & w1' & Hfin & [_ ->]%ret_Ok).
  pose proof (finalizeEpochInner_correct g renv e w Hdb) as Hf. rewrite Hfin in Hf. cbn [fst snd] in Hf.
  destruct Hf as (_ & _ & _ & _ & _ & Hc & _). split; [done|].
  unfold processLiveTick in Htick. change (backend g) with (g_state (N := N) g) in Htick.
  apply bind_Ok in Htick as (cp' & w3 & Hf%wrapf_Ok & Htick). rewrite Hf in Hcp. injection Hcp as ->.
  pose proof (reads_beacon g (GetFinalityCheckpoints (en_http (tk_env t)) (en_req (tk_env t)) "head") w1') as Hr.
  unfold finality in Hf. rewrite Hf in Hr. cbn [snd] in Hr.
  apply bind_Ok in Htick as (lc & w4 & Hg%wrapf_Ok & Htick).
  rewrite <- (live_cursor_reads g _ _ Hr) in Hc. pose proof (GetLive_spec g Hdb w3 e Hc) as Hget. rewrite Hg in Hget.
  destruct Hget as [Hr2 Hlc]. rewrite (Hlc lc eq_refl), (tick_start_next g e), (proj2 (Z.ltb_lt _ _)) in Htick by lia.
  apply ret_Ok in Htick as [_ ->]. by rewrite (rd_tables _ _ Hr2), (rd_tables _ _ Hr).
Qed.
End SystemProperties.

(** ** The property at a concrete input *)

Section Schedules.
Context {R : GoRuntime} {I : Ipld} {P : Postgres} {BJ : BeaconJson} {JS : JsonState}.
Context {N : Type} {K : Kubo N} {KJ : KuboJson} (g : Generator).
Context (start target : Z) (others : relation (World N)).

Lemma labels_run ls pc n : pc ≠ LCrashed → ∀ p p' : pipe N,
  Forall label_ok ls → run_labels g target start (target - start + 1) ls p = Some p' →
  rtc (sys_step g start target others) (mkSys (p_world p) pc (BAttempt n p)) (mkSys (p_world p') pc (BAttempt n p')).
Proof.
  intros Hpc. induction ls as [|l ls IH]; intros p p' Hok Hr; [by injection Hr as <-|].
  apply Forall_cons in Hok as [Hl Hls]. cbn in Hr. apply bind_Some in Hr as (p1 & Hs & Hr).
  eapply rtc_l; [|by apply IH]. split.
  - unfold step in Hs. unfold crashed. cbn. by destruct pc, (k_state (p_cons p)).
  - eapply sys_pipe; [done|]. by destruct p.
Qed.

Lemma calls_run n b pc' w' : crashed (mkSys w' LIdle b) = false → ∀ pc w,
  live_calls g n pc w = (pc', w') →
  rtc (sys_step (N := N) g start target others) (mkSys w pc b) (mkSys w' pc' b).
Proof.
  intros Hb. induction n as [|n IH]; intros pc w Hc; [by injection Hc as <- <-|]. cbn [live_calls] in Hc.
  destruct (live_step g LiveCall pc w) as [[pc1 w1]|] eqn:Hs; [|by injection Hc as <- <-].
  eapply rtc_l; [|by apply IH]. split; [|by eapply (sys_live _ _ _ _ LiveCall)].
  destruct pc; try done; destruct b; exact Hb.
Qed.
End Schedules.

(** Run starts as in [demo_start]: epoch 7 is the first, epoch 11 is finalized.
    The live loop processes epoch 11; before it has moved its cursor, the
    backfill does 7, 8 and 9; then the loop goes on. *)
Definition sys_world0 : World (gmap cid string) :=
  snd (Run_start (BJ := demo_reply) demo_start demo_run (demo_world tables_empty)).
Definition sys_tick : live_pc * World (gmap cid string) :=
  default (LIdle, sys_world0) (live_step (BJ := demo_reply) demo_start (LiveWake (Tick demo_tick)) LIdle sys_world0).
Definition sys_halfway : live_pc * World (gmap cid string) :=
  live_calls (BJ := demo_reply) demo_start 2 (fst sys_tick) (snd sys_tick).
Definition sys_pipe0 : pipe (gmap cid string) := pipe_init demo_start 7 (snd sys_halfway).
Definition sys_schedule : list label := greedy (BJ := demo_reply) demo_start 9 7 (9 - 7 + 1) demo_labels 90 sys_pipe0.
Definition sys_pipe1 : pipe (gmap cid string) :=
  default sys_pipe0 (run_labels (BJ := demo_reply) demo_start 9 7 (9 - 7 + 1) sys_schedule sys_pipe0).
Definition sys_after : live_pc * World (gmap cid string) :=
  live_calls (BJ := demo_reply) demo_start 5 (fst sys_halfway) (p_world sys_pipe1).
Definition sys_final : World (gmap cid string) := snd (nonfatal (rebuildNetworkRoot demo_start demo_run) (snd sys_after)).

Example sys_evaluated :
  fst sys_halfway = LSave demo_tick 11 1 11 ∧ k_state (p_cons sys_pipe1) = KReturned 10 None ∧ fst sys_after = LIdle ∧
  live_cursor demo_start sys_final = Some 11 ∧
  (λ e, ep_blob_count <$> ipld_epochs (db_tables sys_final) !! e) <$> [6; 7; 8; 9; 10; 11; 12] =
    [None; Some 0; Some 0; Some 0; None; Some 0; None].
Proof. vm_compute. done. Qed.

Lemma sys_schedule_ok : Forall label_ok sys_schedule.
Proof. apply greedy_ok. repeat first [exact demo_run_ok | constructor]. Qed.

Lemma sys_pipe1_eq : run_labels (BJ := demo_reply) demo_start 9 7 (9 - 7 + 1) sys_schedule sys_pipe0 = Some sys_pipe1.
Proof.
  assert (from_option (λ _, true) false (run_labels (BJ := demo_reply) demo_start 9 7 (9 - 7 + 1) sys_schedule sys_pipe0) = true)
    as Hr by (vm_compute; reflexivity).
  unfold sys_pipe1. by destruct (run_labels _ _ _ _ _ _).
Qed.

Lemma sys_tick_eq : live_step (BJ := demo_reply) demo_start (LiveWake (Tick demo_tick)) LIdle sys_world0 =
  Some (fst sys_tick, snd sys_tick).
Proof. unfold sys_tick. cbn [live_step default]. by destruct (after_call _ _). Qed.

Lemma sys_root_eq : ∃ u, nonfatal (rebuildNetworkRoot demo_start demo_run) (snd sys_after) = (Ok u, sys_final).
Proof.
  assert (match fst (nonfatal (rebuildNetworkRoot demo_start demo_run) (snd sys_after)) with Ok _ => true | _ => false end = true)
    as Hr by (vm_compute; reflexivity).
  unfold sys_final. destruct (nonfatal _ _) as [[u|e|m] w]; [by exists u|done..].
Qed.

Lemma sys_worlds : p_world sys_pipe0 = snd sys_halfway ∧ sys_pipe0 = pipe_init demo_start 7 (snd sys_halfway).
Proof. done. Qed.

Lemma sys_halfway_eq : live_calls (BJ := demo_reply) demo_start 2 (fst sys_tick) (snd sys_tick) = (fst sys_halfway, snd sys_halfway).
Proof. apply surjective_pairing. Qed.

Lemma sys_after_eq : live_calls (BJ := demo_reply) demo_start 5 (fst sys_halfway) (p_world sys_pipe1) = (fst sys_after, snd sys_after).
Proof. apply surjective_pairing. Qed.

Local Opaque sys_world0 sys_tick sys_halfway sys_pipe0 sys_schedule sys_pipe1 sys_after sys_final.

Abbreviation demo_sys_step := (sys_step (BJ := demo_reply) demo_start 7 9 (beside (BJ := demo_reply) demo_start)).

Lemma sys_reached : rtc demo_sys_step (sys_init sys_world0 (Some (7, 9))) (mkSys sys_final LIdle (BReturned None)).
Proof.
  destruct sys_evaluated as (Hhalf & Hk & Hidle & _). destruct sys_root_eq as [u Hroot]. destruct sys_worlds as [Hw Hp].
  assert (fst sys_halfway ≠ LCrashed) as Hpc by by rewrite Hhalf.
  apply (rtc_l _ _ (mkSys (snd sys_tick) (fst sys_tick) (BLoop 7))).
  { split; [done|]. exact (sys_live _ _ _ _ (LiveWake (Tick demo_tick)) _ _ _ _ _ demo_tick_ok sys_tick_eq). }
  transitivity (mkSys (snd sys_halfway) (fst sys_halfway) (BLoop 7)).
  { exact (calls_run _ _ _ _ 2 (BLoop 7) _ _ eq_refl _ _ sys_halfway_eq). }
  apply (rtc_l _ _ (mkSys (snd sys_halfway) (fst sys_halfway) (BAttempt 7 sys_pipe0))).
  { split; [by rewrite Hhalf|]. rewrite Hp. by apply sys_attempt. }
  transitivity (mkSys (p_world sys_pipe1) (fst sys_halfway) (BAttempt 7 sys_pipe1)).
  { rewrite <- Hw. exact (labels_run _ 7 9 _ sys_schedule _ 7 Hpc _ _ sys_schedule_ok sys_pipe1_eq). }
  transitivity (mkSys (snd sys_after) (fst sys_after) (BAttempt 7 sys_pipe1)).
  { refine (calls_run _ _ _ _ 5 (BAttempt 7 sys_pipe1) _ _ _ _ _ sys_after_eq). unfold crashed. cbn. by rewrite Hk. }
  rewrite Hidle. apply (rtc_l _ _ (mkSys (snd sys_after) LIdle BRoot)).
  { split; [unfold crashed; cbn; by rewrite Hk|]. exact (sys_done _ _ _ _ _ _ _ _ _ Hk). }
  apply rtc_once. split; [done|]. exact (sys_root _ _ _ _ _ _ _ _ _ Hroot).
Qed.

Lemma pull_covers_history_witness :
  live_cursor demo_start sys_final = Some 11 ∧
  ∃ v, live_cursor demo_start sys_final = Some v ∧ ∀ e, 7 ≤ e ≤ v → e ≠ 10 → has_row sys_final e.
Proof.
  split; [apply sys_evaluated|].
  destruct (pull_covers_history (BJ := demo_reply) demo_start demo_run (mkFinalityCheckpoints 11 12) 7
    (demo_world tables_empty) sys_world0 (Some (7, 9)) (mkSys sys_final LIdle (BReturned None)))
    as (v & Hv & _ & _ & _ & Hrows);
    [done|done|vm_compute; reflexivity|unfold two63; cbn; lia|vm_compute; reflexivity|cbn; lia
    |intros _; split; intros k row; cbn; by rewrite lookup_empty|vm_compute; reflexivity|exact sys_reached|].
  exists v. split; [exact Hv|exact (Hrows (or_intror eq_refl))].
Defined.
