(* ===== verification/Server.v ===== *)
(** * Server: the requests the server of [serve] answers

    A sequence of requests to the server that [serve] starts, each through the
    middleware of api/server.go and the generator's callbacks: what every one of
    them leaves behind in the database, on the node and in the metrics, whatever
    clients send and whatever fails. *)

From S2P Require Import Prelude GoStd GoTime Flags Types Ipld Store IpldModel Blob Epoch Network Db StateFile.
From S2P Require Import Beacon ElClient Ipfs Metrics Generator New Reload Persist Live Api Repair Push Backfill Held.
From S2P Require Import Commands CommandFacts System.
From S2P Require Config Car.

(** A request, with what its handling meets. *)
Record request := mkRequest { rq_method : string; rq_path : string; rq_body : error + BlobPushRequest; rq_env : Env }.

Section Requests.
Context {R : GoRuntime} {I : Ipld} {P : Postgres} {BJ : BeaconJson} {JS : JsonState}.
Context {N : Type} {K : Kubo N} {KJ : KuboJson} (g : Generator).

(** The answer, or [None] when the handler panicked and the connection was dropped. *)
Definition answer (r : request) : Go (World N) (option response) :=
  recovered (ServeHTTP (api_server g (rq_env r)) (rq_method r) (rq_path r) (rq_body r)).

Fixpoint answer_all (rs : list request) : Go (World N) (list (option response)) :=
  match rs with
  | [] => mret []
  | r :: rs => a ← answer r; rest ← answer_all rs; mret (a :: rest)
  end.
End Requests.

(** ** The request metric *)

Abbreviation http_series := (gmap (string * string * string) Z).

(** The number of requests the histogram has seen. *)
Definition seen (m : http_series) : Z := map_fold (λ _ n acc, n + acc) 0 m.

Lemma seen_add k n m : seen (vec_add k n m) = n + seen m.
Proof.
  unfold seen, vec_add. destruct (m !! k) as [x|] eqn:Hk; cbn [default].
  - rewrite (map_fold_delete_L _ _ k x m), (map_fold_delete_L _ _ k (x + n) (<[k:=x + n]> m)) by (done || (intros; lia) || by rewrite lookup_insert_eq).
    rewrite delete_insert_eq. cbn. lia.
  - rewrite map_fold_insert_L by (done || (intros; lia)). cbn. lia.
Qed.

(** Every status a handler of the server writes. *)
Definition statuses : list Z := [200; 201; 400; 404; 405; 500; 503].

(** The series the server can create. *)
Definition series : gset (string * string * string) :=
  list_to_set ((λ x, (fst (fst x), snd (fst x), FormatUint (snd x))) <$> list_prod label_pairs statuses).

Lemma observed_in_series method path status : status ∈ statuses → observed method path status ∈ series.
Proof.
  intros Hs. unfold series, observed. apply elem_of_list_to_set, list_elem_of_fmap.
  exists (methodLabel method, routeLabel path, status). split; [done|].
  assert (methodLabel method ∈ "other" :: knownMethods) as Hm by (unfold methodLabel; case_bool_decide; [by right|by left]).
  assert (routeLabel path ∈ "other" :: knownRoutes) as Hr by (unfold routeLabel; case_bool_decide; [by right|by left]).
  apply list_elem_of_In, in_prod; [|by apply list_elem_of_In].
  apply in_prod; by apply list_elem_of_In.
Qed.

Lemma series_size : (size series ≤ 147)%nat.
Proof. apply (bool_decide_unpack _). vm_compute. exact Logic.I. Qed.

#[local] Opaque series.
#[local] Typeclasses Opaque series.

Lemma http_start k : k ∉ dom (mt_httpDuration Metrics_New).
Proof. cbn. rewrite dom_empty_L. apply not_elem_of_empty. Qed.

Section Observed.
Context {R : GoRuntime} {I : Ipld} {P : Postgres} {BJ : BeaconJson} {JS : JsonState}.
Context {N : Type} {K : Kubo N} {KJ : KuboJson} (g : Generator).

(** The handlers leave the request metric to the middleware. *)
Definition http_of (w : World N) : option http_series := mt_httpDuration <$> w_metrics w.
Definition same_http (w w' : World N) : Prop := http_of w' = http_of w.

#[local] Instance same_http_preorder : PreOrder same_http.
Proof. split; [by intros w|]. unfold same_http. intros w1 w2 w3. congruence. Qed.

Lemma http_metrics f : (∀ m, mt_httpDuration (f m) = mt_httpDuration m) → always same_http (in_metrics (on_metrics f)).
Proof. intros Hf. apply always_zoom. intros w. unfold same_http, http_of. cbn. destruct (w_metrics w); cbn; by rewrite ?Hf. Qed.

Lemma http_node {A} (m : Go N A) : always same_http (in_node m).
Proof. apply always_zoom. by intros w. Qed.
Lemma http_sent {A} (m : Go (list notification) A) : always same_http (in_sent m).
Proof. apply always_zoom. by intros w. Qed.
Lemma http_file {A} (m : Go (Manager * FS) A) : always same_http (in_file m).
Proof. apply always_zoom. by intros w. Qed.
Lemma http_db {A} (m : Go Db.Client A) : always same_http (in_db g m).
Proof. unfold in_db. destruct (g_db g); [apply always_zoom; by intros w|apply always_lift, _]. Qed.

Ltac quiet := repeat first
  [ apply always_ret, _ | apply always_lift, _ | apply http_node | apply http_sent | apply http_file | apply http_db
  | apply http_metrics; intros ?; (reflexivity || by case_match)
  | apply always_wrapf | apply always_attempt
  | apply always_bind; [apply _| |intros ?]
  | progress case_match ].

Lemma http_ProcessBlobInput env req : always same_http (ProcessBlobInput g env req).
Proof. unfold ProcessBlobInput. quiet. Qed.

Lemma http_finalize env e : always same_http (FinalizeEpochWithCID g env e).
Proof.
  unfold FinalizeEpochWithCID, finalizeEpochInner, uploadAndPin, nonfatal, rebuildNetworkRoot. cbn. quiet.
Qed.

Lemma http_Ping : always same_http (Ping (N := N) g).
Proof. unfold Ping. quiet. Qed.

(** A handler answers with one of the statuses, or panics. *)
Lemma route_status renv method path decoded (w : World N) :
  let '(o, w') := route (api_server g renv) method path decoded w in
  same_http w w' ∧ match o with Ok r => rsp_status r ∈ statuses | Err _ => False | Panic _ => True end.
Proof.
  assert (∀ r (w : World N), rsp_status r ∈ statuses →
    let '(o, w') := (mret r : Go (World N) response) w in
    same_http w w' ∧ match o with Ok r => rsp_status r ∈ statuses | Err _ => False | Panic _ => True end) as Hret by (intros; by split).
  assert (∀ k b, k ∈ statuses → rsp_status (mkResponse k b) ∈ statuses) as Hin by done.
  unfold route. repeat match goal with |- context [if ?b then _ else _] => destruct b end;
    try (apply Hret, (bool_decide_unpack _); vm_compute; exact Logic.I).
  - pose proof (handlePushBlob_correct (api_server g renv) decoded w) as Hh.
    destruct decoded as [e|req]; [destruct Hh as [m ->]; by apply Hret, (bool_decide_unpack _)|].
    destruct (validateBlobRequest req); [|destruct Hh as [m ->]; by apply Hret, (bool_decide_unpack _)..].
    cbn [srv_processor srv_finalizer api_server api_New] in Hh.
    pose proof (http_ProcessBlobInput renv req w) as Hp.
    destruct (ProcessBlobInput g renv req w) as [[resp|er|p] w1]; cbn [snd] in Hp;
      [|destruct Hh as [m ->]; split; [done|by apply (bool_decide_unpack _)]|by rewrite Hh].
    destruct (pq_Finalize req); [|rewrite Hh; split; [done|by apply (bool_decide_unpack _)]].
    pose proof (http_finalize renv (pq_Epoch req) w1) as Hf.
    assert (same_http w (snd (FinalizeEpochWithCID g renv (pq_Epoch req) w1))) as Hf2 by by etransitivity.
    destruct (FinalizeEpochWithCID g renv (pq_Epoch req) w1) as [[c|er|p] w2];
      [rewrite Hh; split; [done|by apply (bool_decide_unpack _)]|destruct Hh as [m ->]; split; [done|by apply (bool_decide_unpack _)]|by rewrite Hh].
  - cbn. rewrite bind_eq. unfold attempt. pose proof (http_Ping w) as Hp.
    destruct (Ping g w) as [[u|er|p] w1]; cbn [snd] in Hp; (split; [done|]); [by apply (bool_decide_unpack _)..|done].
Qed.

Lemma observe_http k1 k2 k3 (w : World N) m : http_of w = Some m →
  ∃ w', in_metrics (ObserveHTTPRequest k1 k2 k3) w = (Ok tt, w') ∧ http_of w' = Some (vec_add (k1, k2, k3) 1 m).
Proof.
  unfold http_of. intros (m1 & Hm1 & ->)%fmap_Some. eexists. split; [reflexivity|]. cbn. by rewrite Hm1.
Qed.

(** What a request leaves in the metric: one more observation, if it was answered. *)
Lemma answer_observed r (w : World N) m : http_of w = Some m →
  ∃ a w', answer g r w = (Ok a, w') ∧
    ∃ m', http_of w' = Some m' ∧ seen m' = seen m + (match a with Some _ => 1 | None => 0 end) ∧ dom m' ⊆ dom m ∪ series.
Proof.
  intros Hm. unfold answer, recovered, ServeHTTP, logRequests. rewrite bind_eq.
  pose proof (route_status (rq_env r) (rq_method r) (rq_path r) (rq_body r) w) as Hr.
  destruct (route _ _ _ _ w) as [[resp|e|p] w1]; destruct Hr as [Hs Hst]; [|done|].
  - unfold same_http in Hs. rewrite Hm in Hs. rewrite bind_eq. cbn [api_server api_New srv_observe].
    pose proof (observed_in_series (rq_method r) (rq_path r) (rsp_status resp) Hst) as Hk.
    destruct (observed _ _ _) as [[k1 k2] k3]. destruct (observe_http k1 k2 k3 w1 m Hs) as (w2 & Ho & Hw2).
    rewrite Ho. exists (Some resp), w2. split; [done|]. exists (vec_add (k1, k2, k3) 1 m).
    split_and!; [done|rewrite seen_add; lia|]. unfold vec_add. rewrite dom_insert_L.
    apply union_subseteq. split; [by apply singleton_subseteq_l, elem_of_union_r|apply union_subseteq_l].
  - exists None, w1. split; [done|]. exists m. split_and!; [by rewrite Hs|lia|apply union_subseteq_l].
Qed.

Lemma answer_all_observed rs : ∀ (w : World N) m, http_of w = Some m →
  ∃ answers w', answer_all g rs w = (Ok answers, w') ∧ length answers = length rs ∧
    ∃ m', http_of w' = Some m' ∧ seen m' = seen m + Z.of_nat (length (omap id answers)) ∧ dom m' ⊆ dom m ∪ series.
Proof.
  induction rs as [|r rs IH]; intros w m Hm; cbn [answer_all].
  - eexists [], w. split_and!; [done|done|]. exists m. split_and!; [done|cbn; lia|apply union_subseteq_l].
  - destruct (answer_observed r w m Hm) as (a & w1 & Ha & m1 & Hm1 & Hs1 & Hd1).
    destruct (IH w1 m1 Hm1) as (answers & w2 & Hall & Hlen & m2 & Hm2 & Hs2 & Hd2).
    eexists (a :: answers), w2. rewrite bind_eq, Ha, bind_eq, Hall. split_and!; [done|cbn; lia|]. exists m2.
    split_and!; [done| |etransitivity; [exact Hd2|]; apply union_subseteq; split; [exact Hd1|apply union_subseteq_r]]. rewrite Hs2, Hs1. destruct a; cbn [omap list_omap id length]; lia.
Qed.
End Observed.

(** ** Properties *)

Section ServerProperties.
Context {R : GoRuntime} {I : Ipld} {L : IpldLaws I} {P : Postgres} {BJ : BeaconJson} {JS : JsonState} {GC : Car.GoCar}.
Context {N : Type} {K : Kubo N} {KL : KuboLaws N} {KJ : KuboJson} {FT : Config.FloatText}.
Context (env : MainEnv).

Lemma answer_all_interferes g rs : g_db g = true → always (interferes (N := N) g) (answer_all g rs).
Proof.
  intros Hdb. induction rs as [|r rs IH]; cbn [answer_all]; [apply always_ret, _|].
  apply always_bind; [apply _| |intros a; apply always_bind; [apply _|exact IH|intros; apply always_ret, _]].
  intros w. pose proof (ServeHTTP_interferes g (rq_env r) (rq_method r) (rq_path r) (rq_body r) Hdb w) as Hi.
  unfold answer, recovered. by destruct (ServeHTTP _ _ _ _ w) as [[] w1].
Qed.


(** A push may name its slot alone; the blob is then recorded under epoch 0,
    whatever slot it names. *)
Theorem push_slot_only g renv req (w : World N) r w' :
  g_db g = true → validateBlobRequest req = Ok tt → pq_Epoch req = 0 → pq_Finalize req = false →
  ipld_blobs (db_tables w) !! pq_Commitment req = None →
  route (api_server g renv) "POST" "/blob" (inr req) w = (Ok r, w') → rsp_status r = 201 →
  pq_Slot req ≠ 0 ∧ ∃ row, ipld_blobs (db_tables w') !! pq_Commitment req = Some row ∧ bl_epoch row = 0.
Proof.
  intros Hdb Hv He Hf Hnew Hr Hst. split.
  { apply validateBlobRequest_exact in Hv as (_ & _ & _ & [?|?] & _); congruence. }
  assert (route (api_server g renv) "POST" "/blob" (inr req) w = handlePushBlob (api_server g renv) (inr req) w) as Hrt by done.
  rewrite Hrt in Hr. clear Hrt. pose proof (handlePushBlob_correct (api_server g renv) (inr req) w) as Hh.
  cbn beta iota in Hh. rewrite Hv, Hf in Hh. cbn [srv_processor srv_finalizer api_server api_New] in Hh.
  pose proof (ProcessBlobInput_correct g renv req w) as Hp.
  destruct (ProcessBlobInput g renv req w) as [[resp|er|p] w1]; cbn [fst snd] in Hp.
  - rewrite Hh in Hr. injection Hr as <- <-. destruct Hp as (_ & _ & raw & _ & res & _ & _ & _ & Hrow).
    destruct (Hrow Hdb) as ((row & Hrw & _ & _ & _ & Hep) & _). exists row. split; [done|].
    destruct (Hep Hnew) as [-> _]. by rewrite He.
  - destruct Hh as [m Hh]. rewrite Hh in Hr. injection Hr as <- _. done.
  - by rewrite Hh in Hr.
Qed.

(** Without a database a push that asks to finalize fails. *)
Theorem finalize_without_db g renv req (w : World N) :
  g_db g = false → pq_Finalize req = true →
  match fst (route (api_server g renv) "POST" "/blob" (inr req) w) with
  | Ok r => rsp_status r = 400 ∨ rsp_status r = 500
  | _ => True
  end.
Proof.
  intros Hdb Hf.
  assert (route (api_server g renv) "POST" "/blob" (inr req) w = handlePushBlob (api_server g renv) (inr req) w) as -> by done.
  pose proof (handlePushBlob_correct (api_server g renv) (inr req) w) as Hh. cbn beta iota in Hh. rewrite Hf in Hh.
  destruct (validateBlobRequest req); [|destruct Hh as [m ->]; by left..].
  cbn [srv_processor srv_finalizer api_server api_New] in Hh.
  destruct (ProcessBlobInput g renv req w) as [[resp|er|p] w1]; [|destruct Hh as [m ->]; by right|by rewrite Hh].
  assert (∃ er, FinalizeEpochWithCID g renv (pq_Epoch req) w1 = (Err er, w1)) as [er Her].
  { unfold FinalizeEpochWithCID, finalizeEpochInner. rewrite Hdb. by eexists. }
  rewrite Her in Hh. destruct Hh as [m ->]. by right.
Qed.
End ServerProperties.

(** ** The property at a concrete input *)

#[local] Instance server_text : Config.FloatText := {| Config.ParseFloat _ := None |}.

(** A probe, a push that is too short, a path and a method nobody knows. *)
Definition demo_requests : list request :=
  [mkRequest "GET" "/healthz" (inl (errors_New "EOF")) demo_run; mkRequest "POST" "/blob" (inr demo_push) demo_run;
   mkRequest "GET" "/wp-admin" (inl (errors_New "EOF")) demo_run; mkRequest "BREW" "/blob" (inl (errors_New "EOF")) demo_run].

Example demo_requests_evaluated :
  let '(o, w) := answer_all demo_served demo_requests (snd demo_serve) in
  match o with Ok answers => map (option_map rsp_status) answers | _ => [] end = [Some 200; Some 400; Some 404; Some 405] ∧
  option_map (λ m, map (λ k, mt_httpDuration m !! k)
    [("GET", "/healthz", "200"); ("POST", "/blob", "400"); ("GET", "other", "404"); ("other", "/blob", "405")]) (w_metrics w) =
  Some [Some 1; Some 1; Some 1; Some 1].
Proof. vm_compute. done. Qed.

