(* ===== verification/Durable.v ===== *)
(** * Durable: what every command keeps

    The whole program, from its command line on: whichever subcommand runs and
    whatever fails, no row of the database ends up naming a CID whose block the
    IPFS node does not hold, and the commands that only read change no row. *)

From S2P Require Import Summary.
From S2P Require Import Prelude GoStd GoTime Flags Types Ipld Store IpldModel Blob Epoch Network Db StateFile.
From S2P Require Import Beacon ElClient Ipfs Metrics Generator New Reload Persist Live Api Repair Push Backfill Held.
From S2P Require Import Commands CommandFacts System.
From S2P Require Config ExportRefs Health Car Pin.

(** ** The commands that only read *)

Section Readers.
Context {R : GoRuntime} {I : Ipld} {L : IpldLaws I} {P : Postgres} {GC : Car.GoCar}.
Context {N : Type} {K : Kubo N} {KL : KuboLaws N} {KJ : KuboJson}.

Lemma tables_query {A} ctx (f : tables → outcome A) : always same_tables (wrapf ctx (db_query f)).
Proof. apply always_wrapf, Summary.always_db_query. Qed.

Lemma tables_GetBlobsByEpoch network e : always same_tables (GetBlobsByEpoch network e).
Proof.
  apply always_wrapf, always_bind; [apply _|apply always_lift, _|intros _]. apply Summary.always_db_query.
Qed.

Lemma tables_GetBlobRefs network from to : always same_tables (GetBlobRefs network from to).
Proof.
  apply always_wrapf. repeat (apply always_bind; [apply _|apply always_lift, _|intros _]). apply Summary.always_db_query.
Qed.

(** Steps through a computation that only queries. *)
Ltac reading :=
  repeat first
    [ apply always_ret, _ | apply always_lift, _ | apply always_attempt | apply tables_GetBlobsByEpoch
    | apply tables_GetBlobRefs | apply tables_query | apply Summary.always_db_query
    | assumption
    | apply always_wrapf
    | apply always_bind; [apply _| |intros ?]
    | progress case_match ].

Lemma tables_health network slots thr tier samples order :
  always same_tables (Health.cmdHealthCheck network slots thr tier samples order).
Proof.
  assert (∀ epochs l results, always same_tables (Health.check_epochs network slots thr epochs l results)) as Hep.
  { intros epochs l. induction l as [|i l IH]; intros results; cbn [Health.check_epochs]; [reading|].
    apply always_bind; [apply _|reading|intros e]. apply always_bind; [apply _|unfold Health.check_epoch; reading|auto]. }
  unfold Health.cmdHealthCheck, Health.health_report, Health.runTier0, Health.runTier1, Health.mismatch_check,
    Health.addAnomalyCheck, Health.index_check, Health.gaps_check. reading; try apply Hep.
Qed.

Lemma tables_export_refs network from to meta binary create :
  always same_tables (ExportRefs.cmdExportBlobRefs network from to meta binary create).
Proof. unfold ExportRefs.cmdExportBlobRefs, GetMaxEpoch. reading. Qed.

(** The node only gains blocks while it is asked and told to pin. *)
Ltac asking := repeat first
  [ apply always_ret, _ | apply always_lift, _ | apply always_attempt | apply always_wrapf | apply always_rpc_grows
  | progress case_match | apply always_bind; [apply _| |intros ?] ].

Lemma grows_pin_step ctxErr retries c st : always (grows (N := N)) (Pin.pin_step ctxErr retries c st).
Proof. unfold Pin.pin_step, VerifyLocal, Ipfs.Pin. asking. Qed.

Lemma grows_pool_run ctxErr retries todo schedule : ∀ states,
  always (grows (N := N)) (Pin.pool_run ctxErr retries todo schedule states).
Proof.
  induction schedule as [|j rest IH]; intros states; cbn [Pin.pool_run]; [apply always_ret, _|].
  destruct (todo !! j), (states !! j); try apply IH.
  apply always_bind; [apply _|apply grows_pin_step|intros; apply IH].
Qed.

Lemma reads_pin_existing cfg connect flags ctxErr schedule :
  always (pair_reads (N := N)) (Pin.cmdPinExisting cfg connect flags ctxErr schedule).
Proof.
  unfold Pin.cmdPinExisting. destruct (bool_decide _); [apply always_ret, _|].
  destruct (_ || _); [apply always_ret, _|]. destruct connect; [apply always_ret, _|].
  apply always_bind; [apply _|apply always_attempt, always_zoom|intros [e|[|r l]]; [apply always_ret, _..|]].
  { intros p. split; [|done]. exact (tables_query "db: get all epochs" _ (fst p)). }
  apply always_bind; [apply _|apply always_attempt, always_node_reads|intros pins]; [unfold ListRecursivePins; asking|].
  cbn zeta. destruct (Pin.pf_dryRun flags); [apply always_ret, _|]. destruct (Nat.eqb _ _); [apply always_ret, _|].
  apply always_bind; [apply _|apply always_node_reads, grows_pool_run|intros; apply always_ret, _].
Qed.

(** An export reads the database and the node; what it writes is on the disk. *)
Definition car_reads (w w' : Car.CarWorld N) : Prop :=
  same_tables (Car.cw_db w) (Car.cw_db w') ∧ grows (Car.cw_node w) (Car.cw_node w').

#[export] Instance car_reads_preorder : PreOrder car_reads.
Proof. split; [by intros w; split|]. intros w1 w2 w3 [A1 B1] [A2 B2]. split; by etransitivity. Qed.

Lemma car_reads_db {A} (m : Go Db.Client A) : always same_tables m → always car_reads (Car.in_db m).
Proof. intros Hm. apply always_zoom. intros w. split; [apply Hm|done]. Qed.

Lemma car_reads_fs {A} (m : Go FS A) : always car_reads (Car.in_fs m).
Proof. apply always_zoom. intros w. by split. Qed.

Definition fetch_grows (p p' : N * MemBlockstore.t) : Prop := grows (fst p) (fst p').

#[local] Instance fetch_grows_preorder : PreOrder fetch_grows.
Proof. split; [intros p k d; exact id|]. intros p1 p2 p3 H1 H2 k d Hk. exact (H2 _ _ (H1 _ _ Hk)). Qed.

Lemma GetBlocks_grows cids : always fetch_grows (GetBlocks cids).
Proof.
  induction cids as [|c cids IH]; cbn [GetBlocks]; [apply always_ret, _|].
  apply always_bind; [apply _|apply always_wrapf, always_zoom|intros blk].
  { assert (always (grows (N := N)) (GetBlock c)) as Hg by (unfold GetBlock; asking). intros p. exact (Hg (fst p)). }
  apply always_bind; [apply _|apply always_wrapf, always_zoom|intros _; exact IH]. intros p. unfold fetch_grows. done.
Qed.

Lemma car_reads_fetch bs cids : always car_reads (Car.fetch bs cids).
Proof.
  intros w. unfold Car.fetch. pose proof (GetBlocks_grows cids (Car.cw_node w, bs)) as Hg.
  by destruct (GetBlocks cids _) as [[] [n b]].
Qed.

Ltac exporting := repeat first
  [ apply always_ret, _ | apply always_lift, _ | apply always_attempt
  | apply car_reads_db; first [apply tables_GetBlobsByEpoch | apply tables_query]
  | apply car_reads_fs | apply car_reads_fetch
  | progress case_match | apply always_bind; [apply _| |intros ?] ].

Lemma reads_export_car cfg connect n out : always car_reads (Car.cmdExportCAR cfg connect n out).
Proof. unfold Car.cmdExportCAR, Car.run_command, Car.export_car, Car.require, Car.open_db. exporting. Qed.

Lemma reads_export_car_range cfg connect from to out : always car_reads (Car.cmdExportCARRange cfg connect from to out).
Proof.
  assert (∀ entries bs, always car_reads (Car.fetch_epochs cfg entries bs)) as Hf.
  { induction entries as [|[r c] entries IH]; intros bs; cbn [Car.fetch_epochs]; exporting; apply IH. }
  unfold Car.cmdExportCARRange, Car.run_command, Car.export_car_range, Car.require, Car.open_db. exporting; apply Hf.
Qed.
End Readers.

(** ** Every command *)

Section Main.
Context {R : GoRuntime} {I : Ipld} {L : IpldLaws I} {P : Postgres} {BJ : BeaconJson} {JS : JsonState} {GC : Car.GoCar}.
Context {N : Type} {K : Kubo N} {KL : KuboLaws N} {KJ : KuboJson} {FT : Config.FloatText}.
Context (env : MainEnv).

(** The parts of the world. *)
Lemma reads_in_tables {A} (m : Go Db.Client A) : always same_tables m → always (reads (N := N)) (in_tables m).
Proof. intros Hm. apply always_zoom. intros w. split; [done|apply Hm]. Qed.

Lemma reads_in_pair {A} (m : Go (Db.Client * N) A) : always pair_reads m → always reads (in_pair m).
Proof. intros Hm. apply always_zoom. intros w. by destruct (Hm (w_db w, w_node w)). Qed.

Lemma reads_in_car {A} (m : Go (Car.CarWorld N) A) : always car_reads m → always reads (in_car m).
Proof. intros Hm. apply always_zoom. intros w. by destruct (Hm (Car.mkCarWorld (w_db w) (w_node w) (snd (w_state w)))). Qed.

(** The commands that leave the database alone; serve, up to its first request. *)
Definition only_reads (c : subcommand) : bool :=
  match c with
  | Flags.Serve | Flags.ExportCAR | Flags.ExportCARRange | Flags.PinExisting | Flags.ExportBlobRefs
  | Flags.Summary | Flags.HealthCheck => true
  | _ => false
  end.

Section Configured.
Context (cfg : Config.Config).

Lemma always_with_flags Rel `{!PreOrder Rel} c args k :
  (∀ fs, always Rel (k fs)) → always (S := World N) Rel (with_flags c args k).
Proof. intros Hk. unfold with_flags. destruct (Parse _ _); [by apply always_ret|apply Hk]. Qed.

Lemma reads_subcommand c args : only_reads c = true → always (reads (N := N)) (run_subcommand env cfg c args).
Proof.
  destruct c; intros [=]; cbn [run_subcommand]; apply (always_with_flags _ _ _ _); intros fs.
  - apply reads_with_generator. intros g. apply always_bind; [apply _|intros w; by split|intros; apply always_ret, _].
  - apply always_bind; [apply _|apply reads_in_car, reads_export_car|intros; apply always_ret, _].
  - apply always_bind; [apply _|apply reads_in_car, reads_export_car_range|intros; apply always_ret, _].
  - apply always_bind; [apply _|apply reads_in_pair, reads_pin_existing|intros; apply always_ret, _].
  - destruct (no_dsn cfg); [apply always_ret, _|]. unfold with_db. destruct (me_connect env); [apply always_ret, _|].
    apply always_bind; [apply _|apply reads_in_tables, tables_export_refs|intros [[out|] code]; [|apply always_ret, _]].
    cbn [fst]. destruct (bool_decide _); [apply always_ret, _|].
    apply always_bind; [apply _|apply reads_in_disk|intros; apply always_ret, _].
  - intros w. cbn beta zeta. match goal with |- context [cmdSummary ?a ?b ?c ?d ?e ?s] =>
      destruct (always_cmdSummary a b c d e s) as [H1 H2 _]; destruct (cmdSummary a b c d e s) end.
    split; [exact H2|exact H1].
  - destruct (no_dsn cfg); [apply always_ret, _|]. unfold with_db. destruct (me_connect env); [apply always_ret, _|].
    apply always_bind; [apply _|apply reads_in_tables, tables_health|intros; apply always_ret, _].
Qed.

(** ** The commands that write *)

Context (Getenv : string → string) (Hcfg : records_and_uploads Getenv cfg).

(** The hypothesis on the environments: the blobs of an epoch complete in an
    order that leaves none out. *)
Record main_ok : Prop := {
  mo_env : env_ok (me_env env);
  mo_backfill e : env_ok (bk_env (me_backfill env e));
  mo_first : tick_ok (me_first env);
  mo_wakes : Forall (λ x, match x with Tick t => tick_ok t | CtxDone _ => True end) (me_wakes env) }.

Abbreviation stays_held := (stays_held (N := N)).

(** A command that makes a generator makes one that records and uploads. *)
Lemma held_with_generator k :
  (∀ g, g_db g = true → g_ipfs g ≠ None → 0 < cf_Workers (g_cfg g) → 0 ≤ cf_StartEpoch (g_cfg g) → always stays_held (k g)) →
  always stays_held (with_generator env cfg k).
Proof.
  intros Hk. apply always_bind_Ok; [apply _|apply held_reads_always, always_attempt, reads_New|].
  intros [e|g] s s' HN%attempt_Ok; [apply always_ret, _|].
  destruct (New_records _ _ _ _ _ _ Hcfg HN) as (Hw & Hdb & Hi & _).
  destruct (New_ready _ _ _ _ _ _ (ru_load _ _ Hcfg) (ru_workers _ _ Hcfg) HN) as (_ & [H0 _] & _). auto.
Qed.

Lemma Run_interferes g genv first wakes :
  g_db g = true → 0 < cf_Workers (g_cfg g) → 0 ≤ cf_StartEpoch (g_cfg g) → tick_ok first →
  Forall (λ x, match x with Tick t => tick_ok t | CtxDone _ => True end) wakes →
  always (interferes (N := N) g) (Live.Run g genv first wakes).
Proof.
  intros Hdb Hw H0 Hf Hws. unfold Live.Run.
  assert (always (interferes (N := N) g) (poll g (Tick first :: wakes))) as Hp by by apply poll_interferes; [..|constructor].
  apply always_bind; [apply _|by apply Run_start_interferes|intros [|r]; exact Hp].
Qed.

Lemma held_subcommand c args : main_ok → always stays_held (run_subcommand env cfg c args).
Proof.
  intros [He Hb Hf Hws]. destruct (only_reads c) eqn:Hc; [by apply held_reads_always, reads_subcommand|].
  destruct c; try discriminate Hc; cbn [run_subcommand]; unfold cmdEpoch, cmdFinalizeEpoch, with_epoch;
    apply (always_with_flags _ _ _ _); intros fs.
  - apply held_with_generator. intros g Hdb Hi Hw H0.
    apply always_bind; [apply _|by apply always_attempt, (held_interferes g Hi), Run_interferes|intros; apply always_ret, _].
  - destruct (_ =? 0); [apply always_ret, _|]. apply held_with_generator. intros g Hdb Hi Hw H0.
    apply always_bind; [apply _|apply always_attempt|intros; apply always_ret, _].
    apply always_bind; [apply _|intros w Hr; by apply processEpoch_rows_held|intros _].
    apply always_bind; [apply _|by apply (held_interferes g Hi), SetLive_interferes|intros _].
    by apply held_reads_always, reads_nonfatal, reads_rebuild.
  - destruct (_ =? 0); [apply always_ret, _|]. apply held_with_generator. intros g Hdb Hi Hw H0.
    apply always_bind; [apply _|apply always_attempt|intros; apply always_ret, _].
    apply always_bind; [apply _|by apply (held_interferes g Hi), finalizeEpochInner_interferes|intros; apply always_ret, _].
  - destruct (no_dsn cfg); [apply always_ret, _|]. destruct (Config.ic_SkipUpload _); [apply always_ret, _|].
    destruct (bool_decide _); [apply always_ret, _|].
    apply held_with_generator. intros g Hdb Hi Hw H0. apply always_bind; [apply _| |intros [code|to]; [apply always_ret, _|]].
    { unfold backfill_to. destruct (negb _); [apply always_ret, _|]. destruct (me_connect env); [apply always_ret, _|].
      apply always_bind; [apply _|apply always_attempt, held_reads_always, reads_in_tables, tables_query|intros; apply always_ret, _]. }
    apply always_bind; [apply _|by apply always_attempt, BackfillIPFS_held|intros; apply always_ret, _].
  - destruct (no_dsn cfg); [apply always_ret, _|]. unfold with_db. destruct (me_connect env); [apply always_ret, _|].
    apply always_bind; [apply _|apply always_attempt, held_reads_always, reads_in_tables, tables_query|].
    intros [e|[|m ms]]; [apply always_ret, _..|]. destruct (bool_flag _ _); [apply always_ret, _|].
    apply held_with_generator. intros g Hdb Hi Hw H0.
    apply always_bind; [apply _|by apply (held_interferes g Hi), RepairEpochs_interferes|]. intros [[? ?] ?]. apply always_ret, _.
Qed.
End Configured.

(** main is what runs the subcommand, after making the directories. *)
Lemma always_main Rel `{!PreOrder Rel} Getenv args :
  (∀ w w', reads (N := N) w w' → Rel w w') →
  (∀ cfg log name sub c, main_start args = Chosen log name sub → Config.Load Getenv = Ok cfg → subcommand_of name = Some c →
     always Rel (run_subcommand env cfg c sub)) →
  always Rel (main env Getenv args).
Proof.
  intros Hr Hs. unfold main. destruct (main_start args) as [code|log name sub]; [by apply always_ret|].
  destruct (Config.Load Getenv) as [cfg| |] eqn:HL; [|by apply always_ret..].
  apply always_bind; [apply _|apply (always_impl _ reads), always_attempt, reads_in_disk; done|].
  intros [e|u]; [by apply always_ret|]. destruct (subcommand_of name) as [c|] eqn:Hc; [by eapply Hs|by apply always_ret].
Qed.

End Main.

(** ** The property at a concrete input *)

#[local] Instance durable_text : Config.FloatText := {| Config.ParseFloat _ := None |}.

Lemma demo_main_ok : main_ok demo_main.
Proof. split; [exact demo_run_ok|intros e; exact demo_run_ok|exact demo_tick_ok|constructor]. Qed.

